(* ===== verification/_CoqProject ===== *)
-Q . S2P
Prelude.v
GoStd.v
Types.v
Redact.v
Errors.v
Events.v
Config.v
Health.v
Sha256.v
Json.v
GoFmt.v
JsonBounds.v
JsonRoundTrip.v
Permissions.v
Cache.v
Policy.v
Environment.v
PolicyRunner.v
Validation.v
ValidatingRuntime.v
Clone.v
MemoryStore.v
Observing.v
Capabilities.v
Pricing.v
OpenCodeDecoder.v
OpenCodeProjector.v
OpenCodeRateLimit.v
OpenCodePermissions.v
OpenCodeProcess.v
OpenCodeOptions.v
OpenCodeDB.v
OpenCodeDBScan.v
OpenCodeSpawn.v
OpenCodeConfig.v
OpenCodeModels.v
OpenCodeHealth.v
OpenCodeRun.v
OpenCodeStart.v
OpenCodeOutcome.v
OpenCodeRunInvariants.v
OpenCodeEventTypes.v
OpenCodeProvenance.v
PolicyRequests.v
ValidatingRequests.v
ToolEvents.v
Stack.v
StackEvents.v
Cancellation.v
FakeRuntime.v
Fixture.v
