(* ===== verification/Prelude.v ===== *)
(** * A verification of agentwrap

    agentwrap is a Go library that runs coding agents. A caller hands a
    [RunRequest] to a [Runtime] and gets a handle, the [Run]: a channel of
    events, [Wait] for a [RunResult], and [Cancel]. The package opencode is the
    runtime that starts the OpenCode command line as a process and reads its
    JSON lines. Around any runtime stand three wrappers, which are runtimes
    themselves: the policy runner retries and falls back, the validating
    runtime checks the outcome and starts repairs, the observing runtime records
    a run in sinks and a store. This development models both packages, function
    by function, and proves what they promise.

    ** The files and the code they model

    Foundation:
    - Prelude: record updates, the state monad [St] in which the methods of a
      handle are written, the tactics [preserve] and [answer], lists;
    - GoStd: machine integers with wrap-around, [time.Time] and
      [time.Duration], [strings], [strconv], [path/filepath], [float64] as
      rounded binary64 values;
    - Sha256, Json, GoFmt: the parts of crypto/sha256, encoding/json, fmt,
      [strconv] and [time.ParseDuration] the code relies on, all executable;
      JsonBounds: decoding shortens, on which later termination arguments rest;
      JsonRoundTrip: a printed value reads back as itself up to the order of
      keys, what is decoded is well typed, printing respects equality of maps;
    - Types: the structs of the root package. A pointer is an [option]; a map
      that is only looked up is a [gmap] (under an [option] where nil and empty
      differ); a map that is ranged over is an association list [GoMap], whose
      order is the one Go happens to choose; [any] is the inductive type of the
      dynamic values that occur.

    The root package:
    - Events (lifecycle.go, lifecycle_events.go, events.go), Errors (errors.go),
      Redact (redact.go and the clones of metadata.go), Config (config.go),
      Health (health.go), Permissions (permissions.go), Cache (cache.go),
      Pricing (pricing.go), Capabilities (the capability part of runtime.go and
      of the wrappers);
    - Policy: the pure part of policy.go, [BasicPolicy] and its backoffs;
      PolicyRunner: the run of [PolicyRunner], state [policyRun];
    - Validation: the checks of validation.go, over a file system;
      ValidatingRuntime: the run of [ValidatingRuntime], state [validationRun];
    - Clone: the reflective copy of payloads of observability.go, on a heap of
      cells; MemoryStore: [MemoryRunStore] of observability.go, and the interface
      [RunStore]; Observing: the run of [ObservingRuntime], state
      [observedRun], against the classes [RunStore] and [EventSink] only, and
      the methods of [RunInspector];
    - Environment: what the wrapping runs consult: clock, context, channel,
      sleep, and the runtimes they start; Cancellation: the [Cancel] methods of
      the three wrapping runs, as a change of that environment.

    The package opencode:
    - OpenCodeOptions (options.go), OpenCodePermissions (permissions.go),
      OpenCodeProcess (process.go and process_linux.go, process_unix.go,
      process_windows.go, process_other.go), OpenCodeDecoder
      (decoder.go), OpenCodeProjector (projector.go), OpenCodeRateLimit
      (rate_limit.go), OpenCodeModels (models.go), OpenCodeHealth (health.go);
    - runtime.go, in the order of a run: OpenCodeSpawn (command line,
      environment, directories, logs), OpenCodeStart ([StartRun]), OpenCodeRun
      (the goroutine of the run, state [run], and the goroutines beside it),
      OpenCodeDB (what the database of OpenCode says about a session),
      OpenCodeDBScan (the search for a terminal message in its answer);
      OpenCodeOutcome, OpenCodeRunInvariants, OpenCodeEventTypes and
      OpenCodeProvenance hold the theorems on runs, OpenCodeConfig those on what
      the settings in the environment of a process ask for.

    The system put together:
    - PolicyRequests and ValidatingRequests: which requests the policy runner and
      the validating runtime make of the one they were given, against the class
      [RespectsPermissions]; Stack: any nesting of the wrappers around OpenCode
      runs, as the relation [delivers]; ToolEvents: tool observations between
      adapter and consumer; StackEvents: where the events that leave a stack come
      from.

    internal/testkit:
    - FakeRuntime (fake_runtime.go): the scripted runtime of the contract tests
      as a transition system, its goroutine, its callers and its reader
      interleaved step by step; Fixture (fixture.go, fake_lifecycle.go): recorded
      streams and the lifecycle read off them.

    ** How concurrency and the outside world are modelled

    A method that reads a clock, a context, a channel or a process consults an
    environment, a record of functions. Every consultation is stamped with a
    tick, so two consultations may be answered differently, and a theorem that
    quantifies over the environment holds for every schedule and every outside
    world. A context that is done stays done with the same error. The goroutines
    that share the state of an OpenCode run ([Cancel], the cleanup at the end of
    the context, the log watcher) take steps between the statements of the run,
    wherever the environment puts them; a step is taken whole, which is what its
    mutex or its single channel operation gives it. A goroutine that the code
    joins before it reads what the goroutine wrote (the forwarding of events) is
    run to its end first. Fields of the states that the code does not have
    ([run_sent], [run_moves], [vn_starts] and their like) are history; nothing
    reads them but the theorems.

    The fake runtime is small enough to be modelled without an environment: its
    [step] function has one action for each critical section and each case of a
    [select], and theorems hold for every schedule of actions.

    ** What the theorems show

    - The whole stack: however the wrappers are nested, every process started for
      a request finds settings in its environment, on every platform, that ask
      for each permission of its policy, and none is started for a policy that
      cannot be translated; a stack that reports success has a completed process
      behind it; an event that leaves a stack is a wrapper's own, without raw
      data, or was sent by the run of one of its processes and shows a line this
      process wrote.
    - Runs of OpenCode: a process starts only for a request that passed every
      check, with exactly the announced command line and environment, and no
      directory is left when it does not start; the lifecycle goes from
      starting to running to one terminal status; events have distinct numbers
      and identifiers, a known kind and the identity of their run, and those of
      the lifecycle read back as the moves of the run; the native events are the
      projections of the first lines of the output, in order and without a gap,
      and lines are left over only for a stated reason; the process is cleaned up
      once, its signals go to its own group; a result is completed
      exactly when the stream, the context and the exit status or the database
      prove it.
    - What OpenCode writes: the scan hands over the records of the lines in
      order; a record cannot forge the identity of its event; probes find
      exactly the needles of the output however the reads split it; the metrics
      are the sums over the finished messages; a session identifier stays inside
      its SQL literal; an error is a rate limit exactly under stated conditions.
    - Permissions: the native configuration gives every tool the action the
      policy asks for, and the environment of the process carries it.
    - Policies: [BasicPolicy] decides as specified on every branch; a bounded
      policy ends after a bounded number of attempts, which visit the targets in
      order; the result reports its attempts; success is that of the last one; a
      cancelled run returns even if its policy never stops.
    - Validation: a pass succeeds exactly when every required expectation holds;
      a validated run ends in one of five ways within its bound; repairs never
      get more authority than the request had.
    - Observation: the result and the error of the inner run pass through
      unless a required sink failed; events are recorded in order, and
      forwarded except the counted droppable ones; the store keeps its limits,
      and [AppendEvent] keeps the longest suffix they allow; a completed run can
      be inspected with the outcome that [Wait] gave; a cloned payload shares no
      memory with the original.
    - Test kit: a scripted run sends its script in order and ends, whatever the
      schedule, with the whole of it sent or a cancellation reported.
    - Pricing, configuration, caching, redaction, capabilities: acceptance
      conditions, precedence, round trips, stable identifiers, hidden secrets.

    ** Fuel

    [execute_loop] of the policy runner and of the validating runtime loop until
    a return: the fuel is an argument, and termination theorems give the bound
    that is enough ((T+1)*m attempts, one pass more than the repairs).
    [blocking_send] of the observer waits as long as the reader of the channel
    does: the drain theorem assumes a reader that makes room. The JSON reader
    has twice the length of its text, [components] of a duration the length of
    its text, as each call consumes a byte. The search of nested values that may
    hold JSON text ([collect_metrics], [collectRateLimitStrings]) has a measure
    of the value, and lemmas of their files show that more fuel changes nothing.

    ** What is not modelled, and why

    - Unicode tables: strings are bytes, case folding and trimming are those of
      Go on ASCII text.
    - Operating system and network: what os/exec and the kernel do with a command
      or a signal, reading directories, HTTP, SQL execution. They are parameters
      and environments; the commands and signals themselves are modelled for
      every platform.
    - Texts of errors that Go's libraries produce, and the parsers of two time
      layouts, are parameters.
    - Interleaving below whole steps, and data races, which mutexes exclude.
    - Option functions that only inject a client or clock; interface types;
      accessors and copies under a mutex ([ID], [Events], [currentLifecycle],
      [snapshotDroppedEvents], [copyStringIntMap], [initLocked]), which the
      definitions that use them read as the field itself.
    - Sharing of memory, except in Clone: elsewhere values are copied where the
      code copies them. The one-level copies of native metadata share what is
      nested in them (shown in Clone), which the store does not reproduce.
    - The two doc.go files: comments.

    ** Plan

    What the packages do is modelled but for the list above. Next: events of a
    whole stack in order, with counts of those that slow consumers lose; the
    order of map iteration as a permutation everywhere, as in OpenCodeDBScan. *)
From stdpp Require Export base tactics strings gmap list sorting.
From Stdlib Require Export ZArith Lia.

#[local] Set Warnings "-postfix-notation-not-level-1".

(** ** Records: Go's keyed struct literals and field assignment

    [Zero T] is Go's zero value of [T]; [Eta R] spells a record from its own
    projections, from which [Field p] derives the update of the field [p].
    The Go literal [T{F: v}] is written [zero <| F := v |>], and the statement
    [x.F = v] the record [x <| F := v |>]. *)
Class Zero (T : Type) := zero : T.
#[global] Instance zero_string : Zero string := "".
#[global] Instance zero_Z : Zero Z := 0%Z.
#[global] Instance zero_nat : Zero nat := 0.
#[global] Instance zero_bool : Zero bool := false.
#[global] Instance zero_option {A} : Zero (option A) := None.
#[global] Instance zero_list {A} : Zero (list A) := [].

Class Eta (R : Type) := eta : R -> R.
Class Field {R T : Type} (p : R -> T) := upd_field : (T -> T) -> R -> R.
Arguments upd_field {R T} p {_} _ _.

Ltac derive_field :=
  match goal with
  | |- @Field ?R ?T ?p =>
      let i := lazymatch constr:(@eta R _) with @eta _ ?i => i end in
      let e := eval red in i in
      let abs := eval pattern p in e in
      match abs with
      | ?k p =>
          let body := eval cbv beta in (fun (g : T -> T) => k (fun r : R => g (p r))) in
          exact body
      end
  end.
#[export] Hint Extern 1 (Field _) => derive_field : typeclass_instances.

Declare Scope go_scope.
Delimit Scope go_scope with go.
Notation "r <| p := v |>" := (upd_field p (fun _ => v) r)
  (at level 12, left associativity, p at level 9) : go_scope.
Notation "r <| p ::= f |>" := (upd_field p f r)
  (at level 12, left associativity, p at level 9) : go_scope.
Open Scope go_scope.

(** ** Explicit state passing

    The methods of a run handle mutate the handle and read its environment
    (clock, context, channel). They are written in the state monad [St S]. *)
Definition St (S A : Type) : Type := S -> A * S.
Definition ret {S A} (a : A) : St S A := fun s => (a, s).
Definition bind {S A B} (m : St S A) (k : A -> St S B) : St S B :=
  fun s => let '(a, s') := m s in k a s'.
Definition get {S} : St S S := fun s => (s, s).
Definition modify {S} (f : S -> S) : St S unit := fun s => (tt, f s).

Lemma bind_run {S A B} (m : St S A) (k : A -> St S B) s : bind m k s = k (fst (m s)) (snd (m s)).
Proof. unfold bind. by destruct (m s). Qed.

Notation "'let*' x ':=' m 'in' k" := (bind m (fun x => k))
  (at level 10, x binder, m at level 100, k at level 200) : go_scope.
Notation "m ';;' k" := (bind m (fun _ => k))
  (at level 100, k at level 200, right associativity) : go_scope.

(** Runs [m] on every element, in order. *)
Fixpoint iterM {S A} (f : A -> St S unit) (l : list A) : St S unit :=
  match l with
  | [] => ret tt
  | x :: l => f x ;; iterM f l
  end.

(** [m] preserves the invariant [P] of the state it runs in. *)
Definition preserves {S A} (P : S -> Prop) (m : St S A) : Prop :=
  forall s, P s -> P (m s).2.

Section Preserves.
Context {S : Type} (P : S -> Prop).

Lemma preserves_ret {A} (a : A) : preserves P (ret a).
Proof. intros s H. exact H. Qed.

Lemma preserves_bind {A B} (m : St S A) (k : A -> St S B) :
  preserves P m -> (forall a, preserves P (k a)) -> preserves P (bind m k).
Proof.
  intros Hm Hk s Hs. unfold bind. specialize (Hm s Hs).
  destruct (m s) as [a s']. by apply Hk.
Qed.

Lemma preserves_get : preserves P (@get S).
Proof. intros s H. exact H. Qed.

Lemma preserves_modify f : (forall s, P s -> P (f s)) -> preserves P (modify f).
Proof. intros H s Hs. exact (H s Hs). Qed.

Lemma preserves_iterM {A} (f : A -> St S unit) l :
  (forall x, preserves P (f x)) -> preserves P (iterM f l).
Proof.
  intros H. induction l as [|x l IH]; [apply preserves_ret|].
  apply preserves_bind; [apply H | intros _; apply IH].
Qed.

Lemma preserves_if {A} (b : bool) (m n : St S A) :
  preserves P m -> preserves P n -> preserves P (if b then m else n).
Proof. by destruct b. Qed.
End Preserves.

(** [m] leaves alone what [core] shows of the state. *)
Section Keeps.
Context {S T : Type} (core : S -> T).

Definition keeps {A} (m : St S A) : Prop := forall s0, preserves (fun s => core s = core s0) m.

Lemma keeps_spec {A} (m : St S A) s : keeps m -> core (snd (m s)) = core s.
Proof. intros H. by apply (H s s). Qed.

Lemma keeps_ret {A} (a : A) : keeps (ret a).
Proof. intros s0. apply preserves_ret. Qed.

Lemma keeps_bind {A B} (m : St S A) (k : A -> St S B) :
  keeps m -> (forall a, keeps (k a)) -> keeps (bind m k).
Proof. intros Hm Hk s0. apply preserves_bind; [apply Hm|]. intros a. apply Hk. Qed.

Lemma keeps_get : keeps (@get S).
Proof. intros s0. apply preserves_get. Qed.

Lemma keeps_modify f : (forall s, core (f s) = core s) -> keeps (modify f).
Proof. intros H s0 s Hs. cbn. by rewrite H. Qed.

Lemma keeps_if {A} (b : bool) (m n : St S A) : keeps m -> keeps n -> keeps (if b then m else n).
Proof. by destruct b. Qed.

Lemma keeps_iterM {A} (f : A -> St S unit) l : (forall x, keeps (f x)) -> keeps (iterM f l).
Proof. intros H s0. apply preserves_iterM. intros x. apply H. Qed.
End Keeps.
Arguments keeps_spec {S T core A}.

Create HintDb agentwrap discriminated.
#[export] Hint Resolve preserves_ret preserves_bind preserves_get preserves_modify
  preserves_iterM preserves_if : agentwrap.
#[export] Hint Resolve keeps_ret keeps_bind keeps_get keeps_modify keeps_iterM keeps_if : agentwrap.

(** Walks through a monadic program; what is not a step of the monad is left to
    the hints and then to the caller. *)
Ltac preserve :=
  repeat first
    [ solve [auto with agentwrap nocore]
    | progress intros
    | apply preserves_bind
    | apply keeps_bind
    | match goal with
      | |- preserves _ (match ?x with _ => _ end) => destruct x
      | |- keeps _ (match ?x with _ => _ end) => destruct x
      end ].

(** Every answer of [m] satisfies [Q]. *)
Definition answers {S A} (Q : A -> Prop) (m : St S A) : Prop := forall s, Q (m s).1.

Lemma answers_ret {S A} (Q : A -> Prop) (a : A) : Q a -> answers Q (@ret S A a).
Proof. intros H s. exact H. Qed.

Lemma answers_bind {S A B} (Q : B -> Prop) (m : St S A) (k : A -> St S B) :
  (forall a, answers Q (k a)) -> answers Q (bind m k).
Proof. intros H s. rewrite bind_run. apply H. Qed.

Lemma answers_bind_of {S A B} (P : A -> Prop) (Q : B -> Prop) (m : St S A) (k : A -> St S B) :
  answers P m -> (forall a, P a -> answers Q (k a)) -> answers Q (bind m k).
Proof. intros Hm Hk s. rewrite bind_run. apply Hk, Hm. Qed.

(** Walks to every answer of a program. *)
Ltac answer tac :=
  repeat first [ apply answers_bind; intros ? | apply answers_ret; solve [tac]
               | match goal with
                 | |- answers _ (match ?x with _ => _ end) => destruct x
                 | |- answers _ (ret (if ?b then _ else _)) => destruct b
                 end ].

(** ** Strings as open enumerations

    Go declares its enumerations as named string types, so any string is a
    value; a [switch] on constants is a chain of [String.eqb] tests. *)
Infix "=s" := String.eqb (at level 70, no associativity) : go_scope.

Definition one_of (s : string) (l : list string) : bool := existsb (String.eqb s) l.

Lemma one_of_spec s l : one_of s l = true <-> s ∈ l.
Proof.
  unfold one_of. rewrite existsb_exists, list_elem_of_In.
  split; [intros (x & Hx & <-%String.eqb_eq) | exists s; rewrite String.eqb_eq]; done.
Qed.

Lemma one_of_false s l : one_of s l = false <-> s ∉ l.
Proof. rewrite <-one_of_spec. by destruct (one_of s l). Qed.

(** The first non-empty string, as the [firstX] helpers compute it. *)
Definition or_else (primary fallback : string) : string :=
  if primary =s "" then fallback else primary.

Lemma str_length_app (s t : string) : String.length (s +:+ t) = String.length s + String.length t.
Proof. induction s as [|c s IH]; [done|exact (f_equal S IH)]. Qed.

Lemma str_app_inv_l (s t t' : string) : s +:+ t = s +:+ t' -> t = t'.
Proof. induction s as [|c s IH]; [done|]. intros [= E]. exact (IH E). Qed.

Lemma str_app_assoc (s t u : string) : (s +:+ t) +:+ u = s +:+ (t +:+ u).
Proof. induction s as [|c s IH]; [done|exact (f_equal (String c) IH)]. Qed.

Lemma str_app_nil_r (s : string) : s +:+ "" = s.
Proof. induction s as [|c s IH]; [done|exact (f_equal (String c) IH)]. Qed.

(** [case_str]: splits on a string comparison of the goal or of a hypothesis
    and replaces the compared string when they are equal. *)
Ltac case_str :=
  match goal with
  | |- context [String.eqb ?a ?b] => destruct (String.eqb_spec a b)
  | H : context [String.eqb ?a ?b] |- _ => destruct (String.eqb_spec a b)
  end; simplify_eq; try done.

(** [case_goal]: splits on the condition of an [if] or the scrutinee of a
    [match] of the goal, keeping the equation. *)
Ltac case_goal :=
  match goal with
  | |- context [if ?b then _ else _] => destruct b eqn:?
  | |- context [match ?o with _ => _ end] => destruct o eqn:?
  end; simplify_eq/=; try done.

Ltac boolify :=
  repeat match goal with
  | H : _ && _ = true |- _ => apply andb_true_iff in H as [? ?]
  | H : _ || _ = false |- _ => apply orb_false_iff in H as [? ?]
  | H : negb _ = true |- _ => apply negb_true_iff in H
  | H : negb _ = false |- _ => apply negb_false_iff in H
  | H : (_ <? _)%Z = true |- _ => apply Z.ltb_lt in H
  | H : (_ <? _)%Z = false |- _ => apply Z.ltb_ge in H
  | H : (_ <=? _)%Z = true |- _ => apply Z.leb_le in H
  | H : (_ <=? _)%Z = false |- _ => apply Z.leb_gt in H
  | H : (_ =? _)%Z = true |- _ => apply Z.eqb_eq in H
  | H : (_ =? _)%Z = false |- _ => apply Z.eqb_neq in H
  | H : (_ =s _) = true |- _ => apply String.eqb_eq in H
  | H : (_ =s _) = false |- _ => apply String.eqb_neq in H
  end.

(** ** Lists *)
Lemma Forall_snoc {A} (P : A -> Prop) l x : Forall P (l ++ [x]) <-> Forall P l /\ P x.
Proof. rewrite Forall_app, Forall_singleton. done. Qed.
