(* ===== verification/GoStd.v ===== *)
(** * The parts of Go's language and standard library the package uses

    Machine integers, [time.Time] and [time.Duration], [strings], [strconv],
    [path/filepath] and conversions of [float64]. Strings are byte strings, as
    in Go; the Unicode tables are left out, so [ToLower], [TrimSpace] and
    [EqualFold] are those of Go on ASCII text and leave other bytes alone. *)
From S2P Require Import Prelude.
From Stdlib Require Import Ascii Floats.SpecFloat.
#[local] Open Scope string_scope.

(** ** Integers of width 64 *)
Module Int64.
Definition min : Z := - 2 ^ 63.
Definition max : Z := 2 ^ 63 - 1.

Definition in_range (z : Z) : Prop := (min <= z <= max)%Z.

(** Two's complement wrap-around of [+], [-] and [*]. *)
Definition wrap (z : Z) : Z := ((z + 2 ^ 63) mod 2 ^ 64 - 2 ^ 63)%Z.

Lemma wrap_in_range z : in_range (wrap z).
Proof. unfold in_range, wrap, min, max. pose proof (Z.mod_pos_bound (z + 2^63) (2^64)). lia. Qed.

Lemma wrap_id z : in_range z -> wrap z = z.
Proof. unfold in_range, wrap, min, max. intros H. rewrite Z.mod_small; lia. Qed.

Definition saturate (z : Z) : Z := Z.max min (Z.min max z).

Lemma saturate_in_range z : in_range (saturate z).
Proof. unfold in_range, saturate, min, max. lia. Qed.

Lemma saturate_id z : in_range z -> saturate z = z.
Proof. unfold in_range, saturate, min, max. lia. Qed.
End Int64.

(** ** Decimal printing: [strconv.Itoa], [%d] *)
Definition digit (d : Z) : ascii := Ascii.ascii_of_nat (48 + Z.to_nat d).

(** Writes the digits of [z > 0] in front of [acc]; 20 digits cover an int64. *)
Fixpoint digits_of (fuel : nat) (z : Z) (acc : string) : string :=
  match fuel with
  | O => acc
  | S fuel =>
      if (z <=? 0)%Z then acc
      else digits_of fuel (z / 10)%Z (String (digit (z mod 10)%Z) acc)
  end.

Definition itoa (z : Z) : string :=
  if (z =? 0)%Z then "0"
  else if (z <? 0)%Z then "-" +:+ digits_of 20 (- z)%Z "" else digits_of 20 z "".

(** ** Decimal parsing: [strconv.Atoi], [strconv.ParseInt(s, 10, 64)] *)
Definition digit_value (c : ascii) : option Z :=
  let n := Z.of_nat (nat_of_ascii c) in
  if (48 <=? n)%Z && (n <=? 57)%Z then Some (n - 48)%Z else None.

Fixpoint parse_digits (acc : Z) (s : string) : option Z :=
  match s with
  | EmptyString => Some acc
  | String c s =>
      match digit_value c with
      | Some d => parse_digits (acc * 10 + d)%Z s
      | None => None
      end
  end.

(** [None] is the syntax or range error. *)
Definition Atoi (s : string) : option Z :=
  let in_range z := if (Int64.min <=? z)%Z && (z <=? Int64.max)%Z then Some z else None in
  match s with
  | EmptyString => None
  | String c rest =>
      if Ascii.eqb c "-" then
        if String.eqb rest "" then None else parse_digits 0 rest ≫= fun z => in_range (- z)%Z
      else if Ascii.eqb c "+" then
        if String.eqb rest "" then None else parse_digits 0 rest ≫= in_range
      else parse_digits 0 s ≫= in_range
  end.

Lemma digit_value_digit d : (0 <= d < 10)%Z -> digit_value (digit d) = Some d.
Proof.
  intros Hd.
  assert (forallb (fun i => match digit_value (digit (Z.of_nat i)) with
            | Some d' => (d' =? Z.of_nat i)%Z | None => false end) (seq 0 10) = true) as H
    by (vm_compute; reflexivity).
  apply forallb_forall with (x := Z.to_nat d) in H; [|apply in_seq; lia].
  rewrite Z2Nat.id in H by lia. destruct (digit_value _); [|done]. f_equal. lia.
Qed.

Lemma parse_digits_of fuel z rest :
  (0 <= z < 10 ^ Z.of_nat fuel)%Z ->
  parse_digits 0 (digits_of fuel z rest) = parse_digits z rest.
Proof.
  revert z rest. induction fuel as [|fuel IH]; intros z rest Hz.
  - replace z with 0%Z by (change (10 ^ Z.of_nat 0)%Z with 1%Z in Hz; lia). done.
  - cbn [digits_of]. destruct (Z.leb_spec z 0); [by replace z with 0%Z by lia|].
    pose proof (Z.div_mod z 10). pose proof (Z.mod_pos_bound z 10).
    rewrite IH.
    + cbn [parse_digits]. rewrite digit_value_digit by lia. f_equal. lia.
    + rewrite Nat2Z.inj_succ, Z.pow_succ_r in Hz by lia.
      split; [apply Z.div_pos; lia|]. apply Z.div_lt_upper_bound; lia.
Qed.

(** The first character of a printed positive number is a digit. *)
Lemma digits_of_head fuel z rest :
  (0 < z < 10 ^ Z.of_nat fuel)%Z ->
  exists d s, digits_of fuel z rest = String (digit d) s /\ (0 <= d < 10)%Z.
Proof.
  revert z rest. induction fuel as [|fuel IH]; intros z rest Hz.
  - change (10 ^ Z.of_nat 0)%Z with 1%Z in Hz. lia.
  - cbn [digits_of]. destruct (Z.leb_spec z 0); [lia|].
    pose proof (Z.div_mod z 10). pose proof (Z.mod_pos_bound z 10).
    rewrite Nat2Z.inj_succ, Z.pow_succ_r in Hz by lia.
    destruct (decide (z / 10 = 0)%Z) as [E|E].
    + rewrite E. exists (z mod 10)%Z, rest. split; [by destruct fuel | lia].
    + apply IH. pose proof (Z.div_pos z 10). split; [lia|]. apply Z.div_lt_upper_bound; lia.
Qed.

Lemma digit_not_sign d : (0 <= d < 10)%Z ->
  Ascii.eqb (digit d) "-" = false /\ Ascii.eqb (digit d) "+" = false.
Proof.
  intros Hd. pose proof (digit_value_digit d Hd) as H.
  split; apply Ascii.eqb_neq; intros E; by rewrite E in H.
Qed.

(** Printing an int64 and reading it back is the identity. *)
Lemma Atoi_itoa z : Int64.in_range z -> Atoi (itoa z) = Some z.
Proof.
  unfold Int64.in_range, Int64.min, Int64.max. intros Hz. unfold itoa.
  assert (10 ^ Z.of_nat 20 > 2 ^ 63)%Z by (vm_compute; done).
  destruct (Z.eqb_spec z 0) as [->|Hne]; [done|].
  destruct (Z.ltb_spec z 0).
  - destruct (digits_of_head 20 (- z) "") as (d & s & E & Hd); [lia|].
    unfold Atoi. change ("-" +:+ ?t) with (String "-" t). cbn [Ascii.eqb].
    pose proof (parse_digits_of 20 (- z) "") as P. rewrite E in P |- *.
    change (Ascii.eqb "-" "-") with true. cbv iota. cbn [String.eqb].
    rewrite P by lia. cbn. unfold Int64.min, Int64.max.
    rewrite Z.opp_involutive. repeat case_match; boolify; try lia; done.
  - destruct (digits_of_head 20 z "") as (d & s & E & Hd); [lia|].
    unfold Atoi. pose proof (parse_digits_of 20 z "") as P. rewrite E in P |- *.
    destruct (digit_not_sign d Hd) as [-> ->]. rewrite P by lia.
    cbn. unfold Int64.min, Int64.max. repeat case_match; boolify; try lia; done.
Qed.

(** ** package time *)

(** A [time.Time] is a number of nanoseconds since Go's zero time. *)
Definition Time : Type := Z.
Definition Duration : Type := Z.

Module time.
Definition Nanosecond : Duration := 1%Z.
Definition Millisecond : Duration := 1000000%Z.
Definition Second : Duration := 1000000000%Z.
Definition Minute : Duration := 60000000000%Z.
Definition Hour : Duration := 3600000000000%Z.

Definition IsZero (t : Time) : bool := (t =? 0)%Z.
(** [Sub] saturates at the bounds of [Duration]. *)
Definition Sub (t u : Time) : Duration := Int64.saturate (t - u)%Z.
Definition Add (t : Time) (d : Duration) : Time := (t + d)%Z.
Definition Before (t u : Time) : bool := (t <? u)%Z.

(** [Duration.String]: the fraction [v mod 10^prec] without trailing zeros. *)
Fixpoint fmtFrac (prec : nat) (v : Z) (print : bool) (acc : string) : string * Z :=
  match prec with
  | O => ((if print then "." +:+ acc else acc), v)
  | S prec =>
      let d := (v mod 10)%Z in
      let print := print || negb (d =? 0)%Z in
      fmtFrac prec (v / 10)%Z print (if print then String (digit d) acc else acc)
  end.

Definition fmtSub (u : Z) : string :=
  let '(prec, unit_) :=
    if (u <? 1000)%Z then (0, "ns")
    else if (u <? 1000000)%Z then (3, String "194" (String "181" "s"))
    else (6, "ms") in
  let '(frac, v) := fmtFrac prec u false "" in
  itoa v +:+ frac +:+ unit_.

Definition Duration_String (d : Duration) : string :=
  let neg := (d <? 0)%Z in
  let u := Z.abs d in
  let body :=
    if (u =? 0)%Z then "0s"
    else if (u <? Second)%Z then fmtSub u
    else
      let '(frac, secs) := fmtFrac 9 u false "" in
      let s := itoa (secs mod 60)%Z +:+ frac +:+ "s" in
      let mins := (secs / 60)%Z in
      if (mins =? 0)%Z then s
      else
        let m := itoa (mins mod 60)%Z +:+ "m" +:+ s in
        let hours := (mins / 60)%Z in
        if (hours =? 0)%Z then m else itoa hours +:+ "h" +:+ m in
  if neg then "-" +:+ body else body.

Example Duration_String_examples :
  map Duration_String [0; 1500000000; 90000000000; 3661000000000; -250000000]%Z
  = ["0s"; "1.5s"; "1m30s"; "1h1m1s"; "-250ms"].
Proof. reflexivity. Qed.
End time.

(** ** Unix times and RFC 3339

    Seconds of the proleptic Gregorian calendar, as [time.Date] counts them. *)
Module calendar.
Definition leap (y : Z) : bool := ((y mod 4 =? 0) && (negb (y mod 100 =? 0) || (y mod 400 =? 0)))%Z.
Definition days_in (m y : Z) : Z :=
  if (m =? 2)%Z then (if leap y then 29 else 28)%Z
  else if existsb (Z.eqb m) [4; 6; 9; 11]%Z then 30%Z else 31%Z.

(** Days from the first of January of year 1 to the first of January of [y],
    and to the first of month [m] of that year. *)
Definition days_before_year (y : Z) : Z := let y := (y - 1)%Z in (365 * y + y / 4 - y / 100 + y / 400)%Z.
Definition days_before_month (m y : Z) : Z :=
  foldr Z.add 0%Z (map (fun i => days_in (Z.of_nat i) y) (seq 1 (Z.to_nat (m - 1)))).

Definition Date (year month day hour minute sec nsec : Z) : Time :=
  let days := (days_before_year year + days_before_month month year + (day - 1))%Z in
  ((((days * 24 + hour) * 60 + minute) * 60 + sec) * 1000000000 + nsec)%Z.

Definition unix_epoch : Time := Date 1970 1 1 0 0 0 0.
Definition Unix (sec : Z) : Time := (unix_epoch + sec * 1000000000)%Z.
Definition UnixMilli (msec : Z) : Time := (unix_epoch + msec * 1000000)%Z.
Definition to_UnixMilli (t : Time) : Z := ((t - unix_epoch) / 1000000)%Z.

(** [n] digits at the head of [s], as a number between [lo] and [hi]. *)
Fixpoint fixed_digits (n : nat) (acc : Z) (s : string) : option (Z * string) :=
  match n, s with
  | O, _ => Some (acc, s)
  | S n, String c s =>
      match digit_value c with Some d => fixed_digits n (acc * 10 + d)%Z s | None => None end
  | S _, EmptyString => None
  end.
Definition field (n : nat) (lo hi : Z) (s : string) : option (Z * string) :=
  match fixed_digits n 0 s with
  | Some (v, rest) => if (lo <=? v)%Z && (v <=? hi)%Z then Some (v, rest) else None
  | None => None
  end.
Definition sep (c : ascii) (s : string) : option string :=
  match s with String d s => if Ascii.eqb c d then Some s else None | EmptyString => None end.

(** The digits of a fraction of a second: those after the ninth are ignored. *)
Fixpoint nanoseconds (scale acc : Z) (s : string) : Z * string :=
  match s with
  | String c s' =>
      match digit_value c with
      | Some d => nanoseconds (scale / 10)%Z (acc + d * scale)%Z s'
      | None => (acc, s)
      end
  | EmptyString => (acc, s)
  end.
Definition fraction (s : string) : Z * string :=
  match s with
  | String c (String d _ as s') =>
      if Ascii.eqb c "." && match digit_value d with Some _ => true | None => false end
      then nanoseconds 100000000 0 s' else (0%Z, s)
  | _ => (0%Z, s)
  end.

(** [Z], or the offset of the zone in seconds. *)
Definition zone (s : string) : option Z :=
  match s with
  | String c rest =>
      if Ascii.eqb c "Z" then (if String.eqb rest "" then Some 0%Z else None)
      else if Ascii.eqb c "+" || Ascii.eqb c "-" then
        field 2 0 23 rest ≫= fun '(h, rest) =>
        sep ":" rest ≫= fun rest =>
        field 2 0 59 rest ≫= fun '(m, rest) =>
        if String.eqb rest "" then
          Some (if Ascii.eqb c "-" then - (h * 3600 + m * 60) else h * 3600 + m * 60)%Z
        else None
      else None
  | EmptyString => None
  end.

(** [time.Parse] with [RFC3339] or [RFC3339Nano], on text in the strict form of
    the RFC. *)
Definition ParseRFC3339 (s : string) : option Time :=
  field 4 0 9999 s ≫= fun '(year, s) => sep "-" s ≫= fun s =>
  field 2 1 12 s ≫= fun '(month, s) => sep "-" s ≫= fun s =>
  field 2 1 (days_in month year) s ≫= fun '(day, s) => sep "T" s ≫= fun s =>
  field 2 0 23 s ≫= fun '(hour, s) => sep ":" s ≫= fun s =>
  field 2 0 59 s ≫= fun '(minute, s) => sep ":" s ≫= fun s =>
  field 2 0 59 s ≫= fun '(sec, s) =>
  let '(nsec, s) := fraction s in
  zone s ≫= fun offset => Some (Date year month day hour minute sec nsec - offset * 1000000000)%Z.

Example ParseRFC3339_examples :
  unix_epoch = (62135596800 * 1000000000)%Z /\
  map ParseRFC3339 ["1970-01-01T00:00:01.5Z"; "1970-01-01T01:00:00+01:00"; "2023-02-29T00:00:00Z";
                    "2024-02-29T00:00:00Z"]
  = [Some (unix_epoch + 1500000000)%Z; Some unix_epoch; None; Some (unix_epoch + 1709164800 * 1000000000)%Z].
Proof. vm_compute. by split. Qed.
End calendar.

(** ** float64

    The operations of [SpecFloat] at precision 53 and maximal exponent 1024
    are those of IEEE 754 binary64 with rounding to nearest even. *)
Definition float64 : Type := spec_float.
Module float64.
Definition of_Z (z : Z) : spec_float := binary_normalize 53 1024 z 0 false.
Definition mul (x y : spec_float) : spec_float := SFmul 53 1024 x y.
Definition add (x y : spec_float) : spec_float := SFadd 53 1024 x y.
Definition sub (x y : spec_float) : spec_float := SFsub 53 1024 x y.
Definition ltb (x y : spec_float) : bool := SFltb x y.

(** The value without its fraction; none for an infinity or a NaN. *)
Definition trunc (x : spec_float) : option Z :=
  match x with
  | S754_zero _ => Some 0%Z
  | S754_finite s m e =>
      let a := if (0 <=? e)%Z then (Zpos m * 2 ^ e)%Z else (Zpos m / 2 ^ (- e))%Z in
      Some (if s then (- a)%Z else a)
  | _ => None
  end.

(** The conversion to int64. Go leaves the result open when the truncated
    value is not an int64: [oor] is what the implementation returns then. *)
Definition to_int64 (oor : spec_float -> Z) (x : spec_float) : Z :=
  match trunc x with
  | Some z => if (Int64.min <=? z)%Z && (z <=? Int64.max)%Z then z else oor x
  | None => oor x
  end.

(** On amd64 the conversion instruction yields the smallest int64. *)
Definition amd64 (x : spec_float) : Z := Int64.min.

Definition nonneg (x : spec_float) : Prop :=
  match x with
  | S754_zero s | S754_infinity s | S754_finite s _ _ => s = false
  | S754_nan => True
  end.

Lemma nonneg_round m e l : nonneg (binary_round_aux 53 1024 false m e l).
Proof. unfold binary_round_aux. repeat case_match; try done; simplify_eq/=; done. Qed.

Lemma nonneg_mul x y : nonneg x -> nonneg y -> nonneg (mul x y).
Proof.
  destruct x as [s|s| |s m e], y as [t|t| |t n f]; cbn; try (intros -> -> || intros; done); try done.
  intros -> ->. apply nonneg_round.
Qed.

Lemma nonneg_of_Z z : (0 < z)%Z -> nonneg (of_Z z).
Proof. destruct z as [|p|p]; [lia| |lia]. intros _. cbn. unfold binary_round. case_match. apply nonneg_round. Qed.

Lemma nonneg_trunc x z : nonneg x -> trunc x = Some z -> (0 <= z)%Z.
Proof.
  destruct x as [s|s| |s m e]; cbn; try done; intros ->; intros [= <-]; [lia|].
  case_match; boolify; [|apply Z.div_pos]; lia.
Qed.
End float64.

(** ** package strings *)
Module strings.
Definition lower_byte (c : ascii) : ascii :=
  let n := Ascii.nat_of_ascii c in
  if (Nat.leb 65 n && Nat.leb n 90)%nat then Ascii.ascii_of_nat (n + 32) else c.

Fixpoint ToLower (s : string) : string :=
  match s with
  | EmptyString => EmptyString
  | String c s => String (lower_byte c) (ToLower s)
  end.

Definition EqualFold (s t : string) : bool := ToLower s =s ToLower t.

Definition is_space (c : ascii) : bool :=
  let n := Ascii.nat_of_ascii c in (Nat.eqb n 32 || (Nat.leb 9 n && Nat.leb n 13))%nat.

Fixpoint TrimLeft (s : string) : string :=
  match s with
  | EmptyString => EmptyString
  | String c s' => if is_space c then TrimLeft s' else s
  end.

Fixpoint TrimRight (s : string) : string :=
  match s with
  | EmptyString => EmptyString
  | String c s' =>
      match TrimRight s' with
      | EmptyString => if is_space c then EmptyString else String c EmptyString
      | t => String c t
      end
  end.

Definition TrimSpace (s : string) : string := TrimRight (TrimLeft s).

(** What is left of [s] after the prefix [p]. *)
Fixpoint CutPrefix (p s : string) : option string :=
  match p, s with
  | EmptyString, _ => Some s
  | String a p, String b s => if Ascii.eqb a b then CutPrefix p s else None
  | String _ _, EmptyString => None
  end.

Definition HasPrefix (s p : string) : bool := bool_decide (is_Some (CutPrefix p s)).
Definition TrimPrefix (s p : string) : string := default s (CutPrefix p s).

(** [s[:i]], [s[i:]] *)
Fixpoint take (n : nat) (s : string) : string :=
  match n, s with
  | S n, String c s => String c (take n s)
  | _, _ => EmptyString
  end.
Fixpoint drop (n : nat) (s : string) : string :=
  match n, s with
  | S n, String _ s => drop n s
  | _, _ => s
  end.

(** [strings.Cut(s, sep)]: the text around the first occurrence of [sep]. *)
Fixpoint Cut (s sep : string) : option (string * string) :=
  match CutPrefix sep s with
  | Some rest => Some (EmptyString, rest)
  | None =>
      match s with
      | EmptyString => None
      | String c s =>
          match Cut s sep with
          | Some (before, after) => Some (String c before, after)
          | None => None
          end
      end
  end.

Definition Contains (s sub : string) : bool := bool_decide (is_Some (Cut s sub)).
Definition Index (s sub : string) : option nat := String.length ∘ fst <$> Cut s sub.
Definition ContainsAny (s chars : string) : bool :=
  existsb (fun c => existsb (Ascii.eqb c) (String.list_ascii_of_string chars))
    (String.list_ascii_of_string s).

Definition HasSuffix (s p : string) : bool :=
  (String.length p <=? String.length s)%nat &&
  (drop (String.length s - String.length p) s =s p).

(** Splits on one byte; never returns the empty list. *)
Fixpoint SplitByte (s : string) (sep : ascii) : list string :=
  match s with
  | EmptyString => [EmptyString]
  | String c s =>
      if Ascii.eqb c sep then EmptyString :: SplitByte s sep
      else match SplitByte s sep with
           | l :: ls => String c l :: ls
           | [] => [String c EmptyString]
           end
  end.

Fixpoint Join (l : list string) (sep : string) : string :=
  match l with
  | [] => ""
  | [s] => s
  | s :: l => s +:+ sep +:+ Join l sep
  end.

Fixpoint CountByte (s : string) (b : ascii) : nat :=
  match s with
  | EmptyString => 0
  | String c s => (if Ascii.eqb c b then 1 else 0) + CountByte s b
  end.

(** The text after the last occurrence of [b], if any. *)
Fixpoint AfterLast (s : string) (b : ascii) : option string :=
  match s with
  | EmptyString => None
  | String c s' =>
      match AfterLast s' b with
      | Some r => Some r
      | None => if Ascii.eqb c b then Some s' else None
      end
  end.

(** [bytes.TrimRight(s, "\r\n")]. *)
Fixpoint TrimNewlines (s : string) : string :=
  match s with
  | EmptyString => EmptyString
  | String c s' =>
      match TrimNewlines s' with
      | EmptyString => if Ascii.eqb c "010" || Ascii.eqb c "013" then EmptyString else String c EmptyString
      | t => String c t
      end
  end.

Definition TrimSuffix (s p : string) : string :=
  if HasSuffix s p then take (String.length s - String.length p) s else s.

(** [strings.ReplaceAll(s, old, new)] for a one-byte [old]. *)
Fixpoint ReplaceByte (s : string) (old : ascii) (new : string) : string :=
  match s with
  | EmptyString => EmptyString
  | String c s => (if Ascii.eqb c old then new else String c "") +:+ ReplaceByte s old new
  end.

(** No character of [s] is white space. *)
Definition no_space (s : string) : bool :=
  forallb (fun c => negb (is_space c)) (String.list_ascii_of_string s).

Lemma TrimRight_no_space s : no_space s = true -> TrimRight s = s.
Proof.
  unfold no_space. induction s as [|c s IH]; cbn; [done|].
  intros [Hc Hs]%andb_true_iff. rewrite IH by done.
  destruct s; [|done]. apply negb_true_iff in Hc. by rewrite Hc.
Qed.

Lemma TrimSpace_no_space s : no_space s = true -> TrimSpace s = s.
Proof.
  intros H. unfold TrimSpace. rewrite TrimRight_no_space.
  - destruct s as [|c s]; [done|]. cbn in H. apply andb_true_iff in H as [H _].
    apply negb_true_iff in H. cbn. by rewrite H.
  - destruct s as [|c s]; [done|]. pose proof H as H'. cbn in H.
    apply andb_true_iff in H as [H _]. apply negb_true_iff in H. cbn. by rewrite H.
Qed.

(** [starts s]: [s] is empty or starts with a character that is not white space. *)
Definition starts (s : string) : Prop :=
  match s with EmptyString => True | String c _ => is_space c = false end.

Lemma TrimLeft_starts s : starts (TrimLeft s).
Proof. induction s as [|c s IH]; cbn; [done|]. by destruct (is_space c) eqn:E. Qed.

Lemma TrimLeft_id s : starts s -> TrimLeft s = s.
Proof. destruct s as [|c s]; cbn; [done|]. by intros ->. Qed.

Lemma TrimRight_starts s : starts s -> starts (TrimRight s).
Proof. destruct s as [|c s]; cbn; [done|]. intros H. destruct (TrimRight s); cbn; rewrite ?H; done. Qed.

Lemma TrimRight_idem s : TrimRight (TrimRight s) = TrimRight s.
Proof.
  induction s as [|c s IH]; [done|]. cbn. destruct (TrimRight s) as [|d t] eqn:E.
  - destruct (is_space c) eqn:Hc; cbn; by rewrite ?Hc.
  - change (TrimRight (String c (String d t))) with
      (match TrimRight (String d t) with
       | EmptyString => if is_space c then EmptyString else String c EmptyString
       | u => String c u end). by rewrite IH.
Qed.

Lemma TrimSpace_starts s : starts (TrimSpace s).
Proof. apply TrimRight_starts, TrimLeft_starts. Qed.

Lemma TrimSpace_idem s : TrimSpace (TrimSpace s) = TrimSpace s.
Proof.
  unfold TrimSpace at 1. rewrite (TrimLeft_id (TrimSpace s)) by apply TrimSpace_starts.
  apply TrimRight_idem.
Qed.

(** Text that ends in a character that is not white space is not cut at the end. *)
Lemma TrimRight_app s c t : TrimRight (String c t) = String c t -> TrimRight (s +:+ String c t) = s +:+ String c t.
Proof.
  intros H. induction s as [|d s IH]; [exact H|].
  change ((String d s) +:+ String c t) with (String d (s +:+ String c t)). cbn [TrimRight]. rewrite IH.
  by destruct s.
Qed.

Lemma length_take n s : String.length (take n s) = Nat.min n (String.length s).
Proof. revert s. induction n as [|n IH]; intros [|c s]; cbn; try done. by rewrite IH. Qed.

Lemma take_app_le n s t : n <= String.length s -> take n (s +:+ t) = take n s.
Proof.
  revert s. induction n as [|n IH]; intros [|c s] Hn; cbn in *; try done; [lia|].
  f_equal. apply IH. lia.
Qed.

Lemma take_take n s : take n (take n s) = take n s.
Proof. revert s. induction n as [|n IH]; intros [|c s]; cbn; try done. by rewrite IH. Qed.
End strings.

(** ** Prefixes and suffixes of texts *)
Lemma HasPrefix_spec s p : strings.HasPrefix s p = true <-> exists q, s = p +:+ q.
Proof.
  unfold strings.HasPrefix. rewrite bool_decide_eq_true. revert s. induction p as [|a p IH]; intros s.
  - split; [by exists s|]. intros _. by eexists.
  - destruct s as [|b s]; cbn [strings.CutPrefix].
    + split; [by intros [? ?]|]. by intros [q [=]].
    + destruct (Ascii.eqb_spec a b) as [->|Hne].
      * rewrite IH. split; intros [q H]; exists q; [by rewrite H|by injection H].
      * split; [by intros [? ?]|]. intros [q [=]]. done.
Qed.

Lemma drop_app s t : strings.drop (String.length s) (s +:+ t) = t.
Proof. induction s as [|c s IH]; [by destruct t|exact IH]. Qed.

Lemma take_drop n s : strings.take n s +:+ strings.drop n s = s.
Proof. revert s. induction n as [|n IH]; intros [|c s]; try done. exact (f_equal (String c) (IH s)). Qed.

Lemma length_drop n s : String.length (strings.drop n s) = String.length s - n.
Proof. revert s. induction n as [|n IH]; intros [|c s]; cbn; try done. Qed.

Lemma HasSuffix_spec s p : strings.HasSuffix s p = true <-> exists q, s = q +:+ p.
Proof.
  unfold strings.HasSuffix. split.
  - intros [_ H%String.eqb_eq]%andb_true_iff. exists (strings.take (String.length s - String.length p) s).
    rewrite <-H at 2. by rewrite take_drop.
  - intros [q ->]. rewrite str_length_app. replace (_ + _ - _) with (String.length q) by lia.
    rewrite drop_app, String.eqb_refl, andb_true_r. apply Nat.leb_le. lia.
Qed.

(** Two suffixes of one length are the same. *)
Lemma suffix_unique p q s t : p +:+ s = q +:+ t -> String.length s = String.length t -> s = t.
Proof.
  intros E Hl. assert (String.length p = String.length q) as Hp.
  { apply (f_equal String.length) in E. rewrite !str_length_app in E. lia. }
  rewrite <-(drop_app p s), E, Hp. apply drop_app.
Qed.

Lemma lower_byte_idem c : strings.lower_byte (strings.lower_byte c) = strings.lower_byte c.
Proof. by destruct c as [[] [] [] [] [] [] [] []]. Qed.

Lemma ToLower_idem s : strings.ToLower (strings.ToLower s) = strings.ToLower s.
Proof. induction s as [|c s IH]; cbn; [done|]. by rewrite lower_byte_idem, IH. Qed.

Lemma ToLower_app s t : strings.ToLower (s +:+ t) = strings.ToLower s +:+ strings.ToLower t.
Proof. induction s as [|c s IH]; [done|]. change (String c s +:+ t) with (String c (s +:+ t)). cbn. by rewrite IH. Qed.

Lemma take_app s t n :
  strings.take n (s +:+ t) = strings.take n s +:+ strings.take (n - String.length s) t.
Proof.
  revert n. induction s as [|c s IH]; intros [|n]; try done.
  exact (f_equal (String c) (IH n)).
Qed.

Lemma take_all s n : String.length s <= n -> strings.take n s = s.
Proof.
  revert n. induction s as [|c s IH]; intros [|n] H; cbn in *; try done; [lia|]. f_equal. apply IH. lia.
Qed.

Lemma take_0 s : strings.take 0 s = "".
Proof. by destruct s. Qed.

(** Both texts go on after a common part. *)
Lemma app_eq_app_longer (a b x y : string) :
  a +:+ x = b +:+ y -> String.length b <= String.length a -> exists k, a = b +:+ k /\ y = k +:+ x.
Proof.
  revert a. induction b as [|c b IH]; intros a E Hl; [by exists a|]. destruct a as [|d a]; [cbn in Hl; lia|].
  change (String d (a +:+ x) = String c (b +:+ y)) in E. injection E as -> E. cbn in Hl.
  destruct (IH a E) as (k & -> & Hk); [lia|]. by exists k.
Qed.

Lemma CutPrefix_spec p s rest : strings.CutPrefix p s = Some rest <-> s = p +:+ rest.
Proof.
  revert s. induction p as [|a p IH]; intros s; cbn [strings.CutPrefix].
  - split; [by intros [= ->]|by intros ->].
  - change (String a p +:+ rest) with (String a (p +:+ rest)). destruct s as [|b s]; [done|].
    destruct (Ascii.eqb_spec a b) as [->|Hne].
    + rewrite IH. split; [by intros ->|by intros [= ->]].
    + split; [done|by intros [= ->]].
Qed.

Lemma Contains_spec s sub : strings.Contains s sub = true <-> exists a b, s = a +:+ sub +:+ b.
Proof.
  unfold strings.Contains. rewrite bool_decide_eq_true. split.
  - intros [[before after] H]. revert before after H. induction s as [|c s IH]; intros before after; cbn [strings.Cut];
      (destruct (strings.CutPrefix sub _) as [rest|] eqn:E; [intros _; apply CutPrefix_spec in E; by exists "", rest|]); [done|].
    destruct (strings.Cut s sub) as [[x y]|] eqn:Ec; [|done]. intros _. destruct (IH x y eq_refl) as (a & b & ->).
    by exists (String c a), b.
  - intros (a & b & ->). induction a as [|c a IH].
    + change ("" +:+ ?t) with t. destruct (sub +:+ b) as [|d t] eqn:E; cbn [strings.Cut]; rewrite <-E;
        rewrite (proj2 (CutPrefix_spec sub (sub +:+ b) b) eq_refl); by eexists.
    + change (String c a +:+ ?t) with (String c (a +:+ t)). cbn [strings.Cut].
      destruct (strings.CutPrefix _ _); [by eexists|]. destruct IH as [[x y] ->]. by eexists.
Qed.


(** ** package bufio: a [Scanner] that splits lines

    The lines of a text, without their newline and one carriage return in front
    of it, up to the first that reaches the limit of the buffer; the flag is
    [bufio.ErrTooLong]. *)
Module bufio.
Definition drop_cr (line : string) : string :=
  if strings.HasSuffix line (String "013" "") then strings.take (String.length line - 1) line else line.

Definition terminated (parts : list string) : list string :=
  match last parts with Some EmptyString => removelast parts | _ => parts end.

Fixpoint within (max : Z) (lines : list string) : list string * bool :=
  match lines with
  | [] => ([], false)
  | line :: rest =>
      if (max <=? Z.of_nat (String.length line))%Z then ([], true)
      else let '(kept, tooLong) := within max rest in (drop_cr line :: kept, tooLong)
  end.

Definition ScanLines (max : Z) (text : string) : list string * bool :=
  within max (terminated (strings.SplitByte text "010")).
End bufio.

(** ** package path/filepath, on Unix *)
Module filepath.
Definition IsAbs (path : string) : bool := strings.HasPrefix path "/".

(** One component of the path onto the components kept so far, in reverse. *)
Definition clean_step (rooted : bool) (kept : list string) (component : string) : list string :=
  if (component =s "") || (component =s ".") then kept
  else if component =s ".." then
    match kept with
    | [] => if rooted then [] else [".."]
    | last :: kept' => if last =s ".." then ".." :: kept else kept'
    end
  else component :: kept.

Definition Clean (path : string) : string :=
  let rooted := IsAbs path in
  let kept := rev (foldl (clean_step rooted) [] (strings.SplitByte path "/")) in
  let body := strings.Join kept "/" in
  if rooted then "/" +:+ body else if body =s "" then "." else body.

Definition Join (dir path : string) : string :=
  if dir =s "" then (if path =s "" then "" else Clean path)
  else if path =s "" then Clean dir
  else Clean (dir +:+ "/" +:+ path).

Example Clean_examples :
  map Clean ["a//b/./c"; "/../a/.."; "a/../../b"; ""; "/"] = ["a/b/c"; "/"; "../b"; "."; "/"].
Proof. reflexivity. Qed.
End filepath.

Lemma digit_no_space d : (0 <= d < 10)%Z -> strings.is_space (digit d) = false.
Proof.
  intros Hd.
  assert (forallb (fun i => negb (strings.is_space (digit (Z.of_nat i)))) (seq 0 10) = true) as H
    by (vm_compute; reflexivity).
  apply forallb_forall with (x := Z.to_nat d) in H; [|apply in_seq; lia].
  rewrite Z2Nat.id in H by lia. by apply negb_true_iff.
Qed.

Lemma digits_of_no_space fuel z acc :
  (0 <= z)%Z -> strings.no_space acc = true -> strings.no_space (digits_of fuel z acc) = true.
Proof.
  revert z acc. induction fuel as [|fuel IH]; intros z acc Hz Hacc; [done|]. cbn [digits_of].
  destruct (Z.leb_spec z 0); [done|]. pose proof (Z.mod_pos_bound z 10).
  apply IH; [apply Z.div_pos; lia|].
  unfold strings.no_space in *. cbn. rewrite digit_no_space by lia. done.
Qed.

Lemma itoa_no_space z : strings.no_space (itoa z) = true.
Proof.
  unfold itoa. destruct (Z.eqb_spec z 0); [done|]. destruct (Z.ltb_spec z 0).
  - change (strings.no_space (digits_of 20 (- z) "") = true). apply digits_of_no_space; [lia|done].
  - apply digits_of_no_space; [lia|done].
Qed.

Lemma itoa_nonempty z : Int64.in_range z -> itoa z <> "".
Proof. intros Hz E. apply Atoi_itoa in Hz. by rewrite E in Hz. Qed.
