(* ===== verification/Types.v ===== *)
(** * The data model of the root package

    The types of [ids.go], [errors.go], [runtime.go], [events.go],
    [metadata.go] and the parts of [permissions.go], [cache.go], [policy.go]
    and [validation.go] they are built from. A struct is a record whose
    fields carry a short prefix before the Go name; a named string type is
    [string]; a pointer to a struct is an [option]; a map that the code only
    looks up and updates is a [gmap] under an [option] ([None] is the nil
    map); a map the code ranges over is a [GoMap]. *)
From S2P Require Import Prelude GoStd.
From Stdlib Require Import Floats.SpecFloat.
#[local] Open Scope string_scope.
#[local] Set Warnings "-register-all".

(** A [float64] is an IEEE 754 binary64 number. *)
#[global] Instance zero_float64 : Zero spec_float := S754_zero false.

(** A Go map by its entries in the order a [range] statement visits them. Go
    leaves that order open: two lists that are permutations of one another
    stand for the same map, and keys are distinct. *)
Definition GoMap (V : Type) : Type := list (string * V).

Fixpoint map_get {V} (m : GoMap V) (k : string) : option V :=
  match m with
  | [] => None
  | (k', v) :: m => if k =s k' then Some v else map_get m k
  end.

Fixpoint map_set {V} (m : GoMap V) (k : string) (v : V) : GoMap V :=
  match m with
  | [] => [(k, v)]
  | (k', v') :: m => if k =s k' then (k, v) :: m else (k', v') :: map_set m k v
  end.

Lemma map_get_set {V} (m : GoMap V) k v k' : map_get (map_set m k v) k' = if k' =s k then Some v else map_get m k'.
Proof.
  induction m as [|[j w] m IH]; cbn; [done|].
  destruct (String.eqb_spec k j) as [->|]; cbn; [by destruct (k' =s j)|].
  rewrite IH. destruct (String.eqb_spec k' j), (String.eqb_spec k' k); congruence.
Qed.

Lemma map_get_elem {V} (m : GoMap V) k v : map_get m k = Some v -> (k, v) ∈ m.
Proof.
  induction m as [|[j w] m IH]; cbn; [done|]. destruct (String.eqb_spec k j) as [->|]; intros H.
  - simplify_eq. by left.
  - right. auto.
Qed.

Lemma map_get_None {V} (m : GoMap V) k : map_get m k = None <-> k ∉ m.*1.
Proof.
  induction m as [|[j w] m IH]; cbn; [split; [intros _; apply not_elem_of_nil|done]|].
  rewrite not_elem_of_cons. destruct (String.eqb_spec k j); naive_solver.
Qed.

Lemma map_set_NoDup {V} (m : GoMap V) k v : NoDup m.*1 -> NoDup (map_set m k v).*1.
Proof.
  induction m as [|[j w] m IH]; cbn; intros H; [apply NoDup_singleton|]. apply NoDup_cons in H as [Hj Hm].
  destruct (String.eqb_spec k j) as [->|Hne]; cbn; apply NoDup_cons; [done|]. split; [|by apply IH].
  apply map_get_None. apply map_get_None in Hj. by rewrite map_get_set, (proj2 (String.eqb_neq j k)).
Qed.

Lemma elem_map_get {V} (m : GoMap V) k v : NoDup m.*1 -> (k, v) ∈ m -> map_get m k = Some v.
Proof.
  induction m as [|[j w] m IH]; cbn; [intros _ H; by apply elem_of_nil in H|].
  intros [Hj Hm]%NoDup_cons H. destruct (String.eqb_spec k j) as [->|].
  - apply elem_of_cons in H as [[= ->]|H]; [done|].
    exfalso. apply Hj, list_elem_of_fmap. by exists (j, v).
  - apply elem_of_cons in H as [[= ]|H]; [done|]. auto.
Qed.

Abbreviation StringMap := (option (gmap string string)).

(** ** ids.go *)
Definition RunID := string.
Definition SessionID := string.
Definition TurnID := string.
Definition EventID := string.
Definition CorrelationID := string.
Definition RuntimeKind := string.
Definition ProviderID := string.
Definition ModelID := string.
Definition ArtifactID := string.

Definition PermissionMode := string.
Definition SandboxMode := string.
Definition RunStatus := string.
Definition HealthCheckID := string.
Definition CostSource := string.

(** ** errors.go *)
Definition ErrorCategory := string.
Definition ErrorConfiguration : ErrorCategory := "configuration".
Definition ErrorHealth : ErrorCategory := "health".
Definition ErrorRuntimeUnavailable : ErrorCategory := "runtime_unavailable".
Definition ErrorProviderUnavailable : ErrorCategory := "provider_unavailable".
Definition ErrorModelUnavailable : ErrorCategory := "model_unavailable".
Definition ErrorAuthentication : ErrorCategory := "authentication".
Definition ErrorPermission : ErrorCategory := "permission".
Definition ErrorRateLimit : ErrorCategory := "rate_limit".
Definition ErrorTimeout : ErrorCategory := "timeout".
Definition ErrorCancellation : ErrorCategory := "cancellation".
Definition ErrorMalformedEvent : ErrorCategory := "malformed_event".
Definition ErrorRuntimeExit : ErrorCategory := "runtime_exit".
Definition ErrorValidation : ErrorCategory := "validation".
Definition ErrorRepairExhausted : ErrorCategory := "repair_exhausted".
Definition ErrorCleanup : ErrorCategory := "cleanup".
Definition ErrorUnknown : ErrorCategory := "unknown".

(** [SDKError], with the type of its wrapped cause left open: the cause is an
    [error], and an [error] may be an [SDKError]. *)
Record SDKErrorOf (E : Type) := mkSDKErrorOf {
  err_Category : ErrorCategory;
  err_Operation : string;
  err_UserDetail : string;
  err_DebugDetail : string;
  err_StatusCode : Z;
  err_ResponseHeaders : StringMap;
  err_ResponseBody : string;
  err_Provider : ProviderID;
  err_Model : ModelID;
  err_RuntimeKind : RuntimeKind;
  err_ExitCode : option Z;
  err_Signal : string;
  err_NativeType : string;
  err_RetryAfter : Duration;
  err_Metadata : StringMap;
  err_Cause : option E
}.
Arguments mkSDKErrorOf {E}.
Arguments err_Category {E}.
Arguments err_Operation {E}.
Arguments err_UserDetail {E}.
Arguments err_DebugDetail {E}.
Arguments err_StatusCode {E}.
Arguments err_ResponseHeaders {E}.
Arguments err_ResponseBody {E}.
Arguments err_Provider {E}.
Arguments err_Model {E}.
Arguments err_RuntimeKind {E}.
Arguments err_ExitCode {E}.
Arguments err_Signal {E}.
Arguments err_NativeType {E}.
Arguments err_RetryAfter {E}.
Arguments err_Metadata {E}.
Arguments err_Cause {E}.
#[global] Instance eta_SDKErrorOf {E} : Eta (SDKErrorOf E) := fun r =>
  mkSDKErrorOf (err_Category r) (err_Operation r) (err_UserDetail r) (err_DebugDetail r)
    (err_StatusCode r) (err_ResponseHeaders r) (err_ResponseBody r) (err_Provider r)
    (err_Model r) (err_RuntimeKind r) (err_ExitCode r) (err_Signal r) (err_NativeType r)
    (err_RetryAfter r) (err_Metadata r) (err_Cause r).
#[global] Instance zero_SDKErrorOf {E} : Zero (SDKErrorOf E) :=
  mkSDKErrorOf zero zero zero zero zero zero zero zero zero zero zero zero zero zero
    zero zero.

(** The [error] values the package tells apart: its own classified error, the
    two context errors, an error that wraps another ([fmt.Errorf] with [%w]),
    and any other error, known by its text. *)
Inductive error : Type :=
| ESDK (e : SDKErrorOf error)
| ECanceled
| EDeadlineExceeded
| EWrap (msg : string) (inner : error)
| EOther (msg : string).

Definition SDKError : Type := SDKErrorOf error.

(** ** permissions.go *)
Definition PermissionAction := string.
Definition PermissionActionDefault : PermissionAction := "".
Definition PermissionActionAllow : PermissionAction := "allow".
Definition PermissionActionDeny : PermissionAction := "deny".
Definition PermissionActionAsk : PermissionAction := "ask".

Definition PermissionTool := string.

Definition PermissionUnsupportedBehavior := string.
Definition PermissionUnsupportedFail : PermissionUnsupportedBehavior := "".
Definition PermissionUnsupportedBestEffort : PermissionUnsupportedBehavior := "best_effort".

Definition PermissionEnforcement := string.
Definition PermissionEnforcementNative : PermissionEnforcement := "native".
Definition PermissionEnforcementSDKManaged : PermissionEnforcement := "sdk_managed".
Definition PermissionEnforcementBestEffort : PermissionEnforcement := "best_effort".
Definition PermissionEnforcementUnsupported : PermissionEnforcement := "unsupported".

Record PermissionPathRule := mkPermissionPathRule {
  ppr_Path : string;
  ppr_Action : PermissionAction
}.
#[global] Instance eta_PermissionPathRule : Eta PermissionPathRule := fun r =>
  mkPermissionPathRule (ppr_Path r) (ppr_Action r).
#[global] Instance zero_PermissionPathRule : Zero PermissionPathRule :=
  mkPermissionPathRule zero zero.

Record PermissionPolicy := mkPermissionPolicy {
  pp_Default : PermissionAction;
  pp_Tools : GoMap PermissionAction;
  pp_PathRules : list PermissionPathRule;
  pp_UnsupportedBehavior : PermissionUnsupportedBehavior;
  pp_Metadata : StringMap
}.
#[global] Instance eta_PermissionPolicy : Eta PermissionPolicy := fun r =>
  mkPermissionPolicy (pp_Default r) (pp_Tools r) (pp_PathRules r)
    (pp_UnsupportedBehavior r) (pp_Metadata r).
#[global] Instance zero_PermissionPolicy : Zero PermissionPolicy :=
  mkPermissionPolicy zero zero zero zero zero.

Record PermissionFeatureSupport := mkPermissionFeatureSupport {
  pfs_Feature : string;
  pfs_Enforcement : PermissionEnforcement;
  pfs_Reason : string
}.
#[global] Instance eta_PermissionFeatureSupport : Eta PermissionFeatureSupport := fun r =>
  mkPermissionFeatureSupport (pfs_Feature r) (pfs_Enforcement r) (pfs_Reason r).
#[global] Instance zero_PermissionFeatureSupport : Zero PermissionFeatureSupport :=
  mkPermissionFeatureSupport zero zero zero.

Record PermissionAudit := mkPermissionAudit {
  pa_Source : string;
  pa_Tool : PermissionTool;
  pa_Action : PermissionAction;
  pa_Enforcement : PermissionEnforcement;
  pa_Reason : string;
  pa_Metadata : StringMap
}.
#[global] Instance eta_PermissionAudit : Eta PermissionAudit := fun r =>
  mkPermissionAudit (pa_Source r) (pa_Tool r) (pa_Action r) (pa_Enforcement r)
    (pa_Reason r) (pa_Metadata r).
#[global] Instance zero_PermissionAudit : Zero PermissionAudit :=
  mkPermissionAudit zero zero zero zero zero zero.

Record PermissionPolicySummary := mkPermissionPolicySummary {
  pps_ID : string;
  pps_Default : PermissionAction;
  pps_Tools : GoMap PermissionAction;
  pps_PathRuleCount : Z;
  pps_UnsupportedBehavior : PermissionUnsupportedBehavior;
  pps_Metadata : StringMap
}.
#[global] Instance eta_PermissionPolicySummary : Eta PermissionPolicySummary := fun r =>
  mkPermissionPolicySummary (pps_ID r) (pps_Default r) (pps_Tools r)
    (pps_PathRuleCount r) (pps_UnsupportedBehavior r) (pps_Metadata r).
#[global] Instance zero_PermissionPolicySummary : Zero PermissionPolicySummary :=
  mkPermissionPolicySummary zero zero zero zero zero zero.

Record PermissionMetadata := mkPermissionMetadata {
  pmd_Mode : PermissionMode;
  pmd_Policy : PermissionPolicySummary;
  pmd_PolicyID : string;
  pmd_Support : list PermissionFeatureSupport;
  pmd_Audit : list PermissionAudit;
  pmd_Unsupported : list PermissionFeatureSupport
}.
#[global] Instance eta_PermissionMetadata : Eta PermissionMetadata := fun r =>
  mkPermissionMetadata (pmd_Mode r) (pmd_Policy r) (pmd_PolicyID r) (pmd_Support r)
    (pmd_Audit r) (pmd_Unsupported r).
#[global] Instance zero_PermissionMetadata : Zero PermissionMetadata :=
  mkPermissionMetadata zero zero zero zero zero zero.

(** ** cache.go *)
Record PromptCacheDirective := mkPromptCacheDirective {
  pcd_Key : string;
  pcd_BreakpointBytes : Z;
  pcd_PrefixSHA256 : string;
  pcd_Mode : string;
  pcd_RequireNative : bool
}.
#[global] Instance eta_PromptCacheDirective : Eta PromptCacheDirective := fun r =>
  mkPromptCacheDirective (pcd_Key r) (pcd_BreakpointBytes r) (pcd_PrefixSHA256 r)
    (pcd_Mode r) (pcd_RequireNative r).
#[global] Instance zero_PromptCacheDirective : Zero PromptCacheDirective :=
  mkPromptCacheDirective zero zero zero zero zero.

(** ** metadata.go *)
Record RuntimeContext := mkRuntimeContext {
  ctx_RuntimeKind : RuntimeKind;
  ctx_RuntimeName : string;
  ctx_Provider : ProviderID;
  ctx_Model : ModelID
}.
#[global] Instance eta_RuntimeContext : Eta RuntimeContext := fun r =>
  mkRuntimeContext (ctx_RuntimeKind r) (ctx_RuntimeName r) (ctx_Provider r)
    (ctx_Model r).
#[global] Instance zero_RuntimeContext : Zero RuntimeContext :=
  mkRuntimeContext zero zero zero zero.

Record ArtifactRef := mkArtifactRef {
  artf_ID : ArtifactID;
  artf_URI : string;
  artf_Kind : string;
  artf_Description : string;
  artf_Metadata : StringMap
}.
#[global] Instance eta_ArtifactRef : Eta ArtifactRef := fun r =>
  mkArtifactRef (artf_ID r) (artf_URI r) (artf_Kind r) (artf_Description r)
    (artf_Metadata r).
#[global] Instance zero_ArtifactRef : Zero ArtifactRef :=
  mkArtifactRef zero zero zero zero zero.

Record UsageOf (A : Type) := mkUsageOf {
  us_InputTokens : option Z;
  us_OutputTokens : option Z;
  us_TotalTokens : option Z;
  us_ReasoningTokens : option Z;
  us_CacheReadTokens : option Z;
  us_CacheWriteTokens : option Z;
  us_Turns : option Z;
  us_Native : option (gmap string A)
}.
Arguments mkUsageOf {A}.
Arguments us_InputTokens {A}.
Arguments us_OutputTokens {A}.
Arguments us_TotalTokens {A}.
Arguments us_ReasoningTokens {A}.
Arguments us_CacheReadTokens {A}.
Arguments us_CacheWriteTokens {A}.
Arguments us_Turns {A}.
Arguments us_Native {A}.
#[global] Instance eta_UsageOf {A} : Eta (UsageOf A) := fun r =>
  mkUsageOf (us_InputTokens r) (us_OutputTokens r) (us_TotalTokens r)
    (us_ReasoningTokens r) (us_CacheReadTokens r) (us_CacheWriteTokens r) (us_Turns r)
    (us_Native r).
#[global] Instance zero_UsageOf {A} : Zero (UsageOf A) :=
  mkUsageOf zero zero zero zero zero zero zero zero.

(** [RateLimitInfo] of policy.go. *)
Record RateLimitInfoOf (A : Type) := mkRateLimitInfoOf {
  rl_Provider : ProviderID;
  rl_Model : ModelID;
  rl_Scope : string;
  rl_LimitName : string;
  rl_RetryAfter : Duration;
  rl_ResetAt : Time;
  rl_Remaining : option Z;
  rl_Limit : option Z;
  rl_Source : string;
  rl_UserDetail : string;
  rl_NativeMetadata : option (gmap string A)
}.
Arguments mkRateLimitInfoOf {A}.
Arguments rl_Provider {A}.
Arguments rl_Model {A}.
Arguments rl_Scope {A}.
Arguments rl_LimitName {A}.
Arguments rl_RetryAfter {A}.
Arguments rl_ResetAt {A}.
Arguments rl_Remaining {A}.
Arguments rl_Limit {A}.
Arguments rl_Source {A}.
Arguments rl_UserDetail {A}.
Arguments rl_NativeMetadata {A}.
#[global] Instance eta_RateLimitInfoOf {A} : Eta (RateLimitInfoOf A) := fun r =>
  mkRateLimitInfoOf (rl_Provider r) (rl_Model r) (rl_Scope r) (rl_LimitName r)
    (rl_RetryAfter r) (rl_ResetAt r) (rl_Remaining r) (rl_Limit r) (rl_Source r)
    (rl_UserDetail r) (rl_NativeMetadata r).
#[global] Instance zero_RateLimitInfoOf {A} : Zero (RateLimitInfoOf A) :=
  mkRateLimitInfoOf zero zero zero zero zero zero zero zero zero zero zero.

(** The values of Go's [any] that payloads and native metadata hold. A value
    of a named string type is [ANamed type text]; [AOpaque] stands for a value
    of a type the package never inspects. *)
Inductive any : Type :=
| ANil
| AString (s : string)
| ABool (b : bool)
| AInt (z : Z)
| AInt64 (z : Z)
| AFloat64 (f : spec_float)
| ANamed (type text : string)
| ATime (t : Time)
| AMap (m : GoMap any)
| AList (l : list any)
| AContext (c : RuntimeContext)
| AArtifact (a : ArtifactRef)
| AUsage (u : UsageOf any)
| ARateLimitInfo (i : RateLimitInfoOf any)
| ARateLimitInfoPtr (i : option (RateLimitInfoOf any))
| AStringMap (m : option (gmap string string))
| AIntMap (m : gmap string Z)
| ABoolMap (m : gmap string bool)
| AStringMaps (l : list (gmap string string))
| AOpaque (type : string).
#[global] Instance zero_any : Zero any := ANil.

(** ** Induction on values *)
Definition flat (v : any) : Prop := match v with AString _ | AList _ | AMap _ => False | _ => True end.

Section Induction.
Context (P : any -> Prop) (Hs : forall s, P (AString s)) (Hl : forall l, Forall P l -> P (AList l))
  (Hm : forall m : GoMap any, Forall P m.*2 -> P (AMap m)) (Hf : forall v, flat v -> P v).

Fixpoint any_nested_ind (v : any) : P v :=
  match v with
  | AString s => Hs s
  | AList l => Hl l ((fix each (l : list any) : Forall P l :=
      match l with [] => Forall_nil_2 _ | x :: l => Forall_cons_2 _ x l (any_nested_ind x) (each l) end) l)
  | AMap m => Hm m ((fix each (m : GoMap any) : Forall P m.*2 :=
      match m return Forall P m.*2 with
      | [] => Forall_nil_2 _
      | (k, x) :: m => Forall_cons_2 _ x m.*2 (any_nested_ind x) (each m)
      end) m)
  | v => Hf v I
  end.
End Induction.

Definition Usage : Type := UsageOf any.
Definition RateLimitInfo : Type := RateLimitInfoOf any.
Abbreviation AnyMap := (option (gmap string any)).

(** [m[k]] of a possibly nil map: a missing key reads as the nil interface. *)
Definition any_at (m : AnyMap) (k : string) : any :=
  match m with Some m => default ANil (m !! k) | None => ANil end.
Definition str_at (m : StringMap) (k : string) : string :=
  match m with Some m => default "" (m !! k) | None => "" end.

Definition SessionAction := string.
Definition SessionActionDefault : SessionAction := "".
Definition SessionActionFresh : SessionAction := "fresh".
Definition SessionActionContinue : SessionAction := "continue".
Definition SessionActionFork : SessionAction := "fork".
Definition SessionActionReplace : SessionAction := "replace".
Definition SessionActionRelease : SessionAction := "release".

Definition SessionRelationship := string.
Definition SessionRelationshipNone : SessionRelationship := "".
Definition SessionRelationshipFresh : SessionRelationship := "fresh".
Definition SessionRelationshipSame : SessionRelationship := "same".
Definition SessionRelationshipForked : SessionRelationship := "forked".
Definition SessionRelationshipReplaced : SessionRelationship := "replaced".
Definition SessionRelationshipReleased : SessionRelationship := "released".
Definition SessionRelationshipUnsupported : SessionRelationship := "unsupported".
Definition SessionRelationshipBestEffort : SessionRelationship := "best_effort".

Definition Capability := string.

Record UnsupportedCapability := mkUnsupportedCapability {
  uc_Capability : Capability;
  uc_Reason : string
}.
#[global] Instance eta_UnsupportedCapability : Eta UnsupportedCapability := fun r =>
  mkUnsupportedCapability (uc_Capability r) (uc_Reason r).
#[global] Instance zero_UnsupportedCapability : Zero UnsupportedCapability :=
  mkUnsupportedCapability zero zero.

Record SessionMetadata := mkSessionMetadata {
  sm_ID : SessionID;
  sm_RequestedID : SessionID;
  sm_RequestedAction : SessionAction;
  sm_Relationship : SessionRelationship;
  sm_Retained : bool;
  sm_Continued : bool;
  sm_ForkedFrom : SessionID;
  sm_Replaced : SessionID;
  sm_Unsupported : list UnsupportedCapability;
  sm_UnsupportedReason : string;
  sm_BestEffort : bool
}.
#[global] Instance eta_SessionMetadata : Eta SessionMetadata := fun r =>
  mkSessionMetadata (sm_ID r) (sm_RequestedID r) (sm_RequestedAction r)
    (sm_Relationship r) (sm_Retained r) (sm_Continued r) (sm_ForkedFrom r)
    (sm_Replaced r) (sm_Unsupported r) (sm_UnsupportedReason r) (sm_BestEffort r).
#[global] Instance zero_SessionMetadata : Zero SessionMetadata :=
  mkSessionMetadata zero zero zero zero zero zero zero zero zero zero zero.

Record CostEstimate := mkCostEstimate {
  ce_Amount : spec_float;
  ce_Currency : string;
  ce_Estimate : bool
}.
#[global] Instance eta_CostEstimate : Eta CostEstimate := fun r =>
  mkCostEstimate (ce_Amount r) (ce_Currency r) (ce_Estimate r).
#[global] Instance zero_CostEstimate : Zero CostEstimate :=
  mkCostEstimate zero zero zero.

Record CleanupMetadata := mkCleanupMetadata {
  cl_Attempted : bool;
  cl_Completed : bool;
  cl_Failed : bool;
  cl_Error : option SDKError
}.
#[global] Instance eta_CleanupMetadata : Eta CleanupMetadata := fun r =>
  mkCleanupMetadata (cl_Attempted r) (cl_Completed r) (cl_Failed r) (cl_Error r).
#[global] Instance zero_CleanupMetadata : Zero CleanupMetadata :=
  mkCleanupMetadata zero zero zero zero.

Record PromptCacheMetadata := mkPromptCacheMetadata {
  pcm_Requested : bool;
  pcm_KeySHA256 : string;
  pcm_PrefixSHA256 : string;
  pcm_BreakpointBytes : Z;
  pcm_Mode : string;
  pcm_Transport : string;
  pcm_ProviderManaged : bool;
  pcm_NativeRoutingKeyApplied : bool;
  pcm_NativeBreakpointApplied : bool;
  pcm_PromptBytesPreserved : bool;
  pcm_Detail : string
}.
#[global] Instance eta_PromptCacheMetadata : Eta PromptCacheMetadata := fun r =>
  mkPromptCacheMetadata (pcm_Requested r) (pcm_KeySHA256 r) (pcm_PrefixSHA256 r)
    (pcm_BreakpointBytes r) (pcm_Mode r) (pcm_Transport r) (pcm_ProviderManaged r)
    (pcm_NativeRoutingKeyApplied r) (pcm_NativeBreakpointApplied r)
    (pcm_PromptBytesPreserved r) (pcm_Detail r).
#[global] Instance zero_PromptCacheMetadata : Zero PromptCacheMetadata :=
  mkPromptCacheMetadata zero zero zero zero zero zero zero zero zero zero zero.

Record AttemptRequest := mkAttemptRequest {
  ar_WorkDir : string;
  ar_SessionID : SessionID;
  ar_Provider : ProviderID;
  ar_Model : ModelID;
  ar_Permissions : PermissionMode;
  ar_Sandbox : SandboxMode;
  ar_Timeout : Duration;
  ar_WantSession : bool;
  ar_SessionAction : SessionAction;
  ar_RequireCaps : list Capability;
  ar_RequireHealth : list HealthCheckID;
  ar_MetadataKeys : list string;
  ar_PromptCache : bool
}.
#[global] Instance eta_AttemptRequest : Eta AttemptRequest := fun r =>
  mkAttemptRequest (ar_WorkDir r) (ar_SessionID r) (ar_Provider r) (ar_Model r)
    (ar_Permissions r) (ar_Sandbox r) (ar_Timeout r) (ar_WantSession r)
    (ar_SessionAction r) (ar_RequireCaps r) (ar_RequireHealth r) (ar_MetadataKeys r)
    (ar_PromptCache r).
#[global] Instance zero_AttemptRequest : Zero AttemptRequest :=
  mkAttemptRequest zero zero zero zero zero zero zero zero zero zero zero zero zero.

Record AttemptSummary := mkAttemptSummary {
  att_Attempt : Z;
  att_AttemptOnTarget : Z;
  att_TargetIndex : Z;
  att_RunID : RunID;
  att_ParentRunID : RunID;
  att_Context : RuntimeContext;
  att_Request : AttemptRequest;
  att_Status : RunStatus;
  att_StartedAt : Time;
  att_FinishedAt : Time;
  att_Duration : Duration;
  att_Session : SessionMetadata;
  att_ErrorCategory : ErrorCategory;
  att_Error : option SDKError;
  att_RateLimit : option RateLimitInfo;
  att_PolicyDecisionReason : string;
  att_NativeMetadata : AnyMap
}.
#[global] Instance eta_AttemptSummary : Eta AttemptSummary := fun r =>
  mkAttemptSummary (att_Attempt r) (att_AttemptOnTarget r) (att_TargetIndex r)
    (att_RunID r) (att_ParentRunID r) (att_Context r) (att_Request r) (att_Status r)
    (att_StartedAt r) (att_FinishedAt r) (att_Duration r) (att_Session r)
    (att_ErrorCategory r) (att_Error r) (att_RateLimit r) (att_PolicyDecisionReason r)
    (att_NativeMetadata r).
#[global] Instance zero_AttemptSummary : Zero AttemptSummary :=
  mkAttemptSummary zero zero zero zero zero zero zero zero zero zero zero zero zero zero
    zero zero zero.

Definition PolicyDecisionKind := string.
Definition PolicyDecisionStop : PolicyDecisionKind := "stop".
Definition PolicyDecisionRetry : PolicyDecisionKind := "retry".
Definition PolicyDecisionWait : PolicyDecisionKind := "wait".
Definition PolicyDecisionFallback : PolicyDecisionKind := "fallback".

Record PolicyDecisionRecord := mkPolicyDecisionRecord {
  pdr_Attempt : Z;
  pdr_TargetIndex : Z;
  pdr_Kind : PolicyDecisionKind;
  pdr_Reason : string;
  pdr_Detail : string;
  pdr_Delay : Duration;
  pdr_Context : RuntimeContext;
  pdr_RateLimit : option RateLimitInfo;
  pdr_Metadata : AnyMap
}.
#[global] Instance eta_PolicyDecisionRecord : Eta PolicyDecisionRecord := fun r =>
  mkPolicyDecisionRecord (pdr_Attempt r) (pdr_TargetIndex r) (pdr_Kind r) (pdr_Reason r)
    (pdr_Detail r) (pdr_Delay r) (pdr_Context r) (pdr_RateLimit r) (pdr_Metadata r).
#[global] Instance zero_PolicyDecisionRecord : Zero PolicyDecisionRecord :=
  mkPolicyDecisionRecord zero zero zero zero zero zero zero zero zero.

Definition EventKind := string.

Record PolicyDroppedEvent := mkPolicyDroppedEvent {
  pde_Kind : EventKind;
  pde_Type : string;
  pde_RunID : RunID;
  pde_At : Time
}.
#[global] Instance eta_PolicyDroppedEvent : Eta PolicyDroppedEvent := fun r =>
  mkPolicyDroppedEvent (pde_Kind r) (pde_Type r) (pde_RunID r) (pde_At r).
#[global] Instance zero_PolicyDroppedEvent : Zero PolicyDroppedEvent :=
  mkPolicyDroppedEvent zero zero zero zero.

Record PolicyMetadata := mkPolicyMetadata {
  pm_LogicalRunID : RunID;
  pm_FinalAttempt : Z;
  pm_FinalTargetIndex : Z;
  pm_Exhausted : bool;
  pm_ExhaustedReason : string;
  pm_Decisions : list PolicyDecisionRecord;
  pm_DroppedEvents : list PolicyDroppedEvent
}.
#[global] Instance eta_PolicyMetadata : Eta PolicyMetadata := fun r =>
  mkPolicyMetadata (pm_LogicalRunID r) (pm_FinalAttempt r) (pm_FinalTargetIndex r)
    (pm_Exhausted r) (pm_ExhaustedReason r) (pm_Decisions r) (pm_DroppedEvents r).
#[global] Instance zero_PolicyMetadata : Zero PolicyMetadata :=
  mkPolicyMetadata zero zero zero zero zero zero zero.

(** ** The validation outcome types of validation.go *)
Definition ExpectationKind := string.
Definition ExpectationSeverity := string.

Record ValidationCheck := mkValidationCheck {
  vc_ExpectationID : string;
  vc_Kind : ExpectationKind;
  vc_Severity : ExpectationSeverity;
  vc_Passed : bool;
  vc_Skipped : bool;
  vc_Expected : string;
  vc_Observed : string;
  vc_Detail : string;
  vc_RepairHint : string
}.
#[global] Instance eta_ValidationCheck : Eta ValidationCheck := fun r =>
  mkValidationCheck (vc_ExpectationID r) (vc_Kind r) (vc_Severity r) (vc_Passed r)
    (vc_Skipped r) (vc_Expected r) (vc_Observed r) (vc_Detail r) (vc_RepairHint r).
#[global] Instance zero_ValidationCheck : Zero ValidationCheck :=
  mkValidationCheck zero zero zero zero zero zero zero zero zero.

Record ValidationFailure := mkValidationFailure {
  vf_ExpectationID : string;
  vf_Kind : ExpectationKind;
  vf_Severity : ExpectationSeverity;
  vf_Expected : string;
  vf_Observed : string;
  vf_Detail : string;
  vf_RepairHint : string
}.
#[global] Instance eta_ValidationFailure : Eta ValidationFailure := fun r =>
  mkValidationFailure (vf_ExpectationID r) (vf_Kind r) (vf_Severity r) (vf_Expected r)
    (vf_Observed r) (vf_Detail r) (vf_RepairHint r).
#[global] Instance zero_ValidationFailure : Zero ValidationFailure :=
  mkValidationFailure zero zero zero zero zero zero zero.

Record ValidationResult := mkValidationResult {
  vr_Passed : bool;
  vr_Skipped : bool;
  vr_PassedCount : Z;
  vr_FailedCount : Z;
  vr_SkippedCount : Z;
  vr_Checks : list ValidationCheck;
  vr_Failures : list ValidationFailure;
  vr_Errors : list SDKError;
  vr_Native : AnyMap
}.
#[global] Instance eta_ValidationResult : Eta ValidationResult := fun r =>
  mkValidationResult (vr_Passed r) (vr_Skipped r) (vr_PassedCount r) (vr_FailedCount r)
    (vr_SkippedCount r) (vr_Checks r) (vr_Failures r) (vr_Errors r) (vr_Native r).
#[global] Instance zero_ValidationResult : Zero ValidationResult :=
  mkValidationResult zero zero zero zero zero zero zero zero zero.

Record ValidationMetadata := mkValidationMetadata {
  vm_Configured : bool;
  vm_Final : ValidationResult;
  vm_History : list ValidationResult
}.
#[global] Instance eta_ValidationMetadata : Eta ValidationMetadata := fun r =>
  mkValidationMetadata (vm_Configured r) (vm_Final r) (vm_History r).
#[global] Instance zero_ValidationMetadata : Zero ValidationMetadata :=
  mkValidationMetadata zero zero zero.

Record RepairAttemptSummary := mkRepairAttemptSummary {
  ras_Attempt : Z;
  ras_RunID : RunID;
  ras_ParentRunID : RunID;
  ras_Request : AttemptRequest;
  ras_Status : RunStatus;
  ras_StartedAt : Time;
  ras_FinishedAt : Time;
  ras_Duration : Duration;
  ras_Session : SessionMetadata;
  ras_Permissions : PermissionMetadata;
  ras_Validation : ValidationResult;
  ras_ErrorCategory : ErrorCategory;
  ras_Error : option SDKError;
  ras_UnsupportedSession : bool;
  ras_PermissionPolicyID : string;
  ras_PolicyDecisionReason : string
}.
#[global] Instance eta_RepairAttemptSummary : Eta RepairAttemptSummary := fun r =>
  mkRepairAttemptSummary (ras_Attempt r) (ras_RunID r) (ras_ParentRunID r)
    (ras_Request r) (ras_Status r) (ras_StartedAt r) (ras_FinishedAt r) (ras_Duration r)
    (ras_Session r) (ras_Permissions r) (ras_Validation r) (ras_ErrorCategory r)
    (ras_Error r) (ras_UnsupportedSession r) (ras_PermissionPolicyID r)
    (ras_PolicyDecisionReason r).
#[global] Instance zero_RepairAttemptSummary : Zero RepairAttemptSummary :=
  mkRepairAttemptSummary zero zero zero zero zero zero zero zero zero zero zero zero
    zero zero zero zero.

Record RepairMetadata := mkRepairMetadata {
  rm_Configured : bool;
  rm_Attempted : bool;
  rm_MaxAttempts : Z;
  rm_Attempts : list RepairAttemptSummary;
  rm_Exhausted : bool;
  rm_ExhaustedReason : string;
  rm_PermissionPolicyID : string;
  rm_PermissionDenied : bool;
  rm_UnsupportedSameSession : bool
}.
#[global] Instance eta_RepairMetadata : Eta RepairMetadata := fun r =>
  mkRepairMetadata (rm_Configured r) (rm_Attempted r) (rm_MaxAttempts r) (rm_Attempts r)
    (rm_Exhausted r) (rm_ExhaustedReason r) (rm_PermissionPolicyID r)
    (rm_PermissionDenied r) (rm_UnsupportedSameSession r).
#[global] Instance zero_RepairMetadata : Zero RepairMetadata :=
  mkRepairMetadata zero zero zero zero zero zero zero zero zero.

Record RunMetadata := mkRunMetadata {
  md_Context : RuntimeContext;
  md_ParentRunID : RunID;
  md_Attempt : Z;
  md_Attempts : list AttemptSummary;
  md_Policy : PolicyMetadata;
  md_Status : RunStatus;
  md_StartedAt : Time;
  md_FinishedAt : Time;
  md_Duration : Duration;
  md_Session : SessionMetadata;
  md_Permissions : PermissionMetadata;
  md_Cleanup : CleanupMetadata;
  md_Validation : ValidationMetadata;
  md_Repair : RepairMetadata;
  md_PromptCache : PromptCacheMetadata;
  md_Artifacts : list ArtifactRef;
  md_Warnings : list string;
  md_Errors : list SDKError;
  md_Usage : Usage;
  md_EstimatedCost : option CostEstimate;
  md_CostSource : CostSource;
  md_ThroughputTPS : option spec_float;
  md_NativeMetadata : AnyMap
}.
#[global] Instance eta_RunMetadata : Eta RunMetadata := fun r =>
  mkRunMetadata (md_Context r) (md_ParentRunID r) (md_Attempt r) (md_Attempts r)
    (md_Policy r) (md_Status r) (md_StartedAt r) (md_FinishedAt r) (md_Duration r)
    (md_Session r) (md_Permissions r) (md_Cleanup r) (md_Validation r) (md_Repair r)
    (md_PromptCache r) (md_Artifacts r) (md_Warnings r) (md_Errors r) (md_Usage r)
    (md_EstimatedCost r) (md_CostSource r) (md_ThroughputTPS r) (md_NativeMetadata r).
#[global] Instance zero_RunMetadata : Zero RunMetadata :=
  mkRunMetadata zero zero zero zero zero zero zero zero zero zero zero zero zero zero
    zero zero zero zero zero zero zero zero zero.

(** ** events.go *)
Record RawPayload := mkRawPayload {
  raw_Source : string;
  raw_Encoding : string;
  raw_Data : list Byte.byte;
  raw_Safe : bool
}.
#[global] Instance eta_RawPayload : Eta RawPayload := fun r =>
  mkRawPayload (raw_Source r) (raw_Encoding r) (raw_Data r) (raw_Safe r).
#[global] Instance zero_RawPayload : Zero RawPayload :=
  mkRawPayload zero zero zero zero.

Abbreviation EventPayload := AnyMap.

Record Event := mkEvent {
  ev_ID : EventID;
  ev_RunID : RunID;
  ev_SessionID : SessionID;
  ev_Time : Time;
  ev_Type : string;
  ev_Payload : EventPayload;
  ev_Raw : option RawPayload
}.
#[global] Instance eta_Event : Eta Event := fun r =>
  mkEvent (ev_ID r) (ev_RunID r) (ev_SessionID r) (ev_Time r) (ev_Type r) (ev_Payload r)
    (ev_Raw r).
#[global] Instance zero_Event : Zero Event :=
  mkEvent zero zero zero zero zero zero zero.

(** ** runtime.go *)

(** A [*ValidationSpec] carries functions over requests, so a request refers
    to it by address; the run that dereferences it has the store. *)
Definition SpecPtr := positive.

Record RunRequest := mkRunRequest {
  req_Prompt : string;
  req_WorkDir : string;
  req_SessionID : SessionID;
  req_TurnID : TurnID;
  req_Provider : ProviderID;
  req_Model : ModelID;
  req_Permissions : PermissionMode;
  req_PermissionPolicy : option PermissionPolicy;
  req_Sandbox : SandboxMode;
  req_Timeout : Duration;
  req_Metadata : StringMap;
  req_WantSession : bool;
  req_SessionAction : SessionAction;
  req_RequireCaps : option (list Capability);
  req_RequireHealth : option (list HealthCheckID);
  req_Validation : option SpecPtr;
  req_PromptCache : PromptCacheDirective
}.
#[global] Instance eta_RunRequest : Eta RunRequest := fun r =>
  mkRunRequest (req_Prompt r) (req_WorkDir r) (req_SessionID r) (req_TurnID r)
    (req_Provider r) (req_Model r) (req_Permissions r) (req_PermissionPolicy r)
    (req_Sandbox r) (req_Timeout r) (req_Metadata r) (req_WantSession r)
    (req_SessionAction r) (req_RequireCaps r) (req_RequireHealth r) (req_Validation r)
    (req_PromptCache r).
#[global] Instance zero_RunRequest : Zero RunRequest :=
  mkRunRequest zero zero zero zero zero zero zero zero zero zero zero zero zero zero
    zero zero zero.

Record RunResult := mkRunResult {
  res_RunID : RunID;
  res_SessionID : SessionID;
  res_TurnID : TurnID;
  res_Status : RunStatus;
  res_TerminalOutput : string;
  res_Metadata : RunMetadata;
  res_Artifacts : list ArtifactRef;
  res_Warnings : list string;
  res_Usage : Usage;
  res_StartedAt : Time;
  res_FinishedAt : Time;
  res_Err : option SDKError
}.
#[global] Instance eta_RunResult : Eta RunResult := fun r =>
  mkRunResult (res_RunID r) (res_SessionID r) (res_TurnID r) (res_Status r)
    (res_TerminalOutput r) (res_Metadata r) (res_Artifacts r) (res_Warnings r)
    (res_Usage r) (res_StartedAt r) (res_FinishedAt r) (res_Err r).
#[global] Instance zero_RunResult : Zero RunResult :=
  mkRunResult zero zero zero zero zero zero zero zero zero zero zero zero.

(** An interface value of type [Runtime], by reference: what it does when it
    is started is part of the environment of the run that starts it. *)
Definition RuntimeRef := positive.

(** What starting a runtime and consuming its [Run] to the end amounts to: a
    failed [StartRun], or the events the run emitted before it closed its
    channel and what [Wait] returned. *)
Inductive RunOutcome : Type :=
| StartFailed (e : error)
| Ran (events : list Event) (result : RunResult) (waitErr : option error).
