(* ===== verification/Redact.v ===== *)
(** * Credential redaction: redact.go

    The three regular expressions of the file are patterns over byte strings:
    a pattern maps a text to the remainders its matches leave, the preferred
    match first, which is the leftmost-first order of Go's [regexp]. [(?i)]
    folds ASCII case, and the two runes that fold to an ASCII letter (the
    Kelvin sign to [k], the long s to [s]). *)
From S2P Require Import Prelude GoStd Types.
From Stdlib Require Import Ascii.
#[local] Open Scope string_scope.

(** ** Patterns *)
Module Pattern.
Definition t : Type := string -> list string.

(** The UTF-8 encodings of U+212A (Kelvin sign) and U+017F (long s). *)
Definition kelvin : string := String "226" (String "132" (String "170" "")).
Definition long_s : string := String "197" (String "191" "").

(** One letter [c] (in lower case) under [(?i)]. *)
Definition letter (c : ascii) : t := fun s =>
  match s with
  | String a rest =>
      if Ascii.eqb (strings.lower_byte a) c then [rest]
      else if Ascii.eqb c "k" then option_list (strings.CutPrefix kelvin s)
      else if Ascii.eqb c "s" then option_list (strings.CutPrefix long_s s)
      else []
  | EmptyString => []
  end.

Definition seq (p q : t) : t := fun s => p s ≫= q.
Definition alt (ps : list t) : t := fun s => ps ≫= fun p => p s.
Definition opt (p : t) : t := fun s => (p s ++ [s])%list.
Definition empty : t := fun s => [s].

Fixpoint word (w : string) : t :=
  match w with
  | EmptyString => empty
  | String c w => seq (letter c) (word w)
  end.

Definition class (f : ascii -> bool) : t := fun s =>
  match s with String a rest => if f a then [rest] else [] | EmptyString => [] end.

(** [p+], greedy: longer matches come first. The fuel is the length of the
    text, which every repetition of a pattern that consumes shortens. *)
Fixpoint plus_fuel (fuel : nat) (p : t) : t := fun s =>
  match fuel with
  | O => []
  | S fuel => p s ≫= fun rest => (plus_fuel fuel p rest ++ [rest])%list
  end.
Definition plus (p : t) : t := fun s => plus_fuel (String.length s) p s.

(** [MatchString]: some position of the text starts a match. *)
Fixpoint found (p : t) (s : string) : bool :=
  match p s with
  | _ :: _ => true
  | [] => match s with EmptyString => false | String _ s => found p s end
  end.

(** [ReplaceAllString]: the text is scanned from left to right; a match is
    replaced and the scan goes on after it ([skip] counts its bytes). *)
Fixpoint replace_from (p : t) (repl : string -> string) (skip : nat) (s : string) : string :=
  match s with
  | EmptyString => EmptyString
  | String c s' =>
      match skip with
      | S skip => replace_from p repl skip s'
      | O =>
          match p s with
          | rest :: _ =>
              let n := String.length s - String.length rest in
              repl (strings.take n s) +:+ replace_from p repl (n - 1) s'
          | [] => String c (replace_from p repl 0 s')
          end
      end
  end.
Definition replace_all (p : t) (repl : string -> string) : string -> string :=
  replace_from p repl 0.
End Pattern.

Definition in_chars (chars : string) (c : ascii) : bool :=
  existsb (Ascii.eqb c) (String.list_ascii_of_string chars).

(** [api[_-]?key] *)
Definition api_key : Pattern.t :=
  Pattern.seq (Pattern.word "api")
    (Pattern.seq (Pattern.opt (Pattern.class (in_chars "_-"))) (Pattern.word "key")).

Definition secretNamePattern : Pattern.t :=
  Pattern.alt (api_key :: map Pattern.word
    ["token"; "secret"; "password"; "authorization"; "credential"; "bearer"; "cookie";
     "set-cookie"]).

(** [\s], and the class [[A-Za-z0-9._~+/=-]] under [(?i)]. *)
Definition re_space : Pattern.t :=
  Pattern.class (fun c => one_of (String c "")
    [" "; String "009" ""; String "010" ""; String "012" ""; String "013" ""]).
Definition bearer_char : Pattern.t :=
  Pattern.alt [Pattern.class (in_chars
      "abcdefghijklmnopqrstuvwxyzABCDEFGHIJKLMNOPQRSTUVWXYZ0123456789._~+/=-");
    fun s => option_list (strings.CutPrefix Pattern.kelvin s);
    fun s => option_list (strings.CutPrefix Pattern.long_s s)].

Definition bearerPattern : Pattern.t :=
  Pattern.seq (Pattern.word "bearer")
    (Pattern.seq (Pattern.plus re_space) (Pattern.plus bearer_char)).

(** The bytes that end a secret value: space, newline, carriage return, tab,
    comma, double quote, single quote, closing brace. *)
Definition value_char (c : ascii) : bool :=
  negb (existsb (Ascii.eqb c) [" "; "010"; "013"; "009"; ","; "034"; "'"; "}"]%char).

Definition assignmentSecretPattern : Pattern.t :=
  Pattern.seq
    (Pattern.alt (api_key :: map Pattern.word
       ["token"; "secret"; "password"; "authorization"; "credential"]))
    (Pattern.seq (Pattern.class (Ascii.eqb "="))
       (Pattern.plus (Pattern.class value_char))).

(** The template [$1=[REDACTED]]: the first group is the text before the [=],
    since no alternative of the group contains one. *)
Definition redact_assignment (matched : string) : string :=
  match strings.Cut matched "=" with
  | Some (name, _) => name +:+ "=[REDACTED]"
  | None => "=[REDACTED]"
  end.

Definition RedactString (value : string) : string :=
  let value := Pattern.replace_all bearerPattern (fun _ => "Bearer [REDACTED]") value in
  Pattern.replace_all assignmentSecretPattern redact_assignment value.

Definition secret_name (key : string) : bool := Pattern.found secretNamePattern key.

Fixpoint redactMetadataValue (value : any) : any :=
  match value with
  | AString s => AString (RedactString s)
  | AMap m => AMap (map (fun '(k, v) =>
      (k, if secret_name k then AString "[REDACTED]" else redactMetadataValue v)) m)
  | AList l => AList (map redactMetadataValue l)
  | _ => value
  end.

(** [RedactMetadata] and [RedactStringMap]; the nil map stays nil. *)
Definition redact_any_entry (key : string) (value : any) : option any :=
  Some (if secret_name key then AString "[REDACTED]" else redactMetadataValue value).
Definition RedactMetadata (metadata : AnyMap) : AnyMap :=
  match metadata with
  | None => None
  | Some m => Some (map_imap redact_any_entry m)
  end.

Definition redact_string_entry (key value : string) : option string :=
  Some (if secret_name key then "[REDACTED]" else RedactString value).
Definition RedactStringMap (metadata : StringMap) : StringMap :=
  match metadata with
  | None => None
  | Some m => Some (map_imap redact_string_entry m)
  end.

Definition RedactEnv (env : list string) : list string :=
  map (fun item =>
    match strings.Cut item "=" with
    | None => RedactString item
    | Some (name, value) =>
        if secret_name name then name +:+ "=[REDACTED]"
        else name +:+ "=" +:+ RedactString value
    end) env.

Example RedactString_examples :
  map RedactString ["Authorization: BEARER  ab.c=; token=xyz, ok"; "api-key=1 API_KEY=2"; "plain"]
  = ["Authorization: Bearer [REDACTED]; token=[REDACTED], ok";
     "api-key=[REDACTED] API_KEY=[REDACTED]"; "plain"].
Proof. vm_compute. reflexivity. Qed.

(** ** Secrets under their names *)

(** A value in which a key that names a secret carries nothing but the marker, at
    any depth. *)
Fixpoint hidden (v : any) : Prop :=
  match v with
  | AMap m => (fix each (m : GoMap any) : Prop :=
      match m with
      | [] => True
      | (k, x) :: m => (if secret_name k then x = AString "[REDACTED]" else hidden x) /\ each m
      end) m
  | AList l => (fix each (l : list any) : Prop := match l with [] => True | x :: l => hidden x /\ each l end) l
  | _ => True
  end.

Lemma redactMetadataValue_hidden v : hidden (redactMetadataValue v).
Proof.
  induction v as [s|l IH|m IH|v Hv] using any_nested_ind; [done| | |by destruct v].
  - induction IH as [|x l Hx _ IHl]; [done|]. exact (conj Hx IHl).
  - induction m as [|[k x] m IHm]; [done|]. apply Forall_cons in IH as [Hx Hm]. specialize (IHm Hm).
    cbn [redactMetadataValue map]. split; [by destruct (secret_name k)|exact IHm].
Qed.

(** The keys of a map, the length of a list and every other value survive. *)
Lemma redactMetadataValue_shape v :
  match v with
  | AString s => redactMetadataValue v = AString (RedactString s)
  | AMap m => exists m', redactMetadataValue v = AMap m' /\ m'.*1 = m.*1
  | AList l => exists l', redactMetadataValue v = AList l' /\ length l' = length l
  | _ => redactMetadataValue v = v
  end.
Proof.
  destruct v; try done.
  - eexists. split; [reflexivity|]. induction m as [|[k x] m IH]; [done|]. exact (f_equal (cons k) IH).
  - eexists. split; [reflexivity|]. apply length_map.
Qed.

