(* ===== verification/Errors.v ===== *)
(** * Classified errors: errors.go, and [ensureSDKError] of policy.go

    [SDKError] values are built by [NewError] from a category and a list of
    options; [errors.As] and [errors.Is] follow the chain of wrapped causes. *)
From S2P Require Import Prelude GoStd Types Redact.
#[local] Open Scope string_scope.

(** The method [Error] of [*SDKError]; [None] is the nil pointer. *)
Definition SDKError_Error (e : option SDKError) : string :=
  match e with
  | None => "<nil>"
  | Some e =>
      if err_Operation e =s "" then err_Category e +:+ ": " +:+ err_UserDetail e
      else if err_UserDetail e =s "" then err_Operation e +:+ ": " +:+ err_Category e
      else err_Operation e +:+ ": " +:+ err_Category e +:+ ": " +:+ err_UserDetail e
  end.

(** The method [Unwrap] of [*SDKError] *)
Definition SDKError_Unwrap (e : option SDKError) : option error := e ≫= err_Cause.

(** The method [Error] of an [error] value. *)
Fixpoint error_Error (e : error) : string :=
  match e with
  | ESDK s => SDKError_Error (Some s)
  | ECanceled => "context canceled"
  | EDeadlineExceeded => "context deadline exceeded"
  | EWrap msg inner => msg +:+ ": " +:+ error_Error inner
  | EOther msg => msg
  end.

Definition ErrorOption : Type := SDKError -> SDKError.

Definition NewError (category : ErrorCategory) (operation userDetail : string)
    (cause : option error) (opts : list ErrorOption) : SDKError :=
  foldl (fun err opt => opt err)
    (zero <| err_Category := category |> <| err_Operation := operation |>
          <| err_UserDetail := userDetail |> <| err_Cause := cause |>)
    opts.

Definition WithDebugDetail (detail : string) : ErrorOption :=
  fun err => err <| err_DebugDetail := detail |>.
Definition WithStatusCode (status : Z) : ErrorOption :=
  fun err => err <| err_StatusCode := status |>.
Definition WithResponse (headers : StringMap) (body : string) : ErrorOption :=
  fun err => err <| err_ResponseHeaders := RedactStringMap headers |>
                 <| err_ResponseBody := RedactString body |>.
Definition WithProviderModel (provider : ProviderID) (model : ModelID) : ErrorOption :=
  fun err => err <| err_Provider := provider |> <| err_Model := model |>.
Definition WithRuntimeKind (kind : RuntimeKind) : ErrorOption :=
  fun err => err <| err_RuntimeKind := kind |>.
Definition WithExitCode (exitCode : Z) : ErrorOption :=
  fun err => err <| err_ExitCode := Some exitCode |>.
Definition WithSignal (signal : string) : ErrorOption :=
  fun err => err <| err_Signal := signal |>.
Definition WithNativeType (nativeType : string) : ErrorOption :=
  fun err => err <| err_NativeType := nativeType |>.
Definition WithRetryAfter (delay : Duration) : ErrorOption :=
  fun err => err <| err_RetryAfter := delay |>.
Definition WithMetadata (metadata : StringMap) : ErrorOption :=
  fun err => err <| err_Metadata := RedactStringMap metadata |>.

(** [errors.As(err, **SDKError)]: the first [SDKError] of the chain. Matching
    stops at the first one, so its own cause is never reached. *)
Fixpoint ErrorAs (err : error) : option SDKError :=
  match err with
  | ESDK e => Some e
  | EWrap _ inner => ErrorAs inner
  | _ => None
  end.

(** [errors.Is] for the two context errors. *)
Fixpoint errors_Is (target : error -> bool) (err : error) : bool :=
  target err ||
  match err with
  | ESDK e => match err_Cause e with Some c => errors_Is target c | None => false end
  | EWrap _ inner => errors_Is target inner
  | _ => false
  end.
Definition is_Canceled (e : error) : bool := match e with ECanceled => true | _ => false end.
Definition is_DeadlineExceeded (e : error) : bool :=
  match e with EDeadlineExceeded => true | _ => false end.

(** [ensureSDKError] of policy.go *)
Definition ensureSDKError (err : option error) (operation : string) : option SDKError :=
  match err with
  | None => None
  | Some err =>
      match ErrorAs err with
      | Some sdkErr => Some sdkErr
      | None => Some (NewError ErrorUnknown operation "runtime attempt failed" (Some err)
                        [WithDebugDetail (error_Error err)])
      end
  end.

(** ** Facts *)

(** Options other than the constructor's own arguments leave the category,
    operation, user detail and cause as [NewError] set them. *)
Definition keeps_identity (opt : ErrorOption) : Prop :=
  forall err, err_Category (opt err) = err_Category err /\
              err_Operation (opt err) = err_Operation err /\
              err_UserDetail (opt err) = err_UserDetail err /\
              err_Cause (opt err) = err_Cause err.

Lemma NewError_identity category operation userDetail cause opts :
  Forall keeps_identity opts ->
  let err := NewError category operation userDetail cause opts in
  err_Category err = category /\ err_Operation err = operation /\
  err_UserDetail err = userDetail /\ err_Cause err = cause.
Proof.
  unfold NewError. intros Hopts. cbn zeta.
  set (err0 := _ <| err_Cause := cause |>).
  assert (err_Category err0 = category /\ err_Operation err0 = operation /\
          err_UserDetail err0 = userDetail /\ err_Cause err0 = cause) as H0 by done.
  clearbody err0. revert err0 H0.
  induction Hopts as [|opt opts Hopt _ IH]; intros err0 H0; [done|].
  cbn. apply IH. destruct (Hopt err0) as (-> & -> & -> & ->). done.
Qed.

Lemma ensureSDKError_is_Some err operation :
  is_Some (ensureSDKError (Some err) operation).
Proof. cbn. destruct (ErrorAs err); eauto. Qed.

Lemma ensureSDKError_None_iff err operation : ensureSDKError err operation = None <-> err = None.
Proof. destruct err as [e|]; cbn; [destruct (ErrorAs e)|]; naive_solver. Qed.
#[export] Hint Resolve ensureSDKError_is_Some : agentwrap.
