(* ===== verification/Events.v ===== *)
(** * Run status and canonical events: lifecycle.go, lifecycle_events.go, events.go

    [Terminal], the constructors of lifecycle and session events, the kind
    projection kept in the payload, the tool observation carried by a payload,
    and the status read back from a payload ([coerceStatus] and
    [statusFromPayload] of observability.go). *)
From S2P Require Import Prelude GoStd Types Redact.
#[local] Open Scope string_scope.

(** ** lifecycle.go *)
Definition StatusStarting : RunStatus := "starting".
Definition StatusRunning : RunStatus := "running".
Definition StatusValidating : RunStatus := "validating".
Definition StatusRepairing : RunStatus := "repairing".
Definition StatusCompleted : RunStatus := "completed".
Definition StatusFailed : RunStatus := "failed".
Definition StatusCancelled : RunStatus := "cancelled".

Definition Terminal (s : RunStatus) : bool :=
  one_of s [StatusCompleted; StatusFailed; StatusCancelled].

(** ** events.go *)
Definition EventLifecycle : EventKind := "lifecycle".
Definition EventSession : EventKind := "session".
Definition EventMessage : EventKind := "message".
Definition EventProgress : EventKind := "progress".
Definition EventTool : EventKind := "tool".
Definition EventArtifact : EventKind := "artifact".
Definition EventPermission : EventKind := "permission".
Definition EventBlocking : EventKind := "blocking".
Definition EventUsage : EventKind := "usage".
Definition EventWarning : EventKind := "warning".
Definition EventFatalError : EventKind := "fatal_error".
Definition EventRateLimit : EventKind := "rate_limit".
Definition EventValidation : EventKind := "validation".
Definition EventRetry : EventKind := "retry".
Definition EventFallback : EventKind := "fallback".
Definition EventFinalResult : EventKind := "final_result".
Definition EventNativeExtension : EventKind := "native_extension".

Definition eventKindPayloadKey : string := "event_kind".
Definition ToolCallIDPayloadKey : string := "tool_call_id".
Definition ToolNamePayloadKey : string := "tool_name".
Definition ToolStatusPayloadKey : string := "tool_status".
Definition ToolArgumentsPayloadKey : string := "tool_arguments".
Definition ToolResultPayloadKey : string := "tool_result".
Definition ToolErrorPayloadKey : string := "tool_error".

Record ToolObservation := mkToolObservation {
  to_CallID : string;
  to_Name : string;
  to_Status : string;
  to_Arguments : any;
  to_Result : any;
  to_Error : any
}.
#[global] Instance eta_ToolObservation : Eta ToolObservation := fun r =>
  mkToolObservation (to_CallID r) (to_Name r) (to_Status r) (to_Arguments r)
    (to_Result r) (to_Error r).
#[global] Instance zero_ToolObservation : Zero ToolObservation :=
  mkToolObservation zero zero zero zero zero zero.

Definition is_nil (v : any) : bool := match v with ANil => true | _ => false end.

Definition put_if (b : bool) (key : string) (v : any) (m : gmap string any) : gmap string any :=
  if b then <[key := v]> m else m.

Definition EventPayloadWithToolObservation (values : EventPayload) (tool : ToolObservation)
    : EventPayload :=
  let payload : gmap string any := default ∅ values in
  let payload := put_if (negb (to_CallID tool =s "")) ToolCallIDPayloadKey
                   (AString (to_CallID tool)) payload in
  let payload := put_if (negb (to_Name tool =s "")) ToolNamePayloadKey
                   (AString (to_Name tool)) payload in
  let payload := put_if (negb (to_Name tool =s "")) "tool" (AString (to_Name tool)) payload in
  let payload := put_if (negb (to_Status tool =s "")) ToolStatusPayloadKey
                   (AString (to_Status tool)) payload in
  let payload := put_if (negb (is_nil (to_Arguments tool))) ToolArgumentsPayloadKey
                   (redactMetadataValue (to_Arguments tool)) payload in
  let payload := put_if (negb (is_nil (to_Result tool))) ToolResultPayloadKey
                   (redactMetadataValue (to_Result tool)) payload in
  let payload := put_if (negb (is_nil (to_Error tool))) ToolErrorPayloadKey
                   (redactMetadataValue (to_Error tool)) payload in
  Some payload.

(** [value.(string)] with the ok flag dropped. *)
Definition stringPayloadValue (value : any) : string :=
  match value with AString s => s | _ => "" end.

Definition EventPayloadWithKind (kind : EventKind) (values : EventPayload) : EventPayload :=
  Some (<[eventKindPayloadKey := ANamed "EventKind" kind]> (default ∅ values : gmap string any)).

(** [(Event).Kind] *)
Definition Event_Kind (e : Event) : EventKind :=
  match ev_Payload e with
  | None => ""
  | Some _ =>
      match any_at (ev_Payload e) eventKindPayloadKey with
      | ANamed ty kind => if ty =s "EventKind" then kind else ""
      | AString kind => kind
      | _ => ""
      end
  end.

(** [(Event).ToolObservation] *)
Definition Event_ToolObservation (e : Event) : ToolObservation * bool :=
  if negb (Event_Kind e =s EventTool) then (zero, false)
  else
    match ev_Payload e with
    | None => (zero, false)
    | Some _ =>
        let tool := mkToolObservation
          (stringPayloadValue (any_at (ev_Payload e) ToolCallIDPayloadKey))
          (stringPayloadValue (any_at (ev_Payload e) ToolNamePayloadKey))
          (stringPayloadValue (any_at (ev_Payload e) ToolStatusPayloadKey))
          (any_at (ev_Payload e) ToolArgumentsPayloadKey)
          (any_at (ev_Payload e) ToolResultPayloadKey)
          (any_at (ev_Payload e) ToolErrorPayloadKey) in
        let tool :=
          if to_Name tool =s ""
          then tool <| to_Name := stringPayloadValue (any_at (ev_Payload e) "tool") |>
          else tool in
        (tool, negb (to_CallID tool =s "") || negb (to_Name tool =s "")
               || negb (is_nil (to_Arguments tool)) || negb (is_nil (to_Result tool))
               || negb (is_nil (to_Error tool)))
    end.

(** ** lifecycle_events.go *)

(** The loop of [itoa64] over its 20-byte buffer: digits from the right while
    [v > 0]. A negative [v] writes nothing. *)
Definition itoa64 (v : Z) : string :=
  if (v =? 0)%Z then "0" else digits_of 20 v "".

Definition LifecycleEvent (runID : RunID) (sessionID : SessionID) (turnID : TurnID)
    (ctx : RuntimeContext) (seq : Z) (at_ : Time) (from to : RunStatus) (reason : string) : Event :=
  zero <| ev_ID := runID +:+ "-lifecycle-" +:+ itoa64 seq |>
       <| ev_RunID := runID |>
       <| ev_SessionID := sessionID |>
       <| ev_Time := at_ |>
       <| ev_Type := "lifecycle.transition" |>
       <| ev_Payload := EventPayloadWithKind EventLifecycle (Some (list_to_map
            [("from", AString from); ("to", AString to); ("reason", AString reason);
             ("turn_id", AString turnID)])) |>.

Definition SessionEvent (runID : RunID) (sessionID : SessionID) (turnID : TurnID)
    (ctx : RuntimeContext) (seq : Z) (at_ : Time) (metadata : SessionMetadata) : Event :=
  zero <| ev_ID := runID +:+ "-session-" +:+ itoa64 seq |>
       <| ev_RunID := runID |>
       <| ev_SessionID := sessionID |>
       <| ev_Time := at_ |>
       <| ev_Type := "session.relationship" |>
       <| ev_Payload := EventPayloadWithKind EventSession (Some (list_to_map
            [("requested_action", AString (sm_RequestedAction metadata));
             ("relationship", AString (sm_Relationship metadata));
             ("requested_id", AString (sm_RequestedID metadata));
             ("session_id", AString (sm_ID metadata));
             ("unsupported", AString (sm_UnsupportedReason metadata));
             ("best_effort", ABool (sm_BestEffort metadata));
             ("turn_id", AString turnID)])) |>.

(** ** Status read back from a payload (observability.go) *)
Definition coerceStatus (value : any) : option RunStatus :=
  match value with
  | ANamed ty v => if ty =s "RunStatus" then Some v else None
  | AString v =>
      if one_of v [StatusStarting; StatusRunning; StatusValidating; StatusRepairing;
                   StatusCompleted; StatusFailed; StatusCancelled]
      then Some v else None
  | _ => None
  end.

Fixpoint first_status (payload : EventPayload) (keys : list string) : option RunStatus :=
  match keys with
  | [] => None
  | key :: keys =>
      match coerceStatus (any_at payload key) with
      | Some status => Some status
      | None => first_status payload keys
      end
  end.

Definition statusFromPayload (payload : EventPayload) : option RunStatus :=
  first_status payload ["state"; "status"; "to"].
