(* ===== verification/Config.v ===== *)
(** * Source-aware configuration: config.go, and [SecretFromEnv] of redact.go

    [MergeEffectiveConfig] folds layers from low to high precedence;
    [ValidateEffectiveConfig] rejects values that are set but unusable. *)
From S2P Require Import Prelude GoStd Types Redact Errors.
#[local] Open Scope string_scope.

Definition ConfigSource := string.
Definition ConfigSourceDefault : ConfigSource := "default".
Definition ConfigSourceAdapterOption : ConfigSource := "adapter_option".
Definition ConfigSourceEnvironment : ConfigSource := "environment".
Definition ConfigSourceConfigProvider : ConfigSource := "config_provider".
Definition ConfigSourceCallerRequest : ConfigSource := "caller_request".
Definition ConfigSourceRuntimeDiscovered : ConfigSource := "runtime_discovered".

Record ConfigValue (T : Type) := mkConfigValue {
  cv_Value : T;
  cv_Source : ConfigSource;
  cv_Set : bool
}.
Arguments mkConfigValue {T}.
Arguments cv_Value {T}.
Arguments cv_Source {T}.
Arguments cv_Set {T}.
#[global] Instance zero_ConfigValue {T} `{Zero T} : Zero (ConfigValue T) :=
  mkConfigValue zero zero false.

(** [(ConfigValue).String], with [fmt.Sprint] of the type of the value. *)
Definition ConfigValue_String {T} (Sprint : T -> string) (v : ConfigValue T) : string :=
  if negb (cv_Set v) then "" else Sprint (cv_Value v).

Record SecretValue := mkSecretValue {
  sv_Name : string;
  sv_Source : ConfigSource;
  sv_Present : bool
}.
#[global] Instance eta_SecretValue : Eta SecretValue := fun r =>
  mkSecretValue (sv_Name r) (sv_Source r) (sv_Present r).
#[global] Instance zero_SecretValue : Zero SecretValue :=
  mkSecretValue zero zero zero.

Record EffectiveConfig := mkEffectiveConfig {
  ec_RuntimeKind : RuntimeKind;
  ec_RuntimeName : ConfigValue string;
  ec_Executable : ConfigValue string;
  ec_Provider : ConfigValue ProviderID;
  ec_Model : ConfigValue ModelID;
  ec_WorkDir : ConfigValue string;
  ec_Permissions : ConfigValue PermissionMode;
  ec_Sandbox : ConfigValue SandboxMode;
  ec_Timeout : ConfigValue Duration;
  ec_SessionID : ConfigValue SessionID;
  ec_Metadata : option (gmap string (ConfigValue string));
  ec_Secrets : list SecretValue
}.
#[global] Instance eta_EffectiveConfig : Eta EffectiveConfig := fun r =>
  mkEffectiveConfig (ec_RuntimeKind r) (ec_RuntimeName r) (ec_Executable r)
    (ec_Provider r) (ec_Model r) (ec_WorkDir r) (ec_Permissions r) (ec_Sandbox r)
    (ec_Timeout r) (ec_SessionID r) (ec_Metadata r) (ec_Secrets r).
#[global] Instance zero_EffectiveConfig : Zero EffectiveConfig :=
  mkEffectiveConfig zero zero zero zero zero zero zero zero zero zero zero zero.

Record ConfigLayer := mkConfigLayer {
  ly_Source : ConfigSource;
  ly_RuntimeName : option string;
  ly_Executable : option string;
  ly_Provider : option ProviderID;
  ly_Model : option ModelID;
  ly_WorkDir : option string;
  ly_Permissions : option PermissionMode;
  ly_Sandbox : option SandboxMode;
  ly_Timeout : option Duration;
  ly_SessionID : option SessionID;
  ly_Metadata : StringMap;
  ly_Secrets : list SecretValue
}.
#[global] Instance eta_ConfigLayer : Eta ConfigLayer := fun r =>
  mkConfigLayer (ly_Source r) (ly_RuntimeName r) (ly_Executable r) (ly_Provider r)
    (ly_Model r) (ly_WorkDir r) (ly_Permissions r) (ly_Sandbox r) (ly_Timeout r)
    (ly_SessionID r) (ly_Metadata r) (ly_Secrets r).
#[global] Instance zero_ConfigLayer : Zero ConfigLayer :=
  mkConfigLayer zero zero zero zero zero zero zero zero zero zero zero zero.

(** [if layer.F != nil { cfg.F = ConfigValue{Value: *layer.F, Source: layer.Source, Set: true} }] *)
Definition set_value {T} (source : ConfigSource) (p : option T) (cv : ConfigValue T) : ConfigValue T :=
  match p with Some v => mkConfigValue v source true | None => cv end.

(** The body of the loop over the layers. *)
Definition apply_layer (cfg : EffectiveConfig) (layer : ConfigLayer) : EffectiveConfig :=
  let src := ly_Source layer in
  cfg <| ec_RuntimeName ::= set_value src (ly_RuntimeName layer) |>
      <| ec_Executable ::= set_value src (ly_Executable layer) |>
      <| ec_Provider ::= set_value src (ly_Provider layer) |>
      <| ec_Model ::= set_value src (ly_Model layer) |>
      <| ec_WorkDir ::= set_value src (ly_WorkDir layer) |>
      <| ec_Permissions ::= set_value src (ly_Permissions layer) |>
      <| ec_Sandbox ::= set_value src (ly_Sandbox layer) |>
      <| ec_Timeout ::= set_value src (ly_Timeout layer) |>
      <| ec_SessionID ::= set_value src (ly_SessionID layer) |>
      <| ec_Metadata ::= fun m =>
           Some (((fun v => mkConfigValue v src true) <$> default ∅ (ly_Metadata layer)) ∪ default ∅ m) |>
      <| ec_Secrets ::= fun l => (l ++ map (fun s => s <| sv_Source := src |>) (ly_Secrets layer))%list |>.

Definition MergeEffectiveConfig (kind : RuntimeKind) (layers : list ConfigLayer) : EffectiveConfig :=
  foldl apply_layer
    (zero <| ec_RuntimeKind := kind |> <| ec_Metadata := Some ∅ |>) layers.

Definition configValidationError (detail : string) : SDKError :=
  NewError ErrorConfiguration "config validation" detail (Some (EOther detail)) [].

Definition ValidateEffectiveConfig (cfg : EffectiveConfig) : option SDKError :=
  if cv_Set (ec_RuntimeName cfg) && (cv_Value (ec_RuntimeName cfg) =s "")
  then Some (configValidationError "runtime name cannot be empty")
  else if cv_Set (ec_Executable cfg) && (cv_Value (ec_Executable cfg) =s "")
  then Some (configValidationError "runtime executable cannot be empty")
  else if cv_Set (ec_Provider cfg) && (cv_Value (ec_Provider cfg) =s "")
  then Some (configValidationError "provider cannot be empty when set")
  else if cv_Set (ec_Model cfg) && (cv_Value (ec_Model cfg) =s "")
  then Some (configValidationError "model cannot be empty when set")
  else if cv_Set (ec_Timeout cfg) && (cv_Value (ec_Timeout cfg) <? 0)%Z
  then Some (configValidationError "timeout cannot be negative")
  else if cv_Set (ec_WorkDir cfg) && (cv_Value (ec_WorkDir cfg) =s "")
  then Some (configValidationError "workdir cannot be empty when set")
  else None.

(** [&req.F] when the field is set, the nil pointer otherwise. *)
Definition ptr_if (s : string) : option string := if s =s "" then None else Some s.

Definition CallerConfigLayer (req : RunRequest) : ConfigLayer :=
  zero <| ly_Source := ConfigSourceCallerRequest |>
       <| ly_Metadata := req_Metadata req |>
       <| ly_Provider := ptr_if (req_Provider req) |>
       <| ly_Model := ptr_if (req_Model req) |>
       <| ly_WorkDir := ptr_if (req_WorkDir req) |>
       <| ly_Permissions := ptr_if (req_Permissions req) |>
       <| ly_Sandbox := ptr_if (req_Sandbox req) |>
       <| ly_Timeout := if (req_Timeout req =? 0)%Z then None else Some (req_Timeout req) |>
       <| ly_SessionID := ptr_if (req_SessionID req) |>.

(** [SecretFromEnv] of redact.go *)
Definition SecretFromEnv (env : string) (source : ConfigSource) : SecretValue * bool :=
  match strings.Cut env "=" with
  | Some (name, _) =>
      if secret_name name then (mkSecretValue name source true, true) else (zero, false)
  | None => (zero, false)
  end.

(** ** Precedence *)

(** The value a field should have: that of the last layer that sets it. *)
Fixpoint last_set {T} (field : ConfigLayer -> option T) (layers : list ConfigLayer)
    : option (T * ConfigSource) :=
  match layers with
  | [] => None
  | ly :: layers =>
      match last_set field layers with
      | Some r => Some r
      | None => (fun v => (v, ly_Source ly)) <$> field ly
      end
  end.

Definition value_of {T} (r : option (T * ConfigSource)) (cv : ConfigValue T) : ConfigValue T :=
  match r with Some (v, src) => mkConfigValue v src true | None => cv end.

Lemma last_set_cons {T} (field : ConfigLayer -> option T) ly layers cv :
  value_of (last_set field (ly :: layers)) cv =
  value_of (last_set field layers) (set_value (ly_Source ly) (field ly) cv).
Proof. cbn. destruct (last_set field layers) as [[v src]|], (field ly); done. Qed.

(** The merged metadata of one key: the last layer that has the key wins. *)
Definition meta_field (key : string) (ly : ConfigLayer) : option string :=
  ly_Metadata ly ≫= fun m => m !! key.

Section Merge.
Context (layers : list ConfigLayer).

Lemma foldl_apply_layer_fields cfg :
  let cfg' := foldl apply_layer cfg layers in
  ec_RuntimeKind cfg' = ec_RuntimeKind cfg /\
  ec_RuntimeName cfg' = value_of (last_set ly_RuntimeName layers) (ec_RuntimeName cfg) /\
  ec_Executable cfg' = value_of (last_set ly_Executable layers) (ec_Executable cfg) /\
  ec_Provider cfg' = value_of (last_set ly_Provider layers) (ec_Provider cfg) /\
  ec_Model cfg' = value_of (last_set ly_Model layers) (ec_Model cfg) /\
  ec_WorkDir cfg' = value_of (last_set ly_WorkDir layers) (ec_WorkDir cfg) /\
  ec_Permissions cfg' = value_of (last_set ly_Permissions layers) (ec_Permissions cfg) /\
  ec_Sandbox cfg' = value_of (last_set ly_Sandbox layers) (ec_Sandbox cfg) /\
  ec_Timeout cfg' = value_of (last_set ly_Timeout layers) (ec_Timeout cfg) /\
  ec_SessionID cfg' = value_of (last_set ly_SessionID layers) (ec_SessionID cfg).
Proof.
  revert cfg. induction layers as [|ly rest IH]; intros cfg; [done|].
  destruct (IH (apply_layer cfg ly)) as (H0&H1&H2&H3&H4&H5&H6&H7&H8&H9).
  cbn [foldl]. rewrite !last_set_cons. cbn zeta. repeat split; first
    [rewrite H0 | rewrite H1 | rewrite H2 | rewrite H3 | rewrite H4 | rewrite H5
    | rewrite H6 | rewrite H7 | rewrite H8 | rewrite H9]; done.
Qed.

Lemma foldl_apply_layer_metadata cfg key :
  default ∅ (ec_Metadata (foldl apply_layer cfg layers)) !! key =
  match last_set (meta_field key) layers with
  | Some (v, src) => Some (mkConfigValue v src true)
  | None => default ∅ (ec_Metadata cfg) !! key
  end.
Proof.
  revert cfg. induction layers as [|ly rest IH]; intros cfg; [done|].
  cbn [foldl last_set]. rewrite IH. destruct (last_set _ rest) as [[v src]|]; [done|].
  cbn. rewrite lookup_union, lookup_fmap. unfold meta_field.
  destruct (ly_Metadata ly) as [m|]; cbn.
  - destruct (m !! key); cbn; destruct (default ∅ (ec_Metadata cfg) !! key); done.
  - rewrite lookup_empty. cbn. by destruct (default ∅ (ec_Metadata cfg) !! key).
Qed.

Lemma foldl_apply_layer_secrets cfg :
  ec_Secrets (foldl apply_layer cfg layers) =
  (ec_Secrets cfg ++
   (layers ≫= fun ly => map (fun s => s <| sv_Source := ly_Source ly |>) (ly_Secrets ly)))%list.
Proof.
  revert cfg. induction layers as [|ly rest IH]; intros cfg; cbn [foldl].
  - cbn. by rewrite app_nil_r.
  - rewrite IH. cbn. by rewrite <-app_assoc.
Qed.
End Merge.

(** Merging layers gives every field the value and the source of the last
    layer that sets it (and leaves it unset when none does), every metadata
    key the value of the last layer that has it, and collects all secrets in
    layer order under their layer's source. *)
Theorem MergeEffectiveConfig_precedence kind layers :
  let cfg := MergeEffectiveConfig kind layers in
  ec_RuntimeKind cfg = kind /\
  ec_Executable cfg = value_of (last_set ly_Executable layers) zero /\
  ec_Provider cfg = value_of (last_set ly_Provider layers) zero /\
  ec_Model cfg = value_of (last_set ly_Model layers) zero /\
  ec_WorkDir cfg = value_of (last_set ly_WorkDir layers) zero /\
  ec_Timeout cfg = value_of (last_set ly_Timeout layers) zero /\
  ec_SessionID cfg = value_of (last_set ly_SessionID layers) zero /\
  (forall key, default ∅ (ec_Metadata cfg) !! key =
     (fun '(v, src) => mkConfigValue v src true) <$> last_set (meta_field key) layers) /\
  ec_Secrets cfg =
    layers ≫= fun ly => map (fun s => s <| sv_Source := ly_Source ly |>) (ly_Secrets ly).
Proof.
  unfold MergeEffectiveConfig. cbn zeta. set (cfg0 := zero <| ec_RuntimeKind := kind |> <| ec_Metadata := Some ∅ |>).
  destruct (foldl_apply_layer_fields layers cfg0) as (H0&H1&H2&H3&H4&H5&H6&H7&H8&H9).
  rewrite H0, H2, H3, H4, H5, H8, H9. repeat split.
  - intros key. rewrite foldl_apply_layer_metadata. destruct (last_set (meta_field key) layers) as [[v src]|]; [done|].
    exact (lookup_empty (M := gmap string) key).
  - apply foldl_apply_layer_secrets.
Qed.

(** ** Validation *)
Definition usable_string (cv : ConfigValue string) : Prop := cv_Set cv = true -> cv_Value cv <> "".

Definition config_usable (cfg : EffectiveConfig) : Prop :=
  usable_string (ec_RuntimeName cfg) /\ usable_string (ec_Executable cfg) /\
  usable_string (ec_Provider cfg) /\ usable_string (ec_Model cfg) /\
  (cv_Set (ec_Timeout cfg) = true -> (0 <= cv_Value (ec_Timeout cfg))%Z) /\
  usable_string (ec_WorkDir cfg).

Lemma usable_string_iff (cv : ConfigValue string) :
  usable_string cv <-> cv_Set cv && (cv_Value cv =s "") = false.
Proof.
  unfold usable_string. rewrite andb_false_iff, String.eqb_neq.
  destruct (cv_Set cv); intuition congruence.
Qed.

Lemma usable_timeout_iff (cv : ConfigValue Duration) :
  (cv_Set cv = true -> (0 <= cv_Value cv)%Z) <-> cv_Set cv && (cv_Value cv <? 0)%Z = false.
Proof. rewrite andb_false_iff, Z.ltb_ge. destruct (cv_Set cv); intuition congruence. Qed.

Lemma ValidateEffectiveConfig_None cfg :
  ValidateEffectiveConfig cfg = None <-> config_usable cfg.
Proof.
  unfold ValidateEffectiveConfig, config_usable.
  rewrite !usable_string_iff, usable_timeout_iff.
  unfold ProviderID, ModelID, Duration.
  repeat (case_match; [split; [done | intuition congruence] |]). intuition.
Qed.

(** [ValidateEffectiveConfig] accepts a configuration exactly when no field
    is set to a value the runtime cannot use, and every rejection is a
    configuration error that names its own detail as cause. *)
Theorem ValidateEffectiveConfig_spec cfg :
  (ValidateEffectiveConfig cfg = None <-> config_usable cfg) /\
  (forall err, ValidateEffectiveConfig cfg = Some err ->
     err_Category err = ErrorConfiguration /\ err_Cause err = Some (EOther (err_UserDetail err))).
Proof.
  split; [apply ValidateEffectiveConfig_None|].
  intros err. unfold ValidateEffectiveConfig.
  repeat (case_match; [by intros [= <-] |]). done.
Qed.

Lemma usable_set_ptr_if src s cv :
  usable_string cv -> usable_string (set_value src (ptr_if s) cv).
Proof. unfold ptr_if, usable_string. by case_str. Qed.

Lemma usable_set_timeout src t (cv : ConfigValue Duration) :
  (0 <= t)%Z -> (cv_Set cv = true -> (0 <= cv_Value cv)%Z) ->
  let cv' := set_value src (if (t =? 0)%Z then None else Some t) cv in
  cv_Set cv' = true -> (0 <= cv_Value cv')%Z.
Proof. cbn. by destruct (t =? 0)%Z. Qed.

(** An explicit setting of the caller takes precedence over every lower
    layer, and the caller layer never makes a merged configuration invalid
    unless the caller asked for a negative timeout. *)
Theorem caller_layer_wins kind layers req :
  let cfg := MergeEffectiveConfig kind (layers ++ [CallerConfigLayer req]) in
  (req_Provider req <> "" ->
     ec_Provider cfg = mkConfigValue (req_Provider req) ConfigSourceCallerRequest true) /\
  (req_Model req <> "" ->
     ec_Model cfg = mkConfigValue (req_Model req) ConfigSourceCallerRequest true) /\
  (ValidateEffectiveConfig (MergeEffectiveConfig kind layers) = None ->
   (0 <= req_Timeout req)%Z -> ValidateEffectiveConfig cfg = None).
Proof.
  unfold MergeEffectiveConfig. rewrite foldl_app. cbn [foldl].
  set (c := foldl apply_layer _ layers). cbn zeta. repeat split.
  - intros Hp. cbn. unfold ptr_if. by rewrite (proj2 (String.eqb_neq _ _) Hp).
  - intros Hm. cbn. unfold ptr_if. by rewrite (proj2 (String.eqb_neq _ _) Hm).
  - intros Hc Ht. apply ValidateEffectiveConfig_None. apply ValidateEffectiveConfig_None in Hc.
    destruct Hc as (?&?&?&?&?&?). unfold config_usable. cbn.
    split_and!; auto using usable_set_ptr_if, usable_set_timeout.
Qed.
