(* ===== verification/Health.v ===== *)
(** * Health reports: health.go

    [OverallHealthStatus] summarises the results of the preflight checks;
    [RequiredHealthFailure] turns a failing or missing required check into a
    classified error that blocks the run. *)
From S2P Require Import Prelude GoStd Types Redact Errors Config.
#[local] Open Scope string_scope.

Definition HealthCheckRuntimeAvailable : HealthCheckID := "runtime_available".
Definition HealthCheckStructuredOutput : HealthCheckID := "structured_output".
Definition HealthCheckWorkDir : HealthCheckID := "workdir".
Definition HealthCheckConfig : HealthCheckID := "config".
Definition HealthCheckProvider : HealthCheckID := "provider".
Definition HealthCheckModel : HealthCheckID := "model".
Definition HealthCheckAuthentication : HealthCheckID := "authentication".
Definition HealthCheckRuntimePaths : HealthCheckID := "runtime_paths".

Definition HealthStatus := string.
Definition HealthReady : HealthStatus := "ready".
Definition HealthDegraded : HealthStatus := "degraded".
Definition HealthTransientFail : HealthStatus := "transient_failure".
Definition HealthUnrecoverable : HealthStatus := "unrecoverable_failure".
Definition HealthUnknown : HealthStatus := "unknown".
Definition HealthSkipped : HealthStatus := "skipped".
Definition HealthUnsupported : HealthStatus := "unsupported".

Definition HealthSeverity := string.
Definition HealthSeverityInfo : HealthSeverity := "info".
Definition HealthSeverityWarn : HealthSeverity := "warn".
Definition HealthSeverityError : HealthSeverity := "error".

Record HealthResult := mkHealthResult {
  hr_Check : HealthCheckID;
  hr_Status : HealthStatus;
  hr_Severity : HealthSeverity;
  hr_UserDetail : string;
  hr_DebugDetail : string;
  hr_NativeMetadata : AnyMap;
  hr_Err : option SDKError;
  hr_StartedAt : Time;
  hr_FinishedAt : Time
}.
#[global] Instance eta_HealthResult : Eta HealthResult := fun r =>
  mkHealthResult (hr_Check r) (hr_Status r) (hr_Severity r) (hr_UserDetail r)
    (hr_DebugDetail r) (hr_NativeMetadata r) (hr_Err r) (hr_StartedAt r)
    (hr_FinishedAt r).
#[global] Instance zero_HealthResult : Zero HealthResult :=
  mkHealthResult zero zero zero zero zero zero zero zero zero.

Record HealthCheckRequest := mkHealthCheckRequest {
  hq_Context : RuntimeContext;
  hq_WorkDir : string;
  hq_Provider : ProviderID;
  hq_Model : ModelID;
  hq_Permissions : PermissionMode;
  hq_Sandbox : SandboxMode;
  hq_Timeout : Duration;
  hq_Metadata : StringMap;
  hq_Checks : list HealthCheckID;
  hq_RequiredChecks : list HealthCheckID;
  hq_IncludeRefresh : bool
}.
#[global] Instance eta_HealthCheckRequest : Eta HealthCheckRequest := fun r =>
  mkHealthCheckRequest (hq_Context r) (hq_WorkDir r) (hq_Provider r) (hq_Model r) (hq_Permissions r)
    (hq_Sandbox r) (hq_Timeout r) (hq_Metadata r) (hq_Checks r) (hq_RequiredChecks r) (hq_IncludeRefresh r).
#[global] Instance zero_HealthCheckRequest : Zero HealthCheckRequest :=
  mkHealthCheckRequest zero zero zero zero zero zero zero zero zero zero zero.

Record HealthReport := mkHealthReport {
  hp_Context : RuntimeContext;
  hp_EffectiveConfig : EffectiveConfig;
  hp_Results : list HealthResult;
  hp_OverallStatus : HealthStatus;
  hp_GeneratedAt : Time;
  hp_NativeMetadata : AnyMap
}.
#[global] Instance eta_HealthReport : Eta HealthReport := fun r =>
  mkHealthReport (hp_Context r) (hp_EffectiveConfig r) (hp_Results r)
    (hp_OverallStatus r) (hp_GeneratedAt r) (hp_NativeMetadata r).
#[global] Instance zero_HealthReport : Zero HealthReport :=
  mkHealthReport zero zero zero zero zero zero.

(** The cases of the [switch] of [OverallHealthStatus] that update [status]. *)
Definition overall_step (status s : HealthStatus) : HealthStatus :=
  if s =s HealthTransientFail then
    if negb (status =s HealthDegraded) then HealthTransientFail else status
  else if s =s HealthDegraded then HealthDegraded
  else if s =s HealthUnknown then
    if one_of status [HealthReady; HealthSkipped; HealthUnsupported] then HealthUnknown else status
  else if one_of s [HealthSkipped; HealthUnsupported] then
    if status =s HealthReady then s else status
  else status.

(** The loop; an unrecoverable result returns at once. *)
Fixpoint overall_loop (status : HealthStatus) (results : list HealthResult) : HealthStatus :=
  match results with
  | [] => status
  | result :: results =>
      if hr_Status result =s HealthUnrecoverable then HealthUnrecoverable
      else overall_loop (overall_step status (hr_Status result)) results
  end.

Definition OverallHealthStatus (results : list HealthResult) : HealthStatus :=
  overall_loop HealthReady results.

Definition AggregateHealth (report : HealthReport) : HealthReport :=
  report <| hp_OverallStatus := OverallHealthStatus (hp_Results report) |>.

Definition health_error (detail : string) (check : HealthCheckID) : SDKError :=
  NewError ErrorHealth "health preflight" detail None [WithDebugDetail check].

(** The failure of one required result, as the [switch] classifies it. *)
Definition result_failure (result : HealthResult) : option SDKError :=
  let s := hr_Status result in
  if one_of s [HealthReady; HealthSkipped] then None
  else match hr_Err result with
  | Some e => Some e
  | None =>
      if s =s HealthUnknown then Some (health_error "required health check is unknown" (hr_Check result))
      else if s =s HealthUnsupported
      then Some (health_error "required health check is unsupported" (hr_Check result))
      else Some (health_error "required health check failed" (hr_Check result))
  end.

(** The loop over the results: the first failure, and the checks seen. *)
Fixpoint scan_required (requiredSet : HealthCheckID -> bool) (results : list HealthResult)
    : option SDKError :=
  match results with
  | [] => None
  | result :: results =>
      if negb (requiredSet (hr_Check result)) then scan_required requiredSet results
      else match result_failure result with
           | Some e => Some e
           | None => scan_required requiredSet results
           end
  end.

(** The loop over [requiredSet]; [order] lists its keys in the order [range]
    visits them. *)
Fixpoint first_missing (results : list HealthResult) (order : list HealthCheckID)
    : option SDKError :=
  match order with
  | [] => None
  | check :: order =>
      if existsb (fun r => hr_Check r =s check) results then first_missing results order
      else Some (health_error "required health check is missing" check)
  end.

Definition RequiredHealthFailure (report : HealthReport) (required order : list HealthCheckID)
    : option SDKError :=
  let explicitRequired := match required with [] => false | _ => true end in
  let requiredSet check :=
    if explicitRequired then one_of check required
    else existsb (fun r => hr_Check r =s check) (hp_Results report) in
  match scan_required requiredSet (hp_Results report) with
  | Some e => Some e
  | None => if explicitRequired then first_missing (hp_Results report) order else None
  end.

Definition ErrorForHealthStatus (check : HealthCheckID) (status : HealthStatus)
    (category : ErrorCategory) (userDetail debugDetail : string) (cause : option error) : SDKError :=
  let category := if category =s "" then ErrorHealth else category in
  let opts :=
    (if debugDetail =s "" then WithDebugDetail check else WithDebugDetail debugDetail) ::
    (if status =s "" then []
     else [WithMetadata (Some {["health_status" := status; "health_check" := check]})]) in
  NewError category ("health " +:+ check) userDetail cause opts.

(** ** The overall status is the worst one, in the code's order *)

(** The order the loop implements. Statuses the [switch] does not name count
    as ready. *)
Definition severity_rank (s : HealthStatus) : nat :=
  if s =s HealthUnrecoverable then 5
  else if s =s HealthDegraded then 4
  else if s =s HealthTransientFail then 3
  else if s =s HealthUnknown then 2
  else if one_of s [HealthSkipped; HealthUnsupported] then 1
  else 0.

Fixpoint worst_rank (results : list HealthResult) : nat :=
  match results with
  | [] => 0
  | r :: results => Nat.max (severity_rank (hr_Status r)) (worst_rank results)
  end.

(** The statuses the loop variable can hold before an early return. *)
Definition running_status (s : HealthStatus) : Prop :=
  s ∈ [HealthReady; HealthDegraded; HealthTransientFail; HealthUnknown; HealthSkipped;
       HealthUnsupported].

Lemma running_status_cases (P : HealthStatus -> Prop) :
  P HealthReady -> P HealthDegraded -> P HealthTransientFail -> P HealthUnknown ->
  P HealthSkipped -> P HealthUnsupported -> forall s, running_status s -> P s.
Proof.
  intros ?????? s H. unfold running_status in H.
  repeat (apply elem_of_cons in H as [->|H]; [done|]). by apply elem_of_nil in H.
Qed.

(** Any status is one the [switch] names, or is ranked and handled as ready. *)
Lemma status_cases (P : HealthStatus -> Prop) :
  P HealthDegraded -> P HealthTransientFail -> P HealthUnknown -> P HealthSkipped ->
  P HealthUnsupported -> (forall s, severity_rank s = 0 -> (forall t, overall_step t s = t) -> P s) ->
  forall s, s <> HealthUnrecoverable -> P s.
Proof.
  intros ????? Hother s Hs.
  destruct (String.eqb_spec s HealthDegraded) as [->|E1]; [done|].
  destruct (String.eqb_spec s HealthTransientFail) as [->|E2]; [done|].
  destruct (String.eqb_spec s HealthUnknown) as [->|E3]; [done|].
  destruct (String.eqb_spec s HealthSkipped) as [->|E4]; [done|].
  destruct (String.eqb_spec s HealthUnsupported) as [->|E5]; [done|].
  apply String.eqb_neq in Hs, E1, E2, E3, E4, E5.
  apply Hother; intros; unfold severity_rank, overall_step, one_of, existsb;
    by rewrite ?Hs, E1, E2, E3, E4, E5.
Qed.

Lemma overall_step_rank status s :
  running_status status -> s <> HealthUnrecoverable ->
  running_status (overall_step status s) /\
  severity_rank (overall_step status s) = Nat.max (severity_rank status) (severity_rank s).
Proof.
  intros Hst Hs. revert Hst.
  apply (status_cases (fun s => running_status status -> running_status (overall_step status s) /\
    severity_rank (overall_step status s) = Nat.max (severity_rank status) (severity_rank s)));
    try done; intros;
    match goal with
    | H : severity_rank _ = 0, E : forall t, overall_step t _ = t |- _ =>
        rewrite E, H, Nat.max_0_r; done
    | H : running_status status |- _ =>
        pattern status; revert status H; refine (running_status_cases _ _ _ _ _ _ _);
        (split; [unfold running_status; vm_compute; set_solver | done])
    end.
Qed.

Lemma severity_rank_le s : severity_rank s <= 5.
Proof. unfold severity_rank. repeat case_match; lia. Qed.

Lemma worst_rank_le results : worst_rank results <= 5.
Proof. induction results as [|r results IH]; cbn; [lia|]. pose proof (severity_rank_le (hr_Status r)). lia. Qed.

Lemma overall_loop_rank status results :
  running_status status ->
  severity_rank (overall_loop status results) = Nat.max (severity_rank status) (worst_rank results).
Proof.
  revert status. induction results as [|r results IH]; intros status Hs; cbn [overall_loop worst_rank].
  - lia.
  - destruct (String.eqb_spec (hr_Status r) HealthUnrecoverable) as [->|Hr].
    + pose proof (worst_rank_le results). pose proof (severity_rank_le status).
      change (severity_rank HealthUnrecoverable) with 5. lia.
    + destruct (overall_step_rank status (hr_Status r)) as [Hrun Hrank]; [done..|].
      rewrite IH by done. lia.
Qed.

Lemma worst_rank_perm results results' :
  results ≡ₚ results' -> worst_rank results = worst_rank results'.
Proof. induction 1; cbn; lia. Qed.

(** The overall health status is the most severe status of the results,
    in the order unrecoverable, degraded, transient, unknown, then skipped and
    unsupported, then ready; reordering the results can only exchange two
    statuses of the same severity. *)
Theorem OverallHealthStatus_worst results :
  severity_rank (OverallHealthStatus results) = worst_rank results /\
  (forall results', results ≡ₚ results' ->
     severity_rank (OverallHealthStatus results') = severity_rank (OverallHealthStatus results)).
Proof.
  assert (forall rs, severity_rank (OverallHealthStatus rs) = worst_rank rs) as H.
  { intros rs. unfold OverallHealthStatus. rewrite overall_loop_rank; [done|].
    unfold running_status. set_solver. }
  split; [apply H|]. intros results' Hp. rewrite !H. symmetry. by apply worst_rank_perm.
Qed.

(** ** Required checks *)

Definition result_ok (r : HealthResult) : Prop :=
  hr_Status r = HealthReady \/ hr_Status r = HealthSkipped.

Lemma result_failure_None r : result_failure r = None <-> result_ok r.
Proof.
  unfold result_failure, result_ok. cbn zeta.
  destruct (one_of (hr_Status r) _) eqn:E.
  - apply one_of_spec in E. set_solver.
  - apply one_of_false in E. split; [|set_solver]. repeat case_match; done.
Qed.

Lemma scan_required_None requiredSet results :
  scan_required requiredSet results = None <->
  forall r, r ∈ results -> requiredSet (hr_Check r) = true -> result_ok r.
Proof.
  induction results as [|r results IH]; cbn [scan_required]; [set_solver|].
  destruct (requiredSet (hr_Check r)) eqn:E; cbn.
  - destruct (result_failure r) eqn:F.
    + split; [done|]. intros H. assert (result_ok r) as Hr by set_solver.
      apply result_failure_None in Hr. congruence.
    + apply result_failure_None in F. rewrite IH. set_solver.
  - rewrite IH. split; [|set_solver]. intros H r' [->|Hr']%elem_of_cons; [congruence|auto].
Qed.

Lemma has_result_spec results check :
  existsb (fun r => hr_Check r =s check) results = true <-> exists r, r ∈ results /\ hr_Check r = check.
Proof.
  rewrite existsb_exists. split; intros (r & Hr & Hc); exists r;
    rewrite ?list_elem_of_In, ?String.eqb_eq in *; done.
Qed.

Lemma first_missing_None results order :
  first_missing results order = None <->
  forall check, check ∈ order -> exists r, r ∈ results /\ hr_Check r = check.
Proof.
  induction order as [|c order IH]; cbn [first_missing]; [set_solver|].
  destruct (existsb _ results) eqn:E.
  - apply has_result_spec in E. rewrite IH. set_solver.
  - split; [done|]. intros H. destruct (H c) as (r & Hr); [set_solver|].
    assert (existsb (fun r => hr_Check r =s c) results = true) as E' by (apply has_result_spec; eauto).
    congruence.
Qed.

Lemma RequiredHealthFailure_passes report required order : required <> [] -> (forall c, c ∈ order <-> c ∈ required) ->
  RequiredHealthFailure report required order = None <->
  (forall result, result ∈ hp_Results report -> hr_Check result ∈ required -> result_ok result) /\
  (forall c, c ∈ required -> exists result, result ∈ hp_Results report /\ hr_Check result = c).
Proof.
  intros Hne Horder. unfold RequiredHealthFailure. cbv zeta. destruct required as [|c cs]; [done|].
  destruct (scan_required _ _) eqn:E.
  - split; [done|]. intros [H _]. rewrite <-E. apply scan_required_None. intros result Hr Hin%one_of_spec. auto.
  - rewrite scan_required_None in E. rewrite first_missing_None. setoid_rewrite Horder. split; [|tauto].
    intros H. split; [|exact H]. intros result Hr Hin. apply E; [done|]. by apply one_of_spec.
Qed.

(** The preflight lets a run through exactly when every result of a
    required check is ready or skipped and, for an explicit requirement, every
    required check has a result; with no explicit requirement every reported
    check is required. This holds for every order in which Go may range over
    the set of required checks. *)
Theorem RequiredHealthFailure_None report required order :
  (forall c, c ∈ order <-> c ∈ required) ->
  RequiredHealthFailure report required order = None <->
  (forall r, r ∈ hp_Results report -> (required = [] \/ hr_Check r ∈ required) -> result_ok r) /\
  (forall c, c ∈ required -> exists r, r ∈ hp_Results report /\ hr_Check r = c).
Proof.
  intros Horder. unfold RequiredHealthFailure. cbn zeta.
  destruct required as [|c0 cs].
  - destruct (scan_required _ _) eqn:E.
    + split; [done|]. intros [H _]. rewrite <-E. apply scan_required_None. auto.
    + rewrite scan_required_None in E. split; [|done]. intros _. split; [|set_solver].
      intros r Hr _. apply E; [done|]. apply has_result_spec. eauto.
  - change (RequiredHealthFailure report (c0 :: cs) order = None <->
      (forall r, r ∈ hp_Results report -> c0 :: cs = [] \/ hr_Check r ∈ c0 :: cs -> result_ok r) /\
      (forall c, c ∈ c0 :: cs -> exists r, r ∈ hp_Results report /\ hr_Check r = c)).
    rewrite RequiredHealthFailure_passes by done. split; intros [H1 H2]; (split; [|exact H2]).
    + intros r Hr [?|Hreq]; [done|]. auto.
    + auto.
Qed.

Definition ready_report : HealthReport :=
  zero <| hp_Results := [zero <| hr_Check := HealthCheckModel |> <| hr_Status := HealthReady |>] |>.

Lemma RequiredHealthFailure_None_witness :
  RequiredHealthFailure ready_report [HealthCheckModel] [HealthCheckModel] = None /\
  (RequiredHealthFailure ready_report [HealthCheckModel] [HealthCheckModel] = None ->
   exists r, r ∈ hp_Results ready_report /\ hr_Check r = HealthCheckModel).
Proof.
  split; [reflexivity|]. intros H.
  apply (RequiredHealthFailure_None ready_report [HealthCheckModel] [HealthCheckModel]
           (fun c => iff_refl _)) in H as [_ H].
  apply H. constructor.
Defined.
