(* ===== verification/Sha256.v ===== *)
(** * crypto/sha256 and encoding/hex, as cache.go and permissions.go use them

    SHA-256 (FIPS 180-4) over byte strings, executable, with 32-bit words as
    [Z]; hexadecimal encoding and decoding with their round trip. *)
From S2P Require Import Prelude GoStd.
From Stdlib Require Import Ascii.
#[local] Open Scope Z_scope.

(** ** 32-bit words *)
Module W32.
Definition norm (x : Z) : Z := Z.land x 4294967295.
Definition add (x y : Z) : Z := norm (x + y).
Definition rotr (n x : Z) : Z := Z.lor (Z.shiftr x n) (norm (Z.shiftl x (32 - n))).
Definition not (x : Z) : Z := Z.lxor x 4294967295.
End W32.

Module Sha256.
Definition K : list Z := [
  1116352408; 1899447441; 3049323471; 3921009573; 961987163; 1508970993; 2453635748; 2870763221;
  3624381080; 310598401; 607225278; 1426881987; 1925078388; 2162078206; 2614888103; 3248222580;
  3835390401; 4022224774; 264347078; 604807628; 770255983; 1249150122; 1555081692; 1996064986;
  2554220882; 2821834349; 2952996808; 3210313671; 3336571891; 3584528711; 113926993; 338241895;
  666307205; 773529912; 1294757372; 1396182291; 1695183700; 1986661051; 2177026350; 2456956037;
  2730485921; 2820302411; 3259730800; 3345764771; 3516065817; 3600352804; 4094571909; 275423344;
  430227734; 506948616; 659060556; 883997877; 958139571; 1322822218; 1537002063; 1747873779;
  1955562222; 2024104815; 2227730452; 2361852424; 2428436474; 2756734187; 3204031479; 3329325298].

Definition H0 : list Z := [
  1779033703; 3144134277; 1013904242; 2773480762; 1359893119; 2600822924; 528734635; 1541459225].

Definition Ch (x y z : Z) : Z := Z.lxor (Z.land x y) (Z.land (W32.not x) z).
Definition Maj (x y z : Z) : Z :=
  Z.lxor (Z.lxor (Z.land x y) (Z.land x z)) (Z.land y z).
Definition S0 (x : Z) : Z := Z.lxor (Z.lxor (W32.rotr 2 x) (W32.rotr 13 x)) (W32.rotr 22 x).
Definition S1 (x : Z) : Z := Z.lxor (Z.lxor (W32.rotr 6 x) (W32.rotr 11 x)) (W32.rotr 25 x).
Definition s0 (x : Z) : Z := Z.lxor (Z.lxor (W32.rotr 7 x) (W32.rotr 18 x)) (Z.shiftr x 3).
Definition s1 (x : Z) : Z := Z.lxor (Z.lxor (W32.rotr 17 x) (W32.rotr 19 x)) (Z.shiftr x 10).

(** The message schedule, as the last 16 words, oldest first: [n] more words. *)
Fixpoint schedule (n : nat) (w : list Z) : list Z :=
  match n with
  | O => w
  | S n =>
      match w with
      | w0 :: rest =>
          let w1 := nth 0 rest 0 in
          let w9 := nth 8 rest 0 in
          let w14 := nth 13 rest 0 in
          let x := W32.norm (s1 w14 + w9 + s0 w1 + w0) in
          w0 :: schedule n (rest ++ [x])
      | [] => []
      end
  end.

Definition round (st : list Z) (kw : Z * Z) : list Z :=
  match st with
  | [a; b; c; d; e; f; g; h] =>
      let t1 := W32.norm (h + S1 e + Ch e f g + kw.1 + kw.2) in
      let t2 := W32.norm (S0 a + Maj a b c) in
      [W32.add t1 t2; a; b; c; W32.add d t1; e; f; g]
  | _ => st
  end.

Definition compress (h : list Z) (block : list Z) : list Z :=
  zip_with W32.add h (foldl round h (zip K (schedule 48 block))).

(** The message, the bit 1, zeros, and the bit length in 64 bits. *)
Definition pad (bytes : list Z) : list Z :=
  let len := length bytes in
  let zeros := ((119 - len mod 64) mod 64)%nat in
  let bits := 8 * Z.of_nat len in
  bytes ++ [128] ++ replicate zeros 0 ++
  map (fun i => Z.land (Z.shiftr bits (8 * Z.of_nat i)) 255) [7; 6; 5; 4; 3; 2; 1; 0]%nat.

Fixpoint words (bytes : list Z) : list Z :=
  match bytes with
  | b0 :: b1 :: b2 :: b3 :: rest =>
      Z.shiftl b0 24 + Z.shiftl b1 16 + Z.shiftl b2 8 + b3 :: words rest
  | _ => []
  end.

Fixpoint blocks (fuel : nat) (ws : list Z) : list (list Z) :=
  match fuel, ws with
  | S fuel, _ :: _ => take 16 ws :: blocks fuel (drop 16 ws)
  | _, _ => []
  end.

Definition bytes_of_word (w : Z) : list Z :=
  map (fun i => Z.land (Z.shiftr w (8 * i)) 255) [3; 2; 1; 0].

(** [sha256.Sum256]: 32 bytes. *)
Definition Sum256 (s : string) : list Z :=
  let bytes := map (fun c => Z.of_nat (nat_of_ascii c)) (String.list_ascii_of_string s) in
  let ws := words (pad bytes) in
  foldl compress H0 (blocks (length ws) ws) ≫= bytes_of_word.
End Sha256.

(** ** encoding/hex *)
Module hex.
Definition nibble (d : Z) : ascii :=
  ascii_of_nat (Z.to_nat (if d <? 10 then 48 + d else 87 + d)).
Fixpoint EncodeToString (bytes : list Z) : string :=
  match bytes with
  | [] => ""
  | b :: bytes => String (nibble (b / 16)) (String (nibble (b mod 16)) (EncodeToString bytes))
  end.

Definition from_nibble (c : ascii) : option Z :=
  let n := Z.of_nat (nat_of_ascii c) in
  if (48 <=? n) && (n <=? 57) then Some (n - 48)
  else if (97 <=? n) && (n <=? 102) then Some (n - 87)
  else if (65 <=? n) && (n <=? 70) then Some (n - 55)
  else None.

(** [DecodeString]; [None] is its error (a bad digit or an odd length). *)
Fixpoint DecodeString (s : string) : option (list Z) :=
  match s with
  | EmptyString => Some []
  | String a (String b rest) =>
      match from_nibble a, from_nibble b, DecodeString rest with
      | Some x, Some y, Some bytes => Some (16 * x + y :: bytes)
      | _, _, _ => None
      end
  | String _ EmptyString => None
  end.
End hex.

Example sha256_abc :
  hex.EncodeToString (Sha256.Sum256 "abc")
  = "ba7816bf8f01cfea414140de5dae2223b00361a396177a9cb410ff61f20015ad"%string.
Proof. vm_compute. reflexivity. Qed.

Example sha256_empty :
  hex.EncodeToString (Sha256.Sum256 "")
  = "e3b0c44298fc1c149afbf4c8996fb92427ae41e4649b934ca495991b7852b855"%string.
Proof. vm_compute. reflexivity. Qed.

(** ** Facts *)
Definition is_byte (b : Z) : Prop := 0 <= b < 256.

Lemma length_round st kw : length (Sha256.round st kw) = length st.
Proof. unfold Sha256.round. by repeat case_match. Qed.

Lemma length_foldl_round kws st : length (foldl Sha256.round st kws) = length st.
Proof. revert st. induction kws as [|kw kws IH]; intros st; cbn; [done|]. by rewrite IH, length_round. Qed.

Lemma length_foldl_compress bs h : length (foldl Sha256.compress h bs) = length h.
Proof.
  revert h. induction bs as [|b bs IH]; intros h; cbn [foldl]; [done|].
  rewrite IH. unfold Sha256.compress. rewrite length_zip_with, length_foldl_round. lia.
Qed.

Lemma length_bytes_of_words ws : length (ws ≫= Sha256.bytes_of_word) = (4 * length ws)%nat.
Proof. 
  induction ws as [|w ws IH]; [done|]. rewrite bind_cons, length_app, IH.
  change (length (Sha256.bytes_of_word w)) with 4%nat. cbn [length]. lia.
Qed.

Lemma length_Sum256 s : length (Sha256.Sum256 s) = 32%nat.
Proof. unfold Sha256.Sum256. rewrite length_bytes_of_words, length_foldl_compress. done. Qed.

Lemma is_byte_land x : is_byte (Z.land x 255).
Proof.
  unfold is_byte. change 255 with (Z.ones 8). rewrite Z.land_ones by lia.
  pose proof (Z.mod_pos_bound x (2 ^ 8)). lia.
Qed.

Lemma Sum256_bytes s : Forall is_byte (Sha256.Sum256 s).
Proof.
  unfold Sha256.Sum256. apply Forall_bind, Forall_true. intros w.
  unfold Sha256.bytes_of_word. apply Forall_fmap. repeat constructor; apply is_byte_land.
Qed.

(** Every nibble decodes to itself. *)
Lemma from_nibble_nibble d : 0 <= d < 16 -> hex.from_nibble (hex.nibble d) = Some d.
Proof.
  intros Hd.
  assert (forallb (fun i => match hex.from_nibble (hex.nibble (Z.of_nat i)) with
            | Some d' => d' =? Z.of_nat i | None => false end) (seq 0 16) = true) as H
    by (vm_compute; reflexivity).
  apply forallb_forall with (x := Z.to_nat d) in H; [|apply in_seq; lia].
  rewrite Z2Nat.id in H by lia. destruct (hex.from_nibble _); [|done].
  f_equal. lia.
Qed.

Lemma hex_roundtrip bytes :
  Forall is_byte bytes -> hex.DecodeString (hex.EncodeToString bytes) = Some bytes.
Proof.
  induction 1 as [|b bytes Hb _ IH]; cbn; [done|].
  unfold is_byte in Hb. pose proof (Z.div_mod b 16). pose proof (Z.mod_pos_bound b 16).
  rewrite !from_nibble_nibble, IH by lia. do 2 f_equal. lia.
Qed.

Lemma hex_inj bytes bytes' :
  Forall is_byte bytes -> Forall is_byte bytes' ->
  hex.EncodeToString bytes = hex.EncodeToString bytes' -> bytes = bytes'.
Proof.
  intros H H' E. apply (f_equal hex.DecodeString) in E.
  rewrite !hex_roundtrip in E by done. congruence.
Qed.
