(* ===== verification/Json.v ===== *)
(** * sort.Strings on map keys, and the parts of encoding/json the package relies on

    Go prints the keys of a map in sorted order, which is what makes an
    encoding independent of the iteration order of the map. *)
From S2P Require Import Prelude GoStd Types.
From Stdlib Require Import Ascii Floats.SpecFloat.
#[local] Open Scope string_scope.

(** ** Sorting keys *)
Definition str_le (s t : string) : Prop := String.leb s t = true.
#[global] Instance str_le_dec : RelDecision str_le := fun s t => decide (String.leb s t = true).
#[global] Instance str_le_total : Total str_le.
Proof. intros s t. apply String.leb_total. Qed.

(** [sort.Strings] *)
Definition sort_strings (l : list string) : list string := merge_sort str_le l.

Lemma sort_strings_perm l : sort_strings l ≡ₚ l.
Proof. apply merge_sort_Permutation. Qed.

Lemma sort_strings_sorted l : Sorted str_le (sort_strings l).
Proof. apply Sorted_merge_sort, _. Qed.

(** The keys of a map, as [for key := range m { keys = append(keys, key) }]
    collects them before they are sorted; the order is the map's own. *)
Definition map_keys {V} (m : gmap string V) : list string := (map_to_list m).*1.

(** ** json.Marshal *)
Definition hex_digit (n : nat) : ascii := ascii_of_nat (if (n <? 10)%nat then 48 + n else 87 + n).

(** One byte of a string literal, with the HTML escapes of [json.Marshal].
    Bytes above 127 are copied: the text is taken to be valid UTF-8 without
    U+2028 and U+2029. *)
Definition json_byte (c : ascii) : string :=
  let n := nat_of_ascii c in
  if Nat.eqb n 34 then String "\" (String "034" "")
  else if Nat.eqb n 92 then "\\"
  else if Nat.eqb n 8 then "\b"
  else if Nat.eqb n 12 then "\f"
  else if Nat.eqb n 10 then "\n"
  else if Nat.eqb n 13 then "\r"
  else if Nat.eqb n 9 then "\t"
  else if (n <? 32)%nat || existsb (Nat.eqb n) [60; 62; 38] then
    "\u00" +:+ String (hex_digit (n / 16)) (String (hex_digit (n mod 16)) "")
  else String c "".

Definition json_string (s : string) : string :=
  let q := String "034" "" in
  q +:+ foldr (fun c acc => json_byte c +:+ acc) "" (String.list_ascii_of_string s) +:+ q.

(** A JSON object from printed values, in the given order of keys. *)
Definition json_object (fields : list (string * string)) : string :=
  "{" +:+ strings.Join (map (fun '(k, v) => json_string k +:+ ":" +:+ v) fields) "," +:+ "}".

(** A [map[string]string]: keys sorted; the nil map is [null]. *)
Definition json_string_map (m : StringMap) : string :=
  match m with
  | None => "null"
  | Some m =>
      json_object (map (fun k => (k, json_string (default "" (m !! k)))) (sort_strings (map_keys m)))
  end.

(** ** json.Unmarshal into an interface value

    Objects become [AMap] with the last value of a repeated key, arrays
    [AList], numbers [AFloat64]; the text is taken to be valid UTF-8. *)
Module json.
Definition is_ws (c : ascii) : bool :=
  existsb (Ascii.eqb c) [" "; "009"; "010"; "013"]%char.

Fixpoint skip_ws (s : string) : string :=
  match s with
  | String c s' => if is_ws c then skip_ws s' else s
  | EmptyString => EmptyString
  end.

Definition hex_value (c : ascii) : option Z :=
  let n := Z.of_nat (nat_of_ascii c) in
  if (48 <=? n)%Z && (n <=? 57)%Z then Some (n - 48)%Z
  else if (97 <=? n)%Z && (n <=? 102)%Z then Some (n - 87)%Z
  else if (65 <=? n)%Z && (n <=? 70)%Z then Some (n - 55)%Z
  else None.

(** The four hexadecimal digits of a [\u] escape. *)
Definition hex4 (s : string) : option (Z * string) :=
  match s with
  | String a (String b (String c (String d rest))) =>
      match hex_value a, hex_value b, hex_value c, hex_value d with
      | Some a, Some b, Some c, Some d => Some ((((a * 16 + b) * 16 + c) * 16 + d)%Z, rest)
      | _, _, _, _ => None
      end
  | _ => None
  end.

Definition byte_of (z : Z) : ascii := ascii_of_nat (Z.to_nat z).

(** The UTF-8 encoding of a code point. *)
Definition utf8 (r : Z) : string :=
  if (r <? 128)%Z then String (byte_of r) ""
  else if (r <? 2048)%Z then
    String (byte_of (192 + r / 64)) (String (byte_of (128 + r mod 64)) "")
  else if (r <? 65536)%Z then
    String (byte_of (224 + r / 4096))
      (String (byte_of (128 + (r / 64) mod 64)) (String (byte_of (128 + r mod 64)) ""))
  else
    String (byte_of (240 + r / 262144)) (String (byte_of (128 + (r / 4096) mod 64))
      (String (byte_of (128 + (r / 64) mod 64)) (String (byte_of (128 + r mod 64)) ""))).

(** The code point of the escape whose digits start [s]: a pair of surrogates
    is combined, and a lone one is replaced by U+FFFD. *)
Definition escaped_rune (s : string) : option (string * string) :=
  match hex4 s with
  | None => None
  | Some (r, s1) =>
      if (r <? 55296)%Z || (57343 <? r)%Z then Some (utf8 r, s1)
      else
        match strings.CutPrefix "\u" s1 with
        | Some s2 =>
            match hex4 s2 with
            | Some (r2, s3) =>
                if (r <? 56320)%Z && (56320 <=? r2)%Z && (r2 <=? 57343)%Z
                then Some (utf8 (65536 + (r - 55296) * 1024 + (r2 - 56320))%Z, s3)
                else Some (utf8 65533, s1)
            | None => None
            end
        | None => Some (utf8 65533, s1)
        end
  end.

(** An escape after its backslash. *)
Definition escape (s : string) : option (string * string) :=
  match s with
  | EmptyString => None
  | String e s =>
      if existsb (Ascii.eqb e) ["034"; "\"; "/"]%char then Some (String e "", s)
      else if Ascii.eqb e "b" then Some (String "008" "", s)
      else if Ascii.eqb e "f" then Some (String "012" "", s)
      else if Ascii.eqb e "n" then Some (String "010" "", s)
      else if Ascii.eqb e "r" then Some (String "013" "", s)
      else if Ascii.eqb e "t" then Some (String "009" "", s)
      else if Ascii.eqb e "u" then escaped_rune s
      else None
  end.

(** The text of a string literal after its opening quote, and what follows
    the closing one. *)
Fixpoint string_body (fuel : nat) (s : string) : option (string * string) :=
  match fuel, s with
  | O, _ | _, EmptyString => None
  | S fuel, String c s =>
      let n := nat_of_ascii c in
      if Nat.eqb n 34 then Some ("", s)
      else if (n <? 32)%nat then None
      else
        match (if Nat.eqb n 92 then escape s else Some (String c "", s)) with
        | Some (t, s) =>
            match string_body fuel s with Some (t', rest) => Some (t +:+ t', rest) | None => None end
        | None => None
        end
  end.

(** The longest prefix of decimal digits, with its value and its length. *)
Fixpoint digits (acc : Z) (n : nat) (s : string) : Z * nat * string :=
  match s with
  | String c s' =>
      match digit_value c with
      | Some d => digits (acc * 10 + d)%Z (S n) s'
      | None => (acc, n, s)
      end
  | EmptyString => (acc, n, s)
  end.

(** [m * 10^e] rounded to the nearest float64. *)
Definition decimal (m e : Z) : spec_float :=
  if (0 <=? e)%Z then float64.of_Z (m * 10 ^ e)
  else match m, (10 ^ (- e))%Z with
       | Zpos m, Zpos d => SFdiv 53 1024 (S754_finite false m 0) (S754_finite false d 0)
       | _, _ => S754_zero false
       end.

(** The sign in front of a number: [-], and [+] where [plus] allows it. *)
Definition sign (plus : bool) (s : string) : bool * string :=
  match s with
  | String c s' =>
      if Ascii.eqb c "-" then (true, s')
      else if plus && Ascii.eqb c "+" then (false, s') else (false, s)
  | EmptyString => (false, s)
  end.

(** The fraction: the digits so far with those of the fraction, and how many. *)
Definition fraction (m : Z) (s : string) : option (Z * nat * string) :=
  match s with
  | String c t =>
      if Ascii.eqb c "." then
        let '(m, k, rest) := digits m 0 t in if Nat.eqb k 0 then None else Some (m, k, rest)
      else Some (m, 0, s)
  | EmptyString => Some (m, 0, s)
  end.

Definition exponent (s : string) : option (Z * string) :=
  match s with
  | String c t =>
      if Ascii.eqb c "e" || Ascii.eqb c "E" then
        let '(neg, t) := sign true t in
        let '(e, j, rest) := digits 0 0 t in
        if Nat.eqb j 0 then None else Some ((if neg then - e else e)%Z, rest)
      else Some (0%Z, s)
  | EmptyString => Some (0%Z, s)
  end.

(** A number; one beyond the range of float64 is an error. *)
Definition number (s : string) : option (any * string) :=
  let '(neg, s) := sign false s in
  let '(m, n, rest) := digits 0 0 s in
  if Nat.eqb n 0 || (strings.HasPrefix s "0" && negb (Nat.eqb n 1)) then None
  else
    match fraction m rest with
    | None => None
    | Some (m, k, rest) =>
        match exponent rest with
        | None => None
        | Some (e, rest) =>
            match decimal m (e - Z.of_nat k) with
            | S754_infinity _ | S754_nan => None
            | f => Some (AFloat64 (if neg then SFopp f else f), rest)
            end
        end
    end.

(** A value at nesting depth [depth], the elements of an array, the members of
    an object. Every call of [elements] or [members] follows a byte consumed,
    so twice the length of the text is fuel enough. *)
Fixpoint value (fuel : nat) (depth : Z) (s : string) : option (any * string) :=
  match fuel, skip_ws s with
  | O, _ | _, EmptyString => None
  | S fuel, String c s' as s =>
      if Ascii.eqb c "{" then
        if (10000 <? depth + 1)%Z then None
        else match strings.CutPrefix "}" (skip_ws s') with
             | Some rest => Some (AMap [], rest)
             | None => members fuel (depth + 1) [] s'
             end
      else if Ascii.eqb c "[" then
        if (10000 <? depth + 1)%Z then None
        else match strings.CutPrefix "]" (skip_ws s') with
             | Some rest => Some (AList [], rest)
             | None => elements fuel (depth + 1) [] s'
             end
      else if Ascii.eqb c "034" then
        match string_body (String.length s) s' with
        | Some (t, rest) => Some (AString t, rest)
        | None => None
        end
      else
        match strings.CutPrefix "null" s, strings.CutPrefix "true" s, strings.CutPrefix "false" s with
        | Some rest, _, _ => Some (ANil, rest)
        | _, Some rest, _ => Some (ABool true, rest)
        | _, _, Some rest => Some (ABool false, rest)
        | _, _, _ => number s
        end
  end
with elements (fuel : nat) (depth : Z) (acc : list any) (s : string) : option (any * string) :=
  match fuel with
  | O => None
  | S fuel =>
      match value fuel depth s with
      | None => None
      | Some (v, rest) =>
          match skip_ws rest with
          | String c rest =>
              if Ascii.eqb c "]" then Some (AList (acc ++ [v])%list, rest)
              else if Ascii.eqb c "," then elements fuel depth (acc ++ [v])%list rest
              else None
          | EmptyString => None
          end
      end
  end
with members (fuel : nat) (depth : Z) (acc : GoMap any) (s : string) : option (any * string) :=
  match fuel, strings.CutPrefix (String "034" "") (skip_ws s) with
  | O, _ | _, None => None
  | S fuel, Some s =>
      match string_body (S (String.length s)) s with
      | None => None
      | Some (key, rest) =>
          match strings.CutPrefix ":" (skip_ws rest) with
          | None => None
          | Some rest =>
              match value fuel depth rest with
              | None => None
              | Some (v, rest) =>
                  match skip_ws rest with
                  | String c rest =>
                      if Ascii.eqb c "}" then Some (AMap (map_set acc key v), rest)
                      else if Ascii.eqb c "," then members fuel depth (map_set acc key v) rest
                      else None
                  | EmptyString => None
                  end
              end
          end
      end
  end.

(** [None] stands for the error of an ill-formed text. *)
Definition Unmarshal (s : string) : option any :=
  match value (2 * String.length s + 2) 0 s with
  | Some (v, rest) => match skip_ws rest with EmptyString => Some v | _ => None end
  | None => None
  end.

(** [fmt.Sprintf] with [%T] of a decoded value. *)
Definition type_name (v : any) : string :=
  match v with
  | ANil => "<nil>"
  | AString _ => "string"
  | ABool _ => "bool"
  | AFloat64 _ => "float64"
  | AMap _ => "map[string]interface {}"
  | AList _ => "[]interface {}"
  | _ => ""
  end.

(** Double quotes in the examples are written as backquotes. *)
Definition with_quotes (s : string) : string :=
  String.string_of_list_ascii
    (map (fun c => if Ascii.eqb c "`" then "034"%char else c) (String.list_ascii_of_string s)).

Example Unmarshal_examples :
  map (fun s => Unmarshal (with_quotes s))
    ["{`a`: [1, -2.5e1, null], `b`: {`c`: `x\n\u0041`}, `a`: true}"; " 0.1 "; "01"; "[1,]";
     "{`a` 1}"; "`\ud83d\ude00`"; "[[],{}]"; "1e400"]
  = [Some (AMap [("a", ABool true); ("b", AMap [("c", AString (String "x" (String "010" "A")))])]);
     Some (AFloat64 (S754_finite false 7205759403792794 (-56))); None; None; None;
     Some (AString (String "240" (String "159" (String "152" (String "128" "")))));
     Some (AList [AList []; AMap []]); None].
Proof. vm_compute. reflexivity. Qed.
End json.
