(* ===== verification/GoFmt.v ===== *)
(** * Printing and parsing of numbers and values: strconv, fmt, encoding/json

    The shortest decimal of a float64, [%v] and [json.Marshal] of decoded
    values, [%q], [strconv.ParseFloat] and [time.ParseDuration]. *)
From Stdlib Require Import Ascii Floats.SpecFloat.
From S2P Require Import Prelude GoStd Types Json.
#[local] Open Scope string_scope.

(** ** The shortest decimal

    The digits and the position of the decimal point of the shortest decimal
    that reads back as a positive finite float64, the nearest of them when
    there are several of the same length. Seventeen digits always suffice. *)
Module decimal.
Definition ratio (m : positive) (e : Z) : Z * Z :=
  if (0 <=? e)%Z then (Zpos m * 2 ^ e, 1)%Z else (Zpos m, 2 ^ (- e))%Z.

(** The [k] with [10^(k-1) <= num/den < 10^k]; a float64 needs at most 330 steps. *)
Fixpoint point_up (fuel : nat) (k num den : Z) : Z :=
  match fuel with
  | O => k
  | S fuel => if (num <? den * 10 ^ k)%Z then k else point_up fuel (k + 1)%Z num den
  end.
Fixpoint point_down (fuel : nat) (k num den : Z) : Z :=
  match fuel with
  | O => k
  | S fuel => if (den <=? num * 10 ^ (1 - k))%Z then k else point_down fuel (k - 1)%Z num den
  end.
Definition point (num den : Z) : Z :=
  if (num <? den)%Z then point_down 400 0 num den else point_up 400 0 num den.

(** The [n]-digit decimal nearest to [x = num/den] that reads back as [x]. *)
Definition candidate (x : spec_float) (num den k n : Z) : option Z :=
  let '(a, b) := if (0 <=? n - k)%Z then (num * 10 ^ (n - k), den)%Z else (num, den * 10 ^ (k - n))%Z in
  let low := (a / b)%Z in
  let back d := SFeqb (json.decimal d (k - n)) x in
  match back low, back (low + 1)%Z with
  | true, true => Some (if (2 * (a mod b) <=? b)%Z then low else (low + 1)%Z)
  | true, false => Some low
  | false, true => Some (low + 1)%Z
  | false, false => None
  end.

Fixpoint search (fuel : nat) (x : spec_float) (num den k n : Z) : Z * Z :=
  match fuel with
  | O => (0%Z, n)
  | S fuel =>
      match candidate x num den k n with
      | Some d => (d, n)
      | None => search fuel x num den k (n + 1)%Z
      end
  end.

Fixpoint trim_zeros (s : string) : string :=
  match s with
  | EmptyString => EmptyString
  | String c s' =>
      match trim_zeros s' with
      | EmptyString => if Ascii.eqb c "0" then EmptyString else String c EmptyString
      | t => String c t
      end
  end.

(** The digits [d1 d2 ...] and the exponent [dp] of [0.d1d2... * 10^dp]. *)
Definition shortest (m : positive) (e : Z) : string * Z :=
  let '(num, den) := ratio m e in
  let k := point num den in
  let '(d, n) := search 17 (S754_finite false m e) num den k 1 in
  let digits := itoa d in
  (trim_zeros digits, (k + (Z.of_nat (String.length digits) - n))%Z).

Fixpoint zeros (n : nat) : string := match n with O => "" | S n => String "0" (zeros n) end.

(** The formats [%f] and [%e] of digits with a decimal point. *)
Definition fmtF (digits : string) (dp : Z) : string :=
  let nd := Z.of_nat (String.length digits) in
  if (dp <=? 0)%Z then "0." +:+ zeros (Z.to_nat (- dp)) +:+ digits
  else if (nd <=? dp)%Z then digits +:+ zeros (Z.to_nat (dp - nd))
  else strings.take (Z.to_nat dp) digits +:+ "." +:+ strings.drop (Z.to_nat dp) digits.

Definition fmtE (min_digits : nat) (digits : string) (dp : Z) : string :=
  let e := (dp - 1)%Z in
  let ex := itoa (Z.abs e) in
  let rest := strings.drop 1 digits in
  strings.take 1 digits +:+ (if rest =s "" then "" else "." +:+ rest) +:+ "e" +:+
  (if (e <? 0)%Z then "-" else "+") +:+ zeros (min_digits - String.length ex) +:+ ex.

Definition format (finite : string -> Z -> string) (x : spec_float) : string :=
  match x with
  | S754_nan => "NaN"
  | S754_infinity s => if s then "-Inf" else "+Inf"
  | S754_zero s => if s then "-0" else "0"
  | S754_finite s m e =>
      let '(digits, dp) := shortest m e in (if s then "-" else "") +:+ finite digits dp
  end.

(** [strconv.FormatFloat(x, 'f', -1, 64)], [fmt]'s [%v], and the number format
    of [encoding/json], which drops the padding of a negative exponent. *)
Definition FormatFloat (x : spec_float) : string := format fmtF x.
Definition print_v (x : spec_float) : string :=
  format (fun digits dp =>
    if (dp - 1 <? -4)%Z || (6 <=? dp - 1)%Z then fmtE 2 digits dp else fmtF digits dp) x.
Definition print_json (x : spec_float) : string :=
  format (fun digits dp =>
    if (dp - 1 <? -6)%Z || (21 <=? dp - 1)%Z
    then fmtE (if (dp - 1 <? 0)%Z then 1 else 2) digits dp else fmtF digits dp) x.
End decimal.

(** ** strconv.ParseFloat

    Decimal text, and the words for infinity and NaN; hexadecimal mantissas and
    underscores are left out. [None] is the syntax or range error. *)
Definition parse_mantissa (s : string) : option (Z * nat * string) :=
  let '(m, n, rest) := json.digits 0 0 s in
  match strings.CutPrefix "." rest with
  | Some t =>
      let '(m, k, rest) := json.digits m 0 t in
      if Nat.eqb (n + k) 0 then None else Some (m, k, rest)
  | None => if Nat.eqb n 0 then None else Some (m, 0, rest)
  end.

Definition ParseFloat (s : string) : option spec_float :=
  let '(neg, t) := json.sign true s in
  let signed f := if neg : bool then SFopp f else f in
  if one_of (strings.ToLower t) ["inf"; "infinity"] then Some (S754_infinity neg)
  else if strings.EqualFold s "nan" then Some S754_nan
  else
    match parse_mantissa t with
    | None => None
    | Some (m, k, rest) =>
        match json.exponent rest with
        | Some (e, EmptyString) =>
            match json.decimal m (e - Z.of_nat k) with
            | S754_infinity _ | S754_nan => None
            | f => Some (signed f)
            end
        | _ => None
        end
    end.

Example float_examples :
  map (fun s => decimal.FormatFloat <$> ParseFloat s) ["1.50"; "-0.1"; "1e21"; ".5"; "1e-7"; "x"; "5."; "123456789"]
    = [Some "1.5"; Some "-0.1"; Some "1000000000000000000000"; Some "0.5"; Some "0.0000001"; None;
       Some "5"; Some "123456789"] /\
  map (fun s => decimal.print_v <$> ParseFloat s) ["100000"; "1000000"; "12345678.5"; "0.00001"; "429"]
    = [Some "100000"; Some "1e+06"; Some "1.23456785e+07"; Some "1e-05"; Some "429"] /\
  map (fun s => decimal.print_json <$> ParseFloat s) ["1e21"; "1e-7"; "0.000001"; "30000000000000000"]
    = [Some "1e+21"; Some "1e-7"; Some "0.000001"; Some "30000000000000000"].
Proof. vm_compute. done. Qed.

(** ** fmt *)

(** [fmt]'s verb [%q] on ASCII text; other bytes are left as they are. *)
Definition quote_char (c : Ascii.ascii) : string :=
  let n := Ascii.nat_of_ascii c in
  let esc (letter : Ascii.ascii) := String "\" (String letter "") in
  let hex (d : nat) := Ascii.ascii_of_nat (if (d <? 10)%nat then 48 + d else 87 + d) in
  match n with
  | 7 => esc "a"%char | 8 => esc "b"%char | 9 => esc "t"%char | 10 => esc "n"%char
  | 11 => esc "v"%char | 12 => esc "f"%char | 13 => esc "r"%char
  | 34 | 92 => esc c
  | _ => if (n <? 32)%nat || (n =? 127)%nat
         then "\x" +:+ String (hex (n / 16)) (String (hex (n mod 16)) "")
         else String c ""
  end.
Fixpoint quote_body (s : string) : string :=
  match s with EmptyString => "" | String c s => quote_char c +:+ quote_body s end.
Definition quoted (s : string) : string :=
  let q := String (ascii_of_nat 34) "" in q +:+ quote_body s +:+ q.


(** [%v] of a decoded value: maps print their keys sorted. *)
Fixpoint Sprint (value : any) : string :=
  match value with
  | ANil => "<nil>"
  | AString s => s
  | ABool b => if b then "true" else "false"
  | AInt z | AInt64 z => itoa z
  | AFloat64 f => decimal.print_v f
  | ANamed _ text => text
  | AMap m =>
      let printed := map (fun '(k, v) => (k, Sprint v)) m in
      "map[" +:+ strings.Join
        (map (fun k => k +:+ ":" +:+ default "" (map_get printed k)) (sort_strings printed.*1)) " " +:+ "]"
  | AList l => "[" +:+ strings.Join (map Sprint l) " " +:+ "]"
  | _ => ""
  end.

(** [%v] of a [map[string]string]. *)
Definition Sprint_map (m : StringMap) : string :=
  "map[" +:+ match m with
  | None => ""
  | Some m => strings.Join (map (fun k => k +:+ ":" +:+ default "" (m !! k)) (sort_strings (map_keys m))) " "
  end +:+ "]".

(** ** encoding/json *)

(** The text of a decoded value; the keys of an object are sorted. *)
Fixpoint json_print (value : any) : string :=
  match value with
  | AString s | ANamed _ s => json_string s
  | ABool b => if b then "true" else "false"
  | AInt z | AInt64 z => itoa z
  | AFloat64 f => decimal.print_json f
  | AMap m =>
      let printed := map (fun '(k, v) => (k, json_print v)) m in
      json_object (map (fun k => (k, default "" (map_get printed k))) (sort_strings printed.*1))
  | AList l => "[" +:+ strings.Join (map json_print l) "," +:+ "]"
  | _ => "null"
  end.

(** A number that is not finite cannot be encoded. *)
Fixpoint json_encodable (value : any) : bool :=
  match value with
  | AFloat64 f => match f with S754_infinity _ | S754_nan => false | _ => true end
  | AMap m => forallb (fun '(_, v) => json_encodable v) m
  | AList l => forallb json_encodable l
  | _ => true
  end.

Definition json_Marshal (value : any) : option string :=
  if json_encodable value then Some (json_print value) else None.

(** [json.Unmarshal] into a [map[string]any], which it extends; a JSON null
    makes it the nil map, [None] in the result. The outer [None] is the error. *)
Definition json_UnmarshalMap (s : string) (existing : option (GoMap any)) : option (option (GoMap any)) :=
  match json.Unmarshal s with
  | Some (AMap m) => Some (Some (foldl (fun acc '(k, v) => map_set acc k v) (default [] existing) m))
  | Some ANil => Some None
  | _ => None
  end.

(** ** time.ParseDuration *)
Module duration.
Definition limit : Z := (2 ^ 63)%Z.

(** [leadingInt]; [None] is the overflow. *)
Fixpoint leadingInt (x : Z) (s : string) : option (Z * string) :=
  match s with
  | String c s' =>
      match digit_value c with
      | Some d =>
          if (limit / 10 <? x)%Z then None
          else if (limit <? x * 10 + d)%Z then None
          else leadingInt (x * 10 + d)%Z s'
      | None => Some (x, s)
      end
  | EmptyString => Some (x, s)
  end.

(** [leadingFraction]: digits that no longer fit are skipped. *)
Fixpoint leadingFraction (overflow : bool) (x : Z) (scale : spec_float) (s : string) : Z * spec_float * string :=
  match s with
  | String c s' =>
      match digit_value c with
      | Some d =>
          if overflow || ((limit - 1) / 10 <? x)%Z then leadingFraction true x scale s'
          else if (limit <? x * 10 + d)%Z then leadingFraction true x scale s'
          else leadingFraction false (x * 10 + d)%Z (float64.mul scale (float64.of_Z 10)) s'
      | None => (x, scale, s)
      end
  | EmptyString => (x, scale, s)
  end.

(** The text up to the next digit or point, and the rest. *)
Fixpoint unit_name (s : string) : string * string :=
  match s with
  | String c s' =>
      if Ascii.eqb c "." || match digit_value c with Some _ => true | None => false end then ("", s)
      else let '(u, rest) := unit_name s' in (String c u, rest)
  | EmptyString => ("", "")
  end.

Definition unit_size (u : string) : option Z :=
  let micro b1 b2 := String b1 (String b2 "s") in
  if u =s "ns" then Some time.Nanosecond
  else if one_of u ["us"; micro "194"%char "181"%char; micro "206"%char "188"%char] then Some 1000%Z
  else if u =s "ms" then Some time.Millisecond
  else if u =s "s" then Some time.Second
  else if u =s "m" then Some time.Minute
  else if u =s "h" then Some time.Hour
  else None.

(** One number with its unit, in nanoseconds. *)
Definition component (s : string) : option (Z * string) :=
  match leadingInt 0 s with
  | None => None
  | Some (v, rest) =>
      let pre := negb (Nat.eqb (String.length s) (String.length rest)) in
      let '(f, scale, post, rest) :=
        match strings.CutPrefix "." rest with
        | Some t =>
            let '(f, scale, rest) := leadingFraction false 0 (float64.of_Z 1) t in
            (f, scale, negb (Nat.eqb (String.length t) (String.length rest)), rest)
        | None => (0%Z, float64.of_Z 1, false, rest)
        end in
      let '(u, rest) := unit_name rest in
      if negb (pre || post) then None
      else match unit_size u with
      | None => None
      | Some size =>
          if (limit / size <? v)%Z then None
          else
            let extra := if (0 <? f)%Z then
                default 0%Z (float64.trunc (float64.mul (float64.of_Z f) (SFdiv 53 1024 (float64.of_Z size) scale)))
              else 0%Z in
            if (limit <? v * size + extra)%Z then None else Some ((v * size + extra)%Z, rest)
      end
  end.

(** The sum of the components; each consumes text, so the length is fuel enough. *)
Fixpoint components (fuel : nat) (d : Z) (s : string) : option Z :=
  match fuel, s with
  | _, EmptyString => Some d
  | O, _ => None
  | S fuel, _ =>
      match component s with
      | Some (v, rest) => if (limit <? d + v)%Z then None else components fuel (d + v)%Z rest
      | None => None
      end
  end.

Definition Parse (s : string) : option Duration :=
  let '(neg, s) := json.sign true s in
  if s =s "0" then Some 0%Z
  else if s =s "" then None
  else
    match components (String.length s) 0 s with
    | Some d => if neg : bool then Some (- d)%Z else if (limit - 1 <? d)%Z then None else Some d
    | None => None
    end.

Example Parse_examples :
  map Parse ["1.5s"; "1h2m3s"; "-250ms"; "5"; "1.s"; ".5m"; "1d"; "9223372036s900ms"]
  = [Some 1500000000; Some 3723000000000; Some (-250000000); None; Some 1000000000; Some 30000000000; None;
     None]%Z.
Proof. vm_compute. reflexivity. Qed.
End duration.
