(* ===== verification/JsonBounds.v ===== *)
(** * Decoding shortens: the strings of a decoded value

    Every string inside the value of a JSON text is shorter than the text. The
    functions of the adapter that decode strings found in decoded values rest
    on this for their termination. *)
From Stdlib Require Import Ascii Floats.SpecFloat.
From S2P Require Import Prelude GoStd Types Json.
#[local] Open Scope string_scope.

(** The length of the longest string of a value. *)
Fixpoint longest (v : any) : nat :=
  match v with
  | AString s => String.length s
  | AList l => (fix each (l : list any) : nat :=
      match l with [] => 0 | x :: l => Nat.max (longest x) (each l) end) l
  | AMap m => (fix each (m : GoMap any) : nat :=
      match m with [] => 0 | (_, x) :: m => Nat.max (longest x) (each m) end) m
  | _ => 0
  end.

Definition within (n : nat) (v : any) : Prop := longest v < n.

Lemma longest_list l n : within n (AList l) <-> 0 < n /\ Forall (within n) l.
Proof.
  unfold within. induction l as [|x l IH]; cbn in *.
  - rewrite Forall_nil. tauto.
  - rewrite Forall_cons. destruct IH as [IH1 IH2]. split.
    + intros H. split; [lia|]. split; [lia|]. apply IH1. lia.
    + intros (Hn & Hx & Hl). apply Nat.max_lub_lt; [done|]. by apply IH2.
Qed.

Lemma longest_map (m : GoMap any) n : within n (AMap m) <-> 0 < n /\ Forall (within n) m.*2.
Proof.
  unfold within. induction m as [|[k x] m IH]; cbn in *.
  - rewrite Forall_nil. tauto.
  - rewrite Forall_cons. destruct IH as [IH1 IH2]. split.
    + intros H. split; [lia|]. split; [lia|]. apply IH1. lia.
    + intros (Hn & Hx & Hl). apply Nat.max_lub_lt; [done|]. by apply IH2.
Qed.

Lemma within_mono v n n' : within n v -> n <= n' -> within n' v.
Proof. unfold within. lia. Qed.

Lemma map_set_within m k v n : Forall (within n) m.*2 -> within n v -> Forall (within n) (map_set m k v).*2.
Proof.
  intros Hm Hv. induction m as [|[j w] m IH]; cbn; [by constructor|].
  apply Forall_cons in Hm as [Hw Hm]. destruct (k =s j); cbn; constructor; auto.
Qed.

(** ** The lexer *)
Abbreviation len := String.length (only parsing).

Lemma skip_ws_len s : len (json.skip_ws s) <= len s.
Proof. induction s as [|c s IH]; cbn [json.skip_ws]; [done|]. destruct (json.is_ws c); cbn [String.length]; lia. Qed.

Lemma CutPrefix_len p s rest : strings.CutPrefix p s = Some rest -> len p + len rest = len s.
Proof.
  revert s. induction p as [|a p IH]; intros s; cbn.
  - by intros [= ->].
  - destruct s as [|b s]; [done|]. destruct (Ascii.eqb a b); [|done]. intros H%IH. cbn. lia.
Qed.

Lemma hex4_len s r rest : json.hex4 s = Some (r, rest) -> 4 + len rest = len s.
Proof.
  destruct s as [|a [|b [|c [|d s]]]]; cbn; try done.
  repeat case_match; try done. intros [= _ <-]. done.
Qed.

Lemma utf8_len r : len (json.utf8 r) <= 4.
Proof. unfold json.utf8. repeat case_match; cbn; lia. Qed.

Lemma utf8_bmp_len r : (r < 65536)%Z -> len (json.utf8 r) <= 3.
Proof.
  intros H. unfold json.utf8. repeat case_match; boolify; cbn.
  all: try lia.
Qed.

Lemma hex4_bound s r rest : json.hex4 s = Some (r, rest) -> (r < 65536)%Z.
Proof.
  assert (forall c d, json.hex_value c = Some d -> (d < 16)%Z) as H.
  { intros c d. unfold json.hex_value. repeat case_match; boolify; intros [= <-]; lia. }
  destruct s as [|a [|b [|c [|d s]]]]; cbn; try done.
  destruct (json.hex_value a) eqn:Ea, (json.hex_value b) eqn:Eb, (json.hex_value c) eqn:Ec,
    (json.hex_value d) eqn:Ed; try done. intros [= <- _].
  apply H in Ea, Eb, Ec, Ed. lia.
Qed.

Lemma escaped_rune_len s t rest : json.escaped_rune s = Some (t, rest) -> len t + len rest <= len s.
Proof.
  unfold json.escaped_rune. destruct (json.hex4 s) as [[r s1]|] eqn:E; [|done].
  pose proof (hex4_len _ _ _ E). pose proof (hex4_bound _ _ _ E).
  destruct (_ || _); [intros [= <- <-]; pose proof (utf8_bmp_len r ltac:(done)); lia|].
  pose proof (utf8_bmp_len 65533 ltac:(lia)).
  destruct (strings.CutPrefix "\u" s1) as [s2|] eqn:E2; [|intros [= <- <-]; lia].
  apply CutPrefix_len in E2. cbn in E2. destruct (json.hex4 s2) as [[r2 s3]|] eqn:E3; [|done].
  pose proof (hex4_len _ _ _ E3).
  destruct (_ && _); intros [= <- <-]; [|lia].
  pose proof (utf8_len (65536 + (r - 55296) * 1024 + (r2 - 56320))%Z). lia.
Qed.

Lemma escape_len s t rest : json.escape s = Some (t, rest) -> len t + len rest <= len s.
Proof.
  destruct s as [|e s]; [done|]. cbn [json.escape].
  repeat (case_match; [by intros [= <- <-]|]).
  case_match; [|done]. intros Hr%escaped_rune_len. cbn. lia.
Qed.

Lemma string_body_len fuel s t rest : json.string_body fuel s = Some (t, rest) -> len t + len rest < len s.
Proof.
  revert s t rest. induction fuel as [|fuel IH]; intros s t rest; [by destruct s|].
  destruct s as [|c s]; [done|]. cbn [json.string_body].
  destruct (Nat.eqb _ 34); [intros [= <- <-]; cbn; lia|].
  destruct (_ <? 32)%nat; [done|].
  destruct (if Nat.eqb _ 92 then _ else _) as [[t1 s1]|] eqn:E; [|done].
  assert (len t1 + len s1 <= S (len s)).
  { destruct (Nat.eqb _ 92); [apply escape_len in E; lia|]. injection E as <- <-. cbn. lia. }
  destruct (json.string_body fuel s1) as [[t2 s2]|] eqn:E2; [|done]. intros [= <- <-].
  apply IH in E2. rewrite str_length_app. cbn. lia.
Qed.

Lemma digits_len acc n s m k rest : json.digits acc n s = (m, k, rest) -> k + len rest = n + len s /\ n <= k.
Proof.
  revert acc n. induction s as [|c s IH]; intros acc n; cbn; [intros [= _ <- <-]; cbn; lia|].
  destruct (digit_value c); [intros H%IH; lia|]. intros [= _ <- <-]. cbn. lia.
Qed.

Lemma fraction_len m s m' k rest : json.fraction m s = Some (m', k, rest) -> len rest <= len s.
Proof.
  destruct s as [|c s]; cbn; [by intros [= _ _ <-]|].
  destruct (Ascii.eqb c "."); [|by intros [= _ _ <-]].
  destruct (json.digits m 0 s) as [[d j] r] eqn:E. apply digits_len in E.
  destruct (Nat.eqb j 0); [done|]. intros [= _ _ <-]. lia.
Qed.

Lemma sign_len plus s : len (snd (json.sign plus s)) <= len s.
Proof. destruct s as [|c s]; cbn; [done|]. repeat case_match; cbn; lia. Qed.

Lemma exponent_len s e rest : json.exponent s = Some (e, rest) -> len rest <= len s.
Proof.
  destruct s as [|c s]; cbn; [by intros [= _ <-]|].
  destruct (_ || _); [|by intros [= _ <-]].
  pose proof (sign_len true s) as Hs. destruct (json.sign true s) as [neg t]. cbn in Hs.
  destruct (json.digits 0 0 t) as [[d j] r] eqn:E. apply digits_len in E.
  destruct (Nat.eqb j 0); [done|]. intros [= _ <-]. lia.
Qed.

Lemma number_len s v rest : json.number s = Some (v, rest) -> longest v = 0 /\ len rest < len s.
Proof.
  unfold json.number. pose proof (sign_len false s) as Hs. destruct (json.sign false s) as [neg t]. cbn in Hs.
  destruct (json.digits 0 0 t) as [[m n] r] eqn:E. apply digits_len in E.
  destruct (Nat.eqb_spec n 0); [done|]. cbn [orb]. destruct (_ && _); [done|].
  destruct (json.fraction m r) as [[[m' k] r2]|] eqn:E2; [|done]. apply fraction_len in E2.
  destruct (json.exponent r2) as [[e r3]|] eqn:E3; [|done]. apply exponent_len in E3.
  repeat case_match; try done; intros [= <- <-]; (split; [done|lia]).
Qed.

(** ** The parser *)
Definition value_ok (fuel : nat) : Prop := forall depth s v rest,
  json.value fuel depth s = Some (v, rest) -> within (len s - len rest) v /\ len rest < len s.
Definition elements_ok (fuel : nat) : Prop := forall depth acc s v rest,
  json.elements fuel depth acc s = Some (v, rest) -> len rest < len s /\
  forall n, Forall (within n) acc -> len s - len rest <= n -> within n v.
Definition members_ok (fuel : nat) : Prop := forall depth acc s v rest,
  json.members fuel depth acc s = Some (v, rest) -> len rest < len s /\
  forall n, Forall (within n) acc.*2 -> len s - len rest <= n -> within n v.

Lemma elements_step fuel : value_ok fuel -> elements_ok fuel -> elements_ok (S fuel).
Proof.
  intros HV HE depth acc s v rest. cbn [json.elements].
  destruct (json.value fuel depth s) as [[x r]|] eqn:E; [|done]. apply HV in E as [Hx Hr].
  pose proof (skip_ws_len r). destruct (json.skip_ws r) as [|c r2]; [done|]. cbn in *.
  destruct (Ascii.eqb c "]").
  - intros [= <- <-]. split; [lia|]. intros n Hacc Hn. apply longest_list. split; [lia|].
    apply Forall_app. split; [done|]. constructor; [|done]. apply (within_mono _ _ _ Hx). lia.
  - destruct (Ascii.eqb c ","); [|done]. intros [Hl Hn]%HE. split; [lia|].
    intros n Hacc Hle. apply Hn; [|lia]. apply Forall_app. split; [done|].
    constructor; [|done]. apply (within_mono _ _ _ Hx). lia.
Qed.

Lemma members_step fuel : value_ok fuel -> members_ok fuel -> members_ok (S fuel).
Proof.
  intros HV HM depth acc s v rest. cbn [json.members].
  pose proof (skip_ws_len s). destruct (strings.CutPrefix _ (json.skip_ws s)) as [s1|] eqn:E1; [|done].
  apply CutPrefix_len in E1. cbn in E1.
  destruct (json.string_body _ s1) as [[key r1]|] eqn:E2; [|done]. apply string_body_len in E2.
  pose proof (skip_ws_len r1). destruct (strings.CutPrefix ":" (json.skip_ws r1)) as [r2|] eqn:E3; [|done].
  apply CutPrefix_len in E3. cbn in E3.
  destruct (json.value fuel depth r2) as [[x r]|] eqn:E; [|done]. apply HV in E as [Hx Hr].
  pose proof (skip_ws_len r). destruct (json.skip_ws r) as [|c r3]; [done|]. cbn in *.
  destruct (Ascii.eqb c "}").
  - intros [= <- <-]. split; [lia|]. intros n Hacc Hn. apply longest_map. split; [lia|].
    apply map_set_within; [done|]. apply (within_mono _ _ _ Hx). lia.
  - destruct (Ascii.eqb c ","); [|done]. intros [Hl Hn]%HM. split; [lia|].
    intros n Hacc Hle. apply Hn; [|lia]. apply map_set_within; [done|]. apply (within_mono _ _ _ Hx). lia.
Qed.

Lemma value_step fuel : elements_ok fuel -> members_ok fuel -> value_ok (S fuel).
Proof.
  intros HE HM depth s v rest. cbn [json.value]. pose proof (skip_ws_len s) as Hs.
  destruct (json.skip_ws s) as [|c s1]; [done|]. cbn in Hs.
  destruct (Ascii.eqb c "{"); [|destruct (Ascii.eqb c "["); [|destruct (Ascii.eqb c "034")]].
  - destruct (_ <? _)%Z; [done|]. pose proof (skip_ws_len s1).
    destruct (strings.CutPrefix "}" (json.skip_ws s1)) as [r|] eqn:E.
    + apply CutPrefix_len in E. cbn in E. intros [= <- <-]. split; [|lia]. unfold within. cbn. lia.
    + intros [Hl Hn]%HM. split; [|lia]. apply Hn; [constructor|lia].
  - destruct (_ <? _)%Z; [done|]. pose proof (skip_ws_len s1).
    destruct (strings.CutPrefix "]" (json.skip_ws s1)) as [r|] eqn:E.
    + apply CutPrefix_len in E. cbn in E. intros [= <- <-]. split; [|lia]. unfold within. cbn. lia.
    + intros [Hl Hn]%HE. split; [|lia]. apply Hn; [constructor|lia].
  - destruct (json.string_body _ s1) as [[t r]|] eqn:E; [|done]. apply string_body_len in E.
    intros [= <- <-]. split; [|lia]. unfold within. cbn. lia.
  - destruct (strings.CutPrefix "null" _) as [r|] eqn:E; [apply CutPrefix_len in E; cbn in E|
      destruct (strings.CutPrefix "true" _) as [r|] eqn:E'; [apply CutPrefix_len in E'; cbn in E'|
        destruct (strings.CutPrefix "false" _) as [r|] eqn:E''; [apply CutPrefix_len in E''; cbn in E''|]]].
    1-3: intros [= <- <-]; split; [unfold within; cbn; lia|lia].
    intros [H0 Hl]%number_len. cbn in Hl. split; [unfold within; lia|lia].
Qed.

Lemma parser_ok fuel : value_ok fuel /\ elements_ok fuel /\ members_ok fuel.
Proof.
  induction fuel as [|fuel (HV & HE & HM)].
  - split; [|split]; repeat intro; done.
  - split; [by apply value_step|]. split; [by apply elements_step|by apply members_step].
Qed.

(** Every string of the value of a text is shorter than the text. *)
Lemma Unmarshal_within s v : json.Unmarshal s = Some v -> within (len s) v.
Proof.
  unfold json.Unmarshal. destruct (json.value _ 0 s) as [[x rest]|] eqn:E; [|done].
  destruct (parser_ok (2 * len s + 2)) as (HV & _ & _). apply HV in E as [Hw Hl].
  destruct (json.skip_ws rest); [|done]. intros [= <-]. apply (within_mono _ _ _ Hw). lia.
Qed.

