(* ===== verification/JsonRoundTrip.v ===== *)
(** * Printing and reading back: json.Unmarshal after json.Marshal

    A value printed by [json_print] reads back as itself, its maps in the order
    of their sorted keys and its named strings as plain ones ([canon]). The
    theorem asks of the numbers in it that their shortest decimals read back,
    which is decidable for each of them and what strconv promises for all. *)
From Stdlib Require Import Ascii Floats.SpecFloat.
From S2P Require Import Prelude GoStd Types Json GoFmt.
#[local] Open Scope string_scope.
#[local] Set Warnings "-register-all".

(** ** Values of JSON *)

(** The values of JSON, their numbers satisfying [P]; [named] allows strings of
    named types, which encode like strings and are never decoded. *)
Inductive shaped (named : Prop) (P : spec_float -> Prop) : any -> Prop :=
| shaped_nil : shaped named P ANil
| shaped_bool b : shaped named P (ABool b)
| shaped_string s : shaped named P (AString s)
| shaped_named type s : named -> shaped named P (ANamed type s)
| shaped_number f : P f -> shaped named P (AFloat64 f)
| shaped_list l : Forall (shaped named P) l -> shaped named P (AList l)
| shaped_map (m : GoMap any) : NoDup m.*1 -> Forall (shaped named P) m.*2 -> shaped named P (AMap m).

(** The shortest decimal of the number reads back as the number. *)
Definition readable (f : spec_float) : Prop :=
  json.number (decimal.print_json f) = Some (AFloat64 f, "").

(** The nesting depth, as the decoder counts it. *)
Fixpoint depth (v : any) : Z :=
  match v with
  | AList l => (1 + (fix each (l : list any) : Z :=
      match l with [] => 0 | x :: l => Z.max (depth x) (each l) end) l)%Z
  | AMap m => (1 + (fix each (m : GoMap any) : Z :=
      match m with [] => 0 | (_, x) :: m => Z.max (depth x) (each m) end) m)%Z
  | _ => 0%Z
  end.

Lemma depth_list_le l n : (depth (AList l) <= n <-> 1 <= n /\ Forall (fun v => depth v <= n - 1) l)%Z.
Proof.
  cbn [depth]. induction l as [|v l IH]; [rewrite Forall_nil; lia|]. rewrite Forall_cons.
  match goal with |- context [Z.max (depth v) ?n] => set (rest := n) in *; change n with rest in IH end.
  split; [intros H; destruct (proj1 IH ltac:(lia)); split_and!; done || lia|].
  intros (H1 & H2 & H3). pose proof (proj2 IH (conj H1 H3)). lia.
Qed.

Lemma depth_map_le (m : GoMap any) n : (depth (AMap m) <= n <-> 1 <= n /\ Forall (fun v => depth v <= n - 1) m.*2)%Z.
Proof.
  cbn [depth]. induction m as [|[k v] m IH]; [rewrite Forall_nil; lia|]. cbn [fmap list_fmap snd]. rewrite Forall_cons.
  match goal with |- context [Z.max (depth v) ?n] => set (rest := n) in *; change n with rest in IH end.
  split; [intros H; destruct (proj1 IH ltac:(lia)); split_and!; done || lia|].
  intros (H1 & H2 & H3). pose proof (proj2 IH (conj H1 H3)). lia.
Qed.

(** The entries of a map in the order of their keys. *)
Definition sorted_entries {V} (none : V) (m : GoMap V) : GoMap V :=
  map (fun k => (k, default none (map_get m k))) (sort_strings m.*1).

(** What a printed value reads back as. *)
Fixpoint canon (v : any) : any :=
  match v with
  | ANamed _ s => AString s
  | AList l => AList (map canon l)
  | AMap m => AMap (sorted_entries ANil (map (fun '(k, v) => (k, canon v)) m))
  | v => v
  end.

(** ** Induction over the shape *)
Section ShapedInd.
Context (named : Prop) (P : spec_float -> Prop) (Q : any -> Prop)
  (Hnil : Q ANil) (Hbool : forall b, Q (ABool b)) (Hstr : forall s, Q (AString s))
  (Hnamed : forall t s, named -> Q (ANamed t s)) (Hnum : forall f, P f -> Q (AFloat64 f))
  (Hlist : forall l, Forall (shaped named P) l -> Forall Q l -> Q (AList l))
  (Hmap : forall m : GoMap any, NoDup m.*1 -> Forall (shaped named P) m.*2 -> Forall Q m.*2 -> Q (AMap m)).

Lemma shaped_nested_ind v : shaped named P v -> Q v.
Proof.
  induction v as [s|l IH|m IH|v Hv] using any_nested_ind; intros H; inversion H; subst; auto; try done.
  - apply Hlist; [done|]. rewrite Forall_forall in *. eauto.
  - apply Hmap; [done..|]. rewrite Forall_forall in *. eauto.
Qed.
End ShapedInd.

(** ** Entries *)
Lemma map_get_map {V W} (f : V -> W) (m : GoMap V) k :
  map_get (map (fun '(k, v) => (k, f v)) m) k = f <$> map_get m k.
Proof. induction m as [|[j v] m IH]; [done|]. cbn. by destruct (k =s j). Qed.

Lemma map_keys_map {V W} (f : V -> W) (m : GoMap V) : (map (fun '(k, v) => (k, f v)) m).*1 = m.*1.
Proof. induction m as [|[j v] m IH]; [done|]. cbn. by f_equal. Qed.

Lemma map_get_is_Some {V} (m : GoMap V) k : k ∈ m.*1 -> is_Some (map_get m k).
Proof.
  intros H. destruct (map_get m k) eqn:E; [by eexists|]. by apply map_get_None in E.
Qed.

Lemma sorted_keys {V} (none : V) m : (sorted_entries none m).*1 = sort_strings m.*1.
Proof. unfold sorted_entries. induction (sort_strings m.*1) as [|k l IH]; [done|]. cbn. by f_equal. Qed.

(** Sorting commutes with a change of the values. *)
Lemma sorted_map {V W} (f : V -> W) none none' (m : GoMap V) :
  sorted_entries none' (map (fun '(k, v) => (k, f v)) m) = map (fun '(k, v) => (k, f v)) (sorted_entries none m).
Proof.
  unfold sorted_entries. rewrite map_keys_map, map_map. apply map_ext_in. intros k Hk.
  apply list_elem_of_In in Hk. rewrite (sort_strings_perm m.*1) in Hk. rewrite map_get_map.
  by destruct (map_get_is_Some m k Hk) as [v ->].
Qed.

Lemma sorted_NoDup {V} (none : V) m : NoDup m.*1 -> NoDup (sorted_entries none m).*1.
Proof. intros H. by rewrite sorted_keys, sort_strings_perm. Qed.

Lemma sorted_Forall {V} (Q : V -> Prop) none (m : GoMap V) : Forall Q m.*2 -> Forall Q (sorted_entries none m).*2.
Proof.
  intros H. rewrite !Forall_forall in *. intros v ([k w] & -> & Hin)%list_elem_of_fmap.
  apply list_elem_of_In in Hin. unfold sorted_entries in Hin. apply in_map_iff in Hin as (j & [= <- <-] & Hj).
  apply list_elem_of_In in Hj. rewrite (sort_strings_perm m.*1) in Hj.
  destruct (map_get_is_Some m j Hj) as [w Hw]. rewrite Hw. cbn. apply H.
  apply list_elem_of_fmap. exists (j, w). split; [done|]. by apply map_get_elem.
Qed.

(** Sorting a map does not change what it holds. *)
Lemma sorted_get {V} (none : V) m k : map_get (sorted_entries none m) k = map_get m k.
Proof.
  destruct (decide (k ∈ m.*1)) as [Hk|Hk].
  - destruct (map_get_is_Some m k Hk) as [v Hv]. rewrite Hv.
    assert (k ∈ sort_strings m.*1) as Hs by (by rewrite sort_strings_perm). unfold sorted_entries.
    induction (sort_strings m.*1) as [|j l IH]; [by apply not_elem_of_nil in Hs|]. cbn.
    destruct (String.eqb_spec k j) as [<-|Hne]; [by rewrite Hv|]. apply IH. by apply elem_of_cons in Hs as [?|?].
  - rewrite (proj2 (map_get_None m k) Hk). apply map_get_None. by rewrite sorted_keys, sort_strings_perm.
Qed.

(** ** The order of the keys *)
Lemma compare_cons c s d t :
  String.compare (String c s) (String d t) =
  match Ascii.compare c d with Eq => String.compare s t | Lt => Lt | Gt => Gt end.
Proof. done. Qed.

#[global] Instance str_le_trans : Transitive str_le.
Proof.
  unfold str_le, String.leb. intros s. induction s as [|c s IH]; intros [|d t] [|e u]; try done.
  rewrite !compare_cons. unfold Ascii.compare.
  destruct (N.compare_spec (N_of_ascii c) (N_of_ascii d)) as [E|E|E]; [| |done].
  - rewrite E. destruct (N.compare (N_of_ascii d) (N_of_ascii e)); [apply IH|done..].
  - destruct (N.compare_spec (N_of_ascii d) (N_of_ascii e)) as [F|F|F]; [| |done]; intros _ _;
      destruct (N.compare_spec (N_of_ascii c) (N_of_ascii e)); done || lia.
Qed.

#[global] Instance str_le_antisym : AntiSymm eq str_le.
Proof. intros s t. apply String.leb_antisym. Qed.

(** The order in which a map happens to be visited does not show. *)
Lemma sort_strings_same l l' : l ≡ₚ l' -> sort_strings l = sort_strings l'.
Proof.
  intros H. apply (Sorted_unique str_le); [apply sort_strings_sorted..|]. by rewrite !sort_strings_perm.
Qed.

Lemma sort_strings_idemp l : sort_strings (sort_strings l) = sort_strings l.
Proof. apply sort_strings_same, sort_strings_perm. Qed.

Lemma sorted_idemp {V} (none : V) m : sorted_entries none (sorted_entries none m) = sorted_entries none m.
Proof.
  unfold sorted_entries at 1 3. rewrite sorted_keys, sort_strings_idemp. apply map_ext. intros k. by rewrite sorted_get.
Qed.

Lemma canon_idemp v : canon (canon v) = canon v.
Proof.
  induction v as [s|l IH|m IH|v Hv] using any_nested_ind; [done| | |by destruct v].
  - cbn [canon]. f_equal. rewrite map_map. apply map_ext_in. intros x Hx%list_elem_of_In. rewrite Forall_forall in IH. auto.
  - cbn [canon]. f_equal. rewrite !(sorted_map canon ANil ANil), sorted_idemp, map_map. apply map_ext_in. intros [k x] Hx. f_equal.
    apply list_elem_of_In in Hx. apply (sorted_Forall _ ANil) in IH. rewrite Forall_forall in IH.
    apply IH, list_elem_of_fmap. by exists (k, x).
Qed.

(** ** The lexer on printed text *)
Definition body (s : string) : string :=
  foldr (fun c acc => json_byte c +:+ acc) "" (String.list_ascii_of_string s).

Lemma json_byte_reads c rest fuel :
  json.string_body (S fuel) (json_byte c +:+ rest) =
  match json.string_body fuel rest with Some (t, rest) => Some (String c t, rest) | None => None end.
Proof. destruct c as [[] [] [] [] [] [] [] []]; reflexivity. Qed.

(** A printed string reads back, whatever follows its closing quote. *)
Lemma body_reads s fuel rest : String.length s < fuel ->
  json.string_body fuel (body s +:+ String "034" rest) = Some (s, rest).
Proof.
  unfold body. revert fuel. induction s as [|c s IH]; intros fuel Hf; (destruct fuel as [|fuel]; [lia|]); [done|].
  cbn [String.list_ascii_of_string foldr]. rewrite str_app_assoc, json_byte_reads, IH; [done|].
  cbn in Hf. lia.
Qed.

Lemma json_string_eq s rest : json_string s +:+ rest = String "034" (body s +:+ String "034" rest).
Proof. unfold json_string. cbn zeta. rewrite !str_app_assoc. done. Qed.

Lemma body_length s : String.length s <= String.length (body s).
Proof.
  unfold body. induction s as [|c s IH]; [done|]. cbn [String.list_ascii_of_string foldr String.length].
  rewrite str_length_app. assert (1 <= String.length (json_byte c)) by (apply Nat.leb_le; by destruct c as [[] [] [] [] [] [] [] []]). lia.
Qed.

(** What may follow a value: nothing, or the punctuation of JSON. *)
Definition closed (rest : string) : Prop :=
  match rest with EmptyString => True | String c _ => c = ","%char \/ c = "]"%char \/ c = "}"%char end.

Ltac close H := destruct H as [-> | [-> | ->]].

Lemma digits_local acc n s rest : closed rest ->
  json.digits acc n (s +:+ rest) = let '(m, k, r) := json.digits acc n s in (m, k, r +:+ rest).
Proof.
  intros Hc. revert acc n. induction s as [|c s IH]; intros acc n.
  - destruct rest as [|c rest]; [done|]. by close Hc.
  - cbn [json.digits]. change (String c s +:+ rest) with (String c (s +:+ rest)). cbn [json.digits].
    destruct (digit_value c); [apply IH|done].
Qed.

Lemma sign_local plus s rest : closed rest ->
  json.sign plus (s +:+ rest) = let '(neg, r) := json.sign plus s in (neg, r +:+ rest).
Proof.
  intros Hc. destruct s as [|c s].
  - destruct rest as [|c rest]; [done|]. close Hc; by destruct plus.
  - change (String c s +:+ rest) with (String c (s +:+ rest)). cbn [json.sign].
    destruct (Ascii.eqb c "-"); [done|]. by destruct (plus && _).
Qed.

Lemma fraction_local m s rest : closed rest ->
  json.fraction m (s +:+ rest) = match json.fraction m s with Some (m, k, r) => Some (m, k, r +:+ rest) | None => None end.
Proof.
  intros Hc. destruct s as [|c s].
  - destruct rest as [|c rest]; [done|]. by close Hc.
  - change (String c s +:+ rest) with (String c (s +:+ rest)). cbn [json.fraction].
    destruct (Ascii.eqb c "."); [|done]. rewrite digits_local by done.
    destruct (json.digits m 0 s) as [[m' k] r]. by destruct (Nat.eqb k 0).
Qed.

Lemma exponent_local s rest : closed rest ->
  json.exponent (s +:+ rest) = match json.exponent s with Some (e, r) => Some (e, r +:+ rest) | None => None end.
Proof.
  intros Hc. destruct s as [|c s].
  - destruct rest as [|c rest]; [done|]. by close Hc.
  - change (String c s +:+ rest) with (String c (s +:+ rest)). cbn [json.exponent].
    destruct (_ || _); [|done]. rewrite sign_local by done. destruct (json.sign true s) as [neg t].
    rewrite digits_local by done. destruct (json.digits 0 0 t) as [[e j] r]. by destruct (Nat.eqb j 0).
Qed.

(** A number ends where the punctuation begins. *)
Lemma number_local s rest : closed rest ->
  json.number (s +:+ rest) = match json.number s with Some (v, r) => Some (v, r +:+ rest) | None => None end.
Proof.
  intros Hc. unfold json.number. rewrite sign_local by done. destruct (json.sign false s) as [neg t].
  rewrite digits_local by done. destruct (json.digits 0 0 t) as [[m n] r] eqn:E.
  destruct (Nat.eqb_spec n 0) as [|Hn]; [done|].
  assert (strings.HasPrefix (t +:+ rest) "0" = strings.HasPrefix t "0") as ->.
  { destruct t as [|c t]; [cbn in E; congruence|]. unfold strings.HasPrefix.
    change (String c t +:+ rest) with (String c (t +:+ rest)). cbn [strings.CutPrefix].
    by destruct (Ascii.eqb "0" c). }
  cbn [orb]. destruct (_ && _); [done|]. rewrite fraction_local by done.
  destruct (json.fraction m r) as [[[m' k] r']|]; [|done]. rewrite exponent_local by done.
  destruct (json.exponent r') as [[e r'']|]; [|done]. by destruct (json.decimal _ _).
Qed.

(** How a number begins. *)
Lemma number_starts s v r : json.number s = Some (v, r) ->
  exists c t, s = String c t /\ (c = "-"%char \/ is_Some (digit_value c)).
Proof.
  unfold json.number. destruct s as [|c t]; [done|]. intros H. exists c, t. split; [done|].
  cbn [json.sign andb] in H. destruct (Ascii.eqb_spec c "-") as [->|]; [by left|]. right. cbn [json.digits] in H.
  destruct (digit_value c); [by eexists|done].
Qed.

(** ** The parser on printed text *)
Abbreviation ok := (shaped True readable).

Lemma print_starts v : ok v ->
  exists c t, json_print v = String c t /\ json.is_ws c = false /\ c <> "]"%char /\ c <> "}"%char.
Proof.
  intros H. inversion H as [|[]| | |f Hf| |]; subst; cbn [json_print]; try (by eexists _, _).
  destruct (number_starts _ _ _ Hf) as (c & t & -> & Hc). exists c, t. split; [done|].
  destruct Hc as [->|[d Hd]]; [done|]. unfold digit_value in Hd. by destruct c as [[] [] [] [] [] [] [] []].
Qed.

(** The parser reads the value [v] off its text. *)
Definition reads (v : any) : Prop := forall fuel d rest, closed rest ->
  2 * String.length (json_print v) < fuel -> (d + depth v <= 10000)%Z ->
  json.value fuel d (json_print v +:+ rest) = Some (canon v, rest).

Lemma reads_number f : readable f -> reads (AFloat64 f).
Proof.
  intros Hf fuel d rest Hc Hfuel _. destruct fuel as [|fuel]; [lia|]. cbn [json_print canon].
  pose proof (number_local (decimal.print_json f) rest Hc) as Hn. rewrite Hf in Hn.
  destruct (number_starts _ _ _ Hf) as (c & t & E & Hs). rewrite E in *.
  change (String c t +:+ rest) with (String c (t +:+ rest)) in *. cbn [json.value].
  assert (json.is_ws c = false /\ Ascii.eqb c "{" = false /\ Ascii.eqb c "[" = false /\ Ascii.eqb c "034" = false /\
    Ascii.eqb "n" c = false /\ Ascii.eqb "t" c = false /\ Ascii.eqb "f" c = false) as (H1 & H2 & H3 & H4 & H5 & H6 & H7).
  { destruct Hs as [->|[x Hx]]; [done|]. unfold digit_value in Hx. by destruct c as [[] [] [] [] [] [] [] []]. }
  cbn [json.skip_ws]. rewrite H1. cbn [strings.CutPrefix]. by rewrite H2, H3, H4, H5, H6, H7.
Qed.

Lemma reads_string s : reads (AString s).
Proof.
  intros fuel d rest Hc Hfuel _. destruct fuel as [|fuel]; [lia|]. cbn [json_print canon]. rewrite json_string_eq.
  cbn -[json.string_body]. rewrite body_reads; [done|]. rewrite str_length_app. pose proof (body_length s). lia.
Qed.

(** The elements of a list, joined. *)
Lemma reads_elements l fuel d acc rest : Forall reads l -> Forall ok l -> l <> [] -> closed rest ->
  2 * String.length (strings.Join (map json_print l) ",") + 1 < fuel ->
  Forall (fun v => d + depth v <= 10000)%Z l ->
  json.elements fuel d acc (strings.Join (map json_print l) "," +:+ String "]" rest) =
    Some (AList (acc ++ map canon l), rest)%list.
Proof.
  intros Hr Hok Hne Hc. revert fuel acc. induction l as [|v l IH]; intros fuel acc Hf Hd; [done|].
  apply Forall_cons in Hr as [Hv Hr], Hok as [Hokv Hok], Hd as [Hdv Hd]. destruct fuel as [|fuel]; [lia|].
  destruct l as [|w l].
  - cbn [map strings.Join] in *. cbn [json.elements].
    rewrite Hv; [|right; by left|lia|done]. done.
  - set (l' := w :: l) in *. assert (strings.Join (map json_print (v :: l')) "," =
      json_print v +:+ "," +:+ strings.Join (map json_print l') ",") as E by done.
    rewrite E in *. rewrite !str_length_app in Hf. cbn [String.length] in Hf.
    rewrite !str_app_assoc. cbn [json.elements]. rewrite Hv; [|by left|lia|done].
    change ("," +:+ ?s) with (String "," s). cbn [json.skip_ws]. change (json.is_ws ",") with false. cbv iota.
    change (Ascii.eqb "," "]") with false. change (Ascii.eqb "," ",") with true. cbv iota.
    rewrite IH; [|done..|lia|done]. cbn [map]. by rewrite <-app_assoc.
Qed.

Lemma depth_list l d : (d + depth (AList l) <= 10000)%Z ->
  (d + 1 <= 10000)%Z /\ Forall (fun v => d + 1 + depth v <= 10000)%Z l.
Proof.
  intros H. destruct (proj1 (depth_list_le l (10000 - d)) ltac:(lia)) as [Hd Hl]. split; [lia|].
  eapply Forall_impl; [exact Hl|]. cbn. lia.
Qed.

Lemma depth_map (m : GoMap any) d : (d + depth (AMap m) <= 10000)%Z ->
  (d + 1 <= 10000)%Z /\ Forall (fun v => d + 1 + depth v <= 10000)%Z m.*2.
Proof.
  intros H. destruct (proj1 (depth_map_le m (10000 - d)) ltac:(lia)) as [Hd Hl]. split; [lia|].
  eapply Forall_impl; [exact Hl|]. cbn. lia.
Qed.

(** Text that begins a value does not close a container. *)
Lemma not_closing c t p : json.is_ws c = false -> c <> p ->
  strings.CutPrefix (String p "") (json.skip_ws (String c t)) = None.
Proof.
  intros Hws Hne. cbn [json.skip_ws]. rewrite Hws. cbn [strings.CutPrefix]. by destruct (Ascii.eqb_spec p c).
Qed.

Lemma reads_list l : Forall ok l -> Forall reads l -> reads (AList l).
Proof.
  intros Hok Hr fuel d rest Hc Hf Hd. apply depth_list in Hd as [Hd Hds]. destruct fuel as [|fuel]; [lia|].
  cbn [json_print canon] in *. rewrite !str_length_app in Hf. cbn [String.length] in Hf. rewrite !str_app_assoc.
  change ("[" +:+ ?s) with (String "[" s). cbn [json.value json.skip_ws]. change (json.is_ws "[") with false. cbv iota.
  change (Ascii.eqb "[" "{") with false. change (Ascii.eqb "[" "[") with true. cbv iota.
  rewrite (proj2 (Z.ltb_ge 10000 (d + 1)) Hd). change ("]" +:+ rest) with (String "]" rest).
  destruct l as [|v l]; [done|]. destruct (print_starts v) as (c & t & E & Hws & H1 & _); [by inversion Hok|].
  assert (exists t', strings.Join (map json_print (v :: l)) "," = String c t') as [t' E'].
  { destruct l; cbn [map strings.Join]; rewrite E; by eexists. }
  assert (strings.CutPrefix "]" (json.skip_ws (strings.Join (map json_print (v :: l)) "," +:+ String "]" rest)) = None) as ->.
  { rewrite E'. by apply (not_closing c (t' +:+ String "]" rest)). }
  rewrite reads_elements; [done..|lia|done].
Qed.

(** The text of an object, from its sorted entries. *)
Definition member (entry : string * any) : string := json_string entry.1 +:+ ":" +:+ json_print entry.2.

Lemma print_map m : json_print (AMap m) = "{" +:+ strings.Join (map member (sorted_entries ANil m)) "," +:+ "}".
Proof.
  cbn [json_print]. change (map (fun k => (k, default "" (map_get ?m' k))) (sort_strings ?m'.*1)) with (sorted_entries "" m').
  rewrite (sorted_map json_print ANil ""). unfold json_object. rewrite map_map.
  do 3 f_equal. apply map_ext. by intros [k v].
Qed.

Lemma canon_map m : canon (AMap m) = AMap (map (fun '(k, v) => (k, canon v)) (sorted_entries ANil m)).
Proof. cbn [canon]. by rewrite (sorted_map canon ANil ANil). Qed.

Lemma map_set_fresh {V} (m : GoMap V) k v : k ∉ m.*1 -> map_set m k v = (m ++ [(k, v)])%list.
Proof.
  induction m as [|[j w] m IH]; [done|]. cbn. intros [Hne H]%not_elem_of_cons.
  rewrite (proj2 (String.eqb_neq k j)) by done. by rewrite IH.
Qed.

(** The members of an object, joined. *)
Lemma reads_members es fuel d acc rest : Forall reads es.*2 -> es <> [] -> closed rest -> NoDup (acc.*1 ++ es.*1) ->
  2 * String.length (strings.Join (map member es) ",") + 1 < fuel ->
  Forall (fun v => d + depth v <= 10000)%Z es.*2 ->
  json.members fuel d acc (strings.Join (map member es) "," +:+ String "}" rest) =
    Some (AMap (acc ++ map (fun '(k, v) => (k, canon v)) es), rest)%list.
Proof.
  intros Hr Hne Hc. revert fuel acc. induction es as [|[k v] es IH]; intros fuel acc Hnd Hf Hd; [done|].
  apply Forall_cons in Hr as [Hv Hr], Hd as [Hdv Hd]. cbn [fst snd fmap list_fmap] in *. destruct fuel as [|fuel]; [lia|].
  assert (k ∉ acc.*1) as Hk by (apply NoDup_app in Hnd as (_ & Hnd & _); intros ?; apply (Hnd k); [done|by left]).
  assert (forall tail, closed tail -> tail <> "" -> 2 * String.length (member (k, v)) < S fuel ->
    json.members (S fuel) d acc (member (k, v) +:+ tail) =
    match tail with
    | String c rest =>
        if Ascii.eqb c "}" then Some (AMap (acc ++ [(k, canon v)])%list, rest)
        else if Ascii.eqb c "," then json.members fuel d (acc ++ [(k, canon v)])%list rest else None
    | EmptyString => None
    end) as Hstep.
  { intros tail Ht Hnt Hl. unfold member in *. cbn [fst snd] in *. rewrite !str_length_app in Hl. cbn [String.length] in Hl.
    rewrite !str_app_assoc, json_string_eq. cbn [json.members json.skip_ws].
    change (json.is_ws "034") with false. cbn [strings.CutPrefix]. rewrite Ascii.eqb_refl.
    rewrite body_reads by (rewrite !str_length_app; pose proof (body_length k); lia).
    change (":" +:+ ?s) with (String ":" s). cbn [json.skip_ws]. change (json.is_ws ":") with false.
    cbn [strings.CutPrefix]. rewrite Ascii.eqb_refl. rewrite Hv by (done || lia). rewrite map_set_fresh by done.
    destruct tail as [|c tail]; [done|]. by close Ht. }
  destruct es as [|e es].
  - cbn [map strings.Join] in *. rewrite Hstep; [done|right; by right|done|lia].
  - set (es' := e :: es) in *. assert (strings.Join (map member ((k, v) :: es')) "," =
      member (k, v) +:+ "," +:+ strings.Join (map member es') ",") as E by done.
    rewrite E in *. rewrite !str_length_app in Hf. cbn [String.length] in Hf.
    rewrite !str_app_assoc, Hstep; [|by left|done|lia]. change ("," +:+ ?s) with (String "," s). cbv iota.
    change (Ascii.eqb "," "}") with false. change (Ascii.eqb "," ",") with true. cbv iota.
    rewrite IH; [|done..| |lia|done].
    + cbn [map]. by rewrite <-app_assoc.
    + rewrite fmap_app, <-app_assoc. exact Hnd.
Qed.

Lemma reads_map (m : GoMap any) : NoDup m.*1 -> Forall reads m.*2 -> reads (AMap m).
Proof.
  intros Hnd Hr fuel d rest Hc Hf Hd. apply depth_map in Hd as [Hd Hds]. destruct fuel as [|fuel]; [lia|].
  rewrite print_map, canon_map in *. set (es := sorted_entries ANil m) in *.
  assert (Forall reads es.*2) as Hes by (by apply sorted_Forall).
  assert (Forall (fun v => d + 1 + depth v <= 10000)%Z es.*2) as Hdes by (by apply sorted_Forall).
  assert (NoDup es.*1) as Hnes by (by apply sorted_NoDup). clearbody es.
  rewrite !str_length_app in Hf. cbn [String.length] in Hf. rewrite !str_app_assoc.
  change ("{" +:+ ?s) with (String "{" s). cbn [json.value json.skip_ws]. change (json.is_ws "{") with false. cbv iota.
  change (Ascii.eqb "{" "{") with true. cbv iota.
  rewrite (proj2 (Z.ltb_ge 10000 (d + 1)) Hd). change ("}" +:+ rest) with (String "}" rest).
  destruct es as [|[k v] es]; [done|].
  assert (exists t, strings.Join (map member ((k, v) :: es)) "," = String "034" t) as [t E].
  { destruct es; cbn [map strings.Join]; unfold member at 1; rewrite ?str_app_assoc, json_string_eq; by eexists. }
  assert (strings.CutPrefix "}" (json.skip_ws (strings.Join (map member ((k, v) :: es)) "," +:+ String "}" rest)) = None) as ->.
  { rewrite E. by apply (not_closing "034" (t +:+ String "}" rest)). }
  rewrite reads_members; [done..|lia|done].
Qed.

Lemma ok_reads v : ok v -> reads v.
Proof.
  apply (shaped_nested_ind True readable reads).
  - by intros [] d rest Hc Hf Hd; [lia|].
  - intros b [|fuel] d rest Hc Hf Hd; [lia|]. by destruct b.
  - apply reads_string.
  - intros t s _. exact (reads_string s).
  - apply reads_number.
  - apply reads_list.
  - intros m Hnd _ Hr. by apply reads_map.
Qed.

Lemma ok_encodable v : ok v -> json_encodable v = true.
Proof.
  apply (shaped_nested_ind True readable (fun v => json_encodable v = true)); try done.
  - intros f Hf. destruct f as [|[]| |]; [done| | | |done]; unfold readable in Hf; vm_compute in Hf; discriminate.
  - intros l _ H. cbn [json_encodable]. apply forallb_forall. intros x Hx%list_elem_of_In. rewrite Forall_forall in H. auto.
  - intros m _ _ H. cbn [json_encodable]. apply forallb_forall. intros [k x] Hx%list_elem_of_In. rewrite Forall_forall in H.
    apply H, list_elem_of_fmap. by exists (k, x).
Qed.

(** Printing and decoding are inverse: a value whose numbers are readable,
    nested at most 10000 deep, is encoded, and its text decodes to the value
    with its maps in the order of their keys. *)
Lemma Marshal_reads v : shaped True readable v -> (depth v <= 10000)%Z ->
  exists text, json_Marshal v = Some text /\ json.Unmarshal text = Some (canon v).
Proof.
  intros H Hd. exists (json_print v). split; [unfold json_Marshal; by rewrite ok_encodable|].
  unfold json.Unmarshal.
  pose proof (ok_reads v H (2 * String.length (json_print v) + 2) 0%Z "" I ltac:(lia) ltac:(lia)) as Hv.
  rewrite str_app_nil_r in Hv. by rewrite Hv.
Qed.

(** ** What is decoded

    A number that is decoded is finite. *)
Definition finite (f : spec_float) : Prop :=
  match f with S754_infinity _ | S754_nan => False | _ => True end.

Abbreviation decoded := (shaped False finite).

Lemma number_decoded s v rest : json.number s = Some (v, rest) -> decoded v /\ depth v = 0%Z.
Proof.
  unfold json.number. destruct (json.sign false s) as [neg t]. destruct (json.digits 0 0 t) as [[m n] r].
  destruct (_ || _); [done|]. destruct (json.fraction m r) as [[[m' k] r']|]; [|done].
  destruct (json.exponent r') as [[e r'']|]; [|done].
  destruct (json.decimal _ _) as [| | |b f x] eqn:E; try done; intros [= <- <-]; (split; [|done]); constructor; by destruct neg.
Qed.

(** A value decoded at depth [d] stays within the limit of the decoder. *)
Definition fits (d : Z) (v : any) : Prop := decoded v /\ (d + depth v <= Z.max d 10000)%Z.

Lemma fits_list d l : (d + 1 <= 10000)%Z -> Forall (fits (d + 1)) l -> fits d (AList l).
Proof.
  intros Hd Hl. split.
  - constructor. eapply Forall_impl; [exact Hl|]. by intros v [].
  - assert (depth (AList l) <= 10000 - d)%Z; [|lia]. apply depth_list_le. split; [lia|].
    eapply Forall_impl; [exact Hl|]. intros v [_ ?]. lia.
Qed.

Lemma fits_map d (m : GoMap any) : (d + 1 <= 10000)%Z -> NoDup m.*1 -> Forall (fits (d + 1)) m.*2 -> fits d (AMap m).
Proof.
  intros Hd Hnd Hm. split.
  - constructor; [done|]. eapply Forall_impl; [exact Hm|]. by intros v [].
  - assert (depth (AMap m) <= 10000 - d)%Z; [|lia]. apply depth_map_le. split; [lia|].
    eapply Forall_impl; [exact Hm|]. intros v [_ ?]. lia.
Qed.

Lemma map_set_Forall {V} (Q : V -> Prop) (m : GoMap V) k v : Forall Q m.*2 -> Q v -> Forall Q (map_set m k v).*2.
Proof.
  intros Hm Hv. induction m as [|[j w] m IH]; cbn; [by constructor|].
  apply Forall_cons in Hm as [Hw Hm]. destruct (k =s j); cbn; constructor; auto.
Qed.

Definition value_typed (fuel : nat) : Prop := forall d s v rest,
  json.value fuel d s = Some (v, rest) -> fits d v.
Definition elements_typed (fuel : nat) : Prop := forall d acc s v rest, (d + 1 <= 10000)%Z ->
  Forall (fits (d + 1)) acc -> json.elements fuel (d + 1) acc s = Some (v, rest) -> fits d v.
Definition members_typed (fuel : nat) : Prop := forall d acc s v rest, (d + 1 <= 10000)%Z ->
  NoDup acc.*1 -> Forall (fits (d + 1)) acc.*2 -> json.members fuel (d + 1) acc s = Some (v, rest) -> fits d v.

Lemma parser_typed fuel : value_typed fuel /\ elements_typed fuel /\ members_typed fuel.
Proof.
  induction fuel as [|fuel (HV & HE & HM)]; [by split_and!; repeat intro|]. split; [|split].
  - intros d s v rest. cbn [json.value]. destruct (json.skip_ws s) as [|c s1]; [done|].
    assert (forall x, decoded x -> depth x = 0%Z -> fits d x) as Hflat by (intros x Hx H0; split; [done|lia]).
    destruct (Ascii.eqb c "{"); [|destruct (Ascii.eqb c "["); [|destruct (Ascii.eqb c "034")]].
    + destruct (Z.ltb_spec 10000 (d + 1)); [done|]. destruct (strings.CutPrefix _ _).
      * intros [= <- <-]. apply fits_map; [done|constructor..].
      * apply HM; [done|constructor..].
    + destruct (Z.ltb_spec 10000 (d + 1)); [done|]. destruct (strings.CutPrefix _ _).
      * intros [= <- <-]. apply fits_list; [done|constructor].
      * apply HE; [done|constructor].
    + destruct (json.string_body _ s1) as [[t r]|]; [|done]. intros [= <- <-]. apply Hflat; [constructor|done].
    + repeat case_match; try (intros [= <- <-]; apply Hflat; [constructor|done]).
      intros [Hx Hx0]%number_decoded. by apply Hflat.
  - intros d acc s v rest Hd Hacc. cbn [json.elements]. destruct (json.value fuel (d + 1) s) as [[x r]|] eqn:E; [|done].
    apply HV in E. destruct (json.skip_ws r) as [|c r2]; [done|].
    assert (Forall (fits (d + 1)) (acc ++ [x])) by (by apply Forall_snoc).
    destruct (Ascii.eqb c "]"); [intros [= <- <-]; by apply fits_list|].
    destruct (Ascii.eqb c ","); [|done]. by apply HE.
  - intros d acc s v rest Hd Hnd Hacc. cbn [json.members]. destruct (strings.CutPrefix _ (json.skip_ws s)) as [s1|]; [|done].
    destruct (json.string_body _ s1) as [[key r1]|]; [|done]. destruct (strings.CutPrefix ":" _) as [r2|]; [|done].
    destruct (json.value fuel (d + 1) r2) as [[x r]|] eqn:E; [|done]. apply HV in E.
    destruct (json.skip_ws r) as [|c r3]; [done|].
    assert (Forall (fits (d + 1)) (map_set acc key x).*2) by (by apply map_set_Forall).
    assert (NoDup (map_set acc key x).*1) by (by apply map_set_NoDup).
    destruct (Ascii.eqb c "}"); [intros [= <- <-]; by apply fits_map|].
    destruct (Ascii.eqb c ","); [|done]. by apply HM.
Qed.

(** The type of what is decoded: whatever the text, a value that comes out of
    the decoder is made of nil, booleans, strings, finite numbers, lists and
    maps only, no map has a key twice, and it is nested at most 10000 deep. *)
Theorem Unmarshal_typed text v : json.Unmarshal text = Some v ->
  shaped False finite v /\ (depth v <= 10000)%Z.
Proof.
  unfold json.Unmarshal. destruct (json.value _ 0 text) as [[x rest]|] eqn:E; [|done].
  apply parser_typed in E as [H Hd]. destruct (json.skip_ws rest); [|done]. intros [= <-]. split; [done|lia].
Qed.

(** ** Values up to the order of their maps

    Two Go values are the same when they differ in the order in which maps
    happen to be visited, and in the names of string types, only. *)
Definition same_value (v w : any) : Prop := canon v = canon w.

#[global] Instance same_value_equiv : Equivalence same_value.
Proof. split; unfold same_value; [done|by intros v w ->|by intros u v w -> ->]. Qed.

Lemma canon_same v : same_value (canon v) v.
Proof. apply canon_idemp. Qed.

Lemma map_order_same (m m' : GoMap any) : NoDup m.*1 -> m ≡ₚ m' -> same_value (AMap m) (AMap m').
Proof.
  intros Hnd Hp. unfold same_value. rewrite !canon_map. do 2 f_equal. unfold sorted_entries.
  assert (m.*1 ≡ₚ m'.*1) as Hk by (by rewrite Hp). rewrite (sort_strings_same _ _ Hk). apply map_ext. intros k. f_equal.
  destruct (map_get m k) as [v|] eqn:E.
  - apply map_get_elem in E. rewrite Hp in E. rewrite Hk in Hnd. by rewrite (elem_map_get m' k v Hnd E).
  - apply map_get_None in E. rewrite Hk in E. apply map_get_None in E. by rewrite E.
Qed.

Lemma print_canon v : json_print (canon v) = json_print v.
Proof.
  induction v as [s|l IH|m IH|v Hv] using any_nested_ind; [done| | |by destruct v].
  - cbn [canon json_print]. rewrite map_map. do 3 f_equal. apply map_ext_in. intros x Hx%list_elem_of_In.
    rewrite Forall_forall in IH. auto.
  - rewrite canon_map, !print_map. rewrite <-(sorted_map canon ANil ANil), sorted_map with (none := ANil).
    rewrite sorted_map with (none := ANil), sorted_idemp, map_map. do 3 f_equal. apply map_ext_in. intros [k x] Hx.
    apply list_elem_of_In in Hx. apply (sorted_Forall _ ANil) in IH. rewrite Forall_forall in IH.
    unfold member. cbn [fst snd]. do 2 f_equal. apply IH, list_elem_of_fmap. by exists (k, x).
Qed.

(** The encoding sees neither: it is a function of the Go value. *)
#[global] Instance json_print_proper : Proper (same_value ==> eq) json_print.
Proof. intros v w E. by rewrite <-(print_canon v), <-(print_canon w), E. Qed.

(** ** Values that can be encoded and decoded again *)
Definition sized (n : Z) (v : any) : Prop := shaped True readable v /\ (depth v <= n)%Z.

Lemma sized_map n (m : GoMap any) :
  sized n (AMap m) <-> (1 <= n)%Z /\ NoDup m.*1 /\ Forall (sized (n - 1)) m.*2.
Proof.
  split.
  - intros [H [Hn Hd]%depth_map_le]. inversion H as [| | | | | |m' Hnd Hm]; subst. split_and!; [done..|].
    rewrite Forall_forall in *. intros v Hv. split; [by apply Hm|by apply Hd].
  - intros (Hn & Hnd & Hm). split.
    + constructor; [done|]. eapply Forall_impl; [exact Hm|]. by intros v [].
    + apply depth_map_le. split; [done|]. eapply Forall_impl; [exact Hm|]. by intros v [].
Qed.

Lemma sized_list n l : sized n (AList l) <-> (1 <= n)%Z /\ Forall (sized (n - 1)) l.
Proof.
  split.
  - intros [H [Hn Hd]%depth_list_le]. inversion H as [| | | | |l' Hl|]; subst. split; [done|].
    rewrite Forall_forall in *. intros v Hv. split; [by apply Hl|by apply Hd].
  - intros (Hn & Hl). split.
    + constructor. eapply Forall_impl; [exact Hl|]. by intros v [].
    + apply depth_list_le. split; [done|]. eapply Forall_impl; [exact Hl|]. by intros v [].
Qed.

Lemma sized_mono n n' v : (n <= n')%Z -> sized n v -> sized n' v.
Proof. intros ? [? ?]. split; [done|lia]. Qed.

Lemma sized_canon n v : sized n v -> sized n (canon v).
Proof.
  revert n. induction v as [s|l IH|m IH|v Hv] using any_nested_ind; [done| | |].
  - intros n [Hn Hl]%sized_list. cbn [canon]. apply sized_list. split; [done|]. apply Forall_map.
    rewrite Forall_forall in *. auto.
  - intros n (Hn & Hnd & Hm)%sized_map. rewrite canon_map. apply sized_map. split; [done|].
    split; [rewrite map_keys_map; by apply sorted_NoDup|]. apply (sorted_Forall _ ANil) in IH, Hm. clear Hnd.
    revert IH Hm. induction (sorted_entries ANil m) as [|[k v] es IHes]; [constructor|].
    intros [Hv IH]%Forall_cons [Hs Hm]%Forall_cons. cbn [map fmap list_fmap snd]. constructor; [by apply Hv|by apply IHes].
  - intros n [H Hd]. split; [|by destruct v]. inversion H; subst; cbn [canon]; try done. constructor.
Qed.

(** What is encoded can be decoded, and encoded again. *)
Lemma Marshal_sized v : sized 10000 v ->
  exists text, json_Marshal v = Some text /\ json.Unmarshal text = Some (canon v).
Proof. intros [H Hd]. by apply Marshal_reads. Qed.

(** Printing and decoding are inverse: a value whose numbers are readable,
    nested at most 10000 deep, is encoded, and its text decodes to the same
    value, up to the order of its maps; encoding that value again gives the
    same text. *)
Theorem json_roundtrip v : shaped True readable v -> (depth v <= 10000)%Z ->
  exists text w, json_Marshal v = Some text /\ json.Unmarshal text = Some w /\ same_value w v /\
    json_Marshal w = Some text.
Proof.
  intros H Hd. destruct (Marshal_reads v H Hd) as (text & Hm & Hu). exists text, (canon v).
  split_and!; [done..|apply canon_same|]. rewrite <-Hm. unfold json_Marshal.
  destruct (sized_canon 10000 v (conj H Hd)) as [Hc _]. by rewrite (ok_encodable _ H), (ok_encodable _ Hc), print_canon.
Qed.

(** A settings object with a number and nested maps. *)
Definition sample_settings : any :=
  AMap [("permission", AMap [("write", AString "deny"); ("bash", AString "ask & tell")]);
        ("limit", AFloat64 (S754_finite false 7205759403792794 (-56))); ("tags", AList [ABool true; ANil])].

Lemma json_roundtrip_witness : exists text w, json_Marshal sample_settings = Some text /\
  json.Unmarshal text = Some w /\ same_value w sample_settings /\ json_Marshal w = Some text.
Proof.
  assert (forall l : list string, bool_decide (NoDup l) = true -> NoDup l) as Hnd by (intros l; apply bool_decide_eq_true_1).
  apply (json_roundtrip sample_settings).
  - repeat match goal with
      | |- NoDup _ => apply Hnd; vm_compute; reflexivity
      | |- readable _ => vm_compute; reflexivity
      | |- Forall _ _ => constructor
      | |- shaped _ _ _ => constructor
      end.
  - vm_compute. discriminate.
Defined.

Lemma Unmarshal_typed_witness :
  exists v, json.Unmarshal (json.with_quotes "{`a`: [1, {`b`: null}], `a`: true}") = Some v /\
    shaped False finite v /\ (depth v <= 10000)%Z.
Proof.
  eexists. split; [vm_compute; reflexivity|]. apply (Unmarshal_typed (json.with_quotes "{`a`: [1, {`b`: null}], `a`: true}")).
  vm_compute. reflexivity.
Defined.
