(* ===== verification/Permissions.v ===== *)
(** * Permission policies: permissions.go

    [ValidatePermissionPolicy] rejects malformed policies; [Summary] and
    [StableID] give the metadata-safe summary and its identifier. *)
From S2P Require Import Prelude GoStd Types Redact Errors Sha256 Json.
#[local] Open Scope string_scope.

Definition PermissionToolRead : PermissionTool := "read".
Definition PermissionToolEdit : PermissionTool := "edit".
Definition PermissionToolWrite : PermissionTool := "write".
Definition PermissionToolPatch : PermissionTool := "patch".
Definition PermissionToolShell : PermissionTool := "shell".
Definition PermissionToolBash : PermissionTool := "bash".
Definition PermissionToolGlob : PermissionTool := "glob".
Definition PermissionToolSearch : PermissionTool := "search".
Definition PermissionToolList : PermissionTool := "list".
Definition PermissionToolTask : PermissionTool := "task".
Definition PermissionToolTodo : PermissionTool := "todo".
Definition PermissionToolQuestion : PermissionTool := "question".
Definition PermissionToolWebFetch : PermissionTool := "web_fetch".
Definition PermissionToolWebSearch : PermissionTool := "web_search".
Definition PermissionToolRepoClone : PermissionTool := "repo_clone".
Definition PermissionToolRepoOverview : PermissionTool := "repo_overview".
Definition PermissionToolExternalDirectory : PermissionTool := "external_directory".
Definition PermissionToolDoomLoop : PermissionTool := "doom_loop".
Definition PermissionToolLanguageServer : PermissionTool := "language_server".
Definition PermissionToolSkill : PermissionTool := "skill".

Definition permissionConfigError (detail : string) : SDKError :=
  NewError ErrorConfiguration "permission policy" detail None [].

Definition known_action (action : PermissionAction) : bool :=
  one_of action [PermissionActionDefault; PermissionActionAllow; PermissionActionDeny;
                 PermissionActionAsk].

Definition validatePermissionAction (action : PermissionAction) (field : string) : option SDKError :=
  if known_action action then None
  else Some (permissionConfigError (field +:+ " must be default, allow, deny, or ask")).

(** The loops over [policy.Tools] and [policy.PathRules]: the first error. *)
Fixpoint validate_tools (tools : GoMap PermissionAction) : option SDKError :=
  match tools with
  | [] => None
  | (tool, action) :: tools =>
      if tool =s "" then Some (permissionConfigError "permission tool cannot be empty")
      else match validatePermissionAction action ("permission action for " +:+ tool) with
           | Some err => Some err
           | None => validate_tools tools
           end
  end.

Fixpoint validate_path_rules (rules : list PermissionPathRule) : option SDKError :=
  match rules with
  | [] => None
  | rule :: rules =>
      if ppr_Path rule =s ""
      then Some (permissionConfigError "permission path rule cannot have an empty path")
      else match validatePermissionAction (ppr_Action rule)
                   ("permission path rule for " +:+ ppr_Path rule) with
           | Some err => Some err
           | None => validate_path_rules rules
           end
  end.

(** [%q] of the behaviour is printed between plain quotes. *)
Definition ValidatePermissionPolicy (policy : option PermissionPolicy) : option SDKError :=
  match policy with
  | None => None
  | Some policy =>
      match validatePermissionAction (pp_Default policy) "default permission action" with
      | Some err => Some err
      | None =>
          match validate_tools (pp_Tools policy) with
          | Some err => Some err
          | None =>
              match validate_path_rules (pp_PathRules policy) with
              | Some err => Some err
              | None =>
                  if one_of (pp_UnsupportedBehavior policy)
                       [PermissionUnsupportedFail; PermissionUnsupportedBestEffort]
                  then None
                  else Some (permissionConfigError
                    ("unsupported permission fallback behavior " +:+
                     json_string (pp_UnsupportedBehavior policy)))
              end
          end
      end
  end.

(** [copyPermissionToolMap]: an empty map is copied to nil. *)
Definition copyPermissionToolMap (src : GoMap PermissionAction) : GoMap PermissionAction := src.

(** The map a [GoMap] stands for: its entries without their order. *)
Definition as_map {V} (m : GoMap V) : gmap string V := list_to_map m.

(** [json.Marshal] of a summary: the fields in declaration order. An empty
    [Tools] is the nil map, since [copyPermissionToolMap] made it so. *)
Definition marshal_summary (s : PermissionPolicySummary) : string :=
  json_object
    [("ID", json_string (pps_ID s));
     ("Default", json_string (pps_Default s));
     ("Tools", json_string_map (match pps_Tools s with [] => None | m => Some (as_map m) end));
     ("PathRuleCount", itoa (pps_PathRuleCount s));
     ("UnsupportedBehavior", json_string (pps_UnsupportedBehavior s));
     ("Metadata", json_string_map (pps_Metadata s))].

Definition StableID (s : PermissionPolicySummary) : string :=
  let copy := s <| pps_ID := "" |> in
  let sum := Sha256.Sum256 (marshal_summary copy) in
  "perm_" +:+ hex.EncodeToString (take 8 sum).

(** The method [Summary] of [PermissionPolicy]. *)
Definition Summary (p : PermissionPolicy) : PermissionPolicySummary :=
  let summary :=
    zero <| pps_Default := pp_Default p |>
         <| pps_Tools := copyPermissionToolMap (pp_Tools p) |>
         <| pps_PathRuleCount := Z.of_nat (length (pp_PathRules p)) |>
         <| pps_UnsupportedBehavior := pp_UnsupportedBehavior p |>
         <| pps_Metadata := RedactStringMap (pp_Metadata p) |> in
  summary <| pps_ID := StableID summary |>.

Definition permissionPolicyID (policy : option PermissionPolicy) : string :=
  match policy with None => "" | Some policy => pps_ID (Summary policy) end.

(** ** Validation *)
Definition policy_valid (policy : PermissionPolicy) : Prop :=
  known_action (pp_Default policy) = true /\
  Forall (fun '(tool, action) => tool <> "" /\ known_action action = true) (pp_Tools policy) /\
  Forall (fun rule => ppr_Path rule <> "" /\ known_action (ppr_Action rule) = true)
    (pp_PathRules policy) /\
  pp_UnsupportedBehavior policy ∈ [PermissionUnsupportedFail; PermissionUnsupportedBestEffort].

Lemma validatePermissionAction_None action field :
  validatePermissionAction action field = None <-> known_action action = true.
Proof. unfold validatePermissionAction. by destruct (known_action action). Qed.

Lemma validate_tools_None tools :
  validate_tools tools = None <->
  Forall (fun '(tool, action) => tool <> "" /\ known_action action = true) tools.
Proof.
  induction tools as [|[tool action] tools IH]; cbn [validate_tools]; [done|].
  rewrite Forall_cons, <-IH. destruct (String.eqb_spec tool "") as [->|Ht]; [naive_solver|].
  destruct (validatePermissionAction _ _) eqn:E.
  - unfold validatePermissionAction in E. destruct (known_action action); naive_solver.
  - apply validatePermissionAction_None in E. naive_solver.
Qed.

Lemma validate_path_rules_None rules :
  validate_path_rules rules = None <->
  Forall (fun rule => ppr_Path rule <> "" /\ known_action (ppr_Action rule) = true) rules.
Proof.
  induction rules as [|rule rules IH]; cbn [validate_path_rules]; [done|].
  rewrite Forall_cons, <-IH. destruct (String.eqb_spec (ppr_Path rule) "") as [Ht|Ht]; [naive_solver|].
  destruct (validatePermissionAction _ _) eqn:E.
  - unfold validatePermissionAction in E. destruct (known_action (ppr_Action rule)); naive_solver.
  - apply validatePermissionAction_None in E. naive_solver.
Qed.

Lemma ValidatePermissionPolicy_None policy :
  ValidatePermissionPolicy (Some policy) = None <-> policy_valid policy.
Proof.
  unfold ValidatePermissionPolicy, policy_valid.
  rewrite <-(validatePermissionAction_None (pp_Default policy) "default permission action"),
    <-validate_tools_None, <-validate_path_rules_None, <-one_of_spec.
  repeat case_match; naive_solver.
Qed.

(** A policy is accepted exactly when every action is default, allow, deny
    or ask, no tool and no path is empty and the fallback behaviour is one of
    the two known ones; so the verdict does not depend on the order in which
    the tools are visited. Every rejection is a configuration error. *)
Theorem ValidatePermissionPolicy_spec policy :
  (ValidatePermissionPolicy (Some policy) = None <-> policy_valid policy) /\
  (forall tools', tools' ≡ₚ pp_Tools policy ->
     ValidatePermissionPolicy (Some (policy <| pp_Tools := tools' |>)) = None <->
     ValidatePermissionPolicy (Some policy) = None) /\
  (forall err, ValidatePermissionPolicy (Some policy) = Some err ->
     err_Category err = ErrorConfiguration).
Proof.
  split; [apply ValidatePermissionPolicy_None|]. split.
  - intros tools' Hp. rewrite !ValidatePermissionPolicy_None. unfold policy_valid. cbn. by rewrite Hp.
  - intros err. unfold ValidatePermissionPolicy, validatePermissionAction.
    destruct (known_action (pp_Default policy)); [|by intros [= <-]].
    assert (forall tools e, validate_tools tools = Some e -> err_Category e = ErrorConfiguration) as Ht.
    { induction tools as [|[t a] tools IH]; cbn; [done|]. intros e.
      unfold validatePermissionAction. repeat case_match; naive_solver. }
    assert (forall rules e, validate_path_rules rules = Some e -> err_Category e = ErrorConfiguration) as Hr.
    { induction rules as [|r rules IH]; cbn; [done|]. intros e.
      unfold validatePermissionAction. repeat case_match; naive_solver. }
    repeat case_match; naive_solver.
Qed.

(** ** The stable identifier *)
Lemma as_map_perm {V} (m m' : GoMap V) : NoDup m.*1 -> m ≡ₚ m' -> as_map m = as_map m'.
Proof. apply list_to_map_proper. Qed.

Lemma marshal_summary_tools s tools' :
  NoDup (pps_Tools s).*1 -> pps_Tools s ≡ₚ tools' ->
  marshal_summary (s <| pps_Tools := tools' |>) = marshal_summary s.
Proof.
  intros Hnd Hp. unfold marshal_summary.
  cbn -[json_object json_string_map json_string as_map]. pose proof (as_map_perm _ _ Hnd Hp) as E.
  destruct (pps_Tools s) as [|x l], tools' as [|x' l']; try done.
  - by apply Permutation_nil_l in Hp.
  - symmetry in Hp. by apply Permutation_nil_l in Hp.
  - by rewrite E.
Qed.

Lemma length_EncodeToString bytes : String.length (hex.EncodeToString bytes) = 2 * length bytes.
Proof. induction bytes as [|b bytes IH]; cbn -[Nat.mul]; [done|]. rewrite IH. lia. Qed.

(** The identifier of a policy does not depend on the iteration order of
    its tool map, is the one its summary carries (the identifier field itself
    is ignored when it is computed), and is [perm_] with 16 hexadecimal
    digits. *)
Theorem permission_policy_id_stable p tools' :
  NoDup (pp_Tools p).*1 -> pp_Tools p ≡ₚ tools' ->
  permissionPolicyID (Some (p <| pp_Tools := tools' |>)) = permissionPolicyID (Some p) /\
  StableID (Summary p) = permissionPolicyID (Some p) /\
  String.length (permissionPolicyID (Some p)) = 21.
Proof.
  intros Hnd Hp. split; [|split; [done|]].
  - unfold permissionPolicyID, Summary, StableID. cbn -[marshal_summary].
    do 4 f_equal.
    match goal with |- marshal_summary ?a = marshal_summary ?b =>
      change a with (b <| pps_Tools := tools' |>) end.
    by apply marshal_summary_tools.
  - unfold permissionPolicyID, Summary, StableID. cbn -[marshal_summary Sha256.Sum256 take].
    by rewrite str_length_app, length_EncodeToString, length_take, length_Sum256.
Qed.

Definition two_tools : PermissionPolicy :=
  zero <| pp_Tools := [("read", PermissionActionAllow); ("edit", PermissionActionDeny)] |>.

Lemma permission_policy_id_stable_witness :
  permissionPolicyID (Some (two_tools <| pp_Tools :=
    [("edit", PermissionActionDeny); ("read", PermissionActionAllow)] |>)) =
  permissionPolicyID (Some two_tools).
Proof.
  refine (proj1 (permission_policy_id_stable two_tools _ _ _)).
  - apply (bool_decide_unpack _). vm_compute. exact I.
  - apply perm_swap.
Defined.
