(* ===== verification/Cache.v ===== *)
(** * Prompt-cache directives: cache.go

    A directive names a byte prefix of the prompt by length and SHA-256;
    [ValidatePromptCacheDirective] checks both against the prompt, and
    [PromptCacheDirectiveFromMetadata] reads a directive out of the legacy
    request metadata. *)
From S2P Require Import Prelude GoStd Types Redact Errors Sha256.
#[local] Open Scope string_scope.

Definition MetadataPromptCacheKey : string := "prompt_cache_key".
Definition MetadataPromptCacheBreakpointBytes : string := "prompt_cache_breakpoint_bytes".
Definition MetadataPromptCachePrefixSHA256 : string := "prompt_cache_prefix_sha256".
Definition MetadataPromptCacheMode : string := "prompt_cache_mode".

(** The method [Enabled] of [PromptCacheDirective]. *)
Definition Enabled (d : PromptCacheDirective) : bool :=
  negb (pcd_Key d =s "") || negb (pcd_BreakpointBytes d =? 0)%Z || negb (pcd_PrefixSHA256 d =s "")
  || negb (pcd_Mode d =s "") || pcd_RequireNative d.

Definition promptCacheValidationError (detail : string) : SDKError :=
  NewError ErrorConfiguration "prompt cache directive" detail (Some (EOther detail)) [].

(** [prompt[:directive.BreakpointBytes]] *)
Definition prompt_prefix (prompt : string) (directive : PromptCacheDirective) : string :=
  strings.take (Z.to_nat (pcd_BreakpointBytes directive)) prompt.

Definition ValidatePromptCacheDirective (prompt : string) (directive : PromptCacheDirective)
    : option SDKError :=
  if negb (Enabled directive) then None
  else if strings.TrimSpace (pcd_Key directive) =s ""
  then Some (promptCacheValidationError "cache key is required")
  else if strings.TrimSpace (pcd_Mode directive) =s ""
  then Some (promptCacheValidationError "cache mode is required")
  else if (pcd_BreakpointBytes directive <=? 0)%Z
  then Some (promptCacheValidationError "cache breakpoint must be greater than zero")
  else if (Z.of_nat (String.length prompt) <? pcd_BreakpointBytes directive)%Z
  then Some (promptCacheValidationError "cache breakpoint exceeds prompt length")
  else
    let digest := strings.ToLower (strings.TrimSpace (pcd_PrefixSHA256 directive)) in
    if match hex.DecodeString digest with
       | Some decoded => negb (length decoded =? 32)%nat
       | None => true
       end
    then Some (promptCacheValidationError
                 "cache prefix SHA-256 must contain 64 hexadecimal characters")
    else
      let want := Sha256.Sum256 (prompt_prefix prompt directive) in
      if negb (digest =s hex.EncodeToString want)
      then Some (promptCacheValidationError "cache prefix SHA-256 does not match prompt bytes")
      else None.

Definition PromptCacheKeySHA256 (key : string) : string :=
  hex.EncodeToString (Sha256.Sum256 key).

(** The directive, whether the metadata has one, and the error. *)
Definition PromptCacheDirectiveFromMetadata (metadata : StringMap)
    : PromptCacheDirective * bool * option SDKError :=
  let key := strings.TrimSpace (str_at metadata MetadataPromptCacheKey) in
  let breakpoint := strings.TrimSpace (str_at metadata MetadataPromptCacheBreakpointBytes) in
  let digest := strings.TrimSpace (str_at metadata MetadataPromptCachePrefixSHA256) in
  let mode := strings.TrimSpace (str_at metadata MetadataPromptCacheMode) in
  if (key =s "") && (breakpoint =s "") && (digest =s "") && (mode =s "")
  then (zero, false, None)
  else
    match Atoi breakpoint with
    | None => (zero, true, Some (promptCacheValidationError
                 "cache breakpoint metadata must be an integer"))
    | Some value =>
        (mkPromptCacheDirective key value digest mode false, true, None)
    end.

(** ** What a valid directive is *)
Definition directive_matches (prompt : string) (d : PromptCacheDirective) : Prop :=
  strings.TrimSpace (pcd_Key d) <> "" /\ strings.TrimSpace (pcd_Mode d) <> "" /\
  (0 < pcd_BreakpointBytes d <= Z.of_nat (String.length prompt))%Z /\
  strings.ToLower (strings.TrimSpace (pcd_PrefixSHA256 d)) =
    hex.EncodeToString (Sha256.Sum256 (prompt_prefix prompt d)).

(** A digest that equals the expected one is well-formed. *)
Lemma expected_digest_decodes s :
  hex.DecodeString (hex.EncodeToString (Sha256.Sum256 s)) = Some (Sha256.Sum256 s).
Proof. apply hex_roundtrip, Sum256_bytes. Qed.

(** A directive passes exactly when it is disabled, or its key and mode are
    not blank, its breakpoint lies inside the prompt and its digest is, up to
    case and surrounding space, the hexadecimal SHA-256 of the prompt's first
    [BreakpointBytes] bytes; every rejection is a configuration error. *)
Theorem ValidatePromptCacheDirective_spec prompt d :
  (ValidatePromptCacheDirective prompt d = None <->
     Enabled d = false \/ directive_matches prompt d) /\
  (forall err, ValidatePromptCacheDirective prompt d = Some err ->
     err_Category err = ErrorConfiguration).
Proof.
  unfold ValidatePromptCacheDirective, directive_matches. cbn zeta. split.
  - destruct (Enabled d); cbn [negb]; [|tauto].
    destruct (String.eqb_spec (strings.TrimSpace (pcd_Key d)) ""); [naive_solver|].
    destruct (String.eqb_spec (strings.TrimSpace (pcd_Mode d)) ""); [naive_solver|].
    destruct (Z.leb_spec (pcd_BreakpointBytes d) 0); [split; [done|]; intros [?|?]; [done|lia]|].
    destruct (Z.ltb_spec (Z.of_nat (String.length prompt)) (pcd_BreakpointBytes d));
      [split; [done|]; intros [?|?]; [done|lia]|].
    set (digest := strings.ToLower _). set (want := Sha256.Sum256 _).
    destruct (String.eqb_spec digest (hex.EncodeToString want)) as [->|Hne]; cbn [negb].
    + unfold want. rewrite expected_digest_decodes, length_Sum256. split; [|done].
      intros _. right. auto with lia.
    + case_match; split; done || (intros [?|(?&?&?&?)]; done).
  - intros err. repeat case_match; intros [= <-]; done.
Qed.

(** ** The legacy metadata transport *)
Definition directive_to_metadata (d : PromptCacheDirective) : StringMap :=
  Some {[ MetadataPromptCacheKey := pcd_Key d;
          MetadataPromptCacheBreakpointBytes := itoa (pcd_BreakpointBytes d);
          MetadataPromptCachePrefixSHA256 := pcd_PrefixSHA256 d;
          MetadataPromptCacheMode := pcd_Mode d ]}.

(** A text that [strings.TrimSpace] leaves alone. *)
Definition trimmed (s : string) : Prop := strings.TrimSpace s = s.

(** The legacy metadata transport round-trips: a directive whose texts carry
    no surrounding space is read back from the metadata that spells it, with
    [RequireNative] cleared. *)
Theorem PromptCacheDirective_roundtrip d :
  trimmed (pcd_Key d) -> trimmed (pcd_PrefixSHA256 d) -> trimmed (pcd_Mode d) ->
  Int64.in_range (pcd_BreakpointBytes d) ->
  PromptCacheDirectiveFromMetadata (directive_to_metadata d) =
  (d <| pcd_RequireNative := false |>, true, None).
Proof.
  intros Hk Hp Hm Hb. unfold PromptCacheDirectiveFromMetadata.
  change (str_at (directive_to_metadata d) MetadataPromptCacheKey) with (pcd_Key d).
  change (str_at (directive_to_metadata d) MetadataPromptCacheBreakpointBytes)
    with (itoa (pcd_BreakpointBytes d)).
  change (str_at (directive_to_metadata d) MetadataPromptCachePrefixSHA256) with (pcd_PrefixSHA256 d).
  change (str_at (directive_to_metadata d) MetadataPromptCacheMode) with (pcd_Mode d).
  rewrite Hk, Hp, Hm, (strings.TrimSpace_no_space (itoa _)) by apply itoa_no_space. cbn zeta.
  rewrite (proj2 (String.eqb_neq (itoa _) "")) by by apply itoa_nonempty.
  rewrite andb_false_r, Atoi_itoa by done. done.
Qed.

Definition sample_directive : PromptCacheDirective :=
  mkPromptCacheDirective "tenant-1" 12 "ab12" "prefix" false.

Lemma PromptCacheDirective_roundtrip_witness :
  PromptCacheDirectiveFromMetadata (directive_to_metadata sample_directive)
  = (sample_directive, true, None).
Proof.
  apply (PromptCacheDirective_roundtrip sample_directive);
    [reflexivity..|]. vm_compute. split; discriminate.
Defined.

(** Metadata that spells no cache key is no directive, and a breakpoint that
    is not an integer is reported, never turned into a directive. *)
Theorem PromptCacheDirectiveFromMetadata_cases metadata :
  let '(d, found, err) := PromptCacheDirectiveFromMetadata metadata in
  (found = false -> d = zero /\ err = None) /\
  (forall e, err = Some e -> found = true /\ d = zero /\ err_Category e = ErrorConfiguration /\
     Atoi (strings.TrimSpace (str_at metadata MetadataPromptCacheBreakpointBytes)) = None).
Proof.
  unfold PromptCacheDirectiveFromMetadata. cbn zeta.
  destruct (_ && _); [naive_solver|]. destruct (Atoi _) eqn:E; [naive_solver|].
  split; [done|]. intros e [= <-]. done.
Qed.
