(* ===== verification/Policy.v ===== *)
(** * Resilience policies: the pure part of policy.go

    The policy types, the two backoff policies, [BasicPolicy] with all its
    helpers, and the functions that build the next request and read rate-limit
    information out of a result. The runner that executes a policy is in
    [PolicyRunner]. *)
From S2P Require Import Prelude GoStd Types Redact Errors Events Json Cache.
From Stdlib Require Import Floats.SpecFloat.
#[local] Open Scope string_scope.

Record FallbackAlternative := mkFallbackAlternative {
  alt_Name : string;
  alt_Runtime : option RuntimeRef;
  alt_Request : RunRequest;
  alt_Context : RuntimeContext;
  alt_Metadata : AnyMap
}.
#[global] Instance eta_FallbackAlternative : Eta FallbackAlternative := fun r =>
  mkFallbackAlternative (alt_Name r) (alt_Runtime r) (alt_Request r) (alt_Context r)
    (alt_Metadata r).
#[global] Instance zero_FallbackAlternative : Zero FallbackAlternative :=
  mkFallbackAlternative zero zero zero zero zero.

Record PolicyContext := mkPolicyContext {
  pc_OriginalRequest : RunRequest;
  pc_CurrentRequest : RunRequest;
  pc_Attempt : Z;
  pc_AttemptOnTarget : Z;
  pc_TargetIndex : Z;
  pc_Target : FallbackAlternative;
  pc_Alternatives : list FallbackAlternative;
  pc_PriorAttempts : list AttemptSummary;
  pc_CurrentResult : RunResult;
  pc_Err : option SDKError;
  pc_RateLimit : option RateLimitInfo;
  pc_Validation : option ValidationResult;
  pc_StartedAt : Time;
  pc_Elapsed : Duration;
  pc_Metadata : StringMap
}.
#[global] Instance eta_PolicyContext : Eta PolicyContext := fun r =>
  mkPolicyContext (pc_OriginalRequest r) (pc_CurrentRequest r) (pc_Attempt r)
    (pc_AttemptOnTarget r) (pc_TargetIndex r) (pc_Target r) (pc_Alternatives r)
    (pc_PriorAttempts r) (pc_CurrentResult r) (pc_Err r) (pc_RateLimit r)
    (pc_Validation r) (pc_StartedAt r) (pc_Elapsed r) (pc_Metadata r).
#[global] Instance zero_PolicyContext : Zero PolicyContext :=
  mkPolicyContext zero zero zero zero zero zero zero zero zero zero zero zero zero zero
    zero.

Record PolicyDecision := mkPolicyDecision {
  pd_Kind : PolicyDecisionKind;
  pd_Reason : string;
  pd_Detail : string;
  pd_Delay : Duration;
  pd_TargetIndex : Z;
  pd_Target : option FallbackAlternative;
  pd_Request : option RunRequest;
  pd_SessionAction : SessionAction;
  pd_RateLimit : option RateLimitInfo;
  pd_Metadata : AnyMap;
  pd_Err : option SDKError
}.
#[global] Instance eta_PolicyDecision : Eta PolicyDecision := fun r =>
  mkPolicyDecision (pd_Kind r) (pd_Reason r) (pd_Detail r) (pd_Delay r)
    (pd_TargetIndex r) (pd_Target r) (pd_Request r) (pd_SessionAction r)
    (pd_RateLimit r) (pd_Metadata r) (pd_Err r).
#[global] Instance zero_PolicyDecision : Zero PolicyDecision :=
  mkPolicyDecision zero zero zero zero zero zero zero zero zero zero zero.

(** ** Backoff *)

(** The interface [BackoffPolicy]: its method [Delay]. *)
Definition BackoffPolicy : Type := PolicyContext -> Duration.

(** The method [Delay] of [FixedBackoff]. *)
Definition FixedBackoff_Delay (DelayValue : Duration) : BackoffPolicy := fun _ => DelayValue.

Record ExponentialBackoff := mkExponentialBackoff {
  eb_Initial : Duration;
  eb_Factor : spec_float;
  eb_Max : Duration
}.

(** [for i := 1; i < n+1; i++ { delay *= factor }] *)
Fixpoint scale (n : nat) (factor delay : spec_float) : spec_float :=
  match n with
  | O => delay
  | S n => scale n factor (float64.mul delay factor)
  end.

Definition eb_factor (b : ExponentialBackoff) : spec_float :=
  let one := float64.of_Z 1 in if float64.ltb (eb_Factor b) one then one else eb_Factor b.

(** The method [Delay] of [ExponentialBackoff]; [oor] is the implementation's
    conversion of a float64 outside the range of int64. *)
Definition ExponentialBackoff_Delay (oor : spec_float -> Z) (b : ExponentialBackoff) : BackoffPolicy :=
  fun ctx =>
    if (eb_Initial b <=? 0)%Z then 0%Z
    else
      let delay := scale (Z.to_nat (pc_AttemptOnTarget ctx - 1)) (eb_factor b)
                     (float64.of_Z (eb_Initial b)) in
      let result := float64.to_int64 oor delay in
      if (0 <? eb_Max b)%Z && (eb_Max b <? result)%Z then eb_Max b else result.

(** ** BasicPolicy *)
Record BasicPolicy := mkBasicPolicy {
  bp_MaxAttemptsPerTarget : Z;
  bp_MaxElapsed : Duration;
  bp_Backoff : option BackoffPolicy;
  bp_RetryRateLimits : bool;
  bp_Fallbacks : list FallbackAlternative;
  bp_ShouldRetry : option (PolicyContext -> bool);
  bp_ShouldFallback : option (PolicyContext -> bool)
}.
#[global] Instance zero_BasicPolicy : Zero BasicPolicy :=
  mkBasicPolicy zero zero zero zero zero zero zero.

Definition safeErrDetail (err : option SDKError) : string :=
  match err with
  | None => ""
  | Some err => if negb (err_UserDetail err =s "") then err_UserDetail err else ""
  end.

Definition contextPolicyError (err : option error) : option SDKError :=
  match err with
  | None => None
  | Some err =>
      let category := if is_DeadlineExceeded err then ErrorTimeout else ErrorCancellation in
      Some (NewError category "policy runner" "policy run stopped" (Some err) [])
  end.

Definition defaultRetryable (ctx : PolicyContext) : bool :=
  match pc_Err ctx with
  | None => false
  | Some err =>
      if one_of (err_Category err)
           [ErrorTimeout; ErrorRuntimeExit; ErrorRuntimeUnavailable; ErrorProviderUnavailable;
            ErrorModelUnavailable; ErrorMalformedEvent]
      then true
      else if err_Category err =s ErrorRateLimit then
        match pc_RateLimit ctx with Some _ => true | None => false end || (0 <? err_RetryAfter err)%Z
        || (err_StatusCode err =? 429)%Z || (err_StatusCode err =? 503)%Z
      else false
  end.

Definition defaultFallbackable (ctx : PolicyContext) : bool :=
  match pc_Err ctx with
  | None => false
  | Some err =>
      if one_of (err_Category err)
           [ErrorAuthentication; ErrorPermission; ErrorConfiguration; ErrorCancellation]
      then false
      else if one_of (err_Category err)
           [ErrorRateLimit; ErrorTimeout; ErrorRuntimeExit; ErrorRuntimeUnavailable;
            ErrorProviderUnavailable; ErrorModelUnavailable; ErrorMalformedEvent; ErrorValidation;
            ErrorUnknown]
      then true
      else false
  end.

Section BasicPolicy.
Context (p : BasicPolicy).

Definition canRetry (ctx : PolicyContext) : bool :=
  let max := bp_MaxAttemptsPerTarget p in
  if (max <=? 0)%Z then false else (pc_AttemptOnTarget ctx <? max)%Z.

(** [now] is the reading of the wall clock that [time.Until] makes. *)
Definition policy_delay (now : Time) (ctx : PolicyContext) : Duration :=
  let backoff := match bp_Backoff p with None => 0%Z | Some b => b ctx end in
  match pc_RateLimit ctx with
  | None => backoff
  | Some rl =>
      if (0 <? rl_RetryAfter rl)%Z then rl_RetryAfter rl
      else if negb (time.IsZero (rl_ResetAt rl)) then
        let until := time.Sub (rl_ResetAt rl) now in
        if (0 <? until)%Z then until else backoff
      else backoff
  end.

Definition shouldRetry (ctx : PolicyContext) : bool :=
  match bp_ShouldRetry p with Some f => f ctx | None => defaultRetryable ctx end.

Definition shouldFallback (ctx : PolicyContext) : bool :=
  match bp_ShouldFallback p with Some f => f ctx | None => defaultFallbackable ctx end.

Definition effective_fallbacks (ctx : PolicyContext) : list FallbackAlternative :=
  match bp_Fallbacks p with [] => pc_Alternatives ctx | l => l end.

Definition hasFallback (ctx : PolicyContext) : bool :=
  (pc_TargetIndex ctx + 1 <? Z.of_nat (length (effective_fallbacks ctx)) + 1)%Z.

Definition stop_decision (ctx : PolicyContext) (reason : string) : PolicyDecision :=
  zero <| pd_Kind := PolicyDecisionStop |> <| pd_Reason := reason |>
       <| pd_Detail := safeErrDetail (pc_Err ctx) |> <| pd_Err := pc_Err ctx |>.

(** [fallbacks[next-1]] is in range when the target index is not negative;
    the runner only passes such indices. *)
Definition fallbackOrStop (ctx : PolicyContext) (reason : string) : PolicyDecision :=
  match pc_Err ctx with
  | Some err =>
      if shouldFallback ctx then
        let fallbacks := effective_fallbacks ctx in
        let next := (pc_TargetIndex ctx + 1)%Z in
        if (next <? Z.of_nat (length fallbacks) + 1)%Z then
          match fallbacks !! Z.to_nat (next - 1) with
          | Some target =>
              zero <| pd_Kind := PolicyDecisionFallback |> <| pd_Reason := reason |>
                   <| pd_Detail := err_UserDetail err |> <| pd_TargetIndex := next |>
                   <| pd_Target := Some target |>
                   <| pd_SessionAction := req_SessionAction (alt_Request target) |>
                   <| pd_RateLimit := pc_RateLimit ctx |>
          | None => stop_decision ctx reason
          end
        else stop_decision ctx reason
      else stop_decision ctx reason
  | None => stop_decision ctx reason
  end.

(** The method [Decide] of [BasicPolicy], which never returns an error.
    [ctxErr] is [ctx.Err()]. *)
Definition BasicPolicy_Decide (now : Time) (ctxErr : option error) (ctx : PolicyContext)
    : PolicyDecision :=
  match ctxErr with
  | Some e =>
      zero <| pd_Kind := PolicyDecisionStop |> <| pd_Err := contextPolicyError (Some e) |>
  | None =>
      match pc_Err ctx with
      | None => zero <| pd_Kind := PolicyDecisionStop |> <| pd_Reason := "attempt completed" |>
      | Some err =>
          if (0 <? bp_MaxElapsed p)%Z && (bp_MaxElapsed p <=? pc_Elapsed ctx)%Z then
            zero <| pd_Kind := PolicyDecisionStop |>
                 <| pd_Reason := "max elapsed time exhausted" |> <| pd_Err := Some err |>
          else if (err_Category err =s ErrorRateLimit) && negb (bp_RetryRateLimits p) then
            fallbackOrStop ctx "rate limit retry disabled"
          else if (err_Category err =s ErrorRuntimeExit) && hasFallback ctx && shouldFallback ctx then
            fallbackOrStop ctx "runtime exit"
          else if shouldRetry ctx && canRetry ctx then
            let reason := if err_Category err =s ErrorRateLimit then "rate limit"
                          else "retryable failure" in
            zero <| pd_Kind := PolicyDecisionRetry |> <| pd_Reason := reason |>
                 <| pd_Detail := err_UserDetail err |> <| pd_Delay := policy_delay now ctx |>
                 <| pd_TargetIndex := pc_TargetIndex ctx |>
                 <| pd_SessionAction := SessionActionDefault |>
                 <| pd_RateLimit := pc_RateLimit ctx |>
          else fallbackOrStop ctx "retry exhausted"
      end
  end.
End BasicPolicy.

(** ** Requests *)
Definition normalizeDecision (decision : PolicyDecision) (ctx : PolicyContext) : PolicyDecision :=
  let decision :=
    if pd_Kind decision =s "" then decision <| pd_Kind := PolicyDecisionStop |> else decision in
  let decision :=
    match pd_RateLimit decision with
    | None => decision <| pd_RateLimit := pc_RateLimit ctx |>
    | Some _ => decision
    end in
  if pd_SessionAction decision =s "" then decision <| pd_SessionAction := SessionActionDefault |>
  else decision.

Definition requestForDecision (current : RunRequest) (decision : PolicyDecision) : RunRequest :=
  let next := match pd_Request decision with Some r => r | None => current end in
  if negb (pd_SessionAction decision =s "")
  then next <| req_SessionAction := pd_SessionAction decision |> else next.

(** [if src != nil { dst = append([]T(nil), src...) }]: an empty slice that is
    not nil is copied to nil. *)
Definition overlay_slice {A} (src dst : option (list A)) : option (list A) :=
  match src with None => dst | Some [] => None | Some l => Some l end.

Definition overlayRunRequest (dst src : RunRequest) : RunRequest :=
  dst <| req_WorkDir ::= or_else (req_WorkDir src) |>
      <| req_SessionID ::= or_else (req_SessionID src) |>
      <| req_TurnID ::= or_else (req_TurnID src) |>
      <| req_Provider ::= or_else (req_Provider src) |>
      <| req_Model ::= or_else (req_Model src) |>
      <| req_Permissions ::= or_else (req_Permissions src) |>
      <| req_Sandbox ::= or_else (req_Sandbox src) |>
      <| req_Timeout ::= fun t => if negb (req_Timeout src =? 0)%Z then req_Timeout src else t |>
      <| req_Metadata ::= fun m => match req_Metadata src with Some m' => Some m' | None => m end |>
      <| req_WantSession ::= fun b => if req_WantSession src then true else b |>
      <| req_SessionAction ::= or_else (req_SessionAction src) |>
      <| req_RequireCaps ::= overlay_slice (req_RequireCaps src) |>
      <| req_RequireHealth ::= overlay_slice (req_RequireHealth src) |>
      <| req_PromptCache ::= fun c => if Enabled (req_PromptCache src) then req_PromptCache src else c |>.

Definition fallbackRequest (original : RunRequest) (decision : PolicyDecision)
    (target : FallbackAlternative) : RunRequest :=
  let next := original <| req_Prompt ::= or_else (req_Prompt (alt_Request target)) |> in
  let next := overlayRunRequest next (alt_Request target) in
  let next := match pd_Request decision with Some r => overlayRunRequest next r | None => next end in
  if negb (pd_SessionAction decision =s "")
  then next <| req_SessionAction := pd_SessionAction decision |> else next.

(** [sortedKeys]; the nil map has no keys. *)
Definition sortedKeys (values : StringMap) : list string :=
  match values with None => [] | Some m => sort_strings (map_keys m) end.

Definition attemptRequest (req : RunRequest) : AttemptRequest :=
  mkAttemptRequest (req_WorkDir req) (req_SessionID req) (req_Provider req) (req_Model req)
    (req_Permissions req) (req_Sandbox req) (req_Timeout req) (req_WantSession req)
    (req_SessionAction req) (default [] (req_RequireCaps req)) (default [] (req_RequireHealth req))
    (sortedKeys (req_Metadata req)) (Enabled (req_PromptCache req)).

(** ** Facts read from a result *)
Fixpoint first_rate_limit_error (errs : list SDKError) : option SDKError :=
  match errs with
  | [] => None
  | e :: errs => if err_Category e =s ErrorRateLimit then Some e else first_rate_limit_error errs
  end.

Definition rate_limit_info (result : RunResult) (source detail : string) : RateLimitInfo :=
  zero <| rl_Provider := ctx_Provider (md_Context (res_Metadata result)) |>
       <| rl_Model := ctx_Model (md_Context (res_Metadata result)) |>
       <| rl_Source := source |> <| rl_UserDetail := detail |>.

Definition rateLimitFromResult (result : RunResult) : option RateLimitInfo :=
  let from_errors :=
    match first_rate_limit_error (md_Errors (res_Metadata result)) with
    | Some e => Some (rate_limit_info result "metadata_error" (err_UserDetail e))
    | None => None
    end in
  match any_at (md_NativeMetadata (res_Metadata result)) "rate_limit_info" with
  | ARateLimitInfoPtr (Some info) => Some info
  | ARateLimitInfo info => Some info
  | _ =>
      match res_Err result with
      | Some err =>
          if err_Category err =s ErrorRateLimit
          then Some (rate_limit_info result "sdk_error" (err_UserDetail err))
          else from_errors
      | None => from_errors
      end
  end.

Definition validationFromResult (result : RunResult) : option ValidationResult :=
  if negb (vm_Configured (md_Validation (res_Metadata result))) then None
  else Some (vm_Final (md_Validation (res_Metadata result))).

Definition firstTime (primary fallback : Time) : Time :=
  if negb (time.IsZero primary) then primary else fallback.

Definition finalTargetIndex (attempts : list AttemptSummary) : Z :=
  match last attempts with None => 0%Z | Some a => att_TargetIndex a end.

(** A copy of a map has the same entries; nil is copied to nil. *)
Definition cloneStringMap (values : StringMap) : StringMap := values.
Definition cloneAnyMap (values : AnyMap) : AnyMap := values.

(** * Theorems *)

(** ** Conditions under which the basic policy spends another attempt *)
Section Decide.
Context (p : BasicPolicy) (now : Time) (ctxErr : option error) (ctx : PolicyContext).

(** The run is live, the attempt failed with [err], and time is left. *)
Definition undecided (err : SDKError) : Prop :=
  ctxErr = None /\ pc_Err ctx = Some err /\
  ((bp_MaxElapsed p <= 0)%Z \/ (pc_Elapsed ctx < bp_MaxElapsed p)%Z).

(** The three reasons that send a failed attempt to the fallback step
    before a retry is considered, or after it is ruled out. *)
Definition skips_retry (err : SDKError) : Prop :=
  (err_Category err = ErrorRateLimit /\ bp_RetryRateLimits p = false) \/
  (err_Category err = ErrorRuntimeExit /\ hasFallback p ctx = true /\ shouldFallback p ctx = true).

Definition retries (err : SDKError) : Prop :=
  undecided err /\ ~ skips_retry err /\ shouldRetry p ctx = true /\
  (pc_AttemptOnTarget ctx < bp_MaxAttemptsPerTarget p)%Z.

Definition falls_back (err : SDKError) (target : FallbackAlternative) : Prop :=
  undecided err /\ ~ retries err /\ shouldFallback p ctx = true /\
  effective_fallbacks p ctx !! Z.to_nat (pc_TargetIndex ctx) = Some target.

Lemma canRetry_true : canRetry p ctx = true <-> (pc_AttemptOnTarget ctx < bp_MaxAttemptsPerTarget p)%Z
    /\ (0 < bp_MaxAttemptsPerTarget p)%Z.
Proof. unfold canRetry. case_goal; boolify; rewrite ?Z.ltb_lt; [split; [done|lia]|lia]. Qed.

Definition fallback_decision (err : SDKError) (reason : string) (target : FallbackAlternative)
    : PolicyDecision :=
  zero <| pd_Kind := PolicyDecisionFallback |> <| pd_Reason := reason |>
       <| pd_Detail := err_UserDetail err |> <| pd_TargetIndex := (pc_TargetIndex ctx + 1)%Z |>
       <| pd_Target := Some target |>
       <| pd_SessionAction := req_SessionAction (alt_Request target) |>
       <| pd_RateLimit := pc_RateLimit ctx |>.

Definition retry_decision (err : SDKError) : PolicyDecision :=
  zero <| pd_Kind := PolicyDecisionRetry |>
       <| pd_Reason := if err_Category err =s ErrorRateLimit then "rate limit" else "retryable failure" |>
       <| pd_Detail := err_UserDetail err |> <| pd_Delay := policy_delay p now ctx |>
       <| pd_TargetIndex := pc_TargetIndex ctx |>
       <| pd_SessionAction := SessionActionDefault |>
       <| pd_RateLimit := pc_RateLimit ctx |>.

(** What the fallback step returns. *)
Lemma fallbackOrStop_cases err reason :
  pc_Err ctx = Some err -> (0 <= pc_TargetIndex ctx)%Z ->
  match effective_fallbacks p ctx !! Z.to_nat (pc_TargetIndex ctx) with
  | Some target =>
      if shouldFallback p ctx
      then fallbackOrStop p ctx reason = fallback_decision err reason target
      else fallbackOrStop p ctx reason = stop_decision ctx reason
  | None => fallbackOrStop p ctx reason = stop_decision ctx reason
  end.
Proof.
  intros He Hi. unfold fallbackOrStop. rewrite He.
  replace (pc_TargetIndex ctx + 1 - 1)%Z with (pc_TargetIndex ctx) by lia.
  destruct (effective_fallbacks p ctx !! _) as [target|] eqn:Ht;
    destruct (shouldFallback p ctx); try done.
  - apply lookup_lt_Some in Ht. rewrite (proj2 (Z.ltb_lt _ _)) by lia. done.
  - apply lookup_ge_None in Ht. rewrite (proj2 (Z.ltb_ge _ _)) by lia. done.
Qed.

Lemma hasFallback_true :
  (0 <= pc_TargetIndex ctx)%Z ->
  hasFallback p ctx = true <-> is_Some (effective_fallbacks p ctx !! Z.to_nat (pc_TargetIndex ctx)).
Proof. intros Hi. rewrite lookup_lt_is_Some. unfold hasFallback. rewrite Z.ltb_lt. lia. Qed.
End Decide.

(** [d] is what the policy decides when it does not retry. *)
Definition settled p ctxErr ctx (d : PolicyDecision) : Prop :=
  (exists err target reason, falls_back p ctxErr ctx err target /\
     d = fallback_decision ctx err reason target) \/
  ((forall err, ~ retries p ctxErr ctx err) /\ (forall err t, ~ falls_back p ctxErr ctx err t) /\
   pd_Kind d = PolicyDecisionStop /\
   pd_Err d = match ctxErr with Some e => contextPolicyError (Some e) | None => pc_Err ctx end).

Lemma fallbackOrStop_settled p ctx err reason :
  undecided p None ctx err -> ~ retries p None ctx err -> (0 <= pc_TargetIndex ctx)%Z ->
  settled p None ctx (fallbackOrStop p ctx reason).
Proof.
  intros Hu Hnr Hi. pose proof Hu as (_ & He & _).
  assert (Hnr' : forall err', ~ retries p None ctx err').
  { intros err' Hr. pose proof Hr as ((_ & E & _) & _). rewrite He in E. by injection E as <-. }
  pose proof (fallbackOrStop_cases p ctx err reason He Hi) as Hc.
  destruct (effective_fallbacks p ctx !! _) as [t|] eqn:Ht; [destruct (shouldFallback p ctx) eqn:Hs|].
  - left. exists err, t, reason. by split_and!.
  - right. rewrite Hc. split_and!; try done. intros ?? (_ & _ & ? & _). congruence.
  - right. rewrite Hc. split_and!; try done. intros ?? (_ & _ & _ & ?). congruence.
Qed.

Lemma Decide_stopped p now ctxErr ctx :
  (forall err, ~ undecided p ctxErr ctx err) ->
  settled p ctxErr ctx (BasicPolicy_Decide p now ctxErr ctx).
Proof.
  intros Hn. right.
  split; [by intros err [H _]; apply (Hn err)|]. split; [by intros err t [H _]; apply (Hn err)|].
  unfold BasicPolicy_Decide. destruct ctxErr as [e|]; [done|].
  destruct (pc_Err ctx) as [err|] eqn:He; [|done]. case_goal.
  exfalso. apply (Hn err). split_and!; try done.
  match goal with H : _ && _ = false |- _ =>
    apply andb_false_iff in H; rewrite Z.ltb_ge, Z.leb_gt in H end. lia.
Qed.

Lemma undecided_or_not p ctxErr ctx :
  (exists err, undecided p ctxErr ctx err) \/ forall err, ~ undecided p ctxErr ctx err.
Proof.
  destruct ctxErr as [e|]; [right; by intros err (? & _)|].
  destruct (pc_Err ctx) as [err|] eqn:He; [|right; intros err (_ & E & _); congruence].
  destruct (decide ((bp_MaxElapsed p <= 0)%Z \/ (pc_Elapsed ctx < bp_MaxElapsed p)%Z)) as [H|H].
  - left. by exists err.
  - right. by intros err' (_ & _ & ?).
Qed.

Lemma Decide_cases p now ctxErr ctx (d := BasicPolicy_Decide p now ctxErr ctx) :
  (0 <= pc_TargetIndex ctx)%Z -> (1 <= pc_AttemptOnTarget ctx)%Z ->
  (exists err, retries p ctxErr ctx err /\ d = retry_decision p now ctx err) \/
  settled p ctxErr ctx d.
Proof.
  intros Hi Ha. subst d.
  destruct (undecided_or_not p ctxErr ctx) as [(err & Hu)|Hn]; [|right; by apply Decide_stopped].
  pose proof Hu as (-> & He & Hm). unfold BasicPolicy_Decide. rewrite He.
  replace ((0 <? bp_MaxElapsed p)%Z && (bp_MaxElapsed p <=? pc_Elapsed ctx)%Z) with false
    by (symmetry; apply andb_false_iff; rewrite Z.ltb_ge, Z.leb_gt; lia).
  destruct ((err_Category err =s ErrorRateLimit) && negb (bp_RetryRateLimits p)) eqn:H1.
  { right. apply fallbackOrStop_settled with err; try done. intros (_ & Hns & _).
    apply Hns. left. by boolify. }
  destruct ((err_Category err =s ErrorRuntimeExit) && hasFallback p ctx && shouldFallback p ctx) eqn:H2.
  { right. apply fallbackOrStop_settled with err; try done. intros (_ & Hns & _).
    apply Hns. right. by boolify. }
  destruct (shouldRetry p ctx && canRetry p ctx) eqn:H3.
  - left. exists err. split; [|done]. boolify. split_and!; [done| |done|by apply canRetry_true].
    intros [[Hc Hr]|(Hc & Hh & Hs)]; [rewrite Hc, Hr in H1|rewrite Hc, Hh, Hs in H2]; done.
  - right. apply fallbackOrStop_settled with err; try done. intros (_ & _ & Hs & Hlt).
    rewrite Hs, (proj2 (canRetry_true p ctx)) in H3 by lia. done.
Qed.

(** C10: [BasicPolicy.Decide] is characterised on every branch. It asks for a
    retry exactly when the run is live, time is left, the failure is not one
    that goes straight to fallback, it is retryable, and the target has
    attempts left; it asks for a fallback exactly when a retry is ruled out,
    the failure is fallbackable and the list has a target after the current
    one, and then names that target and its index; in all other cases it
    stops. The retry keeps the target and waits [policy_delay]; a stop
    carries the error of the context or the error of the attempt. *)
Theorem BasicPolicy_Decide_spec p now ctxErr ctx :
  (0 <= pc_TargetIndex ctx)%Z -> (1 <= pc_AttemptOnTarget ctx)%Z ->
  let d := BasicPolicy_Decide p now ctxErr ctx in
  (pd_Kind d = PolicyDecisionRetry <-> exists err, retries p ctxErr ctx err) /\
  (pd_Kind d = PolicyDecisionRetry ->
     pd_TargetIndex d = pc_TargetIndex ctx /\ pd_Delay d = policy_delay p now ctx /\
     pd_RateLimit d = pc_RateLimit ctx) /\
  (pd_Kind d = PolicyDecisionFallback <-> exists err t, falls_back p ctxErr ctx err t) /\
  (pd_Kind d = PolicyDecisionFallback ->
     pd_TargetIndex d = (pc_TargetIndex ctx + 1)%Z /\ pd_Delay d = 0%Z /\
     pd_Target d = effective_fallbacks p ctx !! Z.to_nat (pc_TargetIndex ctx)) /\
  (pd_Kind d <> PolicyDecisionRetry -> pd_Kind d <> PolicyDecisionFallback ->
     pd_Kind d = PolicyDecisionStop /\
     pd_Err d = match ctxErr with Some e => contextPolicyError (Some e) | None => pc_Err ctx end).
Proof.
  intros Hi Ha. cbv zeta.
  destruct (Decide_cases p now ctxErr ctx Hi Ha)
    as [(err & Hr & ->)|[(err & t & reason & Hf & ->)|(Hnr & Hnf & -> & ->)]].
  - split_and!; try done; [by split; [eauto|]|]. split; [done|].
    intros (err' & t & (_ & Hu & _) & Hn & _). destruct Hr as ((? & E & ?) & Hr).
    rewrite E in Hu. injection Hu as <-. destruct Hn. by split.
  - destruct Hf as ((Hc & He & Hm) & Hn & Hs & Ht).
    split_and!; try done; [|by split; [eexists _, _; by split_and!|]].
    split; [done|]. intros (err' & Hr). destruct (Hr) as ((_ & E & _) & _).
    rewrite He in E. by injection E as <-.
  - split_and!; try done; split; try done; naive_solver.
Qed.

(** With the default classification, a failure of category authentication,
    permission, configuration or cancellation is final: [BasicPolicy] stops
    with that very error, whatever attempts, fallbacks and rate-limit facts are
    at hand. *)
Theorem BasicPolicy_access_errors_final p now ctx err :
  bp_ShouldRetry p = None -> bp_ShouldFallback p = None ->
  (0 <= pc_TargetIndex ctx)%Z -> (1 <= pc_AttemptOnTarget ctx)%Z ->
  pc_Err ctx = Some err ->
  err_Category err ∈ [ErrorAuthentication; ErrorPermission; ErrorConfiguration; ErrorCancellation] ->
  let d := BasicPolicy_Decide p now None ctx in
  pd_Kind d = PolicyDecisionStop /\ pd_Err d = Some err.
Proof.
  intros Hr Hf Hi Ha He Hc. cbv zeta.
  assert (Hnr : shouldRetry p ctx = false).
  { unfold shouldRetry, defaultRetryable. rewrite Hr, He.
    repeat (apply elem_of_cons in Hc as [->|Hc]); try reflexivity. by apply not_elem_of_nil in Hc. }
  assert (Hnf : shouldFallback p ctx = false).
  { unfold shouldFallback, defaultFallbackable. rewrite Hf, He. by apply one_of_spec in Hc as ->. }
  destruct (Decide_cases p now None ctx Hi Ha)
    as [(? & (_ & _ & ? & _) & _)|[(? & ? & ? & (_ & _ & ? & _) & _)|(_ & _ & -> & ->)]];
    [congruence..|done].
Qed.

Definition auth_failed_ctx : PolicyContext :=
  zero <| pc_AttemptOnTarget := 1%Z |>
       <| pc_Err := Some (NewError ErrorAuthentication "start" "" None []) |>
       <| pc_RateLimit := Some zero |> <| pc_Alternatives := [zero] |>.
Definition eager_policy : BasicPolicy := mkBasicPolicy 3%Z 0%Z None true [zero] None None.

Lemma BasicPolicy_access_errors_final_witness :
  pd_Kind (BasicPolicy_Decide eager_policy 0%Z None auth_failed_ctx) = PolicyDecisionStop
  /\ pd_Err (BasicPolicy_Decide eager_policy 0%Z None auth_failed_ctx) = pc_Err auth_failed_ctx.
Proof.
  refine (BasicPolicy_access_errors_final eager_policy 0%Z auth_failed_ctx
    (NewError ErrorAuthentication "start" "" None []) eq_refl eq_refl _ _ eq_refl _);
    [cbv; done..|apply one_of_spec; reflexivity].
Defined.

Lemma BasicPolicy_Decide_spec_witness :
  pd_Kind (BasicPolicy_Decide eager_policy 0%Z None auth_failed_ctx) = PolicyDecisionFallback <->
  exists err t, falls_back eager_policy None auth_failed_ctx err t.
Proof.
  refine (proj1 (proj2 (proj2 (BasicPolicy_Decide_spec eager_policy 0%Z None auth_failed_ctx _ _))));
    cbv; done.
Defined.

(** The delay before a retry honours the rate-limit facts of the attempt:
    an explicit retry-after wins, then the time left until the reset, and only
    without either (or with a reset in the past) the backoff policy. *)
Theorem policy_delay_priority p now ctx :
  let backoff := match bp_Backoff p with None => 0%Z | Some b => b ctx end in
  match pc_RateLimit ctx with
  | None => policy_delay p now ctx = backoff
  | Some rl =>
      ((0 < rl_RetryAfter rl)%Z -> policy_delay p now ctx = rl_RetryAfter rl) /\
      ((rl_RetryAfter rl <= 0)%Z -> time.IsZero (rl_ResetAt rl) = false -> (now < rl_ResetAt rl)%Z ->
         policy_delay p now ctx = Z.min (rl_ResetAt rl - now) Int64.max) /\
      ((rl_RetryAfter rl <= 0)%Z -> time.IsZero (rl_ResetAt rl) = true \/ (rl_ResetAt rl <= now)%Z ->
         policy_delay p now ctx = backoff)
  end.
Proof.
  cbv zeta. unfold policy_delay. destruct (pc_RateLimit ctx) as [rl|]; [|done].
  unfold time.Sub, Int64.saturate. assert (Int64.min < 0 < Int64.max)%Z as Hb by done.
  split_and!; intros Hra.
  - by rewrite (proj2 (Z.ltb_lt _ _) Hra).
  - intros -> Hlt. rewrite (proj2 (Z.ltb_ge _ _) Hra). simpl.
    rewrite (proj2 (Z.ltb_lt _ _)); lia.
  - rewrite (proj2 (Z.ltb_ge _ _) Hra). intros [->|Hle]; [done|].
    destruct (negb _); [|done]. by rewrite (proj2 (Z.ltb_ge _ _)) by lia.
Qed.

(** ** Exponential backoff *)
Lemma scale_nonneg n factor delay :
  float64.nonneg factor -> float64.nonneg delay -> float64.nonneg (scale n factor delay).
Proof.
  intros Hf. revert delay. induction n as [|n IH]; intros delay Hd; [done|].
  by apply IH, float64.nonneg_mul.
Qed.

Lemma eb_factor_nonneg b : float64.nonneg (eb_factor b).
Proof.
  unfold eb_factor. destruct (float64.ltb _ _) eqn:E; [by apply float64.nonneg_of_Z|].
  by destruct (eb_Factor b) as [[]|[]| |[] ? ?].
Qed.

(** C38: the exponential delay never exceeds a configured maximum; it is the
    truncation of [Initial * factor^(attempts-1)] in float64 arithmetic, and
    not negative, as long as that value fits a duration. *)
Theorem ExponentialBackoff_Delay_bounds oor b ctx :
  let d := ExponentialBackoff_Delay oor b ctx in
  ((0 < eb_Max b)%Z -> (d <= eb_Max b)%Z) /\
  (eb_Max b <= 0 -> 0 < eb_Initial b -> forall z,
     float64.trunc (scale (Z.to_nat (pc_AttemptOnTarget ctx - 1)) (eb_factor b)
                      (float64.of_Z (eb_Initial b))) = Some z ->
     Int64.in_range z -> d = z)%Z /\
  ((exists z, float64.trunc (scale (Z.to_nat (pc_AttemptOnTarget ctx - 1)) (eb_factor b)
                      (float64.of_Z (eb_Initial b))) = Some z /\ Int64.in_range z) -> (0 <= d)%Z).
Proof.
  cbv zeta. unfold ExponentialBackoff_Delay, float64.to_int64.
  destruct (Z.leb_spec (eb_Initial b) 0) as [Hi|Hi]; [split_and!; intros; lia|].
  set (x := scale _ _ _). split_and!.
  - intros Hm. rewrite (proj2 (Z.ltb_lt _ _) Hm). simpl. case_match; boolify; lia.
  - intros Hm _ z -> [Hlo Hhi]. rewrite (proj2 (Z.ltb_ge _ _) Hm). simpl.
    by rewrite (proj2 (Z.leb_le _ _) Hlo), (proj2 (Z.leb_le _ _) Hhi).
  - intros (z & Hz & [Hlo Hhi]). rewrite Hz, (proj2 (Z.leb_le _ _) Hlo), (proj2 (Z.leb_le _ _) Hhi).
    simpl. destruct (_ && _) eqn:E; boolify; [lia|].
    eapply float64.nonneg_trunc, Hz. apply scale_nonneg; [apply eb_factor_nonneg|].
    by apply float64.nonneg_of_Z.
Qed.

(** The maximum does not protect against overflow. With one second, factor
    two and a maximum of one minute the delay is the maximum from the seventh
    attempt on, but at the thirty-fifth the product leaves the int64 range, the
    amd64 conversion yields the smallest int64, and the delay is negative. *)
Theorem ExponentialBackoff_Delay_overflow :
  let b := mkExponentialBackoff time.Second (float64.of_Z 2) time.Minute in
  let delay n := ExponentialBackoff_Delay float64.amd64 b (zero <| pc_AttemptOnTarget := n |>) in
  delay 7%Z = time.Minute /\ delay 34%Z = time.Minute /\ delay 35%Z = Int64.min.
Proof. vm_compute. split_and!; reflexivity. Qed.

(** ** Requests *)

(** The request of a fallback attempt overlays the target's request, and
    then the decision's, on the original one: each configured value of a later
    layer wins. The prompt comes from the target or the original, and the
    permission policy and the validation of the original are kept whatever the
    target's request says. *)
Theorem fallbackRequest_layers original decision target :
  let r := fallbackRequest original decision target in
  let t := alt_Request target in
  let d := default zero (pd_Request decision) in
  req_Prompt r = or_else (req_Prompt t) (req_Prompt original) /\
  req_Provider r = or_else (req_Provider d) (or_else (req_Provider t) (req_Provider original)) /\
  req_Model r = or_else (req_Model d) (or_else (req_Model t) (req_Model original)) /\
  req_Permissions r = or_else (req_Permissions d) (or_else (req_Permissions t) (req_Permissions original)) /\
  req_Sandbox r = or_else (req_Sandbox d) (or_else (req_Sandbox t) (req_Sandbox original)) /\
  req_SessionAction r = or_else (pd_SessionAction decision)
    (or_else (req_SessionAction d) (or_else (req_SessionAction t) (req_SessionAction original))) /\
  req_WantSession r = req_WantSession original || req_WantSession t || req_WantSession d /\
  req_PermissionPolicy r = req_PermissionPolicy original /\
  req_Validation r = req_Validation original.
Proof.
  cbv zeta. unfold fallbackRequest, overlayRunRequest, or_else.
  destruct (pd_Request decision) as [d|]; cbn; destruct (pd_SessionAction decision =s "");
    cbn; split_and!; try done; repeat case_match; unfold zero, zero_bool in *;
    rewrite ?orb_true_r, ?orb_false_r; done.
Qed.

Lemma elem_of_map_keys {V} (m : gmap string V) k : k ∈ map_keys m <-> is_Some (m !! k).
Proof.
  unfold map_keys. rewrite list_elem_of_fmap. split.
  - intros ([k' v] & -> & H%elem_of_map_to_list). by exists v.
  - intros [v H]. exists (k, v). by rewrite elem_of_map_to_list.
Qed.

(** An attempt summary shows which metadata keys the request carried, in
    sorted order and each once, and no value. *)
Theorem attemptRequest_metadata_keys req m :
  req_Metadata req = Some m ->
  let keys := ar_MetadataKeys (attemptRequest req) in
  Sorted str_le keys /\ NoDup keys /\ forall k, k ∈ keys <-> is_Some (m !! k).
Proof.
  intros Hm. cbn. rewrite Hm. cbn. split_and!.
  - apply sort_strings_sorted.
  - rewrite sort_strings_perm. apply NoDup_fst_map_to_list.
  - intros k. rewrite sort_strings_perm. apply elem_of_map_keys.
Qed.

Lemma attemptRequest_metadata_keys_witness :
  let req := zero <| req_Metadata := Some {["b" := "2"; "a" := "1"]} |> in
  Sorted str_le (ar_MetadataKeys (attemptRequest req)).
Proof.
  exact (proj1 (attemptRequest_metadata_keys (zero <| req_Metadata := Some {["b" := "2"; "a" := "1"]} |>)
    {["b" := "2"; "a" := "1"]} eq_refl)).
Defined.
