(* ===== verification/Environment.v ===== *)
(** * What a wrapping run does not control

    The policy runner, the validating runtime and the observing runtime read a
    clock, watch a context, start runtimes and send events on a channel that
    others empty. These are the environment of a run. Every consultation is
    stamped with a tick, so that two consultations may give different answers;
    theorems hold for every environment. *)
From S2P Require Import Prelude GoStd Types.

(** The three ways out of the [select] of [sendEvent]: the buffer took the
    event, the context was done, or neither was ready ([default]). *)
Inductive Sending : Type := SendDelivered | SendDiscarded | SendFull.

(** The environment of a run. The context is done from some tick on, with one
    error, or never; the channel of events has room at a tick or not; [env_pick]
    is the choice of a [select] with two ready cases. *)
Record RunEnv := mkRunEnv {
  env_now : nat -> Time;
  env_done : option (nat * error);
  env_start : nat -> RuntimeRef -> RunRequest -> RunOutcome;
  env_sleep : nat -> Duration -> option error;
  env_room : nat -> bool;
  env_pick : nat -> bool
}.

(** A run that was started and whose [Wait] returned no error. *)
Definition succeeded (outcome : RunOutcome) : Prop := exists events result, outcome = Ran events result None.

(** [ctx.Err()] at a tick. *)
Definition env_ctxErr (env : RunEnv) (tick : nat) : option error :=
  match env_done env with
  | Some (from, e) => if (from <=? tick)%nat then Some e else None
  | None => None
  end.

(** Which case of [sendEvent]'s [select] runs: [default] only when neither the
    context is done nor the buffer has room. *)
Definition env_send (env : RunEnv) (tick : nat) : Sending :=
  match env_ctxErr env tick with
  | None => if env_room env tick then SendDelivered else SendFull
  | Some _ => if env_room env tick && env_pick env tick then SendDelivered else SendDiscarded
  end.

(** A context that is done stays done, with the same error. *)
Lemma ctxErr_stays env t t' e : env_ctxErr env t = Some e -> t <= t' -> env_ctxErr env t' = Some e.
Proof.
  unfold env_ctxErr. destruct (env_done env) as [[from e']|]; [|done].
  destruct (Nat.leb_spec from t); [|done]. intros E Hle. by rewrite (proj2 (Nat.leb_le from t')) by lia.
Qed.

(** ** Cancelling

    A run derives its context with [context.WithCancel]. Calling the cancel
    function at a tick makes the context done from then on with
    [context.Canceled], unless the caller's context was done before. *)
Definition cancel_at (tick : nat) (env : RunEnv) : RunEnv :=
  mkRunEnv (env_now env)
    (match env_done env with
     | Some (from, e) => if (from <=? tick)%nat then Some (from, e) else Some (tick, ECanceled)
     | None => Some (tick, ECanceled)
     end)
    (env_start env) (env_sleep env) (env_room env) (env_pick env).

(** What [Cancel] answers: it cancels the run's own context and hands the call
    on to the run that is current, if there is one; [cancel_run] is what that
    run's [Cancel] returns. *)
Definition cancel_current {R} (cancel_run : R -> option error) (current : option R) : option error :=
  match current with Some run => cancel_run run | None => None end.

Lemma cancel_at_done tick env : exists from e, env_done (cancel_at tick env) = Some (from, e) /\ from <= tick.
Proof.
  unfold cancel_at. cbn. destruct (env_done env) as [[from e]|]; [|by eauto].
  destruct (Nat.leb_spec from tick); eauto.
Qed.

(** Before the tick nothing is different. *)
Lemma cancel_at_before tick env k : k < tick -> env_ctxErr (cancel_at tick env) k = env_ctxErr env k.
Proof.
  intros Hk. unfold env_ctxErr, cancel_at. cbn. destruct (env_done env) as [[from e]|].
  - destruct (Nat.leb_spec from tick); [done|]. destruct (Nat.leb_spec tick k), (Nat.leb_spec from k); done || lia.
  - destruct (Nat.leb_spec tick k); [lia|done].
Qed.

Lemma cancel_at_send tick env k : k < tick -> env_send (cancel_at tick env) k = env_send env k.
Proof. intros Hk. unfold env_send. by rewrite cancel_at_before. Qed.

(** From the tick on it is done. *)
Lemma cancel_at_after tick env k : tick <= k -> is_Some (env_ctxErr (cancel_at tick env) k).
Proof.
  intros Hk. destruct (cancel_at_done tick env) as (from & e & E & Hle).
  unfold env_ctxErr. rewrite E, (proj2 (Nat.leb_le from k)) by lia. by eexists.
Qed.

(** [defaultPolicySleep], the sleep of a runner that names none. [ctxErr] is the
    error of the context when the [select] ends, [fired] says that the timer has
    fired by then, [pick] is the choice between two ready cases; [None] is a
    [select] that still waits. *)
Definition defaultPolicySleep (delay : Duration) (ctxErr : option error) (fired pick : bool)
    : option (option error) :=
  if (delay <=? 0)%Z then Some ctxErr
  else
    match ctxErr, fired with
    | Some e, true => Some (if pick then Some e else None)
    | Some e, false => Some (Some e)
    | None, true => Some None
    | None, false => None
    end.

(** It fails only because the context is done, and never waits on once the
    context is done or the timer has fired. *)
Lemma defaultPolicySleep_spec delay ctxErr fired pick :
  (forall e, defaultPolicySleep delay ctxErr fired pick = Some (Some e) -> ctxErr = Some e) /\
  (is_Some ctxErr \/ fired = true -> is_Some (defaultPolicySleep delay ctxErr fired pick)).
Proof.
  unfold defaultPolicySleep. destruct (delay <=? 0)%Z, ctxErr, fired, pick; (split; [congruence|]);
    intros [[]|]; eauto; done.
Qed.
