(* ===== verification/PolicyRunner.v ===== *)
(** * The policy runner: [PolicyRunner] and [policyRun] of policy.go

    A logical run executes attempts one after the other until the policy
    stops. [policyRun] is the handle's state; its methods are written in the
    state monad over it. What the runner does not control is an environment:
    the clock, the context, the runtimes it starts, the sleep between attempts
    and the outcome of each non-blocking channel send. Every consultation of
    the environment is stamped with a tick, so that two consultations may give
    different answers; every theorem holds for every environment. The goroutine
    that forwards the events of an attempt is joined before the attempt is
    summarised, so it is run to its end before [Wait] returns. *)
From S2P Require Import Prelude GoStd Types Redact Errors Events Json Cache Policy Environment.
#[local] Open Scope string_scope.

(** The interface [ResiliencePolicy]: its method [Decide] at a tick, with the
    state of the context passed to it. *)
Definition ResiliencePolicy : Type :=
  nat -> option error -> PolicyContext -> PolicyDecision * option error.

(** [BasicPolicy] as a [ResiliencePolicy]: it reads the clock and never fails. *)
Definition basic_policy (env : RunEnv) (p : BasicPolicy) : ResiliencePolicy :=
  fun tick ctxErr ctx => (BasicPolicy_Decide p (env_now env tick) ctxErr ctx, None).

(** The handle. [pr_events] is what has been put on the channel [events];
    [pr_current] holds the number of the attempt whose run is current;
    [pr_done] says that the channel [done] is closed. [pr_runs] is an addition,
    the log of the requests handed to a runtime and of what came of them. *)
Record policyRun := mkpolicyRun {
  pr_id : RunID;
  pr_original : RunRequest;
  pr_primary : RuntimeRef;
  pr_alternatives : list FallbackAlternative;
  pr_started : Time;
  pr_finished : Time;
  pr_seq : Z;
  pr_attempts : list AttemptSummary;
  pr_decisions : list PolicyDecisionRecord;
  pr_droppedEvents : list PolicyDroppedEvent;
  pr_targetCounts : gmap Z Z;
  pr_result : RunResult;
  pr_waitErr : option SDKError;
  pr_current : option Z;
  pr_events : list Event;
  pr_done : bool;
  pr_tick : nat;
  pr_runs : list (RunRequest * RunOutcome)
}.
#[global] Instance eta_policyRun : Eta policyRun := fun r =>
  mkpolicyRun (pr_id r) (pr_original r) (pr_primary r) (pr_alternatives r)
    (pr_started r) (pr_finished r) (pr_seq r) (pr_attempts r) (pr_decisions r)
    (pr_droppedEvents r) (pr_targetCounts r) (pr_result r) (pr_waitErr r) (pr_current r)
    (pr_events r) (pr_done r) (pr_tick r) (pr_runs r).

Section PolicyRun.
Context (env : RunEnv) (policy : ResiliencePolicy).

(** Each consultation of the environment takes a tick. *)
Definition consult {A} (f : nat -> A) : St policyRun A :=
  fun r => (f (pr_tick r), r <| pr_tick ::= S |>).
Definition now : St policyRun Time := consult (env_now env).
Definition ctx_Err : St policyRun (option error) := consult (env_ctxErr env).

Definition runtimeFor (r : policyRun) (index : Z) : RuntimeRef :=
  if (index =? 0)%Z then pr_primary r
  else
    let idx := (index - 1)%Z in
    if (0 <=? idx)%Z then
      match pr_alternatives r !! Z.to_nat idx with
      | Some alt => match alt_Runtime alt with Some rt => rt | None => pr_primary r end
      | None => pr_primary r
      end
    else pr_primary r.

Definition targetFor (r : policyRun) (index : Z) : FallbackAlternative :=
  let primary := zero <| alt_Runtime := Some (pr_primary r) |> <| alt_Request := pr_original r |> in
  if (index =? 0)%Z then primary
  else
    let idx := (index - 1)%Z in
    if (0 <=? idx)%Z then default primary (pr_alternatives r !! Z.to_nat idx) else primary.

Definition applyDecisionTarget (decision : PolicyDecision) (r : policyRun) : policyRun :=
  match pd_Target decision with
  | None => r
  | Some target =>
      if (pd_TargetIndex decision <=? 0)%Z then r
      else
        let idx := Z.to_nat (pd_TargetIndex decision - 1) in
        let grown := (pr_alternatives r ++
          replicate (S idx - length (pr_alternatives r)) (zero : FallbackAlternative))%list in
        r <| pr_alternatives := <[idx := target]> grown |>
  end.

Definition setCurrent (run : Z) (r : policyRun) : policyRun := r <| pr_current := Some run |>.
Definition clearCurrent (run : Z) (r : policyRun) : policyRun :=
  if decide (pr_current r = Some run) then r <| pr_current := None |> else r.

(** ** Events *)
Definition recordDroppedEvent (event : Event) : St policyRun unit :=
  let* at_ := now in
  modify (fun r => r <| pr_droppedEvents ::= fun l => (l ++
    [mkPolicyDroppedEvent (Event_Kind event) (ev_Type event) (ev_RunID event) at_])%list |>).

(** The fields [sendEvent] fills in: the sequence number is used only for an
    event without an identifier, but every event takes one. *)
Definition stamp_event (event : Event) : St policyRun Event :=
  modify (fun r => r <| pr_seq ::= Z.succ |>) ;;
  let* r := get in
  let event := event <| ev_ID ::= fun id =>
    if id =s "" then pr_id r +:+ "-event-" +:+ itoa (pr_seq r) else id |> in
  let event := event <| ev_RunID ::= fun id => if id =s "" then pr_id r else id |> in
  if time.IsZero (ev_Time event) then
    let* t := now in ret (event <| ev_Time := t |>)
  else ret event.

Definition sendEvent (event : Event) : St policyRun unit :=
  let* event := stamp_event event in
  let* sending := consult (env_send env) in
  match sending with
  | SendDiscarded => ret tt
  | SendDelivered => modify (fun r => r <| pr_events ::= fun l => (l ++ [event])%list |>)
  | SendFull => recordDroppedEvent event
  end.

Definition annotate (id : RunID) (attempt targetIndex : Z) (event : Event) : Event :=
  event <| ev_Payload ::= fun payload =>
    Some (<["target_index" := AInt targetIndex]> (<["attempt" := AInt attempt]>
      (<["policy_run_id" := ANamed "RunID" id]> (default ∅ payload)))) |>.

Definition forwardEvents (events : list Event) (attempt targetIndex : Z) : St policyRun unit :=
  iterM (fun event => let* r := get in sendEvent (annotate (pr_id r) attempt targetIndex event)) events.

(** ** Records of attempts and decisions *)
Definition summarizeAttempt (attempt attemptOnTarget targetIndex : Z) (req : RunRequest)
    (started : Time) (result : RunResult) : St policyRun AttemptSummary :=
  let* finished := if time.IsZero (res_FinishedAt result) then now else ret (res_FinishedAt result) in
  let* r := get in
  let status :=
    if res_Status result =s "" then
      match res_Err result with Some _ => StatusFailed | None => StatusCompleted end
    else res_Status result in
  let context := md_Context (res_Metadata result) in
  let started := firstTime (res_StartedAt result) started in
  ret (zero
    <| att_Attempt := attempt |> <| att_AttemptOnTarget := attemptOnTarget |>
    <| att_TargetIndex := targetIndex |> <| att_RunID := res_RunID result |>
    <| att_ParentRunID := pr_id r |>
    <| att_Context := if ctx_RuntimeKind context =s ""
         then zero <| ctx_Provider := req_Provider req |> <| ctx_Model := req_Model req |>
         else context |>
    <| att_Request := attemptRequest req |> <| att_Status := status |>
    <| att_StartedAt := started |> <| att_FinishedAt := finished |>
    <| att_Duration := time.Sub finished started |>
    <| att_Session := md_Session (res_Metadata result) |>
    <| att_Error := res_Err result |> <| att_RateLimit := rateLimitFromResult result |>
    <| att_NativeMetadata := cloneAnyMap (md_NativeMetadata (res_Metadata result)) |>
    <| att_ErrorCategory := match res_Err result with Some e => err_Category e | None => "" end |>).

Definition rate_limit_event (id : RunID) (attempt targetIndex : Z) (rl : RateLimitInfo) : Event :=
  zero <| ev_RunID := id |> <| ev_Type := "rate_limit" |>
       <| ev_Payload := EventPayloadWithKind EventRateLimit (Some (list_to_map
            [("attempt", AInt attempt); ("target_index", AInt targetIndex);
             ("provider", ANamed "ProviderID" (rl_Provider rl));
             ("model", ANamed "ModelID" (rl_Model rl));
             ("retry_after", AString (time.Duration_String (rl_RetryAfter rl)));
             ("reset_at", ATime (rl_ResetAt rl)); ("detail", AString (rl_UserDetail rl))])) |>.

Definition decision_event (id : RunID) (attempt targetIndex : Z) (decision : PolicyDecision) : Event :=
  let fallback := pd_Kind decision =s PolicyDecisionFallback in
  zero <| ev_RunID := id |> <| ev_Type := if fallback then "fallback" else "retry" |>
       <| ev_Payload := EventPayloadWithKind (if fallback then EventFallback else EventRetry)
            (Some (list_to_map
              [("attempt", AInt attempt); ("target_index", AInt targetIndex);
               ("decision", ANamed "PolicyDecisionKind" (pd_Kind decision));
               ("reason", AString (pd_Reason decision)); ("detail", AString (pd_Detail decision));
               ("delay", AString (time.Duration_String (pd_Delay decision)));
               ("session_action", ANamed "SessionAction" (pd_SessionAction decision))])) |>.

Definition recordDecision (attempt targetIndex : Z) (decision : PolicyDecision)
    (ctx : PolicyContext) : St policyRun unit :=
  let record := mkPolicyDecisionRecord attempt targetIndex (pd_Kind decision) (pd_Reason decision)
    (pd_Detail decision) (pd_Delay decision) (md_Context (res_Metadata (pc_CurrentResult ctx)))
    (pd_RateLimit decision) (cloneAnyMap (pd_Metadata decision)) in
  modify (fun r => r <| pr_decisions ::= fun l => (l ++ [record])%list |>) ;;
  let* r := get in
  if pd_Kind decision =s PolicyDecisionStop then ret tt
  else
    match pd_RateLimit decision with
    | Some rl => sendEvent (rate_limit_event (pr_id r) attempt targetIndex rl)
    | None => ret tt
    end ;;
    sendEvent (decision_event (pr_id r) attempt targetIndex decision).

(** ** The end of the run *)
Definition finished_result (r : policyRun) (result : RunResult) (err : option SDKError)
    (exhausted : bool) (reason : string) : RunResult :=
  let result := result
    <| res_RunID ::= fun id => if id =s "" then pr_id r else id |>
    <| res_StartedAt ::= fun t => if time.IsZero t then pr_started r else t |>
    <| res_FinishedAt ::= fun t => if time.IsZero t then pr_finished r else t |>
    <| res_Status ::= fun s => if s =s "" then
         match err with Some _ => StatusFailed | None => StatusCompleted end else s |>
    <| res_Err ::= fun e => match err with Some _ => err | None => e end |> in
  let count := Z.of_nat (length (pr_attempts r)) in
  let md := res_Metadata result
    <| md_ParentRunID := pr_id r |> <| md_Attempt := count |> <| md_Attempts := pr_attempts r |>
    <| md_Policy := mkPolicyMetadata (pr_id r) count (finalTargetIndex (pr_attempts r))
         exhausted reason (pr_decisions r) (pr_droppedEvents r) |>
    <| md_StartedAt ::= fun t => if time.IsZero t then res_StartedAt result else t |>
    <| md_FinishedAt ::= fun t => if time.IsZero t then res_FinishedAt result else t |> in
  let md :=
    if (md_Duration md =? 0)%Z && negb (time.IsZero (md_StartedAt md))
       && negb (time.IsZero (md_FinishedAt md))
    then md <| md_Duration := time.Sub (md_FinishedAt md) (md_StartedAt md) |> else md in
  result <| res_Metadata := md |>.

Definition finish (result : RunResult) (err : option SDKError) (exhausted : bool)
    (reason : string) : St policyRun unit :=
  let* t := now in
  modify (fun r => r <| pr_finished := t |>) ;;
  modify (fun r => r <| pr_result := finished_result r result err exhausted reason |>
                     <| pr_waitErr := err |>).

Definition finishCancelled (last : RunResult) : St policyRun unit :=
  let* e := ctx_Err in
  let err := contextPolicyError e in
  finish (last <| res_Status := StatusCancelled |> <| res_Err := err |>) err true
    "policy run cancelled".

(** ** The loop of [execute]

    [Finished] is a return of [execute]; [Continue] carries the variables of
    the loop to its next iteration. *)
Inductive iteration : Type :=
| Finished
| Continue (targetIndex : Z) (req : RunRequest) (last : RunResult).

(** [StartRun], the forwarding of the run's events and [Wait]. *)
Definition run_attempt (attempt targetIndex : Z) (req : RunRequest) (started : Time)
    : St policyRun RunResult :=
  let* r := get in
  let* outcome := consult (fun tick => env_start env tick (runtimeFor r targetIndex) req) in
  modify (fun r => r <| pr_runs ::= fun l => (l ++ [(req, outcome)])%list |>) ;;
  match outcome with
  | StartFailed e =>
      let* finished := now in
      ret (zero <| res_Status := StatusFailed |> <| res_StartedAt := started |>
                <| res_FinishedAt := finished |>
                <| res_Err := ensureSDKError (Some e) "policy attempt start" |>)
  | Ran events result waitErr =>
      modify (setCurrent attempt) ;;
      forwardEvents events attempt targetIndex ;;
      modify (clearCurrent attempt) ;;
      ret (match waitErr, res_Err result with
           | Some e, None => result <| res_Err := ensureSDKError (Some e) "policy attempt wait" |>
           | _, _ => result
           end)
  end.

Definition policy_context (attempt attemptOnTarget targetIndex : Z) (req : RunRequest)
    (last : RunResult) : St policyRun PolicyContext :=
  let* t := now in
  let* r := get in
  ret (mkPolicyContext (pr_original r) req attempt attemptOnTarget targetIndex
    (targetFor r targetIndex) (pr_alternatives r) (pr_attempts r) last (res_Err last)
    (rateLimitFromResult last) (validationFromResult last) (pr_started r)
    (time.Sub t (pr_started r)) (cloneStringMap (req_Metadata (pr_original r)))).

(** What a decision other than stop leads to, after the wait. *)
Definition apply_decision (decision : PolicyDecision) (targetIndex : Z) (req : RunRequest)
    (last : RunResult) : St policyRun iteration :=
  let kind := pd_Kind decision in
  if one_of kind [PolicyDecisionRetry; PolicyDecisionWait] then
    ret (Continue targetIndex (requestForDecision req decision) last)
  else if kind =s PolicyDecisionFallback then
    modify (applyDecisionTarget decision) ;;
    let* r := get in
    ret (Continue (pd_TargetIndex decision)
           (fallbackRequest (pr_original r) decision (targetFor r (pd_TargetIndex decision))) last)
  else
    let err := Some (NewError ErrorConfiguration "policy decision" "unsupported policy decision"
                       None [WithDebugDetail kind]) in
    finish (last <| res_Err := err |>) err true "unsupported policy decision" ;;
    ret Finished.

(** From the answer of [Decide] to the next iteration. *)
Definition act_on_decision (attempt targetIndex : Z) (req : RunRequest) (last : RunResult)
    (ctx : PolicyContext) (answer : PolicyDecision * option error) : St policyRun iteration :=
  let '(decision, err) := answer in
  match err with
  | Some e =>
      let lastErr := ensureSDKError (Some e) "policy decide" in
      finish (last <| res_Err := lastErr |>) lastErr true "policy decision failed" ;;
      ret Finished
  | None =>
      let decision := normalizeDecision decision ctx in
      recordDecision attempt targetIndex decision ctx ;;
      if pd_Kind decision =s PolicyDecisionStop then
        let last := match pd_Err decision with Some _ => last <| res_Err := pd_Err decision |>
                    | None => last end in
        finish last (res_Err last) true (pd_Reason decision) ;;
        ret Finished
      else if (0 <? pd_Delay decision)%Z then
        let* slept := consult (fun tick => env_sleep env tick (pd_Delay decision)) in
        match slept with
        | Some e =>
            let err := contextPolicyError (Some e) in
            finish (last <| res_Err := err |>) err true "policy wait cancelled" ;;
            ret Finished
        | None => apply_decision decision targetIndex req last
        end
      else apply_decision decision targetIndex req last
  end.

(** One iteration after the check of the context. *)
Definition execute_attempt (targetIndex : Z) (req : RunRequest) : St policyRun iteration :=
  modify (fun r => r <| pr_targetCounts ::= fun m =>
    <[targetIndex := (default 0 (m !! targetIndex) + 1)%Z]> m |>) ;;
  let* r := get in
  let attempt := (Z.of_nat (length (pr_attempts r)) + 1)%Z in
  let attemptOnTarget := default 0%Z (pr_targetCounts r !! targetIndex) in
  let* started := now in
  let* last := run_attempt attempt targetIndex req started in
  let* summary := summarizeAttempt attempt attemptOnTarget targetIndex req started last in
  modify (fun r => r <| pr_attempts ::= fun l => (l ++ [summary])%list |>) ;;
  match res_Err last with
  | None => finish last None false "" ;; ret Finished
  | Some _ =>
      let* ctx := policy_context attempt attemptOnTarget targetIndex req last in
      let* ctxErr := ctx_Err in
      let* answer := consult (fun tick => policy tick ctxErr ctx) in
      act_on_decision attempt targetIndex req last ctx answer
  end.

Definition execute_iteration (targetIndex : Z) (req : RunRequest) (last : RunResult)
    : St policyRun iteration :=
  let* ctxErr := ctx_Err in
  match ctxErr with
  | Some _ => finishCancelled last ;; ret Finished
  | None => execute_attempt targetIndex req
  end.

(** [for { .. }]; [false] says that the fuel ran out. *)
Fixpoint execute_loop (fuel : nat) (targetIndex : Z) (req : RunRequest) (last : RunResult)
    : St policyRun bool :=
  match fuel with
  | O => ret false
  | S fuel =>
      let* next := execute_iteration targetIndex req last in
      match next with
      | Finished => ret true
      | Continue targetIndex req last => execute_loop fuel targetIndex req last
      end
  end.

(** [execute]; the deferred calls close the channels. *)
Definition execute (fuel : nat) : St policyRun bool :=
  let* r := get in
  let* finished := execute_loop fuel 0%Z (pr_original r) zero in
  if finished then modify (fun r => r <| pr_done := true |>) ;; ret true else ret false.

(** [Wait]: [ctxErr] is the error of the caller's context if its case of the
    [select] was taken; otherwise the call returns once [done] is closed. *)
Definition policyRun_Wait (ctxErr : option error) (r : policyRun)
    : option (RunResult * option SDKError) :=
  match ctxErr with
  | Some e => Some (zero, contextPolicyError (Some e))
  | None => if pr_done r then Some (pr_result r, pr_waitErr r) else None
  end.
End PolicyRun.

(** ** [PolicyRunner] *)
Record PolicyRunner := mkPolicyRunner {
  rn_Runtime : option RuntimeRef;
  rn_Alternatives : list FallbackAlternative;
  rn_Policy : option ResiliencePolicy
}.

Definition effective_policy (env : RunEnv) (runner : PolicyRunner) : ResiliencePolicy :=
  match rn_Policy runner with Some p => p | None => basic_policy env zero end.

(** [StartRun]: the handle the goroutine starts from. [counter] is the value
    [policyRunCounter.Add(1)] returned. The clock is read at tick 0. *)
Definition PolicyRunner_StartRun (env : RunEnv) (counter : Z) (runner : PolicyRunner)
    (req : RunRequest) : SDKError + policyRun :=
  match rn_Runtime runner with
  | None => inl (NewError ErrorConfiguration "policy runner" "primary runtime is required" None [])
  | Some rt =>
      inr (mkpolicyRun ("policy-" +:+ itoa counter) req rt (rn_Alternatives runner)
             (env_now env 0) zero zero zero zero zero ∅ zero zero zero zero false 1 [])
  end.

(** The run as a whole: [StartRun], [execute], [Wait]. *)
Definition PolicyRunner_run (env : RunEnv) (counter : Z) (runner : PolicyRunner) (req : RunRequest)
    (fuel : nat) : SDKError + option (RunResult * option SDKError * policyRun) :=
  match PolicyRunner_StartRun env counter runner req with
  | inl e => inl e
  | inr r =>
      let '(finished, r) := execute env (effective_policy env runner) fuel r in
      inr (if finished then
             match policyRun_Wait None r with Some (res, e) => Some (res, e, r) | None => None end
           else None)
  end.

(** * Theorems *)

(** ** What the steps leave alone

    [core] forgets the fields that reading the environment and publishing
    events change, so that [core r' = core r] says that all others are kept. *)
Definition core (r : policyRun) : policyRun :=
  r <| pr_finished := zero |> <| pr_seq := zero |> <| pr_droppedEvents := zero |>
    <| pr_current := zero |> <| pr_events := zero |> <| pr_tick := 0 |> <| pr_runs := [] |>.

#[local] Abbreviation keeps_core := (keeps core).

Section Core.
Context (env : RunEnv).

Lemma core_consult {A} (f : nat -> A) : keeps_core (consult f).
Proof. intros r0 r H. exact H. Qed.

#[local] Hint Resolve core_consult : agentwrap.

Lemma core_now : keeps_core (now env).
Proof. apply core_consult. Qed.
#[local] Hint Resolve core_now : agentwrap.

Lemma core_sendEvent e : keeps_core (sendEvent env e).
Proof.
  unfold sendEvent, stamp_event, recordDroppedEvent.
  apply keeps_bind; [|intros ?; apply keeps_bind; [auto with agentwrap|intros []]]; auto 8 with agentwrap.
Qed.
#[local] Hint Resolve core_sendEvent : agentwrap.

Lemma core_forwardEvents events attempt ti : keeps_core (forwardEvents env events attempt ti).
Proof. unfold forwardEvents. auto with agentwrap. Qed.
#[local] Hint Resolve core_forwardEvents : agentwrap.

Lemma core_run_attempt attempt ti req started : keeps_core (run_attempt env attempt ti req started).
Proof.
  unfold run_attempt. apply keeps_bind; [auto with agentwrap|intros r].
  apply keeps_bind; [auto with agentwrap|intros outcome]. apply keeps_bind; [auto with agentwrap|intros _].
  destruct outcome as [e|events result waitErr]; [auto with agentwrap|].
  apply keeps_bind; [auto with agentwrap|intros _]. apply keeps_bind; [auto with agentwrap|intros _].
  apply keeps_bind; [|auto with agentwrap].
  apply keeps_modify. intros r'. unfold clearCurrent. by case_decide.
Qed.

Lemma core_summarizeAttempt a n ti req started result :
  keeps_core (summarizeAttempt env a n ti req started result).
Proof. unfold summarizeAttempt. auto 6 with agentwrap. Qed.

Lemma core_policy_context a n ti req last : keeps_core (policy_context env a n ti req last).
Proof. unfold policy_context. auto with agentwrap. Qed.
End Core.
#[export] Hint Resolve core_consult core_now core_sendEvent core_forwardEvents core_run_attempt
  core_summarizeAttempt core_policy_context : agentwrap.

(** The summary of an attempt carries its numbers, its target and its error. *)
Lemma summarizeAttempt_fields env a n ti req started result r :
  let s := (summarizeAttempt env a n ti req started result r).1 in
  att_Attempt s = a /\ att_AttemptOnTarget s = n /\ att_TargetIndex s = ti /\
  att_Error s = res_Err result /\ att_ParentRunID s = pr_id r.
Proof. unfold summarizeAttempt, bind. by destruct (time.IsZero _). Qed.

(** ** Reports

    What [finish] promises: the result shown to the caller describes the run. *)
Record reported (r : policyRun) : Prop := {
  rep_err : res_Err (pr_result r) = pr_waitErr r;
  rep_attempts : md_Attempts (res_Metadata (pr_result r)) = pr_attempts r;
  rep_count : md_Attempt (res_Metadata (pr_result r)) = Z.of_nat (length (pr_attempts r));
  rep_parent : md_ParentRunID (res_Metadata (pr_result r)) = pr_id r;
  rep_final : pm_FinalAttempt (md_Policy (res_Metadata (pr_result r))) = Z.of_nat (length (pr_attempts r));
  rep_target : pm_FinalTargetIndex (md_Policy (res_Metadata (pr_result r))) = finalTargetIndex (pr_attempts r);
  rep_decisions : pm_Decisions (md_Policy (res_Metadata (pr_result r))) = pr_decisions r;
  rep_dropped : pm_DroppedEvents (md_Policy (res_Metadata (pr_result r))) = pr_droppedEvents r;
  rep_exhausted : pm_Exhausted (md_Policy (res_Metadata (pr_result r))) = false <-> pr_waitErr r = None
}.

Lemma finish_reported env result err exhausted reason r :
  (err = None -> res_Err result = None) -> (exhausted = false <-> err = None) ->
  let r' := (finish env result err exhausted reason r).2 in
  reported r' /\ pr_waitErr r' = err /\
  core r' = core (r <| pr_result := pr_result r' |> <| pr_waitErr := err |>).
Proof.
  intros He Hx. cbn zeta. unfold finish, bind, modify, now, consult. cbn. split_and!; try done.
  split; try done; cbn; unfold finished_result; cbn.
  destruct err; [done|]. by apply He.
  all: by case_goal.
Qed.

(** ** One attempt *)
Definition count (r : policyRun) (ti : Z) : Z := default 0%Z (pr_targetCounts r !! ti).

(** The fields that name the run and that no step changes. *)
Definition same_run (r r' : policyRun) : Prop :=
  pr_id r' = pr_id r /\ pr_original r' = pr_original r /\ pr_primary r' = pr_primary r /\
  pr_started r' = pr_started r /\ pr_done r' = pr_done r.

(** [Decide] was consulted for the attempt and answered without an error. *)
Definition consulted (policy : ResiliencePolicy) (r : policyRun) (attempt n ti : Z)
    (d : PolicyDecision) : Prop :=
  exists tick ctxErr ctx, policy tick ctxErr ctx = (d, None) /\
    pc_Attempt ctx = attempt /\ pc_AttemptOnTarget ctx = n /\ pc_TargetIndex ctx = ti /\
    pc_Alternatives ctx = pr_alternatives r.

(** How an iteration ends: the run is over and reported with an error, or it
    goes on as the decision [d] says. *)
Definition decided (attempt ti : Z) (d : PolicyDecision) (r r' : policyRun) (next : iteration) : Prop :=
  same_run r r' /\ pr_attempts r' = pr_attempts r /\ pr_targetCounts r' = pr_targetCounts r /\
  match next with
  | Finished =>
      reported r' /\ is_Some (pr_waitErr r') /\
      (pr_decisions r' = pr_decisions r \/
       exists record, pr_decisions r' = (pr_decisions r ++ [record])%list /\ pdr_Attempt record = attempt)
  | Continue ti' _ last' =>
      (exists record, pr_decisions r' = (pr_decisions r ++ [record])%list /\ pdr_Attempt record = attempt) /\
      ((one_of (pd_Kind d) [PolicyDecisionRetry; PolicyDecisionWait] = true /\ ti' = ti /\
        pr_alternatives r' = pr_alternatives r) \/
       (pd_Kind d = PolicyDecisionFallback /\ ti' = pd_TargetIndex d /\
        pr_alternatives r' = pr_alternatives (applyDecisionTarget d r)))
  end.

Lemma core_fields r r' :
  core r' = core r ->
  same_run r r' /\ pr_attempts r' = pr_attempts r /\ pr_targetCounts r' = pr_targetCounts r /\
  pr_decisions r' = pr_decisions r /\ pr_alternatives r' = pr_alternatives r.
Proof.
  intros E. split_and!; [split_and!|..];
    [exact (f_equal pr_id E)|exact (f_equal pr_original E)|exact (f_equal pr_primary E)
    |exact (f_equal pr_started E)|exact (f_equal pr_done E)|exact (f_equal pr_attempts E)
    |exact (f_equal pr_targetCounts E)|exact (f_equal pr_decisions E)|exact (f_equal pr_alternatives E)].
Qed.

Lemma same_run_trans r1 r2 r3 : same_run r1 r2 -> same_run r2 r3 -> same_run r1 r3.
Proof. intros (? & ? & ? & ? & ?) (? & ? & ? & ? & ?). split_and!; congruence. Qed.

(** The only effect of [applyDecisionTarget] is on the alternatives. *)
Lemma applyDecisionTarget_eq d d' r r' :
  pd_TargetIndex d = pd_TargetIndex d' -> pd_Target d = pd_Target d' ->
  pr_alternatives r' = pr_alternatives r ->
  applyDecisionTarget d r' = r' <| pr_alternatives := pr_alternatives (applyDecisionTarget d' r) |>.
Proof.
  intros Hi Ht Ha. unfold applyDecisionTarget. rewrite Hi, Ht, Ha.
  destruct (pd_Target d') as [t|]; [case_match; [|done]|]; destruct r'; cbn in *; by subst.
Qed.

Section Attempt.
Context (env : RunEnv) (policy : ResiliencePolicy).

Lemma recordDecision_core attempt ti d ctx r :
  exists record, pdr_Attempt record = attempt /\
    core (recordDecision env attempt ti d ctx r).2 = core (r <| pr_decisions ::= fun l => (l ++ [record])%list |>).
Proof.
  eexists (mkPolicyDecisionRecord attempt ti _ _ _ _ _ _ _). split; [done|].
  unfold recordDecision, bind at 1, modify. cbn -[sendEvent].
  destruct (pd_Kind d =s PolicyDecisionStop); [done|].
  apply (keeps_spec _ (_ <| pr_decisions := _ |>)).
  apply keeps_bind; [|intros _; apply core_sendEvent].
  destruct (pd_RateLimit d); [apply core_sendEvent|apply keeps_ret].
Qed.

Lemma finish_decided attempt ti d result err reason r r1 :
  core r1 = core r \/
  (exists record, pdr_Attempt record = attempt /\
     core r1 = core (r <| pr_decisions ::= fun l => (l ++ [record])%list |>)) ->
  decided attempt ti d r (finish env result (Some err) true reason r1).2 Finished.
Proof.
  intros Hr1. destruct (finish_reported env result (Some err) true reason r1) as (Hr & Hw & Hc); [done..|].
  set (r' := (finish env result (Some err) true reason r1).2) in *. clearbody r'.
  apply core_fields in Hc as (Hs & Ha & Ht & Hd & _).
  cbn in Ha, Ht, Hd.
  destruct Hr1 as [E|(record & Hn & E)]; apply core_fields in E as (Hs1 & Ha1 & Ht1 & Hd1 & _);
    cbn in Ha1, Ht1, Hd1; rewrite Ha1 in Ha; rewrite Ht1 in Ht; rewrite Hd1 in Hd;
    (split; [exact (same_run_trans _ r1 _ Hs1 Hs)|]); (split; [exact Ha|]);
    (split; [exact Ht|]); (split; [exact Hr|]); (split; [rewrite Hw; by eexists|]).
  - left. exact Hd.
  - right. by exists record.
Qed.

Lemma apply_decision_spec attempt ti d d' req last r r1 record :
  pdr_Attempt record = attempt ->
  core r1 = core (r <| pr_decisions ::= fun l => (l ++ [record])%list |>) ->
  pd_Kind d = pd_Kind d' -> pd_TargetIndex d = pd_TargetIndex d' -> pd_Target d = pd_Target d' ->
  let '(next, r') := apply_decision env d ti req last r1 in decided attempt ti d' r r' next.
Proof.
  intros Ha E Hk Hi Ht. unfold apply_decision. rewrite Hk.
  destruct (one_of (pd_Kind d') _) eqn:Hone; [|destruct (String.eqb_spec (pd_Kind d') PolicyDecisionFallback)].
  3: { unfold bind. destruct (finish env _ _ _ _ r1) as [[] r'] eqn:Hf.
       change r' with (((), r').2). rewrite <-Hf. apply finish_decided. right. by exists record. }
  all: apply core_fields in E as (Hs & E1 & E2 & E3 & E4); cbn in E1, E2, E3, E4.
  - split_and!; try done; [by eauto|by left].
  - unfold bind, modify. cbn [get]. rewrite (applyDecisionTarget_eq d d' r r1 Hi Ht E4), Hi.
    unfold decided, get, ret. split_and!; try done; [by eauto|by right].
Qed.

Lemma act_on_decision_spec attempt ti req last ctx answer r r1 :
  is_Some (res_Err last) -> core r1 = core r ->
  let '(next, r') := act_on_decision env attempt ti req last ctx answer r1 in
  decided attempt ti answer.1 r r' next /\ (next <> Finished -> answer.2 = None).
Proof.
  intros Hl E. destruct answer as [d [e|]]; unfold act_on_decision.
  - unfold bind. destruct (ensureSDKError_is_Some e "policy decide") as [e' ->].
    destruct (finish env _ _ _ _ r1) as [[] r'] eqn:Hf. cbn. split; [|done].
    change r' with (((), r').2). rewrite <-Hf. apply finish_decided. by left.
  - set (d' := normalizeDecision d ctx).
    assert (Hd' : pd_TargetIndex d' = pd_TargetIndex d /\ pd_Target d' = pd_Target d /\
      (pd_Kind d' = PolicyDecisionStop \/ pd_Kind d' = pd_Kind d)).
    { subst d'. unfold normalizeDecision. destruct d as [k ? ? ? ? ? ? sa rl ? ?]. cbn.
      destruct (String.eqb_spec k ""), rl; cbn; destruct (sa =s ""); cbn; auto. }
    clearbody d'. destruct Hd' as (Hi & Ht & Hk).
    unfold bind at 1. destruct (recordDecision_core attempt ti d' ctx r1) as (record & Hn & E2).
    destruct (recordDecision env attempt ti d' ctx r1) as [[] r2]. cbn in E2.
    assert (core r2 = core (r <| pr_decisions ::= fun l => (l ++ [record])%list |>)) as E3.
    { rewrite E2. apply (f_equal (fun x => x <| pr_decisions ::= fun l => (l ++ [record])%list |>)) in E. exact E. }
    clear E2. destruct (String.eqb_spec (pd_Kind d') PolicyDecisionStop) as [Hstop|Hgo].
    + set (last' := match pd_Err d' with Some _ => _ | None => last end).
      assert (is_Some (res_Err last')) as [e' ->] by (subst last'; by destruct (pd_Err d')).
      unfold bind. destruct (finish env _ _ _ _ r2) as [[] r'] eqn:Hf. cbn. split; [|done].
      change r' with (((), r').2). rewrite <-Hf. apply finish_decided. right. by exists record.
    + destruct Hk as [?|Hk]; [done|].
      assert (forall r3, core r3 = core r2 ->
        let '(next, r') := apply_decision env d' ti req last r3 in
        decided attempt ti d r r' next /\ (next <> Finished -> @None error = None)) as Happ.
      { intros r3 Hr3. pose proof (apply_decision_spec attempt ti d' d req last r r3 record Hn) as H.
        destruct (apply_decision env d' ti req last r3). split; [|done]. apply H; [congruence|done..]. }
      destruct (0 <? pd_Delay d')%Z; [|by apply Happ].
      unfold bind at 1, consult. destruct (env_sleep env (pr_tick r2) (pd_Delay d')) as [e|]; [|by apply Happ].
      unfold bind. destruct (finish env _ _ _ _ _) as [[] r'] eqn:Hf. cbn. split; [|done].
      change r' with (((), r').2). rewrite <-Hf. unfold contextPolicyError.
      apply finish_decided. right. by exists record.
Qed.

(** The numbers of a new attempt on the target [ti]. *)
Definition new_attempt (r : policyRun) (ti : Z) (s : AttemptSummary) : Prop :=
  att_Attempt s = (Z.of_nat (length (pr_attempts r)) + 1)%Z /\
  att_AttemptOnTarget s = (count r ti + 1)%Z /\
  att_TargetIndex s = ti /\ att_ParentRunID s = pr_id r.

(** What one iteration that starts an attempt does to the run. *)
Definition attempted (ti : Z) (r r' : policyRun) (next : iteration) : Prop :=
  exists s, new_attempt r ti s /\ same_run r r' /\
  pr_attempts r' = (pr_attempts r ++ [s])%list /\
  pr_targetCounts r' = <[ti := (count r ti + 1)%Z]> (pr_targetCounts r) /\
  match next with
  | Finished =>
      reported r' /\ (att_Error s = None <-> pr_waitErr r' = None) /\
      (pr_decisions r' = pr_decisions r \/
       exists record, pr_decisions r' = (pr_decisions r ++ [record])%list /\ pdr_Attempt record = att_Attempt s)
  | Continue ti' _ _ =>
      is_Some (att_Error s) /\
      (exists record, pr_decisions r' = (pr_decisions r ++ [record])%list /\ pdr_Attempt record = att_Attempt s) /\
      exists d, consulted policy r (att_Attempt s) (count r ti + 1) ti d /\
      ((one_of (pd_Kind d) [PolicyDecisionRetry; PolicyDecisionWait] = true /\ ti' = ti /\
        pr_alternatives r' = pr_alternatives r) \/
       (pd_Kind d = PolicyDecisionFallback /\ ti' = pd_TargetIndex d /\
        pr_alternatives r' = pr_alternatives (applyDecisionTarget d r)))
  end.

(** The attempt itself, up to its summary. *)
Lemma attempt_recorded ti req r :
  exists s last r1, new_attempt r ti s /\ att_Error s = res_Err last /\
    core r1 = core (r <| pr_targetCounts ::= <[ti := (count r ti + 1)%Z]> |>
                      <| pr_attempts ::= fun l => (l ++ [s])%list |>) /\
    execute_attempt env policy ti req r =
      match res_Err last with
      | None => (finish env last None false "" ;; ret Finished) r1
      | Some _ =>
          (let* ctx := policy_context env (att_Attempt s) (count r ti + 1) ti req last in
           let* ctxErr := ctx_Err env in
           let* answer := consult (fun tick => policy tick ctxErr ctx) in
           act_on_decision env (att_Attempt s) ti req last ctx answer) r1
      end.
Proof.
  unfold execute_attempt, bind at 1, modify at 1.
  set (r0 := upd_field pr_targetCounts _ r).
  assert (default 0%Z (pr_targetCounts r0 !! ti) = (count r ti + 1)%Z) as Hn
    by (cbn; by rewrite lookup_insert_eq).
  unfold bind at 1, get at 1. rewrite Hn.
  set (a := (Z.of_nat (length (pr_attempts r0)) + 1)%Z).
  unfold bind at 1, now, consult at 1. set (r0' := upd_field pr_tick S r0).
  unfold bind at 1. pose proof (keeps_spec _ r0' (core_run_attempt env a ti req (env_now env (pr_tick r0)))) as E1.
  destruct (run_attempt env a ti req _ r0') as [last r1]. cbn in E1.
  unfold bind at 1. set (started := env_now env (pr_tick r0)).
  pose proof (keeps_spec _ r1 (core_summarizeAttempt env a (count r ti + 1) ti req started last)) as E2.
  pose proof (summarizeAttempt_fields env a (count r ti + 1) ti req started last r1) as Hf.
  destruct (summarizeAttempt env a _ ti req started last r1) as [s r2]. cbn in E2, Hf.
  destruct Hf as (Ha & Hc & Ht & He & Hp).
  apply core_fields in E1 as Hs1. destruct Hs1 as ((Hid & _) & _).
  exists s, last, (r2 <| pr_attempts ::= fun l => (l ++ [s])%list |>).
  split; [split_and!; [exact Ha|exact Hc|exact Ht|rewrite Hp; exact Hid]|]. split; [exact He|]. split.
  - apply (f_equal (fun x => x <| pr_attempts ::= fun l => (l ++ [s])%list |>)) in E2, E1.
    etransitivity; [exact E2|exact E1].
  - rewrite Ha. by destruct (res_Err last).
Qed.

Lemma execute_attempt_spec ti req r :
  let '(next, r') := execute_attempt env policy ti req r in attempted ti r r' next.
Proof.
  destruct (attempt_recorded ti req r) as (s & last & r1 & Hs & He & E & ->).
  apply core_fields in E as Hr1. destruct Hr1 as (Hsame & Ha & Ht & Hd & Hal). cbn in Ha, Ht, Hd, Hal.
  destruct (res_Err last) as [err|] eqn:Herr.
  - unfold bind at 1. pose proof (keeps_spec _ r1 (core_policy_context env (att_Attempt s) (count r ti + 1) ti req last)) as E2.
    destruct (policy_context env (att_Attempt s) (count r ti + 1) ti req last r1) as [ctx r2] eqn:Hctx. cbn in E2.
    unfold bind at 1, ctx_Err, consult at 1, bind at 1, consult at 1.
    set (answer := policy _ _ ctx). set (r3 := upd_field pr_tick S _).
    assert (core r3 = core r1) as E3 by (subst r3; exact E2).
    pose proof (act_on_decision_spec (att_Attempt s) ti req last ctx answer r1 r3 ltac:(by rewrite Herr) E3) as Hact.
    destruct (act_on_decision env (att_Attempt s) ti req last ctx answer r3) as [next r'].
    destruct Hact as ((Hsame' & Ha' & Ht' & Hnext) & Hans).
    exists s. split; [done|]. split; [by eapply same_run_trans|].
    split; [by rewrite Ha', Ha|]. split; [by rewrite Ht', Ht|].
    destruct next as [|ti' req' last'].
    + destruct Hnext as (Hrep & [e Hw] & Hdec). rewrite Hd in Hdec. split; [done|]. split; [|exact Hdec].
      rewrite He, Hw. done.
    + destruct Hnext as (Hdec & Hgo). rewrite Hd in Hdec. split; [rewrite He; eauto|]. split; [exact Hdec|].
      exists answer.1. split.
      * eexists _, _, ctx. split; [rewrite <-Hans by done; apply surjective_pairing|].
        unfold policy_context, now, bind, consult in Hctx. cbn in Hctx. injection Hctx as <- _. cbn. by rewrite Hal.
      * destruct Hgo as [(? & ? & Hal')|(? & ? & Hal')]; [left|right]; (split; [done|]; split; [done|]); rewrite Hal'; [done|].
        rewrite (applyDecisionTarget_eq answer.1 answer.1 r r1 eq_refl eq_refl Hal). done.
  - unfold bind. destruct (finish_reported env last None false "" r1) as (Hrep & Hw & E2); [done..|].
    destruct (finish env last None false "" r1) as [[] r']. cbn in Hrep, Hw, E2 |- *.
    apply core_fields in E2 as (Hsame' & Ha' & Ht' & Hd' & _). cbn in Ha', Ht', Hd'.
    exists s. split; [done|]. split; [exact (same_run_trans _ _ _ Hsame Hsame')|].
    split; [by rewrite Ha', Ha|]. split; [by rewrite Ht', Ht|]. split; [done|]. split; [by rewrite He, Hw|].
    left. by rewrite Hd', Hd.
Qed.
End Attempt.

(** ** The whole run *)

(** Attempts are numbered from 1, belong to the run, and are counted per target. *)
Definition numbered (id : RunID) (l : list AttemptSummary) : Prop :=
  forall i s, l !! i = Some s ->
    att_Attempt s = Z.of_nat (S i) /\ att_ParentRunID s = id /\
    att_AttemptOnTarget s =
      Z.of_nat (length (filter (fun x => att_TargetIndex x = att_TargetIndex s) (take (S i) l))).

Definition decisions_numbered (l : list PolicyDecisionRecord) : Prop :=
  forall i d, l !! i = Some d -> pdr_Attempt d = Z.of_nat (S i).

Definition failed (s : AttemptSummary) : Prop := is_Some (att_Error s).

(** The run between two iterations: every attempt so far failed and was decided. *)
Record running (r : policyRun) : Prop := {
  run_numbered : numbered (pr_id r) (pr_attempts r);
  run_failed : Forall failed (pr_attempts r);
  run_counts : forall ti, count r ti =
    Z.of_nat (length (filter (fun x => att_TargetIndex x = ti) (pr_attempts r)));
  run_decisions : length (pr_decisions r) = length (pr_attempts r);
  run_decisions_numbered : decisions_numbered (pr_decisions r)
}.

(** The run after [execute] returned. *)
Record ended (r : policyRun) : Prop := {
  end_reported : reported r;
  end_numbered : numbered (pr_id r) (pr_attempts r);
  end_prior_failed : Forall failed (removelast (pr_attempts r));
  end_success : pr_waitErr r = None <-> exists s, last (pr_attempts r) = Some s /\ att_Error s = None;
  end_decisions : length (pr_decisions r) <= length (pr_attempts r) <= S (length (pr_decisions r));
  end_decisions_numbered : decisions_numbered (pr_decisions r)
}.

Lemma numbered_snoc id l s :
  numbered id l -> att_Attempt s = (Z.of_nat (length l) + 1)%Z -> att_ParentRunID s = id ->
  att_AttemptOnTarget s =
    (Z.of_nat (length (filter (fun x => att_TargetIndex x = att_TargetIndex s) l)) + 1)%Z ->
  numbered id (l ++ [s]).
Proof.
  intros Hl Ha Hp Hn i x Hx. apply lookup_snoc_Some in Hx as [[Hlt Hx]|[-> <-]].
  - destruct (Hl i x Hx) as (-> & -> & ->). by rewrite take_app_le by lia.
  - rewrite Ha, Hp, Hn, take_ge, filter_app, length_app, filter_cons_True, filter_nil by
      (rewrite ?length_app; cbn; done || lia). cbn. split_and!; [lia|done|lia].
Qed.

Lemma decisions_numbered_snoc l d :
  decisions_numbered l -> pdr_Attempt d = Z.of_nat (S (length l)) -> decisions_numbered (l ++ [d]).
Proof. intros Hl Hd i x Hx. apply lookup_snoc_Some in Hx as [[_ Hx]|[-> <-]]; [by apply Hl|done]. Qed.

Lemma count_insert r ti c ti' :
  default 0%Z (<[ti := c]> (pr_targetCounts r) !! ti') = if decide (ti = ti') then c else count r ti'.
Proof. rewrite lookup_insert. by case_decide. Qed.

Lemma last_failed l : Forall failed l -> ~ exists s, last l = Some s /\ att_Error s = None.
Proof.
  intros Hf (s & Hl & He). rewrite Forall_forall in Hf.
  destruct (Hf s (last_Some_elem_of _ _ Hl)) as [? E]. congruence.
Qed.

Section Loop.
Context (env : RunEnv) (policy : ResiliencePolicy).

Lemma attempted_running ti r r' ti' req' last' :
  running r -> attempted policy ti r r' (Continue ti' req' last') -> running r'.
Proof.
  intros [Hn Hf Hc Hd Hdn] (s & (Ha & Ht & Hi & Hp) & (Hid & _) & Hatt & Hcnt & Herr & (rec & Hdec & Hrn) & _).
  split; rewrite ?Hatt, ?Hdec.
  - rewrite Hid. apply numbered_snoc; try done. by rewrite Ht, Hc, Hi.
  - by apply Forall_snoc.
  - intros t. unfold count. rewrite Hcnt, count_insert, filter_app, length_app, Nat2Z.inj_add, <-Hc.
    rewrite filter_cons, filter_nil, Hi. destruct (decide (ti = t)) as [->|]; cbn; lia.
  - rewrite !length_app, Hd. done.
  - apply decisions_numbered_snoc; [done|]. rewrite Hrn, Ha, Hd. lia.
Qed.

Lemma attempted_ended ti r r' : running r -> attempted policy ti r r' Finished -> ended r'.
Proof.
  intros [Hn Hf Hc Hd Hdn] (s & (Ha & Ht & Hi & Hp) & (Hid & _) & Hatt & Hcnt & Hrep & Herr & Hdec).
  split; rewrite ?Hatt; try done.
  - rewrite Hid. apply numbered_snoc; try done. by rewrite Ht, Hc, Hi.
  - by rewrite removelast_last.
  - rewrite <-Herr, last_snoc. naive_solver.
  - destruct Hdec as [->|(rec & -> & _)]; rewrite ?length_app; cbn; lia.
  - destruct Hdec as [->|(rec & -> & Hr)]; [done|].
    apply decisions_numbered_snoc; [done|]. rewrite Hr, Ha, Hd. lia.
Qed.

Lemma cancelled_ended r last e :
  running r -> env_ctxErr env (pr_tick r) = Some e ->
  let r' := (finishCancelled env last r).2 in
  ended r' /\ same_run r r' /\ pr_attempts r' = pr_attempts r /\
  pr_waitErr r' = contextPolicyError (Some e) /\ res_Status (pr_result r') = StatusCancelled.
Proof.
  intros [Hn Hf Hc Hd Hdn] He. cbn zeta.
  set (last' := last <| res_Status := StatusCancelled |> <| res_Err := contextPolicyError (Some e) |>).
  set (r1 := upd_field pr_tick S r). assert (core r1 = core r) as E1 by done.
  assert (finishCancelled env last r =
    finish env last' (contextPolicyError (Some e)) true "policy run cancelled" r1) as ->
    by (unfold finishCancelled, ctx_Err, bind at 1, consult; by rewrite He).
  destruct (finish_reported env last' (contextPolicyError (Some e)) true "policy run cancelled" r1)
    as (Hrep & Hw & E2); [done..|].
  assert (res_Status (pr_result (finish env last' (contextPolicyError (Some e)) true "policy run cancelled" r1).2)
    = StatusCancelled) as Hst by done.
  set (r' := (finish env _ _ _ _ r1).2) in *. clearbody r'.
  apply core_fields in E2 as (Hs & Ha & _ & Hd' & _). cbn in Ha, Hd'.
  split; [|by split_and!]. pose proof Hs as (Hid & _). cbn in Hid.
  split; rewrite ?Ha, ?Hd', ?Hid, ?Hw; try done.
  - by apply Forall_take with (n := pred (length (pr_attempts r))) in Hf; rewrite removelast_firstn_len.
  - split; [done|]. intros H. by destruct (last_failed _ Hf).
  - lia.
Qed.

Lemma execute_loop_ended fuel ti req last r :
  running r ->
  let '(finished, r') := execute_loop env policy fuel ti req last r in
  finished = true -> ended r' /\ same_run r r'.
Proof.
  revert ti req last r. induction fuel as [|fuel IH]; intros ti req last r Hr; [done|].
  cbn [execute_loop]. unfold bind at 1, execute_iteration, bind at 1, ctx_Err, consult.
  set (r1 := upd_field pr_tick S r).
  assert (Hr1 : running r1) by (destruct Hr; by split).
  destruct (env_ctxErr env (pr_tick r)) as [e|] eqn:He.
  - unfold bind. destruct (cancelled_ended r1 last e Hr1) as (Hend & Hs & _);
      [by apply (ctxErr_stays _ (pr_tick r)); [|cbn; lia]|].
    destruct (finishCancelled env last r1) as [[] r']. by intros _.
  - pose proof (execute_attempt_spec env policy ti req r1) as Hatt.
    destruct (execute_attempt env policy ti req r1) as [[|ti' req' last'] r2].
    + cbn. intros _. split; [by eapply attempted_ended|]. by destruct Hatt as (s & _ & Hs & _).
    + pose proof (IH ti' req' last' r2 (attempted_running _ _ _ _ _ _ Hr1 Hatt)) as H.
      destruct (execute_loop env policy fuel ti' req' last' r2) as [finished r'].
      intros Hfin. destruct (H Hfin) as [Hend Hs]. split; [done|].
      destruct Hatt as (s & _ & Hs1 & _). exact (same_run_trans _ _ _ Hs1 Hs).
Qed.

(** ** Termination

    [bound] is the state of the loop under a bounded policy: [m] attempts per
    target, [T] alternative targets. *)
Record bound (m T : nat) (ti : Z) (r : policyRun) : Prop := {
  bnd_target : (0 <= ti <= Z.of_nat T)%Z;
  bnd_count : (0 <= count r ti < Z.of_nat m)%Z;
  bnd_fresh : forall j, (ti < j)%Z -> count r j = 0%Z;
  bnd_alternatives : length (pr_alternatives r) <= T;
  bnd_attempts : (Z.of_nat (length (pr_attempts r)) <= ti * Z.of_nat m + count r ti)%Z;
  bnd_sorted : Sorted Z.le (map att_TargetIndex (pr_attempts r));
  bnd_last : Forall (fun s => att_TargetIndex s <= ti)%Z (pr_attempts r)
}.

(** What is left to do. *)
Definition work_left (m T : nat) (ti : Z) (r : policyRun) : Z :=
  (Z.of_nat ((T + 1) * m) - (ti * Z.of_nat m + count r ti))%Z.

Lemma sorted_snoc_le l x : Sorted Z.le l -> Forall (fun y => y <= x)%Z l -> Sorted Z.le (l ++ [x]).
Proof.
  induction l as [|y l IH]; intros Hs Hl; cbn; [by repeat constructor|].
  inversion Hs as [|? ? Hs' Hhd]; inversion Hl as [|? ? Hy Hl']; subst.
  constructor; [by apply IH|]. destruct l; cbn; constructor; [done|by inversion Hhd].
Qed.

Lemma length_applyDecisionTarget d r T :
  (pd_TargetIndex d <= Z.of_nat T)%Z -> length (pr_alternatives r) <= T ->
  length (pr_alternatives (applyDecisionTarget d r)) <= T.
Proof.
  intros Hd Ht. unfold applyDecisionTarget. destruct (pd_Target d); [|done].
  destruct (Z.leb_spec (pd_TargetIndex d) 0); [done|]. cbn.
  rewrite length_insert, length_app, length_replicate. lia.
Qed.

Lemma sorted_attempts ti r s :
  att_TargetIndex s = ti -> Sorted Z.le (map att_TargetIndex (pr_attempts r)) ->
  Forall (fun s => att_TargetIndex s <= ti)%Z (pr_attempts r) ->
  Sorted Z.le (map att_TargetIndex (pr_attempts r ++ [s])) /\
  Forall (fun s => att_TargetIndex s <= ti)%Z (pr_attempts r ++ [s]).
Proof.
  intros Hi Hs Hl. split.
  - rewrite map_app. apply sorted_snoc_le; [done|]. rewrite Forall_map, Hi. done.
  - apply Forall_snoc. split; [done|lia].
Qed.
End Loop.

(** ** The interface to the policy

    A policy is bounded when it asks for another attempt on a target only
    below [attempts] of them, and for a fallback only to a later target, at
    most the [targets]-th. The context is one the runner can build. *)
Class BoundedPolicy (policy : ResiliencePolicy) (attempts targets : nat) : Prop := {
  bounded_retry : forall tick e ctx d, policy tick e ctx = (d, None) ->
    (0 <= pc_TargetIndex ctx)%Z -> (1 <= pc_AttemptOnTarget ctx)%Z ->
    length (pc_Alternatives ctx) <= targets ->
    one_of (pd_Kind d) [PolicyDecisionRetry; PolicyDecisionWait] = true ->
    (pc_AttemptOnTarget ctx < Z.of_nat attempts)%Z;
  bounded_fallback : forall tick e ctx d, policy tick e ctx = (d, None) ->
    (0 <= pc_TargetIndex ctx)%Z -> (1 <= pc_AttemptOnTarget ctx)%Z ->
    length (pc_Alternatives ctx) <= targets ->
    pd_Kind d = PolicyDecisionFallback ->
    (pc_TargetIndex ctx < pd_TargetIndex d <= Z.of_nat targets)%Z
}.

(** [BasicPolicy] keeps the promise, with at least one attempt per target. *)
#[global] Instance basic_policy_bounded env p T :
  length (bp_Fallbacks p) <= T ->
  BoundedPolicy (basic_policy env p) (Nat.max 1 (Z.to_nat (bp_MaxAttemptsPerTarget p))) T.
Proof.
  intros HT. split; intros tick e ctx d [= <-] Hi Ha Halt Hk;
    destruct (Decide_cases p (env_now env tick) e ctx Hi Ha)
      as [(err & (_ & _ & _ & Hlt) & E)|[(err & t & reason & (_ & _ & _ & Ht) & E)|(_ & _ & E & _)]];
    rewrite E in *; try done.
  - lia.
  - apply lookup_lt_Some in Ht. unfold effective_fallbacks in Ht. cbn.
    destruct (bp_Fallbacks p); cbn in *; lia.
Qed.

Section Termination.
Context (env : RunEnv) (policy : ResiliencePolicy) (m T : nat) `{!BoundedPolicy policy m T}.

Lemma attempted_bound ti r r' ti' req' last' :
  1 <= m -> bound m T ti r -> attempted policy ti r r' (Continue ti' req' last') ->
  bound m T ti' r' /\ (work_left m T ti' r' < work_left m T ti r)%Z.
Proof.
  intros Hm [Hti Hc Hf Hal Hn Hs Hl] (s & (Ha & Ht & Hi & Hp) & _ & Hatt & Hcnt & _ & _ & d & Hd & Hgo).
  destruct (sorted_attempts ti r s Hi Hs Hl) as [Hs' Hl'].
  assert (Hcount : forall j, count r' j = if decide (ti = j) then (count r ti + 1)%Z else count r j)
    by (intros j; unfold count at 1; by rewrite Hcnt, count_insert).
  destruct Hd as (tick & e & ctx & Hpol & _ & Hon & Hidx & Halt).
  destruct Hgo as [(Hk & -> & Hal')|(Hk & -> & Hal')].
  - pose proof (bounded_retry tick e ctx d Hpol ltac:(lia) ltac:(lia) ltac:(rewrite Halt; lia) Hk) as Hlt.
    pose proof (Hcount ti) as Hti'. rewrite decide_True in Hti' by done.
    split; [split|unfold work_left; lia]; rewrite ?Hatt, ?Hal', ?Hti', ?length_app; cbn; try done; try lia.
    intros j Hj. rewrite Hcount, decide_False by lia. apply Hf. lia.
  - pose proof (bounded_fallback tick e ctx d Hpol ltac:(lia) ltac:(lia) ltac:(rewrite Halt; lia) Hk) as Hlt.
    assert (count r' (pd_TargetIndex d) = 0%Z) as H0 by (rewrite Hcount, decide_False by lia; apply Hf; lia).
    split; [split|unfold work_left; nia]; rewrite ?Hatt, ?H0, ?length_app; cbn; try done; try lia; try nia.
    + intros j Hj. rewrite Hcount, decide_False by lia. apply Hf. lia.
    + rewrite Hal'. apply length_applyDecisionTarget; lia.
    + eapply Forall_impl; [exact Hl'|]. cbn. lia.
Qed.

Definition within (r : policyRun) : Prop :=
  length (pr_attempts r) <= (T + 1) * m /\ Sorted Z.le (map att_TargetIndex (pr_attempts r)) /\
  Forall (fun s => att_TargetIndex s <= Z.of_nat T)%Z (pr_attempts r).

Lemma attempted_within ti r r' :
  bound m T ti r -> attempted policy ti r r' Finished -> within r'.
Proof.
  intros [Hti Hc Hf Hal Hn Hs Hl] (s & (Ha & Ht & Hi & Hp) & _ & Hatt & _).
  destruct (sorted_attempts ti r s Hi Hs Hl) as [Hs' Hl'].
  unfold within. rewrite Hatt, length_app. cbn. split_and!; [nia|done|].
  eapply Forall_impl; [exact Hl'|]. cbn. lia.
Qed.

Lemma execute_loop_terminates fuel ti req last r :
  1 <= m -> running r -> bound m T ti r -> (work_left m T ti r <= Z.of_nat fuel)%Z ->
  let '(finished, r') := execute_loop env policy fuel ti req last r in finished = true /\ within r'.
Proof.
  intros Hm. revert ti req last r. induction fuel as [|fuel IH]; intros ti req last r Hr Hb Hfuel.
  { destruct Hb. unfold work_left in Hfuel. nia. }
  cbn [execute_loop]. unfold bind at 1, execute_iteration, bind at 1, ctx_Err, consult.
  set (r1 := upd_field pr_tick S r).
  assert (Hr1 : running r1) by (destruct Hr; by split).
  assert (Hb1 : bound m T ti r1) by (destruct Hb; by split).
  destruct (env_ctxErr env (pr_tick r)) as [e|] eqn:He.
  - unfold bind. destruct (cancelled_ended env r1 last e Hr1) as (_ & _ & Ha & _);
      [by apply (ctxErr_stays _ (pr_tick r)); [|cbn; lia]|].
    destruct (finishCancelled env last r1) as [[] r']. cbn in Ha |- *. split; [done|].
    destruct Hb. unfold within. rewrite Ha. split_and!; [nia|done|].
    eapply Forall_impl; [eassumption|]. cbn. lia.
  - pose proof (execute_attempt_spec env policy ti req r1) as Hatt.
    destruct (execute_attempt env policy ti req r1) as [[|ti' req' last'] r2].
    + cbn. split; [done|]. by eapply attempted_within.
    + destruct (attempted_bound _ _ _ _ _ _ Hm Hb1 Hatt) as [Hb2 Hlt].
      apply IH; [by eapply attempted_running|done|]. change (work_left m T ti r1) with (work_left m T ti r) in Hlt. lia.
Qed.
End Termination.

Lemma start_running env c runner req r :
  PolicyRunner_StartRun env c runner req = inr r ->
  running r /\ pr_attempts r = [] /\ pr_alternatives r = rn_Alternatives runner /\
  pr_targetCounts r = ∅ /\ pr_tick r = 1 /\ pr_id r = "policy-" +:+ itoa c.
Proof.
  unfold PolicyRunner_StartRun. destruct (rn_Runtime runner); [|done]. intros [= <-].
  split; [|done]. by split.
Qed.

Lemma start_bound env c runner req r m T :
  PolicyRunner_StartRun env c runner req = inr r -> 1 <= m -> length (rn_Alternatives runner) <= T ->
  bound m T 0 r.
Proof.
  intros Hr Hm HT. destruct (start_running _ _ _ _ _ Hr) as (_ & Ha & Hal & Hc & _).
  split; unfold count; rewrite ?Ha, ?Hal, ?Hc; rewrite ?lookup_empty; cbn; try done; try lia; constructor.
Qed.

(** [execute] closes the channel [done] when the loop returns. *)
Lemma execute_done env policy fuel r :
  let '(finished, r1) := execute_loop env policy fuel 0%Z (pr_original r) zero r in
  execute env policy fuel r =
    (finished, if finished then r1 <| pr_done := true |> else r1).
Proof.
  unfold execute, bind at 1, get. cbn -[execute_loop]. unfold bind.
  by destruct (execute_loop env policy fuel 0%Z (pr_original r) zero r) as [[] r1].
Qed.

Lemma run_ended env c runner req fuel res e r :
  PolicyRunner_run env c runner req fuel = inr (Some (res, e, r)) ->
  ended r /\ res = pr_result r /\ e = pr_waitErr r /\ pr_id r = "policy-" +:+ itoa c.
Proof.
  unfold PolicyRunner_run. destruct (PolicyRunner_StartRun env c runner req) as [|r0] eqn:Hs; [done|].
  destruct (start_running _ _ _ _ _ Hs) as (Hrun & _ & _ & _ & _ & Hid).
  pose proof (execute_done env (effective_policy env runner) fuel r0) as Hx.
  pose proof (execute_loop_ended env (effective_policy env runner) fuel 0%Z (pr_original r0) zero r0 Hrun) as Hl.
  destruct (execute_loop env _ fuel 0%Z (pr_original r0) zero r0) as [finished r1]. rewrite Hx.
  destruct finished; [|done]. destruct (Hl eq_refl) as [Hend (Hi & _)]. cbn. intros [= <- <- <-].
  split_and!; [|done|done|by rewrite <-Hid].
  destruct Hend as [[] ?????]; split; [split|..]; done.
Qed.

(** C11: under a bounded policy every run ends, whatever the environment does:
    with [m] attempts per target and [T] alternative targets the loop returns
    after at most [(T + 1) * m] attempts, which visit the targets in order and
    never go back, and [Wait] gives the result. [BasicPolicy] is bounded. *)
Theorem PolicyRunner_terminates env c runner req rt policy m T fuel :
  BoundedPolicy policy m T -> 1 <= m ->
  rn_Runtime runner = Some rt -> rn_Policy runner = Some policy ->
  length (rn_Alternatives runner) <= T -> (T + 1) * m <= fuel ->
  exists res e r, PolicyRunner_run env c runner req fuel = inr (Some (res, e, r)) /\
    let attempts := md_Attempts (res_Metadata res) in
    length attempts <= (T + 1) * m /\
    Sorted Z.le (map att_TargetIndex attempts) /\
    Forall (fun s => att_TargetIndex s <= Z.of_nat T)%Z attempts.
Proof.
  intros Hb Hm Hrt Hpol HT Hfuel.
  destruct (PolicyRunner_StartRun env c runner req) as [|r0] eqn:Hs;
    [unfold PolicyRunner_StartRun in Hs; by rewrite Hrt in Hs|].
  destruct (start_running _ _ _ _ _ Hs) as (Hrun & _ & _ & Hc & _).
  pose proof (start_bound _ _ _ _ _ m T Hs Hm HT) as Hb0.
  pose proof (execute_done env policy fuel r0) as Hx.
  pose proof (execute_loop_ended env policy fuel 0%Z (pr_original r0) zero r0 Hrun) as Hend.
  assert (Hw : (work_left m T 0 r0 <= Z.of_nat fuel)%Z)
    by (unfold work_left, count; rewrite Hc, lookup_empty; cbn; lia).
  pose proof (execute_loop_terminates env policy m T fuel 0%Z (pr_original r0) zero r0 Hm Hrun Hb0 Hw) as Ht.
  destruct (execute_loop env policy fuel 0%Z (pr_original r0) zero r0) as [finished r1].
  destruct Ht as [-> Hwithin]. destruct (Hend eq_refl) as [[Hrep _ _ _ _ _] _].
  exists (pr_result r1), (pr_waitErr r1), (r1 <| pr_done := true |>).
  unfold PolicyRunner_run, effective_policy. rewrite Hs, Hpol, Hx. split; [done|].
  cbv zeta. by rewrite (rep_attempts _ Hrep).
Qed.

(** C12: the result of a run reports it faithfully. Attempts are numbered from
    1, carry the logical run as parent, and each is counted on its target;
    decisions are numbered like the attempts they follow, at most one each;
    the metadata gives the number of attempts, the last target and the
    identifier of the logical run, and the error is the one [Wait] returns. *)
Theorem PolicyRunner_result_reports_run env c runner req fuel res e r :
  PolicyRunner_run env c runner req fuel = inr (Some (res, e, r)) ->
  let md := res_Metadata res in
  let attempts := md_Attempts md in
  let decisions := pm_Decisions (md_Policy md) in
  res_Err res = e /\ numbered ("policy-" +:+ itoa c) attempts /\
  md_Attempt md = Z.of_nat (length attempts) /\ pm_FinalAttempt (md_Policy md) = md_Attempt md /\
  pm_FinalTargetIndex (md_Policy md) = finalTargetIndex attempts /\
  md_ParentRunID md = "policy-" +:+ itoa c /\
  decisions_numbered decisions /\
  length decisions <= length attempts <= S (length decisions) /\
  pm_DroppedEvents (md_Policy md) = pr_droppedEvents r.
Proof.
  intros H. destruct (run_ended _ _ _ _ _ _ _ _ H) as ([[] Hn _ _ Hd Hdn] & -> & -> & Hid). cbv zeta.
  rewrite rep_attempts0, rep_count0, rep_parent0, rep_final0, rep_target0, rep_decisions0, rep_dropped0.
  by rewrite <-Hid.
Qed.

(** C13: a run succeeds exactly when its last attempt did: [Wait] returns no
    error, and the policy is not reported exhausted, if and only if there is a
    last attempt and it has no error; every attempt before it failed, so
    nothing is started after a success. *)
Theorem PolicyRunner_success_iff env c runner req fuel res e r :
  PolicyRunner_run env c runner req fuel = inr (Some (res, e, r)) ->
  let attempts := md_Attempts (res_Metadata res) in
  (e = None <-> exists s, last attempts = Some s /\ att_Error s = None) /\
  (pm_Exhausted (md_Policy (res_Metadata res)) = false <-> e = None) /\
  Forall failed (removelast attempts).
Proof.
  intros H. destruct (run_ended _ _ _ _ _ _ _ _ H) as ([[] _ Hf Hsucc _ _] & -> & -> & _). cbv zeta.
  by rewrite rep_attempts0.
Qed.

(** A run whose context is done before the first attempt starts no runtime:
    it ends cancelled, with no attempt and no event, and the error says
    whether the context was cancelled or its deadline passed. *)
Theorem PolicyRunner_cancelled_before_start env c runner req rt fuel from err :
  rn_Runtime runner = Some rt -> env_done env = Some (from, err) -> from <= 1 -> 1 <= fuel ->
  exists res r, PolicyRunner_run env c runner req fuel = inr (Some (res, contextPolicyError (Some err), r)) /\
    res_Status res = StatusCancelled /\ res_Err res = contextPolicyError (Some err) /\
    md_Attempts (res_Metadata res) = [] /\ pr_events r = [].
Proof.
  intros Hrt Hdone Hfrom Hfuel. destruct fuel as [|fuel]; [lia|].
  assert (He : env_ctxErr env 1 = Some err)
    by (unfold env_ctxErr; rewrite Hdone; by rewrite (proj2 (Nat.leb_le from 1))).
  destruct (PolicyRunner_StartRun env c runner req) as [|r0] eqn:Hs;
    [unfold PolicyRunner_StartRun in Hs; by rewrite Hrt in Hs|].
  destruct (start_running _ _ _ _ _ Hs) as (Hrun & Ha & _ & _ & Htick & _).
  set (r1 := upd_field pr_tick S r0).
  assert (Hev : pr_events r1 = []) by (unfold PolicyRunner_StartRun in Hs; rewrite Hrt in Hs; by injection Hs as <-).
  destruct (cancelled_ended env r1 zero err) as ([Hrep _ _ _ _ _] & _ & Ha' & Hw & Hst);
    [by destruct Hrun; split|apply (ctxErr_stays _ 1); [done|cbn; lia]|].
  pose proof (execute_done env (effective_policy env runner) (S fuel) r0) as Hx.
  cbn [execute_loop] in Hx. unfold bind at 1, execute_iteration, bind at 1, ctx_Err, consult in Hx.
  rewrite Htick, He in Hx. fold r1 in Hx. unfold bind at 1 in Hx.
  assert (Hev' : pr_events (finishCancelled env zero r1).2 = []) by exact Hev.
  destruct (finishCancelled env zero r1) as [[] r']. cbn [fst snd] in *. cbn [ret] in Hx.
  exists (pr_result r'), (r' <| pr_done := true |>).
  unfold PolicyRunner_run. rewrite Hs, Hx. rewrite (rep_err _ Hrep), (rep_attempts _ Hrep), Ha', Hw.
  split; [by rewrite <-Hw|]. split_and!; [done|done|exact Ha|exact Hev'].
Qed.

(** ** Forwarding of events *)

(** What the consumer sees of the event [src] when it is the [n]-th the run sends. *)
Definition sent (id : RunID) (n : Z) (src out : Event) : Prop :=
  ev_ID out = (if ev_ID src =s "" then id +:+ "-event-" +:+ itoa n else ev_ID src) /\
  ev_RunID out = (if ev_RunID src =s "" then id else ev_RunID src) /\
  ev_Type out = ev_Type src /\ ev_SessionID out = ev_SessionID src /\
  ev_Payload out = ev_Payload src /\ ev_Raw out = ev_Raw src.

Lemma stamp_event_spec env event r :
  let '(out, r') := stamp_event env event r in
  sent (pr_id r) (pr_seq r + 1) event out /\
  pr_id r' = pr_id r /\ pr_seq r' = (pr_seq r + 1)%Z /\
  pr_events r' = pr_events r /\ pr_droppedEvents r' = pr_droppedEvents r.
Proof. unfold stamp_event, bind, modify, get, now, consult, ret. cbn. by destruct (time.IsZero _). Qed.

Lemma sendEvent_spec env event r :
  let '(_, r') := sendEvent env event r in
  pr_id r' = pr_id r /\ pr_seq r' = (pr_seq r + 1)%Z /\
  ((exists out, sent (pr_id r) (pr_seq r + 1) event out /\
      pr_events r' = (pr_events r ++ [out])%list /\ pr_droppedEvents r' = pr_droppedEvents r) \/
   (pr_events r' = pr_events r /\
      exists record, pr_droppedEvents r' = (pr_droppedEvents r ++ [record])%list /\
        pde_Type record = ev_Type event /\ pde_Kind record = Event_Kind event) \/
   (env_done env <> None /\ pr_events r' = pr_events r /\ pr_droppedEvents r' = pr_droppedEvents r)).
Proof.
  unfold sendEvent, bind at 1. pose proof (stamp_event_spec env event r) as H.
  destruct (stamp_event env event r) as [out r1].
  destruct H as (Hsent & Hid & Hseq & Hev & Hdr). unfold bind at 1, consult.
  destruct (env_send env (pr_tick r1)) eqn:E; cbn; rewrite ?Hid, ?Hseq, ?Hev, ?Hdr; split_and!; try done.
  - left. eauto.
  - right; right. split; [|done]. unfold env_send, env_ctxErr in E.
    destruct (env_done env); [done|]. by destruct (env_room env _).
  - right; left. split; [done|]. eexists. split; [done|].
    destruct Hsent as (_ & _ & Ht & _ & Hp & _). split; [exact Ht|].
    unfold recordDroppedEvent, Event_Kind. cbn. by rewrite Hp.
Qed.

Lemma sent_annotate id attempt ti n src out :
  sent id n (annotate id attempt ti src) out ->
  ev_Payload out = ev_Payload (annotate id attempt ti src) /\ ev_Type out = ev_Type src.
Proof. by intros (_ & _ & ? & _ & ? & _). Qed.

(** The events of an attempt reach the consumer in order, marked with the
    logical run, the attempt and the target, and with the run's own identifier
    where they had none; while the context is live every event is delivered or
    recorded as dropped, none is lost silently. *)
Theorem forwardEvents_accounting env events attempt ti r :
  let '(_, r') := forwardEvents env events attempt ti r in
  exists kept delivered dropped,
    kept `sublist_of` zip (seqZ (pr_seq r + 1) (Z.of_nat (length events))) events /\
    Forall2 (fun src out => sent (pr_id r) src.1 (annotate (pr_id r) attempt ti src.2) out) kept delivered /\
    pr_events r' = (pr_events r ++ delivered)%list /\
    pr_droppedEvents r' = (pr_droppedEvents r ++ dropped)%list /\
    pr_seq r' = (pr_seq r + Z.of_nat (length events))%Z /\ pr_id r' = pr_id r /\
    length delivered + length dropped <= length events /\
    (env_done env = None -> length delivered + length dropped = length events).
Proof.
  revert r. induction events as [|ev events IH]; intros r.
  { exists [], [], []. cbn. rewrite !app_nil_r, Z.add_0_r. by repeat constructor. }
  cbn [forwardEvents iterM]. unfold bind at 1, bind at 1, get at 1.
  pose proof (sendEvent_spec env (annotate (pr_id r) attempt ti ev) r) as H.
  destruct (sendEvent env _ r) as [[] r1].
  destruct H as (Hid & Hseq & H). specialize (IH r1). unfold forwardEvents in IH.
  destruct (iterM _ events r1) as [[] r2].
  destruct IH as (kept & delivered & dropped & Hk & Hf & Hev & Hdr & Hs & Hi & Hle & Hlive).
  rewrite Hid, Hseq in *.
  replace (zip (seqZ (pr_seq r + 1) (Z.of_nat (length (ev :: events)))) (ev :: events))
    with ((pr_seq r + 1, ev)%Z :: zip (seqZ (pr_seq r + 1 + 1) (Z.of_nat (length events))) events)
    by (rewrite (seqZ_cons (pr_seq r + 1)) by (cbn; lia); cbn [zip zip_with length]; do 3 f_equal; lia).
  destruct H as [(out & Hsent & He & Hd)|[(He & record & Hd & _)|(Hdone & He & Hd)]];
    rewrite He in Hev; rewrite Hd in Hdr.
  - exists ((pr_seq r + 1, ev)%Z :: kept), (out :: delivered), dropped.
    rewrite <-app_assoc in Hev. cbn [length]. split_and!; try done; try lia; [by constructor..|].
    intros Hn. rewrite <-(Hlive Hn). lia.
  - exists kept, delivered, (record :: dropped).
    rewrite <-app_assoc in Hdr. cbn [length]. split_and!; try done; try lia; [by constructor|].
    intros Hn. rewrite <-(Hlive Hn). lia.
  - exists kept, delivered, dropped. cbn [length]. split_and!; try done; try lia. by constructor.
Qed.

(** ** Concrete runs

    The first attempt times out, the second completes and emits one event. *)
Definition flaky_env : RunEnv :=
  mkRunEnv (fun tick => Z.of_nat (S tick)) None
    (fun tick _ _ =>
       if (tick <? 5)%nat
       then Ran [] (zero <| res_Err := Some (NewError ErrorTimeout "run" "too slow" None []) |>) None
       else Ran [zero <| ev_Type := "native" |>] (zero <| res_RunID := "native-1" |>) None)
    (fun _ _ => None) (fun _ => true) (fun _ => true).

Definition retrying : BasicPolicy := mkBasicPolicy 2%Z 0%Z (Some (FixedBackoff_Delay time.Second)) true [] None None.
Definition flaky_runner : PolicyRunner :=
  mkPolicyRunner (Some 1%positive) [zero] (Some (basic_policy flaky_env retrying)).
Abbreviation flaky_run := (PolicyRunner_run flaky_env 7%Z flaky_runner zero 4).

Example flaky_run_result :
  match flaky_run with
  | inr (Some (res, e, r)) =>
      (res_RunID res, res_Status res, e, map att_AttemptOnTarget (md_Attempts (res_Metadata res)),
       map pdr_Kind (pm_Decisions (md_Policy (res_Metadata res))),
       map (fun ev => (ev_ID ev, ev_Type ev)) (pr_events r))
      = ("native-1", "completed", None, [1; 2]%Z, ["retry"],
         [("policy-7-event-1", "retry"); ("policy-7-event-2", "native")])
  | _ => False
  end.
Proof. vm_compute. reflexivity. Qed.

Lemma flaky_returns :
  match flaky_run with inr (Some _) => true | _ => false end = true.
Proof. vm_compute. reflexivity. Qed.

Lemma PolicyRunner_terminates_witness :
  exists res e r, flaky_run = inr (Some (res, e, r)) /\
    let attempts := md_Attempts (res_Metadata res) in
    length attempts <= (1 + 1) * 2 /\ Sorted Z.le (map att_TargetIndex attempts) /\
    Forall (fun s => att_TargetIndex s <= Z.of_nat 1)%Z attempts.
Proof.
  assert (Hb : BoundedPolicy (basic_policy flaky_env retrying) 2 1)
    by (apply (basic_policy_bounded flaky_env retrying 1); cbn; lia).
  exact (PolicyRunner_terminates flaky_env 7 flaky_runner zero 1%positive (basic_policy flaky_env retrying)
    2 1 4 Hb ltac:(lia) eq_refl eq_refl ltac:(cbn; lia) ltac:(lia)).
Defined.

Lemma PolicyRunner_result_reports_run_witness :
  match flaky_run with
  | inr (Some (res, e, _)) => res_Err res = e /\ numbered ("policy-" +:+ itoa 7) (md_Attempts (res_Metadata res))
  | _ => False
  end.
Proof.
  pose proof flaky_returns as H. destruct flaky_run as [|[[[res e] r]|]] eqn:E; [discriminate H| |discriminate H].
  destruct (PolicyRunner_result_reports_run flaky_env 7 flaky_runner zero 4 res e r E) as (He & Hn & _).
  exact (conj He Hn).
Defined.

Lemma PolicyRunner_success_iff_witness :
  match flaky_run with
  | inr (Some (res, e, _)) =>
      e = None <-> exists s, last (md_Attempts (res_Metadata res)) = Some s /\ att_Error s = None
  | _ => False
  end.
Proof.
  pose proof flaky_returns as H. destruct flaky_run as [|[[[res e] r]|]] eqn:E; [discriminate H| |discriminate H].
  exact (proj1 (PolicyRunner_success_iff flaky_env 7 flaky_runner zero 4 res e r E)).
Defined.

Definition cancelled_env : RunEnv :=
  mkRunEnv (fun tick => Z.of_nat (S tick)) (Some (0, ECanceled)) (fun _ _ _ => StartFailed ECanceled)
    (fun _ _ => None) (fun _ => true) (fun _ => true).

Lemma PolicyRunner_cancelled_before_start_witness :
  exists res r, PolicyRunner_run cancelled_env 7 flaky_runner zero 1
      = inr (Some (res, contextPolicyError (Some ECanceled), r)) /\
    res_Status res = StatusCancelled /\ res_Err res = contextPolicyError (Some ECanceled) /\
    md_Attempts (res_Metadata res) = [] /\ pr_events r = [].
Proof.
  exact (PolicyRunner_cancelled_before_start cancelled_env 7 flaky_runner zero 1%positive 1 0 ECanceled
    eq_refl eq_refl ltac:(lia) ltac:(lia)).
Defined.
