(* ===== verification/Validation.v ===== *)
(** * Output validation: the checks and the requests of validation.go

    The expectation and repair types, [ValidateRun] with every kind of check,
    the aggregation of checks, the repair request and prompt, and the errors
    and metadata of a validated run. The file system and the context are an
    environment ([FileSystem], the error of the context at each check); a file
    system is taken to stay the same during one check. The run that repeats
    validation and repair is in [ValidatingRuntime]. *)
From Stdlib Require Import Ascii.
From S2P Require Import Prelude GoStd Types Redact Errors Events Json Permissions Policy.
#[local] Open Scope string_scope.

Definition ExpectationFile : ExpectationKind := "file".
Definition ExpectationDirectory : ExpectationKind := "directory".
Definition ExpectationArtifact : ExpectationKind := "artifact".
Definition ExpectationMarkdownTemplate : ExpectationKind := "markdown_template".
Definition ExpectationJSON : ExpectationKind := "json".
Definition ExpectationMetadata : ExpectationKind := "metadata".
Definition ExpectationCustom : ExpectationKind := "custom".
Definition ExpectationRequired : ExpectationSeverity := "required".
Definition ExpectationOptional : ExpectationSeverity := "optional".

Record ValidationExpectation := mkValidationExpectation {
  exp_ID : string;
  exp_Kind : ExpectationKind;
  exp_Severity : ExpectationSeverity;
  exp_Path : string;
  exp_ArtifactID : ArtifactID;
  exp_ArtifactURI : string;
  exp_TemplatePath : string;
  exp_MetadataKey : string;
  exp_RequiredFields : list string;
  exp_RepairHint : string
}.
#[global] Instance eta_ValidationExpectation : Eta ValidationExpectation := fun r =>
  mkValidationExpectation (exp_ID r) (exp_Kind r) (exp_Severity r) (exp_Path r)
    (exp_ArtifactID r) (exp_ArtifactURI r) (exp_TemplatePath r) (exp_MetadataKey r)
    (exp_RequiredFields r) (exp_RepairHint r).
#[global] Instance zero_ValidationExpectation : Zero ValidationExpectation :=
  mkValidationExpectation zero zero zero zero zero zero zero zero zero zero.

Record ValidationContext := mkValidationContext {
  vx_Request : RunRequest;
  vx_Result : RunResult;
  vx_WorkDir : string
}.
#[global] Instance eta_ValidationContext : Eta ValidationContext := fun r =>
  mkValidationContext (vx_Request r) (vx_Result r) (vx_WorkDir r).
#[global] Instance zero_ValidationContext : Zero ValidationContext :=
  mkValidationContext zero zero zero.

(** The interface [Validator]: its method [Validate] at a tick, under a
    context in the given state. *)
Definition Validator : Type := nat -> option error -> ValidationContext -> ValidationCheck.

Record RepairContext := mkRepairContext {
  rc_OriginalRequest : RunRequest;
  rc_CurrentResult : RunResult;
  rc_Validation : ValidationResult;
  rc_Attempt : Z;
  rc_MaxAttempts : Z
}.
#[global] Instance eta_RepairContext : Eta RepairContext := fun r =>
  mkRepairContext (rc_OriginalRequest r) (rc_CurrentResult r) (rc_Validation r)
    (rc_Attempt r) (rc_MaxAttempts r).
#[global] Instance zero_RepairContext : Zero RepairContext :=
  mkRepairContext zero zero zero zero zero.

Record RepairConfig := mkRepairConfig {
  cfg_MaxAttempts : Z;
  cfg_SessionAction : SessionAction;
  cfg_AllowFreshSessionFallback : bool;
  cfg_FreshSessionFallbackOnError : bool;
  cfg_ShouldRepair : option (RepairContext -> bool);
  cfg_BuildPrompt : option (RepairContext -> string);
  cfg_OverrideRequest : option (RepairContext -> RunRequest -> RunRequest)
}.
#[global] Instance eta_RepairConfig : Eta RepairConfig := fun r =>
  mkRepairConfig (cfg_MaxAttempts r) (cfg_SessionAction r)
    (cfg_AllowFreshSessionFallback r) (cfg_FreshSessionFallbackOnError r)
    (cfg_ShouldRepair r) (cfg_BuildPrompt r) (cfg_OverrideRequest r).
#[global] Instance zero_RepairConfig : Zero RepairConfig :=
  mkRepairConfig zero zero zero zero zero zero zero.

(** A [nil] validator is skipped. *)
Record ValidationSpec := mkValidationSpec {
  spec_Expectations : list ValidationExpectation;
  spec_Validators : list (option Validator);
  spec_Repair : RepairConfig
}.
#[global] Instance eta_ValidationSpec : Eta ValidationSpec := fun r =>
  mkValidationSpec (spec_Expectations r) (spec_Validators r) (spec_Repair r).
#[global] Instance zero_ValidationSpec : Zero ValidationSpec :=
  mkValidationSpec zero zero zero.

(** What the checks read: [os.Stat] says whether a path exists and is a
    directory, [os.ReadFile] gives the content of a readable file. The message
    of a JSON syntax error is left open. *)
Record FileSystem := mkFileSystem {
  fs_Stat : string -> option bool;
  fs_ReadFile : string -> option string;
  fs_json_error : string -> string
}.

(** ** Check values *)
Definition safeDetail (value : string) : string :=
  let value := strings.TrimSpace value in
  if (String.length value <=? 240)%nat then value else strings.take 240 value +:+ "...".

Definition severity (value : ExpectationSeverity) : ExpectationSeverity :=
  if value =s "" then ExpectationRequired else value.

Definition severityRequired (value : ExpectationSeverity) : bool :=
  (value =s "") || (value =s ExpectationRequired).

Definition expectationID (exp : ValidationExpectation) : string :=
  if negb (exp_ID exp =s "") then exp_ID exp
  else if negb (exp_Path exp =s "") then exp_Kind exp +:+ ":" +:+ exp_Path exp
  else if negb (exp_ArtifactID exp =s "") then exp_Kind exp +:+ ":" +:+ exp_ArtifactID exp
  else if negb (exp_MetadataKey exp =s "") then exp_Kind exp +:+ ":" +:+ exp_MetadataKey exp
  else exp_Kind exp.

Definition failedCheck (exp : ValidationExpectation) (expected observed detail : string) : ValidationCheck :=
  zero <| vc_ExpectationID := expectationID exp |> <| vc_Kind := exp_Kind exp |>
       <| vc_Severity := severity (exp_Severity exp) |> <| vc_Passed := false |>
       <| vc_Expected := safeDetail expected |> <| vc_Observed := safeDetail observed |>
       <| vc_Detail := safeDetail detail |> <| vc_RepairHint := safeDetail (exp_RepairHint exp) |>.

Definition passedCheck (exp : ValidationExpectation) (expected observed : string) : ValidationCheck :=
  zero <| vc_ExpectationID := expectationID exp |> <| vc_Kind := exp_Kind exp |>
       <| vc_Severity := severity (exp_Severity exp) |> <| vc_Passed := true |>
       <| vc_Expected := safeDetail expected |> <| vc_Observed := safeDetail observed |>
       <| vc_RepairHint := safeDetail (exp_RepairHint exp) |>.

Definition normalizeCheck (check : ValidationCheck) : ValidationCheck :=
  let check := check <| vc_Severity ::= fun s => if s =s "" then ExpectationRequired else s |>
                     <| vc_Kind ::= fun k => if k =s "" then ExpectationCustom else k |> in
  check <| vc_ExpectationID ::= fun id => if id =s "" then vc_Kind check else id |>
        <| vc_Expected ::= safeDetail |> <| vc_Observed ::= safeDetail |>
        <| vc_Detail ::= safeDetail |> <| vc_RepairHint ::= safeDetail |>.

(** ** Markdown *)
Definition resolvePath (workDir path : string) : string :=
  if (path =s "") || filepath.IsAbs path || (workDir =s "") then path
  else filepath.Join workDir path.

Fixpoint drop_hashes (s : string) : string :=
  match s with String c s' => if Ascii.eqb c "#"%char then drop_hashes s' else s | EmptyString => "" end.

(** The heading on a line, if it is one: hashes, a space, the text. *)
Definition heading (line : string) : option string :=
  let trimmed := strings.TrimSpace line in
  if negb (strings.HasPrefix trimmed "#") then None
  else match drop_hashes trimmed with
       | String c rest => if Ascii.eqb c " "%char then Some (strings.TrimSpace rest) else None
       | EmptyString => None
       end.

Definition markdownHeadings (content : string) : list string :=
  omap heading (strings.SplitByte content "010"%char).

(** The inner loop of [missingInOrder]: what is left of [observed] after the
    first occurrence of [h]. *)
Fixpoint advance (h : string) (observed : list string) : option (list string) :=
  match observed with
  | [] => None
  | o :: observed => if o =s h then Some observed else advance h observed
  end.

Fixpoint missingInOrder (expected observed : list string) : list string :=
  match expected with
  | [] => []
  | h :: expected =>
      match advance h observed with
      | Some rest => missingInOrder expected rest
      | None => h :: missingInOrder expected []
      end
  end.

Definition unresolvedTemplateSlots (content : string) : list string :=
  filter (fun marker => strings.Contains content marker) ["TODO"; "TBD"; "{{"; "}}"; "<!-- REQUIRED"].

(** ** The checks *)
Section Checks.
Context (fs : FileSystem).

Definition validatePath (exp : ValidationExpectation) (workDir : string) (wantDir : bool) : ValidationCheck :=
  let path := resolvePath workDir (exp_Path exp) in
  match fs_Stat fs path with
  | None => failedCheck exp path "missing" "path was not found"
  | Some isDir =>
      if wantDir && negb isDir then
        failedCheck exp "directory" "file" "path exists but is not a directory"
      else if negb wantDir && isDir then
        failedCheck exp "file" "directory" "path exists but is a directory"
      else passedCheck exp path "present"
  end.

Fixpoint find_artifact (exp : ValidationExpectation) (artifacts : list ArtifactRef) : option string :=
  match artifacts with
  | [] => None
  | artifact :: artifacts =>
      if negb (exp_ArtifactID exp =s "") && (artf_ID artifact =s exp_ArtifactID exp)
      then Some (exp_ArtifactID exp)
      else if negb (exp_ArtifactURI exp =s "") && (artf_URI artifact =s exp_ArtifactURI exp)
      then Some (exp_ArtifactURI exp)
      else find_artifact exp artifacts
  end.

Definition validateArtifact (exp : ValidationExpectation) (result : RunResult) : ValidationCheck :=
  match find_artifact exp (res_Artifacts result ++ md_Artifacts (res_Metadata result))%list with
  | Some expected => passedCheck exp expected "referenced"
  | None =>
      let expected := if negb (exp_ArtifactID exp =s "") then exp_ArtifactID exp
                      else if negb (exp_ArtifactURI exp =s "") then exp_ArtifactURI exp
                      else "artifact reference" in
      failedCheck exp expected "missing" "artifact reference was not present"
  end.

Definition validateMarkdownTemplate (exp : ValidationExpectation) (workDir : string) : ValidationCheck :=
  let templatePath := resolvePath workDir (exp_TemplatePath exp) in
  let artifactPath := resolvePath workDir (exp_Path exp) in
  match fs_ReadFile fs templatePath with
  | None => failedCheck exp templatePath "unreadable" "template file could not be read"
  | Some template =>
      match fs_ReadFile fs artifactPath with
      | None => failedCheck exp artifactPath "unreadable" "markdown artifact could not be read"
      | Some artifact =>
          let expected := markdownHeadings template in
          match expected, missingInOrder expected (markdownHeadings artifact),
                unresolvedTemplateSlots artifact with
          | [], _, _ => failedCheck exp "template headings" "none" "template has no Markdown headings"
          | _, (_ :: _) as missing, _ =>
              failedCheck exp (strings.Join expected " > ")
                ("missing or out of order: " +:+ strings.Join missing ", ")
                "required Markdown headings are missing or out of order"
          | _, [], (_ :: _) as unresolved =>
              failedCheck exp "resolved template placeholders" (strings.Join unresolved ", ")
                "markdown artifact contains unresolved template placeholders"
          | _, [], [] => passedCheck exp templatePath "markdown template matched"
          end
      end
  end.

Definition missing_fields (fields : list string) (obj : GoMap any) : list string :=
  filter (fun field => map_get obj field = None) fields.

Definition validateJSON (exp : ValidationExpectation) (workDir : string) : ValidationCheck :=
  let path := resolvePath workDir (exp_Path exp) in
  match fs_ReadFile fs path with
  | None => failedCheck exp path "unreadable" "JSON file could not be read"
  | Some data =>
      match json.Unmarshal data with
      | None => failedCheck exp "well-formed JSON" "invalid JSON" (fs_json_error fs data)
      | Some value =>
          match exp_RequiredFields exp, value with
          | [], _ => passedCheck exp path "valid JSON"
          | fields, AMap obj =>
              match missing_fields fields obj with
              | [] => passedCheck exp path "valid JSON"
              | missing =>
                  failedCheck exp ("required fields: " +:+ strings.Join fields ", ")
                    ("missing: " +:+ strings.Join (sort_strings missing) ", ")
                    "JSON object is missing required fields"
              end
          | _, _ => failedCheck exp "JSON object" (json.type_name value) "required fields need a JSON object"
          end
      end
  end.

Definition validateMetadata (exp : ValidationExpectation) (result : RunResult) : ValidationCheck :=
  let key := exp_MetadataKey exp in
  if key =s "" then failedCheck exp "metadata key" "empty" "metadata expectation requires a key"
  else
    match md_NativeMetadata (res_Metadata result) ≫= fun m => m !! key with
    | Some _ => passedCheck exp key "present"
    | None => failedCheck exp key "missing" "metadata key was not present"
    end.

Definition validateExpectation (ctxErr : option error) (vctx : ValidationContext)
    (exp : ValidationExpectation) : ValidationCheck :=
  match ctxErr with
  | Some err => failedCheck exp "context active" (error_Error err) "validation cancelled"
  | None =>
      let kind := exp_Kind exp in
      if kind =s ExpectationFile then validatePath exp (vx_WorkDir vctx) false
      else if kind =s ExpectationDirectory then validatePath exp (vx_WorkDir vctx) true
      else if kind =s ExpectationArtifact then validateArtifact exp (vx_Result vctx)
      else if kind =s ExpectationMarkdownTemplate then validateMarkdownTemplate exp (vx_WorkDir vctx)
      else if kind =s ExpectationJSON then validateJSON exp (vx_WorkDir vctx)
      else if kind =s ExpectationMetadata then validateMetadata exp (vx_Result vctx)
      else failedCheck exp "supported expectation kind" kind "unknown validation expectation kind"
  end.
End Checks.

(** ** The aggregate *)
Definition validationError (result : ValidationResult) : SDKError :=
  NewError ErrorValidation "validation" "required output validation failed" None
    [WithMetadata (Some {["failed_count" := itoa (vr_FailedCount result)]})].

Definition failure_of (check : ValidationCheck) : ValidationFailure :=
  mkValidationFailure (vc_ExpectationID check) (vc_Kind check) (vc_Severity check) (vc_Expected check)
    (vc_Observed check) (vc_Detail check) (vc_RepairHint check).

(** The body of the loop over the checks. *)
Definition count_check (result : ValidationResult) (check : ValidationCheck) : ValidationResult :=
  let check := normalizeCheck check in
  if vc_Skipped check then result <| vr_SkippedCount ::= Z.succ |>
  else if vc_Passed check then result <| vr_PassedCount ::= Z.succ |>
  else if severityRequired (vc_Severity check) then
    result <| vr_Passed := false |> <| vr_FailedCount ::= Z.succ |>
           <| vr_Failures ::= fun l => (l ++ [failure_of check])%list |>
  else result <| vr_SkippedCount ::= Z.succ |>.

Definition aggregateValidation (checks : list ValidationCheck) : ValidationResult :=
  let result := foldl count_check (zero <| vr_Passed := true |> <| vr_Checks := checks |>) checks in
  let result := match checks with
                | [] => result <| vr_Skipped := true |> <| vr_SkippedCount := 1%Z |>
                | _ => result end in
  if negb (vr_Passed result) then result <| vr_Errors := [validationError result] |> else result.

(** What [ValidateRun] consults, stamped with the tick of the consultation. *)
Record ValidationEnv := mkValidationEnv {
  ve_fs : nat -> FileSystem;
  ve_ctxErr : nat -> option error
}.

Definition expectation_checks (env : ValidationEnv) (tick : nat) (vctx : ValidationContext)
    (exps : list ValidationExpectation) : list ValidationCheck :=
  imap (fun i exp => validateExpectation (ve_fs env (tick + i)) (ve_ctxErr env (tick + i)) vctx exp) exps.

Definition validator_checks (env : ValidationEnv) (tick : nat) (vctx : ValidationContext)
    (validators : list (option Validator)) : list ValidationCheck :=
  omap id (imap (fun i v =>
    (fun validate : Validator => normalizeCheck (validate (tick + i) (ve_ctxErr env (tick + i)) vctx)) <$> v)
    validators).

Definition ValidateRun (env : ValidationEnv) (tick : nat) (req : RunRequest) (result : RunResult)
    (spec : ValidationSpec) : ValidationResult :=
  let vctx := mkValidationContext req result (req_WorkDir req) in
  aggregateValidation
    (expectation_checks env tick vctx (spec_Expectations spec)
     ++ validator_checks env (tick + length (spec_Expectations spec)) vctx (spec_Validators spec))%list.

(** ** Repair requests *)
Definition defaultRepairPrompt (ctx : RepairContext) : string :=
  foldl (fun b failure =>
      b +:+ String "010" "- " +:+ vf_ExpectationID failure +:+ ": expected " +:+ vf_Expected failure
        +:+ "; observed " +:+ vf_Observed failure
        +:+ (if vf_RepairHint failure =s "" then "" else "; hint " +:+ vf_RepairHint failure))
    ("Repair the previous run output so it satisfies these validation failures. Preserve the existing task intent and update durable artifacts instead of relying on terminal output."
       +:+ String "010" "")
    (vr_Failures (rc_Validation ctx)).

Definition repairRequest (req : RunRequest) (config : RepairConfig) (repairCtx : RepairContext) : RunRequest :=
  let next := req
    <| req_Validation := None |>
    <| req_SessionAction := if negb (cfg_SessionAction config =s "") then cfg_SessionAction config
                            else SessionActionContinue |>
    <| req_SessionID ::= fun id => if id =s "" then res_SessionID (rc_CurrentResult repairCtx) else id |>
    <| req_Prompt := match cfg_BuildPrompt config with
                     | Some build => build repairCtx
                     | None => defaultRepairPrompt repairCtx end |> in
  match cfg_OverrideRequest config with Some f => f repairCtx next | None => next end.

(** ** Errors and metadata *)
Definition contextValidationError (err : option error) : option SDKError :=
  match err with
  | None => None
  | Some ECanceled => Some (NewError ErrorCancellation "validation" "validation run was cancelled" err [])
  | Some EDeadlineExceeded => Some (NewError ErrorTimeout "validation" "validation run timed out" err [])
  | Some e => Some (NewError ErrorUnknown "validation" (error_Error e) err [])
  end.

Definition firstSDKError (primary : option SDKError) (err : option error) : option SDKError :=
  match primary with
  | Some _ => primary
  | None => ensureSDKError err "validation"
  end.

Definition statusForError (err : option SDKError) : RunStatus :=
  match err with
  | Some e => if err_Category e =s ErrorCancellation then StatusCancelled else StatusFailed
  | None => StatusCompleted
  end.

Definition same_error (e e' : SDKError) : bool :=
  (err_Category e =s err_Category e') && (err_Operation e =s err_Operation e')
  && (err_UserDetail e =s err_UserDetail e').

Definition appendSDKError (errors : list SDKError) (err : option SDKError) : list SDKError :=
  match err with
  | None => errors
  | Some err => if existsb (fun existing => same_error existing err) errors then errors
                else (errors ++ [err])%list
  end.

Definition freshRepairFallbackAllowed (err : option SDKError) : bool :=
  match err with
  | None => false
  | Some err => negb (one_of (err_Category err) [ErrorCancellation; ErrorTimeout; ErrorPermission])
  end.

(** The loop over the repair summaries. *)
Definition note_repair (md : RepairMetadata) (repair : RepairAttemptSummary) : RepairMetadata :=
  let md := md <| rm_PermissionPolicyID ::= fun id => if id =s "" then ras_PermissionPolicyID repair else id |> in
  let md := if ras_ErrorCategory repair =s ErrorPermission then md <| rm_PermissionDenied := true |> else md in
  if ras_UnsupportedSession repair then md <| rm_UnsupportedSameSession := true |> else md.

Definition repair_metadata (spec : ValidationSpec) (history : list ValidationResult)
    (repairs : list RepairAttemptSummary) : RepairMetadata :=
  let max := cfg_MaxAttempts (spec_Repair spec) in
  let md := foldl note_repair
    (zero <| rm_Configured := (0 <? max)%Z |>
          <| rm_Attempted := negb (Nat.eqb (length repairs) 0) |>
          <| rm_MaxAttempts := max |> <| rm_Attempts := repairs |>) repairs in
  if (0 <? max)%Z && (max <=? Z.of_nat (length repairs))%Z
     && match last history with Some v => negb (vr_Passed v) | None => false end
  then md <| rm_Exhausted := true |> <| rm_ExhaustedReason := "max repair attempts exhausted" |>
  else md.

Definition withValidationMetadata (result : RunResult) (spec : ValidationSpec)
    (history : list ValidationResult) (repairs : list RepairAttemptSummary) : RunResult :=
  let configured := negb (Nat.eqb (length (spec_Expectations spec)) 0)
                    || negb (Nat.eqb (length (spec_Validators spec)) 0) in
  result <| res_Metadata ::= fun md =>
    md <| md_Validation := mkValidationMetadata configured (default zero (last history)) history |>
       <| md_Repair := repair_metadata spec history repairs |> |>.

(** * Theorems *)

(** ** Diagnostic text *)
Lemma safeDetail_length value : String.length (safeDetail value) <= 243.
Proof.
  unfold safeDetail. destruct (Nat.leb_spec (String.length (strings.TrimSpace value)) 240); [lia|].
  rewrite str_length_app, strings.length_take. change (String.length "...") with 3. lia.
Qed.

Lemma safeDetail_idem value : safeDetail (safeDetail value) = safeDetail value.
Proof.
  unfold safeDetail at 2 3. destruct (Nat.leb_spec (String.length (strings.TrimSpace value)) 240) as [H|H].
  - unfold safeDetail. rewrite strings.TrimSpace_idem. by rewrite (proj2 (Nat.leb_le _ 240)).
  - set (t := strings.take 240 (strings.TrimSpace value)).
    assert (Ht : String.length t = 240) by (subst t; rewrite strings.length_take; lia).
    assert (Hs : strings.starts (t +:+ "...")).
    { subst t. pose proof (strings.TrimSpace_starts value) as Hv.
      destruct (strings.TrimSpace value) as [|c v]; [done|exact Hv]. }
    assert (Hid : strings.TrimSpace (t +:+ "...") = t +:+ "...").
    { unfold strings.TrimSpace. rewrite strings.TrimLeft_id by done. by apply strings.TrimRight_app. }
    unfold safeDetail. rewrite Hid, str_length_app, Ht. cbn [String.length Nat.add Nat.leb].
    rewrite strings.take_app_le by lia. f_equal. apply strings.take_take.
Qed.

Lemma ValidationCheck_eq c c' :
  vc_ExpectationID c = vc_ExpectationID c' -> vc_Kind c = vc_Kind c' -> vc_Severity c = vc_Severity c' ->
  vc_Passed c = vc_Passed c' -> vc_Skipped c = vc_Skipped c' -> vc_Expected c = vc_Expected c' ->
  vc_Observed c = vc_Observed c' -> vc_Detail c = vc_Detail c' -> vc_RepairHint c = vc_RepairHint c' -> c = c'.
Proof. destruct c, c'; cbn. by intros -> -> -> -> -> -> -> -> ->. Qed.

Lemma normalizeCheck_fields c :
  let c' := normalizeCheck c in
  vc_ExpectationID c' = or_else (vc_ExpectationID c) (vc_Kind c') /\
  vc_Kind c' = or_else (vc_Kind c) ExpectationCustom /\
  vc_Severity c' = or_else (vc_Severity c) ExpectationRequired /\
  vc_Passed c' = vc_Passed c /\ vc_Skipped c' = vc_Skipped c /\
  vc_Expected c' = safeDetail (vc_Expected c) /\ vc_Observed c' = safeDetail (vc_Observed c) /\
  vc_Detail c' = safeDetail (vc_Detail c) /\ vc_RepairHint c' = safeDetail (vc_RepairHint c).
Proof. cbv zeta. split_and!; reflexivity. Qed.

Lemma or_else_nonempty s t : t <> "" -> or_else s t <> "".
Proof. unfold or_else. by destruct (String.eqb_spec s ""). Qed.

Lemma or_else_id s t : s <> "" -> or_else s t = s.
Proof. unfold or_else. by destruct (String.eqb_spec s ""). Qed.

(** The text a check carries is bounded and stable: every field of a
    normalised check has at most 243 bytes, and normalising again changes
    nothing, so the aggregate sees the checks as the validators reported them. *)
Theorem normalizeCheck_stable check :
  let c := normalizeCheck check in
  normalizeCheck c = c /\ vc_Severity c <> "" /\ vc_Kind c <> "" /\ vc_ExpectationID c <> "" /\
  vc_Passed c = vc_Passed check /\ vc_Skipped c = vc_Skipped check /\
  Forall (fun s => String.length s <= 243) [vc_Expected c; vc_Observed c; vc_Detail c; vc_RepairHint c].
Proof.
  cbv zeta. destruct (normalizeCheck_fields check) as (Hid & Hk & Hs & Hp & Hsk & He & Ho & Hd & Hr).
  set (c := normalizeCheck check) in *. clearbody c.
  assert (vc_Kind c <> "") by (rewrite Hk; by apply or_else_nonempty).
  assert (vc_Severity c <> "") by (rewrite Hs; by apply or_else_nonempty).
  assert (vc_ExpectationID c <> "") by (rewrite Hid; by apply or_else_nonempty).
  split_and!; try done.
  - destruct (normalizeCheck_fields c) as (Hid' & Hk' & Hs' & Hp' & Hsk' & He' & Ho' & Hd' & Hr').
    apply ValidationCheck_eq; rewrite ?Hid', ?Hk', ?Hs', ?Hp', ?Hsk', ?He', ?Ho', ?Hd', ?Hr';
      rewrite ?or_else_id by done; rewrite ?He, ?Ho, ?Hd, ?Hr, ?safeDetail_idem; done.
  - rewrite He, Ho, Hd, Hr. repeat (apply Forall_cons; split; [apply safeDetail_length|]); done.
Qed.

(** ** Markdown templates *)
Lemma missingInOrder_nil_r l : missingInOrder l [] = l.
Proof. induction l as [|h l IH]; cbn; [done|]. by rewrite IH. Qed.

Lemma advance_Some h observed rest : advance h observed = Some rest -> h :: rest `sublist_of` observed.
Proof.
  induction observed as [|o observed IH]; [done|]. cbn.
  destruct (String.eqb_spec o h) as [->|]; [intros [= ->]; by constructor|].
  intros Ha. apply sublist_cons. by apply IH.
Qed.

Lemma advance_sublist h l observed :
  h :: l `sublist_of` observed -> exists rest, advance h observed = Some rest /\ l `sublist_of` rest.
Proof.
  induction observed as [|o observed IH]; intros H; [by apply sublist_nil_r in H|]. cbn.
  destruct (String.eqb_spec o h) as [->|Hne].
  - exists observed. split; [done|]. apply sublist_cons_l in H as (k1 & k2 & E & Hl).
    destruct k1 as [|x k1]; simplify_eq/=; [done|]. etransitivity; [exact Hl|].
    apply sublist_inserts_l. by apply sublist_cons.
  - apply IH. apply sublist_cons_r in H as [H|(l' & ? & _)]; [done|]. by simplify_eq.
Qed.

Lemma missingInOrder_sublist expected observed :
  (missingInOrder expected observed = [] -> expected `sublist_of` observed) /\
  (expected `sublist_of` observed -> missingInOrder expected observed = []).
Proof.
  revert observed. induction expected as [|h expected IH]; intros observed; cbn.
  { split; [intros _; apply sublist_nil_l|done]. }
  destruct (advance h observed) as [rest|] eqn:E.
  - destruct (IH rest) as [H1 H2]. split.
    + intros Hs. etransitivity; [apply sublist_skip; by apply H1|]. by apply advance_Some.
    + intros Hs. destruct (advance_sublist _ _ _ Hs) as (rest' & E' & Hs'). apply H2. congruence.
  - split; [done|]. intros Hs. destruct (advance_sublist _ _ _ Hs) as (rest' & E' & _). congruence.
Qed.

Lemma missingInOrder_reports expected observed : missingInOrder expected observed `sublist_of` expected.
Proof.
  revert observed. induction expected as [|h expected IH]; intros observed; cbn; [done|].
  destruct (advance h observed); [by apply sublist_cons|by rewrite missingInOrder_nil_r].
Qed.

(** [missingInOrder] reports nothing exactly when the expected headings occur
    among the observed ones in the same order, that is as a subsequence; what
    it reports is a subsequence of the expected headings. *)
Theorem missingInOrder_spec expected observed :
  (missingInOrder expected observed = [] <-> expected `sublist_of` observed) /\
  missingInOrder expected observed `sublist_of` expected.
Proof.
  split; [split; apply missingInOrder_sublist|apply missingInOrder_reports].
Qed.

(** ** The verdict *)

(** A check that fails the run: neither skipped nor passed, and required. *)
Definition blocking (c : ValidationCheck) : bool :=
  negb (vc_Skipped c) && negb (vc_Passed c) && severityRequired (vc_Severity c).
Definition counts_passed (c : ValidationCheck) : bool := negb (vc_Skipped c) && vc_Passed c.

Lemma count_check_cases r c :
  count_check r c =
    if blocking c then
      r <| vr_Passed := false |> <| vr_FailedCount ::= Z.succ |>
        <| vr_Failures ::= fun l => (l ++ [failure_of (normalizeCheck c)])%list |>
    else if counts_passed c then r <| vr_PassedCount ::= Z.succ |>
    else r <| vr_SkippedCount ::= Z.succ |>.
Proof.
  unfold count_check, blocking, counts_passed.
  destruct (normalizeCheck_fields c) as (_ & _ & Hs & -> & -> & _). rewrite Hs.
  assert (severityRequired (or_else (vc_Severity c) ExpectationRequired) = severityRequired (vc_Severity c)) as ->
    by (unfold or_else, severityRequired; destruct (String.eqb_spec (vc_Severity c) "") as [->|E];
        [done|by rewrite (proj2 (String.eqb_neq _ _) E)]).
  destruct (vc_Skipped c), (vc_Passed c); done.
Qed.

Definition count_if {A} (f : A -> bool) (l : list A) : Z := Z.of_nat (length (List.filter f l)).

Lemma count_if_cons {A} (f : A -> bool) x l : count_if f (x :: l) = (count_if f l + if f x then 1 else 0)%Z.
Proof. unfold count_if. cbn. destruct (f x); cbn; lia. Qed.

Lemma count_checks checks r :
  let r' := foldl count_check r checks in
  vr_Passed r' = vr_Passed r && forallb (fun c => negb (blocking c)) checks /\
  vr_Failures r' = (vr_Failures r ++ map (fun c => failure_of (normalizeCheck c)) (List.filter blocking checks))%list /\
  vr_FailedCount r' = (vr_FailedCount r + count_if blocking checks)%Z /\
  vr_PassedCount r' = (vr_PassedCount r + count_if counts_passed checks)%Z /\
  (vr_PassedCount r' + vr_FailedCount r' + vr_SkippedCount r' =
   vr_PassedCount r + vr_FailedCount r + vr_SkippedCount r + Z.of_nat (length checks))%Z /\
  vr_Checks r' = vr_Checks r /\ vr_Skipped r' = vr_Skipped r /\ vr_Errors r' = vr_Errors r.
Proof.
  cbv zeta. revert r. induction checks as [|c checks IH]; intros r.
  { cbn. unfold count_if. cbn. rewrite andb_true_r, app_nil_r. split_and!; try done; lia. }
  cbn [foldl length List.filter forallb]. rewrite !count_if_cons.
  destruct (IH (count_check r c)) as (Hp & Hf & Hfc & Hpc & Hsum & Hc & Hs & He).
  rewrite Hp, Hf, Hfc, Hpc, Hc, Hs, He, count_check_cases. rewrite Hfc, Hpc in Hsum. revert Hsum.
  rewrite count_check_cases.
  assert (blocking c = true -> counts_passed c = false) as Hex
    by (unfold blocking, counts_passed; destruct (vc_Skipped c), (vc_Passed c); done).
  destruct (blocking c); [rewrite Hex by done|destruct (counts_passed c)]; cbn; intros Hsum;
    rewrite ?andb_false_r, <-?app_assoc; split_and!; try done; lia.
Qed.

Lemma severityRequired_severity s : severityRequired (severity s) = severityRequired s.
Proof.
  unfold severityRequired, severity. destruct (String.eqb_spec s "") as [->|E]; [done|].
  by rewrite (proj2 (String.eqb_neq _ _) E).
Qed.

Lemma blocking_normalize c : blocking (normalizeCheck c) = blocking c.
Proof.
  unfold blocking. destruct (normalizeCheck_fields c) as (_ & _ & -> & -> & -> & _).
  by rewrite <-(severityRequired_severity (vc_Severity c)).
Qed.

(** A failed aggregate, and only that, has a blocking check. *)
Lemma aggregate_passed checks :
  (vr_Passed (aggregateValidation checks) = true -> forall c, c ∈ checks -> blocking c = false) /\
  ((forall c, c ∈ checks -> blocking c = false) -> vr_Passed (aggregateValidation checks) = true).
Proof.
  unfold aggregateValidation.
  destruct (count_checks checks (zero <| vr_Passed := true |> <| vr_Checks := checks |>)) as (Hp & _).
  set (r := foldl count_check _ checks) in *. clearbody r. cbn in Hp.
  set (r2 := match checks with [] => _ | _ => r end).
  assert (vr_Passed r2 = vr_Passed r) as E by (by subst r2; destruct checks). clearbody r2.
  assert (vr_Passed r2 = true <-> forall c, c ∈ checks -> blocking c = false) as Hiff.
  { rewrite E, Hp, forallb_forall. setoid_rewrite <-list_elem_of_In. by setoid_rewrite negb_true_iff. }
  destruct (negb (vr_Passed r2)); cbn; split; apply Hiff.
Qed.

(** The aggregate is determined by the checks: it passes exactly when no
    check is blocking, that is required, not skipped and not passed; the
    failures are those of the blocking checks in order, every check is counted
    in exactly one of the three counts, the error is present exactly when
    validation failed, and only an empty list counts as a skipped validation. *)
Theorem aggregateValidation_spec checks :
  let r := aggregateValidation checks in
  (vr_Passed r = true <-> forall c, c ∈ checks -> blocking c = false) /\
  vr_Failures r = map (fun c => failure_of (normalizeCheck c)) (List.filter blocking checks) /\
  vr_FailedCount r = Z.of_nat (length (vr_Failures r)) /\
  vr_PassedCount r = count_if counts_passed checks /\
  (vr_PassedCount r + vr_FailedCount r + vr_SkippedCount r = Z.of_nat (Nat.max 1 (length checks)))%Z /\
  vr_Errors r = (if vr_Passed r then [] else [validationError r]) /\
  (vr_Skipped r = true <-> checks = []) /\ vr_Checks r = checks.
Proof.
  cbv zeta. unfold aggregateValidation.
  set (r0 := zero <| vr_Passed := true |> <| vr_Checks := checks |>).
  destruct (count_checks checks r0) as (Hp & Hf & Hfc & Hpc & Hsum & Hc & Hs & He). cbn in Hp, Hf, Hfc, Hpc, Hsum, Hc, Hs, He.
  set (r1 := foldl count_check r0 checks) in *. clearbody r1. subst r0.
  set (r2 := match checks with [] => _ | _ => r1 end).
  assert (Hr2 : vr_Passed r2 = vr_Passed r1 /\ vr_Failures r2 = vr_Failures r1 /\ vr_FailedCount r2 = vr_FailedCount r1 /\
    vr_PassedCount r2 = vr_PassedCount r1 /\ vr_Checks r2 = vr_Checks r1 /\ vr_Errors r2 = vr_Errors r1 /\
    (vr_Skipped r2 = true <-> checks = []) /\
    (vr_PassedCount r2 + vr_FailedCount r2 + vr_SkippedCount r2 = Z.of_nat (Nat.max 1 (length checks)))%Z).
  { subst r2. destruct checks as [|c l]; cbn in *; rewrite ?Hs; [|split_and!; done || lia].
    rewrite Hpc, Hfc. unfold count_if. cbn. by split_and!. }
  clearbody r2. destruct Hr2 as (Hp2 & Hf2 & Hfc2 & Hpc2 & Hc2 & He2 & Hs2 & Hsum2).
  assert (Hpass : vr_Passed r2 = true <-> forall c, c ∈ checks -> blocking c = false).
  { rewrite Hp2, Hp, forallb_forall. setoid_rewrite <-list_elem_of_In. by setoid_rewrite negb_true_iff. }
  assert (Hlen : vr_FailedCount r2 = Z.of_nat (length (vr_Failures r2)))
    by (rewrite Hfc2, Hf2, Hf, Hfc, length_map; done).
  destruct (vr_Passed r2) eqn:E; cbn; rewrite ?E; split_and!; try done; try (rewrite ?Hf2, ?Hpc2, ?He2, ?Hc2; done).
Qed.

(** What each kind of expectation asks of the result and of the file system. *)
Inductive satisfied (fs : FileSystem) (vctx : ValidationContext) (exp : ValidationExpectation) : Prop :=
| sat_file :
    exp_Kind exp = ExpectationFile ->
    fs_Stat fs (resolvePath (vx_WorkDir vctx) (exp_Path exp)) = Some false -> satisfied fs vctx exp
| sat_directory :
    exp_Kind exp = ExpectationDirectory ->
    fs_Stat fs (resolvePath (vx_WorkDir vctx) (exp_Path exp)) = Some true -> satisfied fs vctx exp
| sat_artifact a :
    exp_Kind exp = ExpectationArtifact ->
    a ∈ (res_Artifacts (vx_Result vctx) ++ md_Artifacts (res_Metadata (vx_Result vctx)))%list ->
    (exp_ArtifactID exp <> "" /\ artf_ID a = exp_ArtifactID exp) \/
    (exp_ArtifactURI exp <> "" /\ artf_URI a = exp_ArtifactURI exp) -> satisfied fs vctx exp
| sat_markdown template artifact :
    exp_Kind exp = ExpectationMarkdownTemplate ->
    fs_ReadFile fs (resolvePath (vx_WorkDir vctx) (exp_TemplatePath exp)) = Some template ->
    fs_ReadFile fs (resolvePath (vx_WorkDir vctx) (exp_Path exp)) = Some artifact ->
    markdownHeadings template <> [] ->
    markdownHeadings template `sublist_of` markdownHeadings artifact ->
    unresolvedTemplateSlots artifact = [] -> satisfied fs vctx exp
| sat_json data value :
    exp_Kind exp = ExpectationJSON ->
    fs_ReadFile fs (resolvePath (vx_WorkDir vctx) (exp_Path exp)) = Some data ->
    json.Unmarshal data = Some value ->
    exp_RequiredFields exp = [] \/
    (exists obj, value = AMap obj /\ forall f, f ∈ exp_RequiredFields exp -> is_Some (map_get obj f)) ->
    satisfied fs vctx exp
| sat_metadata :
    exp_Kind exp = ExpectationMetadata -> exp_MetadataKey exp <> "" ->
    is_Some (md_NativeMetadata (res_Metadata (vx_Result vctx)) ≫= fun m => m !! exp_MetadataKey exp) ->
    satisfied fs vctx exp.

(** The verdict of a built-in check: never skipped, of the expectation's severity. *)
Definition verdict (exp : ValidationExpectation) (ok : Prop) (c : ValidationCheck) : Prop :=
  (vc_Passed c = true <-> ok) /\ vc_Skipped c = false /\ vc_Severity c = severity (exp_Severity exp) /\
  vc_ExpectationID c = expectationID exp.

Lemma verdict_failed exp (P : Prop) expected observed detail :
  ~ P -> verdict exp P (failedCheck exp expected observed detail).
Proof. by intros H. Qed.

Lemma verdict_passed exp (P : Prop) expected observed : P -> verdict exp P (passedCheck exp expected observed).
Proof. by intros H. Qed.

Lemma validatePath_verdict fs exp workDir wantDir :
  verdict exp (fs_Stat fs (resolvePath workDir (exp_Path exp)) = Some wantDir) (validatePath fs exp workDir wantDir).
Proof.
  unfold validatePath. destruct (fs_Stat fs _) as [[]|], wantDir; cbn [negb andb].
  - by apply verdict_passed.
  - by apply verdict_failed.
  - by apply verdict_failed.
  - by apply verdict_passed.
  - by apply verdict_failed.
  - by apply verdict_failed.
Qed.

(** The artifact [a] is one the expectation names. *)
Definition named_artifact (exp : ValidationExpectation) (a : ArtifactRef) : Prop :=
  (exp_ArtifactID exp <> "" /\ artf_ID a = exp_ArtifactID exp) \/
  (exp_ArtifactURI exp <> "" /\ artf_URI a = exp_ArtifactURI exp).

#[global] Instance named_artifact_dec exp : forall a, Decision (named_artifact exp a).
Proof. intros a. unfold named_artifact, ArtifactID. apply _. Defined.

Lemma find_artifact_None exp artifacts :
  find_artifact exp artifacts = None <-> Forall (fun a => ~ named_artifact exp a) artifacts.
Proof.
  induction artifacts as [|a l IH]; cbn; [by split; [constructor|]|]. rewrite Forall_cons.
  destruct (negb (exp_ArtifactID exp =s "") && (artf_ID a =s exp_ArtifactID exp)) eqn:E1.
  { boolify. split; [done|]. intros [Hn _]. destruct Hn. by left. }
  destruct (negb (exp_ArtifactURI exp =s "") && (artf_URI a =s exp_ArtifactURI exp)) eqn:E2.
  { boolify. split; [done|]. intros [Hn _]. destruct Hn. by right. }
  rewrite IH. split; [|by intros [_ ?]]. intros Hl. split; [|done].
  intros [[Hne E]|[Hne E]]; apply String.eqb_neq in Hne; apply String.eqb_eq in E; unfold ArtifactID in *.
  - by rewrite Hne, E in E1.
  - by rewrite Hne, E in E2.
Qed.

Lemma missing_fields_nil fields obj :
  missing_fields fields obj = [] <-> forall f, f ∈ fields -> is_Some (map_get obj f).
Proof.
  unfold missing_fields. split.
  - intros H f Hf. destruct (map_get obj f) eqn:E; [done|].
    assert (f ∈ filter (fun field => map_get obj field = None) fields) as Hin by (by apply list_elem_of_filter).
    rewrite H in Hin. by apply not_elem_of_nil in Hin.
  - intros H. apply elem_of_nil_inv.
    intros f [E Hf]%list_elem_of_filter. destruct (H f Hf). congruence.
Qed.

Lemma markdown_verdict fs exp workDir :
  verdict exp
    (exists template artifact,
       fs_ReadFile fs (resolvePath workDir (exp_TemplatePath exp)) = Some template /\
       fs_ReadFile fs (resolvePath workDir (exp_Path exp)) = Some artifact /\
       markdownHeadings template <> [] /\
       markdownHeadings template `sublist_of` markdownHeadings artifact /\
       unresolvedTemplateSlots artifact = [])
    (validateMarkdownTemplate fs exp workDir).
Proof.
  unfold validateMarkdownTemplate.
  destruct (fs_ReadFile fs (resolvePath workDir (exp_TemplatePath exp))) as [t|];
    [|apply verdict_failed; by intros (? & ? & ? & _)].
  destruct (fs_ReadFile fs (resolvePath workDir (exp_Path exp))) as [a|];
    [|apply verdict_failed; by intros (? & ? & _ & ? & _)].
  destruct (missingInOrder_sublist (markdownHeadings t) (markdownHeadings a)) as [H1 H2].
  destruct (markdownHeadings t) as [|h hs] eqn:Ht.
  { apply verdict_failed. intros (t' & a' & [= <-] & _ & Hne & _). congruence. }
  destruct (missingInOrder (h :: hs) (markdownHeadings a)) eqn:Hm.
  2: { apply verdict_failed. intros (t' & a' & [= <-] & [= <-] & _ & Hs & _). rewrite Ht in Hs. by apply H2 in Hs. }
  destruct (unresolvedTemplateSlots a) eqn:Hu.
  - apply verdict_passed. exists t, a. rewrite Ht. by split_and!; [..|apply H1|].
  - apply verdict_failed. intros (t' & a' & _ & [= <-] & _ & _ & Hs). congruence.
Qed.

Lemma json_verdict fs exp workDir :
  verdict exp
    (exists data value,
       fs_ReadFile fs (resolvePath workDir (exp_Path exp)) = Some data /\ json.Unmarshal data = Some value /\
       (exp_RequiredFields exp = [] \/
        exists obj, value = AMap obj /\ forall f, f ∈ exp_RequiredFields exp -> is_Some (map_get obj f)))
    (validateJSON fs exp workDir).
Proof.
  unfold validateJSON.
  destruct (fs_ReadFile fs _) as [data|]; [|apply verdict_failed; by intros (? & ? & ? & _)].
  destruct (json.Unmarshal data) as [value|] eqn:Hv; [|apply verdict_failed; intros (? & ? & [= <-] & ? & _); congruence].
  destruct (exp_RequiredFields exp) as [|f fs'] eqn:Hf; [apply verdict_passed; eauto 6|].
  assert (Hno : (forall obj, value <> AMap obj) -> verdict exp
    (exists data0 value0, Some data = Some data0 /\ json.Unmarshal data0 = Some value0 /\
       (f :: fs' = [] \/ exists obj, value0 = AMap obj /\ forall g, g ∈ f :: fs' -> is_Some (map_get obj g)))
    (failedCheck exp "JSON object" (json.type_name value) "required fields need a JSON object")).
  { intros Hn. apply verdict_failed. intros (? & v & [= <-] & E & [?|(obj & -> & _)]); [done|].
    rewrite Hv in E. injection E as ->. by apply (Hn obj). }
  destruct value as [| | | | | | | |obj| | | | | | | | | | |]; try (apply Hno; done).
  pose proof (missing_fields_nil (f :: fs') obj) as Hm.
  destruct (missing_fields (f :: fs') obj) eqn:E.
  - apply verdict_passed. exists data, (AMap obj). split_and!; [done..|]. right. exists obj. split; [done|]. by apply Hm.
  - apply verdict_failed. intros (? & v & [= <-] & Ev & [?|(obj' & -> & Hall)]); [done|].
    rewrite Hv in Ev. injection Ev as <-. by apply Hm in Hall.
Qed.

Lemma verdict_iff exp (P Q : Prop) c : (P <-> Q) -> verdict exp P c -> verdict exp Q c.
Proof. intros H (? & ? & ? & ?). split_and!; try done. by rewrite <-H. Qed.

Lemma validateArtifact_verdict exp result :
  verdict exp (Exists (named_artifact exp) (res_Artifacts result ++ md_Artifacts (res_Metadata result))%list)
    (validateArtifact exp result).
Proof.
  unfold validateArtifact.
  pose proof (find_artifact_None exp (res_Artifacts result ++ md_Artifacts (res_Metadata result))%list) as Hn.
  destruct (find_artifact exp _) eqn:E.
  - apply verdict_passed. destruct (decide (Exists (named_artifact exp)
      (res_Artifacts result ++ md_Artifacts (res_Metadata result))%list)) as [|Hne]; [done|].
    apply not_Exists_Forall in Hne; [|apply _]. by apply Hn in Hne.
  - apply verdict_failed. apply Forall_not_Exists. by apply Hn.
Qed.

Lemma validateMetadata_verdict exp result :
  verdict exp (exp_MetadataKey exp <> "" /\ is_Some (md_NativeMetadata (res_Metadata result) ≫= fun m => m !! exp_MetadataKey exp))
    (validateMetadata exp result).
Proof.
  unfold validateMetadata. destruct (String.eqb_spec (exp_MetadataKey exp) "") as [E|E].
  - apply verdict_failed. naive_solver.
  - destruct (md_NativeMetadata (res_Metadata result) ≫= _) eqn:Em.
    + apply verdict_passed. eauto.
    + apply verdict_failed. by intros (_ & ? & ?).
Qed.

(** The cases of [Hs] for other kinds than the one [K] names are contradictory. *)
Ltac other_kinds Hs K :=
  inversion Hs;
  try match goal with H : exp_Kind _ = _ |- _ => rewrite K in H; discriminate H end;
  try match goal with H : _ = exp_Kind _ |- _ => rewrite K in H; discriminate H end.

Lemma validateExpectation_verdict fs ctxErr vctx exp :
  verdict exp (ctxErr = None /\ satisfied fs vctx exp) (validateExpectation fs ctxErr vctx exp).
Proof.
  unfold validateExpectation. destruct ctxErr as [e|]; [apply verdict_failed; by intros (? & _)|].
  destruct (String.eqb_spec (exp_Kind exp) ExpectationFile) as [K|K1].
  { eapply verdict_iff, validatePath_verdict. split; [split; [done|by apply sat_file]|].
    intros [_ Hs]. other_kinds Hs K. done. }
  destruct (String.eqb_spec (exp_Kind exp) ExpectationDirectory) as [K|K2].
  { eapply verdict_iff, validatePath_verdict. split; [split; [done|by apply sat_directory]|].
    intros [_ Hs]. other_kinds Hs K. done. }
  destruct (String.eqb_spec (exp_Kind exp) ExpectationArtifact) as [K|K3].
  { eapply verdict_iff, validateArtifact_verdict. rewrite list.Exists_exists. split.
    - intros (a & Ha & Hn). split; [done|]. by apply (sat_artifact _ _ _ a).
    - intros [_ Hs]. other_kinds Hs K. eauto. }
  destruct (String.eqb_spec (exp_Kind exp) ExpectationMarkdownTemplate) as [K|K4].
  { eapply verdict_iff, markdown_verdict. split.
    - intros (t & a & ? & ? & ? & ? & ?). split; [done|]. by apply (sat_markdown _ _ _ t a).
    - intros [_ Hs]. other_kinds Hs K. eauto 10. }
  destruct (String.eqb_spec (exp_Kind exp) ExpectationJSON) as [K|K5].
  { eapply verdict_iff, json_verdict. split.
    - intros (d & v & ? & ? & ?). split; [done|]. by apply (sat_json _ _ _ d v).
    - intros [_ Hs]. other_kinds Hs K. eauto 10. }
  destruct (String.eqb_spec (exp_Kind exp) ExpectationMetadata) as [K|K6].
  { eapply verdict_iff, validateMetadata_verdict. split.
    - intros [? ?]. split; [done|]. by apply sat_metadata.
    - intros [_ Hs]. other_kinds Hs K. done. }
  apply verdict_failed. intros [_ Hs]. inversion Hs; congruence.
Qed.

Lemma elem_of_omap_imap {A B} (f : nat -> A -> option B) l x :
  x ∈ omap id (imap f l) <-> exists i a, l !! i = Some a /\ f i a = Some x.
Proof.
  rewrite list_elem_of_omap. split.
  - intros (o & Ho & E). cbn in E. subst o. apply list_elem_of_lookup in Ho as [i Hi].
    rewrite list_lookup_imap in Hi. destruct (l !! i) as [a|] eqn:E; simplify_eq/=. eauto.
  - intros (i & a & Hi & E). exists (Some x). split; [|done].
    apply list_elem_of_lookup. exists i. rewrite list_lookup_imap, Hi. cbn. by rewrite E.
Qed.

Lemma elem_of_imap {A B} (f : nat -> A -> B) l x :
  x ∈ imap f l <-> exists i a, l !! i = Some a /\ f i a = x.
Proof.
  rewrite list_elem_of_lookup. setoid_rewrite list_lookup_imap. split.
  - intros (i & Hi). destruct (l !! i) as [a|] eqn:E; simplify_eq/=. eauto.
  - intros (i & a & Hi & <-). exists i. by rewrite Hi.
Qed.

(** C27: a validation pass succeeds exactly when the context is live at, and the
    environment satisfies, every required expectation, and no caller-defined
    validator reports a blocking check; optional expectations never fail it. *)
Theorem ValidateRun_passed_iff env tick req result spec :
  let vctx := mkValidationContext req result (req_WorkDir req) in
  vr_Passed (ValidateRun env tick req result spec) = true <->
  (forall i exp, spec_Expectations spec !! i = Some exp -> severityRequired (exp_Severity exp) = true ->
     ve_ctxErr env (tick + i) = None /\ satisfied (ve_fs env (tick + i)) vctx exp) /\
  (forall i (v : Validator), spec_Validators spec !! i = Some (Some v) ->
     let at_ := tick + length (spec_Expectations spec) + i in
     blocking (v at_ (ve_ctxErr env at_) vctx) = false).
Proof.
  cbv zeta. unfold ValidateRun.
  set (vctx := mkValidationContext req result (req_WorkDir req)).
  destruct (aggregate_passed (expectation_checks env tick vctx (spec_Expectations spec) ++
    validator_checks env (tick + length (spec_Expectations spec)) vctx (spec_Validators spec))%list) as [Ha1 Ha2].
  assert (Hb : forall i exp, spec_Expectations spec !! i = Some exp ->
    blocking (validateExpectation (ve_fs env (tick + i)) (ve_ctxErr env (tick + i)) vctx exp) = false <->
    (severityRequired (exp_Severity exp) = true ->
       ve_ctxErr env (tick + i) = None /\ satisfied (ve_fs env (tick + i)) vctx exp)).
  { intros i exp _. destruct (validateExpectation_verdict (ve_fs env (tick + i)) (ve_ctxErr env (tick + i)) vctx exp)
      as (Hp & Hs & Hsev & _). unfold blocking. rewrite Hs, Hsev, severityRequired_severity, <-Hp. cbn.
    destruct (vc_Passed _), (severityRequired _); cbn; naive_solver. }
  split.
  - intros H. specialize (Ha1 H). setoid_rewrite elem_of_app in Ha1. split.
    + intros i exp Hi. apply (Hb i exp Hi), Ha1. left. apply elem_of_imap. eauto.
    + intros i v Hi. rewrite <-blocking_normalize. apply Ha1. right. apply elem_of_omap_imap.
      exists i, (Some v). split; [done|]. cbn. done.
  - intros [He Hv]. apply Ha2. intros c [Hc|Hc]%elem_of_app.
    + apply elem_of_imap in Hc as (i & exp & Hi & <-). by apply (Hb i exp Hi), He.
    + apply elem_of_omap_imap in Hc as (i & [v|] & Hi & E); [|done]. cbn in E. injection E as <-.
      rewrite blocking_normalize. by apply Hv.
Qed.

(** The fields of a request that carry its authority are the same in both. *)
Definition same_authority (req r : RunRequest) : Prop :=
  req_PermissionPolicy r = req_PermissionPolicy req /\ req_Permissions r = req_Permissions req /\
  req_Sandbox r = req_Sandbox req /\ req_WorkDir r = req_WorkDir req /\
  req_Provider r = req_Provider req /\ req_Model r = req_Model req /\ req_Timeout r = req_Timeout req.

Lemma repairRequest_same_authority req config repairCtx :
  cfg_OverrideRequest config = None ->
  same_authority req (repairRequest req config repairCtx) /\
  req_Validation (repairRequest req config repairCtx) = None.
Proof. intros Ho. unfold repairRequest, same_authority. rewrite Ho. done. Qed.

(** A repair request is the request of the run with a new prompt: unless the
    caller overrides it, it keeps the permission policy, the permission and
    sandbox modes, the working directory, the provider and the model, asks
    for no validation of its own, and continues the session of the failed
    result when the request named none. *)
Theorem repairRequest_keeps_authority req config repairCtx :
  cfg_OverrideRequest config = None ->
  let r := repairRequest req config repairCtx in
  same_authority req r /\ req_Validation r = None /\
  req_SessionAction r = or_else (cfg_SessionAction config) SessionActionContinue /\
  req_SessionID r = or_else (req_SessionID req) (res_SessionID (rc_CurrentResult repairCtx)).
Proof.
  intros Ho. cbv zeta. destruct (repairRequest_same_authority req config repairCtx Ho) as [Ha Hv].
  split; [done|]. split; [done|]. unfold repairRequest, or_else. rewrite Ho. cbn.
  by destruct (cfg_SessionAction config =s "").
Qed.

Lemma repairRequest_keeps_authority_witness :
  let config := mkRepairConfig 1%Z "" false false None None None in
  let req := zero <| req_Sandbox := "read-only" |> in
  same_authority req (repairRequest req config zero).
Proof.
  exact (proj1 (repairRequest_keeps_authority (zero <| req_Sandbox := "read-only" |>)
    (mkRepairConfig 1%Z "" false false None None None) zero eq_refl)).
Defined.
