(* ===== verification/ValidatingRuntime.v ===== *)
(** * The validating runtime: [ValidatingRuntime] and [validationRun] of validation.go

    A run of the wrapped runtime is validated, and repaired by further runs
    while validation fails and the configuration allows it. [validationRun] is
    the handle's state; [vn_runs] is an addition, the log of the requests
    handed to the wrapped runtime and of what came of them. The environment is that of [Environment],
    with the file systems the checks read; the goroutine that forwards the
    events of an inner run is joined before its result is used. *)
From S2P Require Import Prelude GoStd Types Redact Errors Events Json Permissions Policy Environment Validation.
#[local] Open Scope string_scope.

Record validationRun := mkvalidationRun {
  vn_id : RunID;
  vn_runtime : RuntimeRef;
  vn_spec : ValidationSpec;
  vn_original : RunRequest;
  vn_started : Time;
  vn_seq : Z;
  vn_current : option nat;
  vn_result : RunResult;
  vn_waitErr : option SDKError;
  vn_events : list Event;
  vn_done : bool;
  vn_tick : nat;
  vn_runs : list (RunRequest * RunOutcome)
}.
#[global] Instance eta_validationRun : Eta validationRun := fun r =>
  mkvalidationRun (vn_id r) (vn_runtime r) (vn_spec r) (vn_original r) (vn_started r)
    (vn_seq r) (vn_current r) (vn_result r) (vn_waitErr r) (vn_events r) (vn_done r)
    (vn_tick r) (vn_runs r).

Definition vn_starts (r : validationRun) : list RunRequest := map fst (vn_runs r).

Section ValidationRun.
Context (env : RunEnv) (files : nat -> FileSystem).

Definition consult {A} (f : nat -> A) : St validationRun A :=
  fun r => (f (vn_tick r), r <| vn_tick ::= S |>).
Definition now : St validationRun Time := consult (env_now env).

(** ** Events *)
Definition cloneEventPayload (payload : EventPayload) : gmap string any := default ∅ payload.

(** The fields [sendEvent] fills in. An event of another run is taken over,
    and its own run identifier kept in the payload. *)
Definition stamp_event (event : Event) : St validationRun Event :=
  modify (fun r => r <| vn_seq ::= Z.succ |>) ;;
  let* r := get in
  let event := event <| ev_ID ::= fun id =>
    if id =s "" then vn_id r +:+ "-event-" +:+ itoa (vn_seq r) else id |> in
  let event :=
    if (ev_RunID event =s "") || negb (ev_RunID event =s vn_id r) then
      event <| ev_Payload := Some (<["inner_run_id" := AString (ev_RunID event)]>
                               (cloneEventPayload (ev_Payload event))) |>
            <| ev_RunID := vn_id r |>
    else event in
  if time.IsZero (ev_Time event) then
    let* t := now in ret (event <| ev_Time := t |>)
  else ret event.

(** An event that finds the buffer full is dropped without a trace. *)
Definition sendEvent (event : Event) : St validationRun unit :=
  let* event := stamp_event event in
  let* sending := consult (env_send env) in
  match sending with
  | SendDelivered => modify (fun r => r <| vn_events ::= fun l => (l ++ [event])%list |>)
  | SendDiscarded | SendFull => ret tt
  end.

Definition forwardEvents (events : list Event) : St validationRun unit := iterM sendEvent events.

Definition sendLifecycle (result : RunResult) (from to : RunStatus) (reason : string)
    : St validationRun unit :=
  let* at_ := now in
  let* r := get in
  sendEvent (LifecycleEvent (vn_id r) (res_SessionID result) (res_TurnID result)
      (md_Context (res_Metadata result)) 0 at_ from to reason <| ev_ID := "" |>).

Definition validation_event (r : validationRun) (sessionID : SessionID) (type : string)
    (payload : list (string * any)) : Event :=
  zero <| ev_RunID := vn_id r |> <| ev_SessionID := sessionID |> <| ev_Type := type |>
       <| ev_Payload := EventPayloadWithKind EventValidation (Some (list_to_map payload)) |>.

Definition safeFailurePayload (failures : list ValidationFailure) : any :=
  AStringMaps (map (fun f => list_to_map
    [("expectation_id", vf_ExpectationID f); ("kind", vf_Kind f); ("expected", vf_Expected f);
     ("observed", vf_Observed f); ("detail", vf_Detail f); ("repair_hint", vf_RepairHint f)]) failures).

(** ** One inner run *)
Definition setCurrent (run : nat) (r : validationRun) : validationRun := r <| vn_current := Some run |>.
Definition clearCurrent (run : nat) (r : validationRun) : validationRun :=
  if decide (vn_current r = Some run) then r <| vn_current := None |> else r.

(** The error it returns is always the one in the result. *)
Definition startAndWait (req : RunRequest) : St validationRun (RunResult * option SDKError) :=
  let* started := now in
  let* r := get in
  let* outcome := consult (fun tick => env_start env tick (vn_runtime r) req) in
  modify (fun r => r <| vn_runs ::= fun l => (l ++ [(req, outcome)])%list |>) ;;
  match outcome with
  | StartFailed e =>
      let sdkErr := ensureSDKError (Some e) "validation start" in
      let* finished := now in
      ret (zero <| res_RunID := vn_id r |> <| res_Status := StatusFailed |>
                <| res_StartedAt := started |> <| res_FinishedAt := finished |>
                <| res_Err := sdkErr |>, sdkErr)
  | Ran events result waitErr =>
      let run := length (vn_runs r) in
      modify (setCurrent run) ;;
      forwardEvents events ;;
      modify (clearCurrent run) ;;
      let result := match waitErr, res_Err result with
        | Some e, None => result <| res_Err := ensureSDKError (Some e) "validation wait" |>
        | _, _ => result end in
      ret (result, res_Err result)
  end.

(** ** Validation of a result *)
Definition validation_env : ValidationEnv := mkValidationEnv files (env_ctxErr env).

Definition check_count (spec : ValidationSpec) : nat :=
  length (spec_Expectations spec) + length (spec_Validators spec).

Definition run_checks (req : RunRequest) (result : RunResult) : St validationRun ValidationResult :=
  fun r => (ValidateRun validation_env (vn_tick r) req result (vn_spec r),
            r <| vn_tick ::= Nat.add (check_count (vn_spec r)) |>).

Definition validate (req : RunRequest) (result : RunResult) (from : RunStatus)
    : St validationRun (ValidationResult * option SDKError) :=
  sendLifecycle result from StatusValidating "validation started" ;;
  let* r := get in
  sendEvent (validation_event r (res_SessionID result) "validation.started"
    [("phase", AString "started")]) ;;
  let* validation := run_checks req result in
  let* ctxErr := consult (env_ctxErr env) in
  match contextValidationError ctxErr with
  | Some err =>
      sendLifecycle result StatusValidating StatusCancelled "validation cancelled" ;;
      ret (validation, Some err)
  | None =>
      sendEvent (validation_event r (res_SessionID result) "validation.completed"
        [("passed", ABool (vr_Passed validation)); ("passed_count", AInt (vr_PassedCount validation));
         ("failed_count", AInt (vr_FailedCount validation));
         ("skipped_count", AInt (vr_SkippedCount validation));
         ("failures", safeFailurePayload (vr_Failures validation))]) ;;
      sendLifecycle result StatusValidating StatusCompleted "validation completed" ;;
      ret (validation, None)
  end.

(** ** Repair *)
Definition shouldRepair (config : RepairConfig) (ctx : RepairContext) : bool :=
  if (cfg_MaxAttempts config <=? 0)%Z || (cfg_MaxAttempts config <? rc_Attempt ctx)%Z then false
  else match cfg_ShouldRepair config with Some f => f ctx | None => true end.

(** [repairSummary], and the literal it repeats in [runRepair]; [t] is the
    reading of the clock. *)
Definition repairSummary (attempt : Z) (parent : RunID) (req : RunRequest) (started t : Time)
    (result : RunResult) : RepairAttemptSummary :=
  let started := firstTime (res_StartedAt result) started in
  let finished := firstTime (res_FinishedAt result) t in
  zero <| ras_Attempt := attempt |> <| ras_RunID := res_RunID result |>
       <| ras_ParentRunID := parent |> <| ras_Request := attemptRequest req |>
       <| ras_Status := res_Status result |> <| ras_StartedAt := started |>
       <| ras_FinishedAt := finished |> <| ras_Duration := time.Sub finished started |>
       <| ras_Session := md_Session (res_Metadata result) |>
       <| ras_Permissions := md_Permissions (res_Metadata result) |>
       <| ras_Error := res_Err result |>
       <| ras_ErrorCategory := match res_Err result with Some e => err_Category e | None => "" end |>
       <| ras_PermissionPolicyID := permissionPolicyID (req_PermissionPolicy req) |>.

Definition unsupported_continue (req : RunRequest) (result : RunResult) : bool :=
  (sm_Relationship (md_Session (res_Metadata result)) =s SessionRelationshipUnsupported)
  && (req_SessionAction req =s SessionActionContinue).

Definition failed_continue (config : RepairConfig) (req : RunRequest) (err : option SDKError) : bool :=
  match err with Some _ => true | None => false end
  && (req_SessionAction req =s SessionActionContinue)
  && cfg_FreshSessionFallbackOnError config && freshRepairFallbackAllowed err.

Definition unsupported_error (result : RunResult) : SDKError :=
  NewError ErrorRepairExhausted "validation repair" "same-session repair is unsupported" None
    [WithDebugDetail (sm_UnsupportedReason (md_Session (res_Metadata result)))].

(** The second chance of a repair attempt, in a fresh session. *)
Definition fresh_fallback (attempt : Z) (repairReq : RunRequest) (started : Time) (unsupported : bool)
    : St validationRun (RunResult * RepairAttemptSummary * option SDKError) :=
  let fallbackReq := repairReq <| req_SessionAction := SessionActionFresh |> <| req_SessionID := "" |> in
  let* out := startAndWait fallbackReq in
  let* t := now in
  let* r := get in
  let summary := repairSummary attempt (vn_id r) fallbackReq started t out.1
    <| ras_UnsupportedSession := unsupported |>
    <| ras_PolicyDecisionReason :=
         if unsupported then "fresh session fallback after unsupported same-session repair"
         else "fresh session fallback after failed same-session repair" |> in
  ret (out.1, summary, out.2).

(** The outcome of the first run of a repair attempt, and what follows from it. *)
Definition after_repair_run (config : RepairConfig) (attempt : Z) (repairReq : RunRequest) (started : Time)
    (result : RunResult) (summary : RepairAttemptSummary) (err : option SDKError)
    : St validationRun (RunResult * RepairAttemptSummary * option SDKError) :=
  let unsupported := unsupported_continue repairReq result in
  if unsupported || failed_continue config repairReq err then
    if cfg_AllowFreshSessionFallback config then fresh_fallback attempt repairReq started unsupported
    else if unsupported then
      let e := unsupported_error result in
      ret (result <| res_Err := Some e |> <| res_Status := StatusFailed |>,
           summary <| ras_UnsupportedSession := true |> <| ras_Status := StatusFailed |>
                   <| ras_Error := Some e |> <| ras_ErrorCategory := err_Category e |>, Some e)
    else ret (result, summary, err)
  else ret (result, summary, err).

Definition runRepair (req : RunRequest) (repairCtx : RepairContext)
    : St validationRun (RunResult * RepairAttemptSummary * option SDKError) :=
  let* r := get in
  let config := spec_Repair (vn_spec r) in
  let attempt := rc_Attempt repairCtx in
  let repairReq := repairRequest req config repairCtx in
  let current := rc_CurrentResult repairCtx in
  sendLifecycle current StatusValidating StatusRepairing "repair started" ;;
  sendEvent (validation_event r (res_SessionID current) "repair.started" [("attempt", AInt attempt)]) ;;
  let* started := now in
  let* first := startAndWait repairReq in
  let* t := now in
  let summary := repairSummary attempt (vn_id r) repairReq started t first.1 in
  let* out := after_repair_run config attempt repairReq started first.1 summary first.2 in
  let '(result, summary, err) := out in
  match err with
  | Some e =>
      let sdkErr := firstSDKError (res_Err result) (Some (ESDK e)) in
      sendEvent (validation_event r (res_SessionID result) "repair.failed"
        [("attempt", AInt attempt);
         ("error_category", AString (match sdkErr with Some e => err_Category e | None => "" end))]) ;;
      ret (result, summary, sdkErr)
  | None =>
      sendEvent (validation_event r (res_SessionID result) "repair.completed" [("attempt", AInt attempt)]) ;;
      ret (result, summary, None)
  end.

(** ** The end of the run *)
Definition finished_result (r : validationRun) (result : RunResult) (err : option SDKError) : RunResult :=
  let result := result <| res_RunID ::= fun id => if id =s "" then vn_id r else id |>
    <| res_Metadata ::= fun md => md <| md_ParentRunID := vn_id r |> <| md_Status := res_Status result |> |> in
  match err with
  | None => result
  | Some _ =>
      let status := statusForError err in
      result <| res_Err := err |> <| res_Status := status |>
             <| res_Metadata ::= fun md => md <| md_Status := status |>
                  <| md_Errors ::= fun errors => appendSDKError errors err |> |>
  end.

Definition finish (result : RunResult) (err : option SDKError) : St validationRun unit :=
  modify (fun r => r <| vn_result := finished_result r result err |> <| vn_waitErr := err |>).

(** ** The loop of [execute] *)
Inductive pass : Type :=
| Returned
| Again (result : RunResult) (history : list ValidationResult) (repairs : list RepairAttemptSummary).

Definition exhausted_error (max : Z) : SDKError :=
  NewError ErrorRepairExhausted "validation repair" "validation repair attempts exhausted" None
    [WithMetadata (Some {["max_attempts" := itoa max]})].

(** The error of a run that is not repaired any more. *)
Definition final_error (spec : ValidationSpec) (validation : ValidationResult)
    (repairs : list RepairAttemptSummary) : SDKError :=
  let max := cfg_MaxAttempts (spec_Repair spec) in
  if (0 <? max)%Z && (max <=? Z.of_nat (length repairs))%Z then exhausted_error max
  else validationError validation.

(** One iteration: a validation and, when it failed, a repair. *)
Definition execute_pass (attempt : nat) (req : RunRequest) (result : RunResult)
    (history : list ValidationResult) (repairs : list RepairAttemptSummary) : St validationRun pass :=
  let* r := get in
  let spec := vn_spec r in
  let* checked := validate req result (if Nat.eqb attempt 0 then StatusCompleted else StatusRepairing) in
  let '(validation, validationErr) := checked in
  match validationErr with
  | Some _ =>
      let result := result <| res_Status := statusForError validationErr |> <| res_Err := validationErr |> in
      finish (withValidationMetadata result spec history repairs) validationErr ;;
      ret Returned
  | None =>
      let repairs :=
        if negb (Nat.eqb attempt 0) && (attempt <=? length repairs)%nat
        then alter (fun s => s <| ras_Validation := validation |>) (attempt - 1) repairs else repairs in
      let history := (history ++ [validation])%list in
      let result := withValidationMetadata result spec history repairs in
      if vr_Passed validation then
        finish (result <| res_Status := StatusCompleted |> <| res_Err := None |>) None ;;
        ret Returned
      else
        let repairCtx := mkRepairContext (vn_original r) result validation (Z.of_nat attempt + 1)
          (cfg_MaxAttempts (spec_Repair spec)) in
        if negb (shouldRepair (spec_Repair spec) repairCtx) then
          let err := Some (final_error spec validation repairs) in
          let result := result <| res_Status := StatusFailed |> <| res_Err := err |> in
          finish (withValidationMetadata result spec history repairs) err ;;
          ret Returned
        else
          let* repaired := runRepair req repairCtx in
          let '(result, summary, repairErr) := repaired in
          let repairs := (repairs ++ [summary])%list in
          match repairErr with
          | Some _ =>
              let result := result <| res_Status := statusForError repairErr |> <| res_Err := repairErr |> in
              finish (withValidationMetadata result spec history repairs) repairErr ;;
              ret Returned
          | None => ret (Again result history repairs)
          end
  end.

Fixpoint execute_loop (fuel attempt : nat) (req : RunRequest) (result : RunResult)
    (history : list ValidationResult) (repairs : list RepairAttemptSummary) : St validationRun bool :=
  match fuel with
  | O => ret false
  | S fuel =>
      let* next := execute_pass attempt req result history repairs in
      match next with
      | Returned => ret true
      | Again result history repairs => execute_loop fuel (S attempt) req result history repairs
      end
  end.

Definition execute (fuel : nat) : St validationRun bool :=
  let* r := get in
  let req := vn_original r <| req_Validation := None |> in
  let* first := startAndWait req in
  let '(result, err) := first in
  let* returned :=
    match err, res_Err result with
    | None, None => execute_loop fuel 0 req result [] []
    | _, _ => finish result (firstSDKError (res_Err result) (ESDK <$> err)) ;; ret true
    end in
  if returned then modify (fun r => r <| vn_done := true |>) ;; ret true else ret false.
End ValidationRun.

(** ** [ValidatingRuntime] *)
Record ValidatingRuntime := mkValidatingRuntime {
  vrt_Runtime : option RuntimeRef;
  vrt_Spec : ValidationSpec
}.

(** [StartRun]. [specs] is what the pointer in a request points to, [counter]
    the value [validationRunCounter.Add(1)] returned. *)
Definition ValidatingRuntime_StartRun (env : RunEnv) (specs : SpecPtr -> ValidationSpec) (counter : Z)
    (v : ValidatingRuntime) (req : RunRequest) : SDKError + validationRun :=
  match vrt_Runtime v with
  | None => inl (NewError ErrorConfiguration "validation runner" "runtime is required" None [])
  | Some rt =>
      let spec := match req_Validation req with Some p => specs p | None => vrt_Spec v end in
      inr (mkvalidationRun ("validation-" +:+ itoa counter) rt spec req (env_now env 0) 0 None zero None [] false 1 [])
  end.

(** [Wait], once the run is done. *)
Definition validationRun_Wait (ctxErr : option error) (r : validationRun)
    : option (RunResult * option SDKError) :=
  match ctxErr with
  | Some _ => Some (zero, contextValidationError ctxErr)
  | None => if vn_done r then Some (vn_result r, vn_waitErr r) else None
  end.

(** The run as a whole. *)
Definition ValidatingRuntime_run (env : RunEnv) (files : nat -> FileSystem) (specs : SpecPtr -> ValidationSpec)
    (counter : Z) (v : ValidatingRuntime) (req : RunRequest) (fuel : nat) : SDKError + option validationRun :=
  match ValidatingRuntime_StartRun env specs counter v req with
  | inl e => inl e
  | inr r => let '(returned, r) := execute env files fuel r in inr (if returned then Some r else None)
  end.

(** * Theorems *)

(** ** What the steps leave alone *)
Definition core (r : validationRun) : validationRun :=
  r <| vn_seq := 0%Z |> <| vn_current := None |> <| vn_events := [] |> <| vn_tick := 0 |>.

#[local] Abbreviation keeps_core := (keeps core).

Lemma validation_core_fields r r' :
  core r' = core r ->
  vn_id r' = vn_id r /\ vn_spec r' = vn_spec r /\ vn_original r' = vn_original r /\
  vn_starts r' = vn_starts r /\ vn_result r' = vn_result r /\ vn_waitErr r' = vn_waitErr r.
Proof.
  intros E. split_and!; [exact (f_equal vn_id E)|exact (f_equal vn_spec E)|exact (f_equal vn_original E)
    |exact (f_equal (map fst ∘ vn_runs) E)|exact (f_equal vn_result E)|exact (f_equal vn_waitErr E)].
Qed.

(** [r'] is [r] after the requests [reqs] were handed to the runtime. *)
Definition started (reqs : list RunRequest) (r r' : validationRun) : Prop :=
  vn_id r' = vn_id r /\ vn_spec r' = vn_spec r /\ vn_original r' = vn_original r /\
  vn_starts r' = (vn_starts r ++ reqs)%list.

Lemma started_core r r' : core r' = core r -> started [] r r'.
Proof. intros (? & ? & ? & ? & _)%validation_core_fields. unfold started. by rewrite app_nil_r. Qed.

Lemma started_trans l l' r1 r2 r3 : started l r1 r2 -> started l' r2 r3 -> started (l ++ l') r1 r3.
Proof.
  intros (? & ? & ? & E) (? & ? & ? & E'). unfold started. rewrite E', E, <-app_assoc.
  split_and!; congruence.
Qed.

Section Frame.
Context (env : RunEnv) (files : nat -> FileSystem).

Lemma validation_core_consult {A} (f : nat -> A) : keeps_core (consult f).
Proof. intros r0 r H. exact H. Qed.

#[local] Hint Resolve validation_core_consult : agentwrap.

Lemma validation_core_sendEvent e : keeps_core (sendEvent env e).
Proof.
  unfold sendEvent, stamp_event, now.
  apply keeps_bind; [|intros ?; apply keeps_bind; [auto with agentwrap|intros []; auto with agentwrap]].
  apply keeps_bind; [auto with agentwrap|intros _]. apply keeps_bind; [auto with agentwrap|intros r].
  case_match; auto with agentwrap.
Qed.
#[local] Hint Resolve validation_core_sendEvent : agentwrap.

Lemma validation_core_sendLifecycle result from to reason : keeps_core (sendLifecycle env result from to reason).
Proof. unfold sendLifecycle, now. auto with agentwrap. Qed.
#[local] Hint Resolve validation_core_sendLifecycle : agentwrap.

Lemma validation_core_forwardEvents events : keeps_core (forwardEvents env events).
Proof. unfold forwardEvents. auto with agentwrap. Qed.
#[local] Hint Resolve validation_core_forwardEvents : agentwrap.

Lemma validation_core_validate req result from : keeps_core (validate env files req result from).
Proof.
  unfold validate. apply keeps_bind; [auto with agentwrap|intros _]. apply keeps_bind; [auto with agentwrap|intros r].
  apply keeps_bind; [auto with agentwrap|intros _].
  apply keeps_bind; [intros r0 r1 H; exact H|intros v]. apply keeps_bind; [auto with agentwrap|intros ctxErr].
  destruct (contextValidationError ctxErr); auto with agentwrap.
Qed.

Lemma validation_core_clearCurrent run r : core (clearCurrent run r) = core r.
Proof. unfold clearCurrent. by case_decide. Qed.

Lemma startAndWait_spec req r :
  let '((result, err), r') := startAndWait env req r in
  started [req] r r' /\ res_Err result = err.
Proof.
  unfold startAndWait, now, bind at 1, consult at 1, bind at 1, get, bind at 1, consult at 1, bind at 1, modify at 1.
  set (r1 := upd_field vn_runs _ _).
  assert (Hr1 : started [req] r r1) by (unfold started, vn_starts; cbn; by rewrite map_app). clearbody r1.
  destruct (env_start env _ _ req) as [e|events result waitErr].
  - cbn. split; [|done]. rewrite <-(app_nil_r [req]). eapply started_trans; [exact Hr1|by apply started_core].
  - set (result' := match waitErr with Some _ => _ | None => _ end).
    set (m := (modify (setCurrent _) ;; _)).
    assert (Hm : let '((x, y), r') := m r1 in core r' = core r1 /\ x = result' /\ y = res_Err result').
    { subst m. unfold bind at 1, modify at 1, bind at 1. set (r2 := setCurrent _ r1).
      pose proof (keeps_spec _ r2 (validation_core_forwardEvents events)) as E.
      destruct (forwardEvents env events r2) as [[] r3]. split; [|done].
      etransitivity; [apply validation_core_clearCurrent|exact E]. }
    destruct (m r1) as [[x y] r']. destruct Hm as (E & -> & ->). split; [|done].
    rewrite <-(app_nil_r [req]). eapply started_trans; [exact Hr1|by apply started_core].
Qed.

Lemma started_quiet {A} (m : St validationRun A) reqs r0 r1 :
  keeps_core m -> started reqs r0 r1 -> started reqs r0 (m r1).2.
Proof.
  intros Hm H. rewrite <-(app_nil_r reqs). eapply started_trans; [exact H|]. by apply started_core, keeps_spec.
Qed.

(** The requests a repair attempt starts: the repair request, and perhaps the
    same in a fresh session. *)
Definition repair_starts (repairReq : RunRequest) (reqs : list RunRequest) : Prop :=
  reqs = [repairReq] \/
  reqs = [repairReq; repairReq <| req_SessionAction := SessionActionFresh |> <| req_SessionID := "" |>].

Lemma after_repair_run_spec config attempt repairReq t result summary err r :
  res_Err result = err ->
  let '((result', summary', err'), r') := after_repair_run env config attempt repairReq t result summary err r in
  res_Err result' = err' /\ exists reqs, started reqs r r' /\ repair_starts repairReq (repairReq :: reqs) /\
    ((unsupported_continue repairReq result || failed_continue config repairReq err)
       && cfg_AllowFreshSessionFallback config = false -> reqs = []).
Proof.
  intros He. unfold after_repair_run.
  assert (Hnil : exists reqs, started reqs r r /\ repair_starts repairReq (repairReq :: reqs) /\ (forall P : Prop, P -> reqs = []))
    by (exists []; split_and!; [by apply started_core|by left|done]).
  destruct (unsupported_continue repairReq result || failed_continue config repairReq err) eqn:E; cbn [andb].
  2: { destruct Hnil as (l & ? & ? & H). split; [done|]. exists l. split_and!; try done. apply H. }
  destruct (cfg_AllowFreshSessionFallback config).
  - unfold fresh_fallback, bind at 1. set (fallbackReq := upd_field req_SessionID _ _).
    pose proof (startAndWait_spec fallbackReq r) as Hs.
    destruct (startAndWait env fallbackReq r) as [[result1 err1] r1]. destruct Hs as [Hs He1]. cbn.
    split; [exact He1|]. exists [fallbackReq]. split_and!; [|by right|done].
    change [fallbackReq] with ([fallbackReq] ++ [])%list. eapply started_trans; [exact Hs|by apply started_core].
  - destruct Hnil as (l & Hl & Hl' & H).
    destruct (unsupported_continue repairReq result); (split; [done|]); exists l; (split_and!; try done; apply H).
Qed.

Lemma runRepair_spec req ctx r :
  let '((result, summary, err), r') := runRepair env req ctx r in
  res_Err result = err /\ exists reqs, started reqs r r' /\
    repair_starts (repairRequest req (spec_Repair (vn_spec r)) ctx) reqs.
Proof.
  unfold runRepair, bind at 1, get.
  set (config := spec_Repair (vn_spec r)). set (q := repairRequest req config ctx).
  unfold bind at 1.
  pose proof (started_quiet _ [] r r (validation_core_sendLifecycle (rc_CurrentResult ctx) StatusValidating StatusRepairing "repair started")
    (started_core _ _ eq_refl)) as H1.
  destruct (sendLifecycle env _ _ _ _ r) as [[] r1]. cbn [snd] in H1. unfold bind at 1.
  pose proof (started_quiet _ [] r r1 (validation_core_sendEvent (validation_event r (res_SessionID (rc_CurrentResult ctx)) "repair.started"
    [("attempt", AInt (rc_Attempt ctx))])) H1) as H2.
  destruct (sendEvent env _ r1) as [[] r2]. cbn [snd] in H2.
  unfold bind at 1, now at 1, consult at 1. set (r3 := upd_field vn_tick S r2).
  assert (H3 : started [] r r3) by exact H2. clearbody r3.
  unfold bind at 1. pose proof (startAndWait_spec q r3) as Hs.
  destruct (startAndWait env q r3) as [[result1 err1] r4]. destruct Hs as [Hs He].
  unfold bind at 1, now at 1, consult at 1. set (r5 := upd_field vn_tick S r4).
  assert (H5 : started [q] r r5) by exact (started_trans [] [q] _ _ _ H3 Hs). clearbody r5.
  unfold bind at 1.
  set (summary1 := repairSummary _ _ _ _ _ _). set (t := env_now env (vn_tick r2)).
  pose proof (after_repair_run_spec config (rc_Attempt ctx) q t result1 summary1 err1 r5 He) as Ha.
  destruct (after_repair_run env config (rc_Attempt ctx) q t _ summary1 _ r5) as [[[result summary] err] r6].
  destruct Ha as (He' & reqs & Hr & Hstarts & _).
  assert (H6 : started (q :: reqs) r r6) by exact (started_trans [q] reqs _ _ _ H5 Hr).
  assert (Hend : forall x, started (q :: reqs) r (sendEvent env x r6).2)
    by (intros x; by apply started_quiet; [apply validation_core_sendEvent|]).
  destruct err as [e|]; unfold bind.
  - destruct (sendEvent env _ r6) as [[] r7] eqn:E. cbn. split; [by rewrite He'|].
    exists (q :: reqs). split; [|done]. change r7 with ((tt, r7).2). rewrite <-E. apply Hend.
  - destruct (sendEvent env _ r6) as [[] r7] eqn:E. cbn. split; [done|].
    exists (q :: reqs). split; [|done]. change r7 with ((tt, r7).2). rewrite <-E. apply Hend.
Qed.
End Frame.

(** ** How a run ends *)
Definition max_attempts (spec : ValidationSpec) : nat := Z.to_nat (cfg_MaxAttempts (spec_Repair spec)).

Definition unpassed (v : ValidationResult) : Prop := vr_Passed v = false.

(** The passes the metadata of the result records. *)
Definition recorded (r : validationRun) (history : list ValidationResult)
    (repairs : list RepairAttemptSummary) : Prop :=
  vm_History (md_Validation (res_Metadata (vn_result r))) = history /\
  vm_Final (md_Validation (res_Metadata (vn_result r))) = default zero (last history) /\
  md_Repair (res_Metadata (vn_result r)) = repair_metadata (vn_spec r) history repairs.

Inductive ending (r : validationRun) : Prop :=
(** the wrapped run failed, and nothing was validated *)
| end_inner_failed e : vn_waitErr r = Some e -> length (vn_starts r) = 1 -> ending r
(** validation passed, after as many failed passes as repairs *)
| end_passed history v repairs :
    vn_waitErr r = None -> recorded r (history ++ [v]) repairs ->
    Forall unpassed history -> vr_Passed v = true -> length repairs = length history -> ending r
(** validation failed and no repair was allowed any more *)
| end_gave_up history v repairs :
    vn_waitErr r = Some (final_error (vn_spec r) v repairs) -> recorded r (history ++ [v]) repairs ->
    Forall unpassed history -> unpassed v -> length repairs = length history -> ending r
(** the context was done after a pass *)
| end_cancelled history repairs e :
    vn_waitErr r = contextValidationError (Some e) -> recorded r history repairs ->
    Forall unpassed history -> length repairs = length history -> ending r
(** a repair run failed *)
| end_repair_failed history repairs e :
    vn_waitErr r = Some e -> recorded r history repairs ->
    Forall unpassed history -> length repairs = length history -> ending r.

Record ended (r : validationRun) : Prop := {
  end_err : res_Err (vn_result r) = vn_waitErr r;
  end_status : res_Status (vn_result r) = statusForError (vn_waitErr r);
  end_starts : 1 <= length (vn_starts r) <= 1 + 2 * max_attempts (vn_spec r);
  end_how : ending r
}.

(** The run between two passes, after [attempt] repairs. *)
Record repairing (attempt : nat) (result : RunResult) (history : list ValidationResult)
    (repairs : list RepairAttemptSummary) (r : validationRun) : Prop := {
  rep_err : res_Err result = None;
  rep_history : length history = attempt;
  rep_repairs : length repairs = attempt;
  rep_unpassed : Forall unpassed history;
  rep_bound : attempt <= max_attempts (vn_spec r);
  rep_starts : 1 <= length (vn_starts r) <= 1 + 2 * attempt
}.

Lemma finish_fields result err r :
  let '(_, r') := finish result err r in
  vn_waitErr r' = err /\ vn_spec r' = vn_spec r /\ vn_starts r' = vn_starts r /\ vn_id r' = vn_id r /\
  vn_original r' = vn_original r /\
  res_Err (vn_result r') = match err with Some _ => err | None => res_Err result end /\
  res_Status (vn_result r') = match err with Some _ => statusForError err | None => res_Status result end /\
  md_Validation (res_Metadata (vn_result r')) = md_Validation (res_Metadata result) /\
  md_Repair (res_Metadata (vn_result r')) = md_Repair (res_Metadata result).
Proof. unfold finish, modify, finished_result. by destruct err. Qed.

(** [finish] on the metadata of a pass ends the run, in the way [Hhow] says. *)
Lemma finish_ended result spec history repairs err r :
  vn_spec r = spec -> (err = None -> res_Err result = None /\ res_Status result = StatusCompleted) ->
  1 <= length (vn_starts r) <= 1 + 2 * max_attempts spec ->
  (forall r', vn_waitErr r' = err -> vn_spec r' = spec -> recorded r' history repairs -> ending r') ->
  let '(_, r') := finish (withValidationMetadata result spec history repairs) err r in
  ended r' /\ started [] r r'.
Proof.
  intros Hspec Hn Hst Hhow.
  pose proof (finish_fields (withValidationMetadata result spec history repairs) err r) as H.
  destruct (finish _ err r) as [[] r']. destruct H as (Hw & Hs & Hst' & Hid & Ho & He & Hstat & Hv & Hr).
  assert (Hrec : recorded r' history repairs) by (unfold recorded; by rewrite Hv, Hr, Hs, Hspec).
  split; [split|unfold started; rewrite app_nil_r; by split_and!].
  - rewrite He, Hw. destruct err; [done|]. by apply Hn.
  - rewrite Hstat, Hw. destruct err; [done|]. by apply Hn.
  - by rewrite Hst', Hs, Hspec.
  - apply Hhow; congruence.
Qed.

Section Pass.
Context (env : RunEnv) (files : nat -> FileSystem).

Lemma validate_err req result from r :
  let '((v, err), r') := validate env files req result from r in
  core r' = core r /\ exists ctxErr, err = contextValidationError ctxErr.
Proof.
  pose proof (keeps_spec _ r (validation_core_validate env files req result from)) as Hc.
  assert (He : exists ctxErr, (validate env files req result from r).1.2 = contextValidationError ctxErr).
  { unfold validate. repeat (unfold bind at 1; match goal with
      | |- context [let '(a, s') := ?m in _] => destruct m as [? ?] end).
    destruct (contextValidationError _) eqn:E; unfold bind;
      repeat match goal with |- context [let '(a, s') := ?m in _] => destruct m as [? ?] end;
      cbn; rewrite <-E; eauto. }
  destruct (validate env files req result from r) as [[v err] r']. cbn in *. eauto.
Qed.

(** The requests a run starts are repair requests built from [req]. *)
Definition from_repairs (req : RunRequest) (config : RepairConfig) (l : list RunRequest) : Prop :=
  Forall (fun q => exists ctx, q = repairRequest req config ctx \/
    q = repairRequest req config ctx <| req_SessionAction := SessionActionFresh |> <| req_SessionID := "" |>) l.

Lemma repair_starts_from req config ctx reqs :
  repair_starts (repairRequest req config ctx) reqs ->
  from_repairs req config reqs /\ 1 <= length reqs <= 2.
Proof.
  intros [-> | ->]; (split; [|cbn; lia]); unfold from_repairs; rewrite ?Forall_cons, ?Forall_nil; eauto 8.
Qed.

(** The decision after a pass that did not succeed. *)
Lemma shouldRepair_bound config ctx :
  shouldRepair config ctx = true -> (0 < cfg_MaxAttempts config /\ rc_Attempt ctx <= cfg_MaxAttempts config)%Z.
Proof. unfold shouldRepair. destruct (_ || _) eqn:E; [done|]. boolify. lia. Qed.

(** What a pass leads to. *)
Definition pass_outcome (attempt : nat) (req : RunRequest) (r : validationRun) (out : pass * validationRun) : Prop :=
  exists reqs, from_repairs req (spec_Repair (vn_spec r)) reqs /\ started reqs r out.2 /\
  match out.1 with
  | Returned => ended out.2
  | Again result history repairs => repairing (S attempt) result history repairs out.2
  end.

(** A pass that returns, after it started [reqs]. *)
Lemma finish_pass attempt req reqs result history repairs err r r1 :
  started reqs r r1 -> from_repairs req (spec_Repair (vn_spec r)) reqs ->
  (err = None -> res_Err result = None /\ res_Status result = StatusCompleted) ->
  1 <= length (vn_starts r1) <= 1 + 2 * max_attempts (vn_spec r) ->
  (forall r', vn_waitErr r' = err -> vn_spec r' = vn_spec r -> recorded r' history repairs -> ending r') ->
  pass_outcome attempt req r
    ((finish (withValidationMetadata result (vn_spec r) history repairs) err ;; ret Returned) r1).
Proof.
  intros Hs Hfrom Hn Hst Hhow. pose proof Hs as (_ & Hspec & _). rewrite bind_run.
  pose proof (finish_ended result (vn_spec r) history repairs err r1 Hspec Hn Hst Hhow) as Hd.
  destruct (finish _ err r1) as [[] r2]. destruct Hd as [Hend Hs'].
  exists reqs. split; [done|]. split; [|exact Hend].
  rewrite <-(app_nil_r reqs). exact (started_trans reqs [] _ _ _ Hs Hs').
Qed.

(** The repair of a pass that failed. *)
Lemma repair_pass attempt req result v history repairs r r1 max :
  started [] r r1 -> Forall unpassed history -> unpassed v -> length history = attempt ->
  length repairs = attempt -> 1 <= length (vn_starts r) <= 1 + 2 * attempt ->
  let ctx := mkRepairContext (vn_original r) result v (Z.of_nat attempt + 1) max in
  shouldRepair (spec_Repair (vn_spec r)) ctx = true ->
  pass_outcome attempt req r
    ((let* repaired := runRepair env req ctx in
      let '(result, summary, repairErr) := repaired in
      let repairs := (repairs ++ [summary])%list in
      match repairErr with
      | Some _ =>
          finish (withValidationMetadata
            (result <| res_Status := statusForError repairErr |> <| res_Err := repairErr |>)
            (vn_spec r) (history ++ [v])%list repairs) repairErr ;; ret Returned
      | None => ret (Again result (history ++ [v])%list repairs)
      end) r1).
Proof.
  intros H1 Hun Hv Hh Hr Hst ctx Hshould. pose proof H1 as (_ & Hs1 & _).
  apply shouldRepair_bound in Hshould as [Hpos Hle]. cbn in Hle.
  unfold bind at 1. pose proof (runRepair_spec env req ctx r1) as Hrun.
  destruct (runRepair env req ctx r1) as [[[result2 summary] rerr] r2].
  destruct Hrun as (Hres & reqs & H2 & Hstarts). rewrite Hs1 in Hstarts.
  apply repair_starts_from in Hstarts as [Hfrom Hlen].
  pose proof (started_trans [] reqs _ _ _ H1 H2) as H12. pose proof H12 as (_ & Hs2 & _ & Hst2).
  apply (f_equal length) in Hst2. rewrite length_app in Hst2. cbn [app] in Hst2.
  assert (Hmax : S attempt <= max_attempts (vn_spec r)) by (unfold max_attempts; lia).
  destruct rerr as [err|].
  - apply (finish_pass attempt req reqs); [done|done|done|lia|]. intros r' Hw _ Hrec.
    apply (end_repair_failed _ (history ++ [v])%list (repairs ++ [summary])%list err); try done.
    + by apply Forall_snoc.
    + rewrite !length_app. cbn. lia.
  - exists reqs. split; [done|]. split; [exact H12|].
    split; cbn [snd ret]; rewrite ?length_app, ?Hs2; cbn [length]; try done; try lia. by apply Forall_snoc.
Qed.

Lemma execute_pass_spec attempt req result history repairs r :
  repairing attempt result history repairs r ->
  pass_outcome attempt req r (execute_pass env files attempt req result history repairs r).
Proof.
  intros [Herr Hh Hr Hun Hb Hst]. unfold execute_pass, bind at 1, get, bind at 1.
  set (from := if Nat.eqb attempt 0 then _ else _).
  pose proof (validate_err req result from r) as Hv.
  destruct (validate env files req result from r) as [[v verr] r1].
  destruct Hv as (Hcore & ctxErr & Hverr). apply started_core in Hcore as H1.
  pose proof H1 as (_ & Hs1 & _ & Hst1). rewrite app_nil_r in Hst1.
  assert (Hst' : 1 <= length (vn_starts r1) <= 1 + 2 * max_attempts (vn_spec r)) by (rewrite Hst1; lia).
  destruct verr as [err|].
  { destruct ctxErr as [e|]; [|done]. apply (finish_pass attempt req []); try done; [constructor|].
    intros r' Hw _ Hrec. apply (end_cancelled _ history repairs e); [by rewrite Hw, Hverr|done|done|lia]. }
  set (repairs1 := if negb (Nat.eqb attempt 0) && (attempt <=? length repairs)%nat then _ else repairs).
  assert (Hr1 : length repairs1 = attempt)
    by (subst repairs1; case_match; [rewrite length_alter|]; lia).
  clearbody repairs1. destruct (vr_Passed v) eqn:Hpass.
  { change (_ <| res_Status := StatusCompleted |> <| res_Err := None |>) with
      (withValidationMetadata (result <| res_Status := StatusCompleted |> <| res_Err := None |>)
         (vn_spec r) (history ++ [v])%list repairs1).
    apply (finish_pass attempt req []); try done; [constructor|].
    intros r' Hw _ Hrec. apply (end_passed _ history v repairs1); try done. lia. }
  match goal with |- context [shouldRepair _ ?ctx] => destruct (shouldRepair (spec_Repair (vn_spec r)) ctx) eqn:Hshould end;
    cbn [negb].
  - exact (repair_pass attempt req _ v history repairs1 r r1 _ H1 Hun Hpass Hh Hr1 Hst Hshould).
  - apply (finish_pass attempt req []); try done; [constructor|].
    intros r' Hw Hs' Hrec. apply (end_gave_up _ history v repairs1); try done; [by rewrite Hw, Hs'|lia].
Qed.
End Pass.

Section Execute.
Context (env : RunEnv) (files : nat -> FileSystem).

Lemma execute_loop_spec fuel attempt req result history repairs r :
  repairing attempt result history repairs r ->
  let '(returned, r') := execute_loop env files fuel attempt req result history repairs r in
  (returned = true -> ended r') /\
  (max_attempts (vn_spec r) < attempt + fuel -> returned = true) /\
  exists reqs, from_repairs req (spec_Repair (vn_spec r)) reqs /\ started reqs r r'.
Proof.
  revert attempt result history repairs r.
  induction fuel as [|fuel IH]; intros attempt result history repairs r Hr; cbn [execute_loop].
  { split; [done|]. split; [destruct Hr; lia|]. exists []. split; [constructor|by apply started_core]. }
  unfold bind. pose proof (execute_pass_spec env files attempt req result history repairs r Hr) as Hp.
  destruct (execute_pass env files attempt req result history repairs r) as [[|result' history' repairs'] r1];
    destruct Hp as (reqs & Hfrom & Hs & Hp); cbn [fst snd] in Hs, Hp.
  - split_and!; try done. by exists reqs.
  - pose proof (IH (S attempt) result' history' repairs' r1 Hp) as Hloop.
    destruct (execute_loop env files fuel (S attempt) req result' history' repairs' r1) as [returned r2].
    destruct Hloop as (Hend & Hfuel & reqs' & Hfrom' & Hs').
    pose proof Hs as (_ & Hspec & _). rewrite Hspec in *. split; [done|]. split; [intros; apply Hfuel; lia|].
    exists (reqs ++ reqs')%list. split; [by apply Forall_app|]. by eapply started_trans.
Qed.

Lemma execute_spec fuel r :
  vn_starts r = [] ->
  let req := vn_original r <| req_Validation := None |> in
  let '(returned, r') := execute env files fuel r in
  (returned = true -> ended r' /\ vn_done r' = true) /\
  (max_attempts (vn_spec r) < fuel -> returned = true) /\
  vn_spec r' = vn_spec r /\ vn_original r' = vn_original r /\ vn_id r' = vn_id r /\
  exists reqs, from_repairs req (spec_Repair (vn_spec r)) reqs /\ vn_starts r' = req :: reqs.
Proof.
  intros Hst. cbv zeta. unfold execute, bind at 1, get, bind at 1.
  set (req := vn_original r <| req_Validation := None |>).
  pose proof (startAndWait_spec env req r) as Hs.
  destruct (startAndWait env req r) as [[result err] r1]. destruct Hs as [(Hi & Hsp & Ho & Hss) He].
  rewrite Hst in Hss. unfold bind at 1. rewrite He. destruct err as [err|].
  - unfold bind. pose proof (finish_fields result (firstSDKError (Some err) (ESDK <$> Some err)) r1) as Hf.
    destruct (finish result _ r1) as [[] r2]. destruct Hf as (Hw & Hs2 & Hss2 & Hi2 & Ho2 & He2 & Hstat & _).
    cbn in Hw, He2, Hstat |- *.
    assert (Hend : ended (r2 <| vn_done := true |>)).
    { rewrite Hss in Hss2. split; [cbn; congruence|cbn; by rewrite Hstat, Hw|
        change (1 <= length (vn_starts r2) <= 1 + 2 * max_attempts (vn_spec r2)); rewrite Hss2; cbn; lia|].
      apply (end_inner_failed _ err); [done|]. change (length (vn_starts r2) = 1). by rewrite Hss2. }
    rewrite Hss in Hss2. split; [by intros _|]. split_and!; try congruence.
    exists []. by split; [apply List.Forall_nil|].
  - pose proof (execute_loop_spec fuel 0 req result [] [] r1) as Hl.
    destruct (execute_loop env files fuel 0 req result [] [] r1) as [returned r2].
    destruct Hl as (Hend & Hfuel & reqs & Hfrom & Hi2 & Hs2 & Ho2 & Hss2);
      [split; try done; [lia|rewrite Hss; cbn; lia]|].
    rewrite Hsp in *. rewrite Hss in Hss2.
    destruct returned; cbn.
    + assert (Hend' : ended (r2 <| vn_done := true |>)).
      { destruct (Hend eq_refl) as [H1 H2 H3 H4]. split; try done. by inversion H4; [eapply end_inner_failed|
          eapply end_passed|eapply end_gave_up|eapply end_cancelled|eapply end_repair_failed]. }
      split; [by intros _|]. split_and!; try congruence. by exists reqs.
    + split; [done|]. split; [intros Hf; exfalso; assert (false = true) by (apply Hfuel; lia); done|].
      split_and!; try congruence. by exists reqs.
Qed.
End Execute.

Lemma run_spec env files specs counter v req fuel r :
  ValidatingRuntime_run env files specs counter v req fuel = inr (Some r) ->
  let spec := match req_Validation req with Some p => specs p | None => vrt_Spec v end in
  ended r /\ vn_done r = true /\ vn_spec r = spec /\
  exists reqs, from_repairs (req <| req_Validation := None |>) (spec_Repair spec) reqs /\
    vn_starts r = req <| req_Validation := None |> :: reqs.
Proof.
  unfold ValidatingRuntime_run, ValidatingRuntime_StartRun. destruct (vrt_Runtime v) as [rt|]; [|done].
  cbv zeta. set (spec := match req_Validation req with Some p => _ | None => _ end).
  set (r0 := mkvalidationRun _ rt spec req _ _ _ _ _ _ _ _ _).
  pose proof (execute_spec env files fuel r0 eq_refl) as He. cbv zeta in He.
  destruct (execute env files fuel r0) as [[] r1]; [|done]. intros [= <-].
  destruct He as (Hend & _ & Hs & Ho & _ & reqs & Hfrom & Hst). destruct (Hend eq_refl) as [? ?].
  split_and!; try done. by exists reqs.
Qed.

(** C17: a validated run always ends, whatever the environment does: with one
    pass more than the allowed repairs it returns, after at most one run of
    the wrapped runtime and two more for each allowed repair, and [Wait] then
    gives its result and error. *)
Theorem ValidatingRuntime_terminates env files specs counter v rt req fuel :
  vrt_Runtime v = Some rt ->
  let spec := match req_Validation req with Some p => specs p | None => vrt_Spec v end in
  max_attempts spec < fuel ->
  exists r, ValidatingRuntime_run env files specs counter v req fuel = inr (Some r) /\
    1 <= length (vn_starts r) <= 1 + 2 * max_attempts spec /\
    validationRun_Wait None r = Some (vn_result r, vn_waitErr r).
Proof.
  intros Hrt spec Hfuel.
  assert (H : exists r, ValidatingRuntime_run env files specs counter v req fuel = inr (Some r)).
  { unfold ValidatingRuntime_run, ValidatingRuntime_StartRun. rewrite Hrt. fold spec.
    set (r0 := mkvalidationRun _ rt spec req _ _ _ _ _ _ _ _ _).
    pose proof (execute_spec env files fuel r0 eq_refl) as He. cbv zeta in He.
    destruct (execute env files fuel r0) as [returned r1]. destruct He as (_ & Hf & _).
    rewrite Hf by exact Hfuel. by exists r1. }
  destruct H as [r H]. exists r. split; [done|].
  destruct (run_spec _ _ _ _ _ _ _ _ H) as ([_ _ Hst _] & Hdone & Hspec & _).
  unfold validationRun_Wait. rewrite Hdone. rewrite Hspec in Hst. done.
Qed.


(** When validation fails and the configured repairs are used up, the run
    reports exhaustion: the error has category repair_exhausted and the repair
    metadata says so; when no repair was configured the error is the
    validation error and nothing is said to be exhausted. *)
Theorem final_error_exhausted spec history v repairs :
  vr_Passed v = false ->
  let md := repair_metadata spec (history ++ [v]) repairs in
  let max := cfg_MaxAttempts (spec_Repair spec) in
  ((0 < max)%Z -> (max <= Z.of_nat (length repairs))%Z ->
     err_Category (final_error spec v repairs) = ErrorRepairExhausted /\ rm_Exhausted md = true) /\
  ((max <= 0)%Z \/ (Z.of_nat (length repairs) < max)%Z ->
     final_error spec v repairs = validationError v /\ rm_Exhausted md = false).
Proof.
  intros Hv. cbv zeta. unfold final_error, repair_metadata. rewrite last_snoc, Hv.
  set (md0 := foldl note_repair _ repairs).
  assert (Hx : rm_Exhausted md0 = false).
  { subst md0. set (z := upd_field rm_Attempts _ _). assert (rm_Exhausted z = false) as Hz by done. clearbody z.
    revert z Hz. induction repairs as [|x l IH]; intros z Hz; [done|]. cbn [foldl]. apply IH.
    unfold note_repair. by destruct (ras_ErrorCategory x =s ErrorPermission), (ras_UnsupportedSession x). }
  clearbody md0. split.
  - intros Hpos Hle. rewrite (proj2 (Z.ltb_lt _ _) Hpos), (proj2 (Z.leb_le _ _) Hle). done.
  - intros Hno. replace ((0 <? _)%Z && (_ <=? _)%Z) with false; [done|].
    symmetry. apply andb_false_iff. rewrite Z.ltb_ge, Z.leb_gt. lia.
Qed.

(** C15: repair never widens what the agent may do. Unless the caller overrides
    repair requests, every request handed to the wrapped runtime during a
    validated run has the permission policy, permission and sandbox modes,
    working directory, provider, model and timeout of the original request,
    and none asks for validation again. *)
Theorem ValidatingRuntime_keeps_authority env files specs counter v req fuel r :
  ValidatingRuntime_run env files specs counter v req fuel = inr (Some r) ->
  cfg_OverrideRequest (spec_Repair (vn_spec r)) = None ->
  Forall (fun q => same_authority req q /\ req_Validation q = None) (vn_starts r).
Proof.
  intros H Ho. destruct (run_spec _ _ _ _ _ _ _ _ H) as (_ & _ & Hspec & reqs & Hfrom & ->).
  rewrite <-Hspec in Hfrom. constructor; [done|].
  eapply Forall_impl; [exact Hfrom|]. intros q (ctx & Hq).
  destruct (repairRequest_same_authority (req <| req_Validation := None |>) (spec_Repair (vn_spec r)) ctx Ho) as [Ha Hv].
  destruct Hq as [-> | ->]; split; done.
Qed.

(** A repair run that was cancelled, timed out or was denied permission is
    not tried again in a fresh session: its error is the outcome of the repair. *)
Theorem after_repair_run_final env config attempt repairReq t result summary e r :
  unsupported_continue repairReq result = false ->
  err_Category e ∈ [ErrorCancellation; ErrorTimeout; ErrorPermission] ->
  after_repair_run env config attempt repairReq t result summary (Some e) r = ((result, summary, Some e), r).
Proof.
  intros Hu Hc. unfold after_repair_run, failed_continue, freshRepairFallbackAllowed.
  apply one_of_spec in Hc. by rewrite Hu, Hc, !andb_false_r.
Qed.

(** ** Concrete runs

    The run succeeds, the file it should write appears with the first repair. *)
Definition repairing_env : RunEnv :=
  mkRunEnv (fun tick => Z.of_nat (S tick)) None
    (fun _ _ _ => Ran [zero <| ev_Type := "native" |>] (zero <| res_SessionID := "s" |>) None)
    (fun _ _ => None) (fun _ => true) (fun _ => true).

Definition late_file (tick : nat) : FileSystem :=
  mkFileSystem (fun path => if (path =s "/w/out.md") && (20 <? tick)%nat then Some false else None)
    (fun _ => None) (fun _ => "").

Definition out_file_spec : ValidationSpec :=
  mkValidationSpec [zero <| exp_Kind := ExpectationFile |> <| exp_Path := "out.md" |>] []
    (mkRepairConfig 1%Z "" false false None None None).

Abbreviation repaired_run :=
  (ValidatingRuntime_run repairing_env late_file (fun _ => out_file_spec) 3%Z
     (mkValidatingRuntime (Some 1%positive) out_file_spec) (zero <| req_WorkDir := "/w" |>) 2).

Example repaired_run_result :
  match repaired_run with
  | inr (Some r) =>
      (vn_waitErr r, res_Status (vn_result r), map vr_Passed (vm_History (md_Validation (res_Metadata (vn_result r)))),
       map req_SessionAction (vn_starts r), map ev_Type (vn_events r))
      = (None, "completed", [false; true], [""; "continue"],
         ["native"; "lifecycle.transition"; "validation.started"; "validation.completed"; "lifecycle.transition";
          "lifecycle.transition"; "repair.started"; "native"; "repair.completed"; "lifecycle.transition";
          "validation.started"; "validation.completed"; "lifecycle.transition"])
  | _ => False
  end.
Proof. vm_compute. reflexivity. Qed.

Lemma repaired_run_returns : match repaired_run with inr (Some _) => true | _ => false end = true.
Proof. vm_compute. reflexivity. Qed.

Lemma ValidatingRuntime_terminates_witness :
  exists r, repaired_run = inr (Some r) /\ 1 <= length (vn_starts r) <= 3 /\
    validationRun_Wait None r = Some (vn_result r, vn_waitErr r).
Proof.
  exact (ValidatingRuntime_terminates repairing_env late_file (fun _ => out_file_spec) 3%Z
    (mkValidatingRuntime (Some 1%positive) out_file_spec) 1%positive (zero <| req_WorkDir := "/w" |>) 2
    eq_refl ltac:(apply Nat.ltb_lt; vm_compute; reflexivity)).
Defined.


Lemma repaired_run_no_override :
  match repaired_run with
  | inr (Some r) => cfg_OverrideRequest (spec_Repair (vn_spec r)) = None
  | _ => True
  end.
Proof. vm_compute. reflexivity. Qed.

Lemma ValidatingRuntime_keeps_authority_witness :
  match repaired_run with
  | inr (Some r) => Forall (fun q => same_authority (zero <| req_WorkDir := "/w" |>) q /\ req_Validation q = None) (vn_starts r)
  | _ => False
  end.
Proof.
  pose proof repaired_run_returns as H. pose proof repaired_run_no_override as Ho.
  destruct repaired_run as [|[r|]] eqn:E; [discriminate H| |discriminate H].
  exact (ValidatingRuntime_keeps_authority repairing_env late_file (fun _ => out_file_spec) 3%Z
    (mkValidatingRuntime (Some 1%positive) out_file_spec) (zero <| req_WorkDir := "/w" |>) 2 r E Ho).
Defined.

Lemma final_error_exhausted_witness :
  err_Category (final_error out_file_spec zero [zero]) = ErrorRepairExhausted.
Proof.
  exact (proj1 (proj1 (final_error_exhausted out_file_spec [] zero [zero] eq_refl) eq_refl ltac:(cbn; lia))).
Defined.

Definition idle_run : validationRun :=
  mkvalidationRun "validation-1" 1%positive out_file_spec zero 0%Z 0%Z None zero None [] false 0 [].

Lemma after_repair_run_final_witness :
  after_repair_run repairing_env (mkRepairConfig 1%Z "" true true None None None) 1%Z
    (zero <| req_SessionAction := SessionActionContinue |>) 0%Z zero zero
    (Some (NewError ErrorPermission "run" "denied" None [])) idle_run
  = ((zero, zero, Some (NewError ErrorPermission "run" "denied" None [])), idle_run).
Proof. apply after_repair_run_final; [reflexivity|apply one_of_spec; reflexivity]. Defined.
