(* ===== verification/Clone.v ===== *)
(** * Clones of payloads: [clonePayload] of observability.go

    The observer and the store keep copies of event payloads. A payload holds
    values of any type, with pointers, maps and slices that others may hold
    too, so the copy is modelled with the heap: what it shares with the
    original is what matters. [readback] is the value seen from outside, as a
    tree; the theorem says that a clone reads as the original did and goes on
    doing so, whatever happens to the memory the original lived in. *)
From S2P Require Import Prelude.

#[local] Set Warnings "-register-all".
Section Clone.
(** The values of the kinds that are returned as they are: booleans, numbers,
    strings, channels, functions. *)
Context {Basic : Type}.

Abbreviation loc := positive.

(** What [reflect.Value] distinguishes. A struct is its fields, each with
    whether it is exported and can be set; a slice is an array in memory, an
    offset and a length. *)
Inductive val : Type :=
| VInvalid
| VBasic (b : Basic)
| VInterface (v : option val)
| VPointer (l : option loc)
| VMap (l : option loc)
| VSlice (s : option (loc * nat * nat))
| VArray (elements : list val)
| VStruct (fields : list (bool * val)).

Inductive cell : Type :=
| CValue (v : val)
| CMap (entries : list (val * val))
| CArray (elements : list val).

Abbreviation heap := (gmap loc cell).

(** ** Programs on the heap; [None] is a recursion deeper than the fuel. *)
Definition M (A : Type) : Type := heap -> option (A * heap).
Definition done_ {A} (a : A) : M A := fun h => Some (a, h).
Definition then_ {A B} (m : M A) (k : A -> M B) : M B :=
  fun h => match m h with Some (a, h) => k a h | None => None end.
Definition read (l : loc) : M (option cell) := fun h => Some (h !! l, h).
Definition alloc (c : cell) : M loc := fun h => let l := fresh (dom h) in Some (l, <[l := c]> h).
Definition update (l : loc) (f : cell -> cell) : M unit := fun h => Some (tt, alter f l h).

#[local] Notation "x <- m ; k" := (then_ m (fun x => k)) (at level 100, m at next level, right associativity).

(** [Set] into a slot: the value takes the interface type of the slot back. *)
Definition assign (slot v : val) : val := match slot with VInterface (Some _) => VInterface (Some v) | _ => v end.

Definition settable (fields : list (bool * val)) : bool := forallb fst fields.

(** The elements of a slice. *)
Definition slice_elements (c : option cell) (offset len : nat) : list val :=
  match c with Some (CArray elements) => take len (drop offset elements) | _ => [] end.

(** The loop over the entries of a map: each entry that [step] makes goes into
    the map at [target]. *)
Fixpoint fill (step : val * val -> M (val * val)) (target : loc) (entries : list (val * val)) : M unit :=
  match entries with
  | [] => done_ tt
  | entry :: entries =>
      entry' <- step entry;
      _ <- update target (fun c => match c with CMap done => CMap (done ++ [entry']) | c => c end);
      fill step target entries
  end.

Section Loops.
Context (clone : val -> M val).

(** The loops over the elements of an array, the entries of a map and the
    elements of a slice. *)
Fixpoint clone_elements (l : list val) : M (list val) :=
  match l with
  | [] => done_ []
  | v :: l => v' <- clone v; l' <- clone_elements l; done_ (assign v v' :: l')
  end.

Definition clone_entry (entry : val * val) : M (val * val) :=
  k' <- clone entry.1; v' <- clone entry.2; done_ (assign entry.1 k', assign entry.2 v').

Fixpoint fill_slice (target : loc) (i : nat) (elements : list val) : M unit :=
  match elements with
  | [] => done_ tt
  | v :: elements =>
      v' <- clone v;
      _ <- update target (fun c => match c with CArray vs => CArray (<[i := assign v v']> vs) | c => c end);
      fill_slice target (S i) elements
  end.
End Loops.

(** The loop over the fields of a struct: [None] at the first field that cannot
    be set. *)
Fixpoint clone_fields (clone : val -> M val) (fields : list (bool * val)) : M (option (list val)) :=
  match fields with
  | [] => done_ (Some [])
  | (false, _) :: _ => done_ None
  | (true, v) :: fields =>
      v' <- clone v; rest <- clone_fields clone fields;
      done_ (match rest with Some l => Some (assign v v' :: l) | None => None end)
  end.

(** [cloneReflectValue]. A struct with a field that cannot be set is returned
    itself, and the clones made of its earlier fields are dropped. *)
Fixpoint cloneReflectValue (fuel : nat) (value : val) : M val :=
  match fuel with
  | O => fun _ => None
  | S fuel =>
      match value with
      | VInvalid | VBasic _ => done_ value
      | VInterface None | VPointer None | VMap None | VSlice None => done_ value
      | VInterface (Some v) => cloneReflectValue fuel v
      | VPointer (Some l) =>
          c <- read l;
          match c with
          | Some (CValue v) =>
              cloned <- cloneReflectValue fuel v;
              l' <- alloc (CValue (assign v cloned));
              done_ (VPointer (Some l'))
          | _ => done_ value
          end
      | VMap (Some l) =>
          c <- read l;
          match c with
          | Some (CMap entries) =>
              l' <- alloc (CMap []);
              _ <- fill (clone_entry (cloneReflectValue fuel)) l' entries;
              done_ (VMap (Some l'))
          | _ => done_ value
          end
      | VSlice (Some (l, offset, len)) =>
          c <- read l;
          let elements := slice_elements c offset len in
          l' <- alloc (CArray (replicate len VInvalid));
          _ <- fill_slice (cloneReflectValue fuel) l' 0 elements;
          done_ (VSlice (Some (l', 0, len)))
      | VArray elements =>
          elements' <- clone_elements (cloneReflectValue fuel) elements;
          done_ (VArray elements')
      | VStruct fields =>
          values <- clone_fields (cloneReflectValue fuel) fields;
          match values with
          | Some values => done_ (VStruct (zip fields.*1 values))
          | None => done_ value
          end
      end
  end.

(** [clonePayloadValue]: the nil interface, and values that are not valid. *)
Definition clonePayloadValue (fuel : nat) (value : option val) : M (option val) :=
  match value with
  | None => done_ None
  | Some v =>
      cloned <- cloneReflectValue fuel v;
      match cloned with VInvalid => done_ None | _ => done_ (Some cloned) end
  end.

(** [clonePayload]: a map from names to values of type [any]. *)
Definition payload_entry (fuel : nat) (entry : val * val) : M (val * val) :=
  value' <- clonePayloadValue fuel (match entry.2 with VInterface v => v | v => Some v end);
  done_ (entry.1, VInterface value').

Definition clonePayload (fuel : nat) (src : option loc) : M (option loc) :=
  match src with
  | None => done_ None
  | Some l =>
      c <- read l;
      match c with
      | Some (CMap ((_ :: _) as entries)) =>
          dst <- alloc (CMap []);
          _ <- fill (payload_entry fuel) dst entries;
          done_ (Some dst)
      | _ => done_ None
      end
  end.

(** [cloneAnyMap], with which the store copies the native metadata of a record:
    a new map with the same values in it. *)
Definition shallow_clone (src : option loc) : M (option loc) :=
  match src with
  | None => done_ None
  | Some l =>
      c <- read l;
      dst <- alloc (CMap (match c with Some (CMap entries) => entries | _ => [] end));
      done_ (Some dst)
  end.

(** ** What a value reads as *)
Inductive tree : Type :=
| TInvalid
| TBasic (b : Basic)
| TNil
| TPointer (t : tree)
| TMap (entries : list (tree * tree))
| TSlice (elements : list tree)
| TArray (elements : list tree)
| TStruct (fields : list (bool * tree))
| TOpaque (fields : list (bool * val)).

(** The fields before the first that cannot be set. *)
Fixpoint exported (fields : list (bool * val)) : list val :=
  match fields with (true, v) :: fields => v :: exported fields | _ => [] end.

(** The value to the depth of the fuel; [None] if it is deeper, or dangling. An
    interface reads as what it holds; what is behind the pointers of a struct
    with unexported fields is its own business, except that [whole] asks that
    the fields the code visits can be read as well. *)
Fixpoint readback (whole : bool) (fuel : nat) (h : heap) (v : val) : option tree :=
  match fuel with
  | O => None
  | S fuel =>
      match v with
      | VInvalid => Some TInvalid
      | VBasic b => Some (TBasic b)
      | VInterface None | VPointer None | VMap None | VSlice None => Some TNil
      | VInterface (Some v) => readback whole fuel h v
      | VPointer (Some l) => match h !! l with Some (CValue v) => TPointer <$> readback whole fuel h v | _ => None end
      | VMap (Some l) =>
          match h !! l with
          | Some (CMap entries) =>
              TMap <$> mapM (fun '(k, v) => match readback whole fuel h k, readback whole fuel h v with
                                            | Some k, Some v => Some (k, v) | _, _ => None end) entries
          | _ => None
          end
      | VSlice (Some (l, offset, len)) =>
          match h !! l with
          | Some (CArray elements) =>
              if offset + len <=? length elements
              then TSlice <$> mapM (readback whole fuel h) (take len (drop offset elements)) else None
          | _ => None
          end
      | VArray elements => TArray <$> mapM (readback whole fuel h) elements
      | VStruct fields =>
          if settable fields
          then (fun ts => TStruct (zip fields.*1 ts)) <$> mapM (readback whole fuel h) fields.*2
          else if whole then (fun _ => TOpaque fields) <$> mapM (readback whole fuel h) (exported fields)
          else Some (TOpaque fields)
      end
  end.

(** * Theorems *)

Lemma mapM_impl {A B} (f g : A -> option B) l k :
  (forall x y, f x = Some y -> g x = Some y) -> mapM f l = Some k -> mapM g l = Some k.
Proof. intros H. rewrite !mapM_Some. intros Hl. eapply Forall2_impl; [exact Hl|]. auto. Qed.

(** More fuel and more memory do not change what a value reads as. *)
Lemma readback_mono w f f' h h' v t : f <= f' -> h ⊆ h' -> readback w f h v = Some t -> readback w f' h' v = Some t.
Proof.
  intros Hf Hh. revert f' Hf v t. induction f as [|f IH]; intros f' Hf v t; [done|].
  destruct f' as [|f']; [lia|]. assert (f <= f') as Hle by lia. specialize (IH f' Hle). cbn [readback].
  destruct v as [|b|[u|]|[l|]|[l|]|[[[l off] len]|]|elements|fields]; try done.
  - apply IH.
  - destruct (h !! l) as [c|] eqn:E; [|done]. rewrite (lookup_weaken _ _ _ _ E Hh). destruct c; try done.
    destruct (readback w f h v) as [x|] eqn:E'; [|done]. by rewrite (IH _ _ E').
  - destruct (h !! l) as [c|] eqn:E; [|done]. rewrite (lookup_weaken _ _ _ _ E Hh). destruct c as [|entries|]; try done.
    intros (ts & Hts & ->)%fmap_Some. erewrite mapM_impl; [reflexivity| |exact Hts].
    intros [k u] [tk tu]. cbn. destruct (readback w f h k) eqn:Ek; [|done]. destruct (readback w f h u) eqn:Eu; [|done].
    by rewrite (IH _ _ Ek), (IH _ _ Eu).
  - destruct (h !! l) as [c|] eqn:E; [|done]. rewrite (lookup_weaken _ _ _ _ E Hh). destruct c as [| |elements]; try done.
    destruct (_ <=? _); [|done]. intros (ts & Hts & ->)%fmap_Some. by erewrite mapM_impl; [|exact IH|exact Hts].
  - intros (ts & Hts & ->)%fmap_Some. by erewrite mapM_impl; [|exact IH|exact Hts].
  - destruct (settable fields); [|destruct w; [|done]];
      intros (ts & Hts & ->)%fmap_Some; by erewrite mapM_impl; [|exact IH|exact Hts].
Qed.

(** The memory [h''] has what was allocated between [h] and [h']. *)
Definition has_new (h h' h'' : heap) : Prop := forall l, l ∉ dom h -> l ∈ dom h' -> h'' !! l = h' !! l.

Lemma has_new_but l h h1 h' h'' : l ∈ dom h \/ l ∉ dom h1 -> delete l h1 ⊆ h' -> has_new h h' h'' -> has_new h h1 h''.
Proof.
  intros Hl H2 H j Hj Hd. apply elem_of_dom in Hd as [c Hc].
  assert (j <> l) as Hne by (intros ->; destruct Hl as [?|Hl]; [done|]; apply Hl, elem_of_dom; eauto).
  assert (h' !! j = Some c) as Hj' by (eapply lookup_weaken; [|exact H2]; by rewrite lookup_delete_ne).
  rewrite Hc, <-Hj'. apply H; [done|]. apply elem_of_dom. by exists c.
Qed.

Lemma has_new_l h h1 h' h'' : h1 ⊆ h' -> has_new h h' h'' -> has_new h h1 h''.
Proof.
  intros H2 H l Hl Hd. apply elem_of_dom in Hd as [c Hc]. pose proof (lookup_weaken _ _ _ _ Hc H2) as Hc'.
  rewrite Hc, <-Hc'. apply H; [done|]. apply elem_of_dom. by exists c.
Qed.

Lemma has_new_r h h1 h' h'' : dom h ⊆ dom h1 -> has_new h h' h'' -> has_new h1 h' h''.
Proof. intros H1 H l Hl. apply H. intros Hd. by apply Hl, H1. Qed.

Definition read_pair (w : bool) (f : nat) (h : heap) (e : val * val) : option (tree * tree) :=
  match readback w f h e.1, readback w f h e.2 with Some k, Some v => Some (k, v) | _, _ => None end.

Lemma read_pair_mono w f h h' e t : h ⊆ h' -> read_pair w f h e = Some t -> read_pair w f h' e = Some t.
Proof.
  intros Hh. unfold read_pair. destruct (readback w f h e.1) as [k|] eqn:Ek; [|done].
  destruct (readback w f h e.2) as [v|] eqn:Ev; [|done].
  by rewrite (readback_mono w f f h h' _ _ (le_n f) Hh Ek), (readback_mono w f f h h' _ _ (le_n f) Hh Ev).
Qed.

(** Filling a map with entries that [step] makes of readable ones. *)
Section Fill.
Context (f : nat) (step : val * val -> M (val * val)) (good : val * val -> tree * tree -> Prop).
Context (Hstep : forall h e t, read_pair true f h e = Some t -> good e t ->
  exists e' h', step e h = Some (e', h') /\ h ⊆ h' /\ forall h'', has_new h h' h'' -> read_pair false f h'' e' = Some t).

Lemma fill_spec l entries h0 h before ts :
  h0 ⊆ h -> l ∉ dom h0 -> h !! l = Some (CMap before) -> mapM (read_pair true f h0) entries = Some ts -> Forall2 good entries ts ->
  exists after h', fill step l entries h = Some (tt, h') /\
    h' !! l = Some (CMap (before ++ after)) /\ delete l h ⊆ h' /\
    forall h'', has_new h h' h'' -> mapM (read_pair false f h'') after = Some ts.
Proof.
  intros H0 Hl0. revert h before ts H0. induction entries as [|e entries IH]; intros h before ts H0 Hl.
  { intros [= <-] _. exists [], h. rewrite app_nil_r. split; [done|]. split; [done|]. split; [apply delete_subseteq|done]. }
  rewrite mapM_Some. intros (t & ts' & He & Hent & ->)%Forall2_cons_inv_l [Hg Hgs]%Forall2_cons. apply mapM_Some in Hent.
  destruct (Hstep h e t (read_pair_mono true f h0 h e t H0 He) Hg) as (e' & h1 & E1 & Hh1 & Hr1).
  assert (h1 !! l = Some (CMap before)) as Hl1 by (by eapply lookup_weaken).
  set (h2 := <[l := CMap (before ++ [e'])]> h1).
  assert (h0 ⊆ h2) as H2 by (apply insert_subseteq_r; [by apply not_elem_of_dom|by etrans]).
  destruct (IH h2 (before ++ [e'])%list ts' H2 (lookup_insert_eq _ _ _) Hent Hgs) as (after & h' & E2 & Hl' & Hh2 & Hr2).
  assert (delete l h1 ⊆ h') as Hh1' by (etrans; [|exact Hh2]; unfold h2; by rewrite delete_insert_eq).
  exists (e' :: after), h'. cbn [fill]. unfold then_, update. rewrite E1.
  assert (alter (fun c => match c with CMap done => CMap (done ++ [e']) | c => c end) l h1 = h2) as ->.
  { unfold h2. apply map_eq. intros j. destruct (decide (j = l)) as [->|Hj].
    - by rewrite lookup_alter_eq, lookup_insert_eq, Hl1.
    - by rewrite lookup_alter_ne, lookup_insert_ne. }
  split; [exact E2|]. rewrite Hl', <-app_assoc. split; [done|]. split; [etrans; [|exact Hh1']; by apply delete_mono|].
  intros h'' Hn. apply mapM_Some. constructor; [|apply mapM_Some].
  - apply Hr1. eapply (has_new_but l); [left; apply elem_of_dom; eauto|exact Hh1'|exact Hn].
  - apply Hr2. eapply has_new_r; [|exact Hn]. unfold h2. rewrite dom_insert.
    assert (dom h ⊆ dom h1) by (by apply subseteq_dom). set_solver.
Qed.
End Fill.

(** Cloning with the fuel [f] works for every value that can be read with it. *)
Definition clones (f : nat) : Prop := forall v h t, readback true f h v = Some t ->
  exists v' h', cloneReflectValue f v h = Some (v', h') /\ h ⊆ h' /\
    forall h'', has_new h h' h'' -> readback false f h'' (assign v v') = Some t.

Lemma alloc_spec h c : alloc c h = Some (fresh (dom h), (<[fresh (dom h) := c]> h)) /\ (fresh (dom h) ∉ dom h) /\
  h ⊆ (<[fresh (dom h) := c]> h).
Proof.
  split; [done|]. assert (fresh (dom h) ∉ dom h) as H by apply is_fresh. split; [done|].
  by apply insert_subseteq, not_elem_of_dom.
Qed.

(** The last cell allocated is new memory. *)
Lemma has_new_cell l h h1 c h'' : l ∉ dom h -> has_new h (<[l := c]> h1) h'' -> h'' !! l = Some c.
Proof. intros Hl Hn. rewrite Hn; [by apply lookup_insert_eq|done|]. rewrite dom_insert. set_solver. Qed.

(** A cell was allocated and then filled. *)
Lemma filled_new (l : loc) (h : heap) (c : cell) (h' : heap) : l ∉ dom h -> delete l (<[l := c]> h) ⊆ h' -> h ⊆ h'.
Proof. intros Hl. rewrite delete_insert_eq, delete_id by (by apply not_elem_of_dom). done. Qed.

Lemma has_new_filled (l : loc) (h : heap) (c : cell) (h' h'' : heap) : has_new h h' h'' -> has_new (<[l := c]> h) h' h''.
Proof. apply has_new_r. rewrite dom_insert. set_solver. Qed.

Lemma has_new_lookup (l : loc) (h h' h'' : heap) (c : cell) : l ∉ dom h -> h' !! l = Some c -> has_new h h' h'' -> h'' !! l = Some c.
Proof. intros Hl Hc Hn. rewrite Hn; [done|done|]. apply elem_of_dom. by exists c. Qed.

(** A clone put into an interface slot reads as the value did. *)
Lemma assign_reads w f h v v' t : readback w f h (assign v v') = Some t -> readback w f h v' = Some t.
Proof.
  destruct v as [| |[u|]| | | | |]; try done. cbn [assign]. destruct f as [|f']; [done|].
  intros H. apply (readback_mono w f' (S f') h h v' t); [lia|done|exact H].
Qed.

Section Step.
Context (f : nat) (Hf : clones f).

Lemma clone_elements_spec l h ts : mapM (readback true f h) l = Some ts ->
  exists l' h', clone_elements (cloneReflectValue f) l h = Some (l', h') /\ h ⊆ h' /\
    forall h'', has_new h h' h'' -> mapM (readback false f h'') l' = Some ts.
Proof.
  revert h ts. induction l as [|v l IH]; intros h ts.
  { intros [= <-]. exists [], h. split; [done|]. by split. }
  rewrite mapM_Some. intros (t & ts' & Hv & Hl & ->)%Forall2_cons_inv_l. apply mapM_Some in Hl.
  destruct (Hf v h t Hv) as (v' & h1 & E1 & Hh1 & Hr1).
  destruct (IH h1 ts') as (l' & h' & E2 & Hh2 & Hr2).
  { eapply mapM_impl; [|exact Hl]. intros x y. by apply readback_mono. }
  exists (assign v v' :: l'), h'. cbn [clone_elements]. unfold then_. rewrite E1, E2. split; [done|].
  split; [by etrans|]. intros h'' Hn. apply mapM_Some. constructor; [|apply mapM_Some].
  - apply Hr1. by eapply has_new_l.
  - apply Hr2. eapply has_new_r; [|done]. by apply subseteq_dom.
Qed.

Lemma clone_entry_spec h e t : read_pair true f h e = Some t -> True ->
  exists e' h', clone_entry (cloneReflectValue f) e h = Some (e', h') /\ h ⊆ h' /\
    forall h'', has_new h h' h'' -> read_pair false f h'' e' = Some t.
Proof.
  destruct e as [k v]. unfold read_pair. cbn [fst snd]. intros H _.
  destruct (readback true f h k) as [tk|] eqn:Ek; [|done]. destruct (readback true f h v) as [tv|] eqn:Ev; [|done]. injection H as <-.
  destruct (Hf k h tk Ek) as (k' & h1 & E1 & Hh1 & Hr1).
  destruct (Hf v h1 tv (readback_mono true f f h h1 v tv (le_n f) Hh1 Ev)) as (v' & h2 & E2 & Hh2 & Hr2).
  exists (assign k k', assign v v'), h2. unfold clone_entry, then_. cbn [fst snd]. rewrite E1, E2.
  split; [done|]. split; [by etrans|]. intros h'' Hn. rewrite Hr1 by (by eapply has_new_l).
  rewrite Hr2; [done|]. eapply has_new_r; [|done]. by apply subseteq_dom.
Qed.

Lemma take_insert_app {A} i (vs : list A) x : i < length vs -> take (S i) (<[i := x]> vs) = (take i vs ++ [x])%list.
Proof.
  intros H. rewrite (take_S_r _ i x) by (by apply list_lookup_insert_eq). by rewrite take_insert_ge by lia.
Qed.

Lemma fill_slice_spec l i elements h0 h vs ts :
  h0 ⊆ h -> l ∉ dom h0 -> h !! l = Some (CArray vs) -> length vs = i + length elements ->
  mapM (readback true f h0) elements = Some ts ->
  exists after h', fill_slice (cloneReflectValue f) l i elements h = Some (tt, h') /\
    h' !! l = Some (CArray (take i vs ++ after)) /\ length after = length elements /\ delete l h ⊆ h' /\
    forall h'', has_new h h' h'' -> mapM (readback false f h'') after = Some ts.
Proof.
  intros H0 Hl0. revert i h vs ts H0. induction elements as [|v elements IH]; intros i h vs ts H0 Hl Hlen.
  { intros [= <-]. exists [], h. cbn in Hlen. rewrite app_nil_r, take_ge by lia.
    split; [done|]. split; [done|]. split; [done|]. split; [apply delete_subseteq|done]. }
  rewrite mapM_Some. intros (tv & ts' & Ev & Hent & ->)%Forall2_cons_inv_l. apply mapM_Some in Hent.
  destruct (Hf v h tv (readback_mono true f f h0 h v tv (le_n f) H0 Ev)) as (v' & h1 & E1 & Hh1 & Hr1).
  assert (h1 !! l = Some (CArray vs)) as Hl1 by (by eapply lookup_weaken).
  set (vs2 := <[i := assign v v']> vs). set (h2 := <[l := CArray vs2]> h1).
  assert (h0 ⊆ h2) as H2.
  { apply insert_subseteq_r; [by apply not_elem_of_dom|]. by etrans. }
  cbn [length] in Hlen. assert (length vs2 = S i + length elements) as Hlen2 by (unfold vs2; rewrite length_insert; lia).
  destruct (IH (S i) h2 vs2 ts' H2 (lookup_insert_eq _ _ _) Hlen2 Hent) as (after & h' & E2 & Hl' & Hla & Hh2 & Hr2).
  assert (delete l h1 ⊆ h') as Hh1' by (etrans; [|exact Hh2]; unfold h2; by rewrite delete_insert_eq).
  exists (assign v v' :: after), h'. cbn [fill_slice]. unfold then_, update. rewrite E1.
  assert (alter (fun c => match c with CArray vs => CArray (<[i := assign v v']> vs) | c => c end) l h1 = h2) as ->.
  { unfold h2. apply map_eq. intros j. destruct (decide (j = l)) as [->|Hj].
    - by rewrite lookup_alter_eq, lookup_insert_eq, Hl1.
    - by rewrite lookup_alter_ne, lookup_insert_ne. }
  split; [exact E2|]. rewrite Hl'. unfold vs2. rewrite take_insert_app, <-app_assoc by lia. split; [done|].
  split; [cbn [length]; by rewrite Hla|]. split; [etrans; [|exact Hh1']; by apply delete_mono|].
  intros h'' Hn. apply mapM_Some. constructor; [|apply mapM_Some].
  - apply Hr1. eapply (has_new_but l); [left; apply elem_of_dom; eauto|exact Hh1'|exact Hn].
  - apply Hr2. eapply has_new_r; [|exact Hn]. unfold h2. rewrite dom_insert.
    assert (dom h ⊆ dom h1) by (by apply subseteq_dom). set_solver.
Qed.

Lemma clones_pointer l h v t : h !! l = Some (CValue v) -> readback true f h v = Some t ->
  exists v' h', cloneReflectValue (S f) (VPointer (Some l)) h = Some (v', h') /\ h ⊆ h' /\
    forall h'', has_new h h' h'' -> readback false (S f) h'' (assign (VPointer (Some l)) v') = Some (TPointer t).
Proof.
  intros El Ev. destruct (Hf v h t Ev) as (v' & h1 & E1 & Hh1 & Hr1).
  destruct (alloc_spec h1 (CValue (assign v v'))) as (Ea & Hfr & Hsub). set (l' := fresh (dom h1)) in *.
  exists (VPointer (Some l')), (<[l' := CValue (assign v v')]> h1).
  cbn [cloneReflectValue]. unfold then_ at 1, read. rewrite El. unfold then_. rewrite E1, Ea.
  split; [done|]. split; [by etrans|]. intros h'' Hn. cbn [assign readback].
  assert (l' ∉ dom h) as Hl by (intros Hd; apply Hfr; revert Hd; by apply subseteq_dom).
  rewrite (has_new_cell l' h h1 _ h'' Hl Hn), Hr1; [done|]. by eapply has_new_l.
Qed.

Lemma clones_map l h entries ts : h !! l = Some (CMap entries) -> mapM (read_pair true f h) entries = Some ts ->
  exists v' h', cloneReflectValue (S f) (VMap (Some l)) h = Some (v', h') /\ h ⊆ h' /\
    forall h'', has_new h h' h'' -> readback false (S f) h'' (assign (VMap (Some l)) v') = Some (TMap ts).
Proof.
  intros El Ets. destruct (alloc_spec h (CMap [])) as (Ea & Hfr & Hsub). set (l' := fresh (dom h)) in *.
  destruct (fill_spec f (clone_entry (cloneReflectValue f)) (fun _ _ => True) clone_entry_spec
    l' entries h (<[l' := CMap []]> h) [] ts Hsub Hfr (lookup_insert_eq _ _ _) Ets
    (Forall2_impl _ _ _ _ (proj1 (mapM_Some _ _ _) Ets) (fun _ _ _ => I)))
    as (after & h' & E & Hl' & Hh & Hr).
  exists (VMap (Some l')), h'. cbn [cloneReflectValue]. unfold then_ at 1, read. rewrite El. unfold then_. rewrite Ea, E.
  split; [done|]. split; [by eapply filled_new|]. intros h'' Hn. cbn [assign readback].
  rewrite (has_new_lookup l' h h' h'' _ Hfr Hl' Hn). cbn [app]. apply fmap_Some. exists ts. split; [|done].
  eapply mapM_impl; [|apply Hr; by apply has_new_filled]. by intros [k v] [tk tv].
Qed.

Lemma clones_slice l offset len h elements ts :
  h !! l = Some (CArray elements) -> offset + len <= length elements ->
  mapM (readback true f h) (take len (drop offset elements)) = Some ts ->
  exists v' h', cloneReflectValue (S f) (VSlice (Some (l, offset, len))) h = Some (v', h') /\ h ⊆ h' /\
    forall h'', has_new h h' h'' ->
      readback false (S f) h'' (assign (VSlice (Some (l, offset, len))) v') = Some (TSlice ts).
Proof.
  intros El Hlen Ets. set (vs := replicate len VInvalid).
  destruct (alloc_spec h (CArray vs)) as (Ea & Hfr & Hsub). set (l' := fresh (dom h)) in *.
  set (old := take len (drop offset elements)) in *.
  assert (length old = len) as Hold by (unfold old; rewrite length_take, length_drop; lia).
  destruct (fill_slice_spec l' 0 old h (<[l' := CArray vs]> h) vs ts Hsub Hfr (lookup_insert_eq _ _ _)
    ltac:(unfold vs; rewrite length_replicate; lia) Ets) as (after & h' & E & Hl' & Hla & Hh & Hr).
  exists (VSlice (Some (l', 0, len))), h'. cbn [cloneReflectValue]. unfold then_ at 1, read. rewrite El.
  unfold then_, slice_elements. fold vs old. rewrite Ea, E.
  split; [done|]. split; [by eapply filled_new|]. intros h'' Hn. cbn [assign readback].
  rewrite (has_new_lookup l' h h' h'' _ Hfr Hl' Hn). rewrite take_0. cbn [app].
  assert ((0 + len <=? length after) = true) as -> by (apply Nat.leb_le; lia). rewrite drop_0. rewrite take_ge by lia. apply fmap_Some. exists ts. split; [|done]. apply Hr. by apply has_new_filled.
Qed.

Lemma clone_fields_spec fields h ts : mapM (readback true f h) (exported fields) = Some ts ->
  exists values h', clone_fields (cloneReflectValue f) fields h = Some (values, h') /\ h ⊆ h' /\
    if settable fields
    then exists l', values = Some l' /\ forall h'', has_new h h' h'' -> mapM (readback false f h'') l' = Some ts
    else values = None.
Proof.
  revert h ts. induction fields as [|[[] v] fields IH]; intros h ts; cbn [exported].
  { intros [= <-]. exists (Some []), h. split; [done|]. split; [done|]. by exists []. }
  2: { intros _. by exists None, h. }
  rewrite mapM_Some. intros (t & ts' & Hv & Hl & ->)%Forall2_cons_inv_l. apply mapM_Some in Hl.
  destruct (Hf v h t Hv) as (v' & h1 & E1 & Hh1 & Hr1).
  destruct (IH h1 ts') as (rest & h' & E2 & Hh2 & Hrest).
  { eapply mapM_impl; [|exact Hl]. intros x y. by apply readback_mono. }
  eexists _, h'. cbn [clone_fields]. unfold then_. rewrite E1, E2. split; [done|]. split; [by etrans|].
  change (settable ((true, v) :: fields)) with (settable fields). destruct (settable fields); [|by rewrite Hrest].
  destruct Hrest as (l' & -> & Hr2). exists (assign v v' :: l'). split; [done|]. intros h'' Hn. apply mapM_Some.
  constructor; [|apply mapM_Some].
  - apply Hr1. by eapply has_new_l.
  - apply Hr2. eapply has_new_r; [|done]. by apply subseteq_dom.
Qed.

Lemma exported_settable (fields : list (bool * val)) : settable fields = true -> exported fields = fields.*2.
Proof. induction fields as [|[[] v] fields IH]; [done| |done]. intros H. cbn. f_equal. by apply IH. Qed.

Lemma settable_fst (fields fields' : list (bool * val)) : fields.*1 = fields'.*1 -> settable fields = settable fields'.
Proof.
  unfold settable. revert fields'. induction fields as [|[b v] fields IH]; intros [|[b' v'] fields']; try done.
  cbn. intros [= -> E]. by rewrite (IH fields').
Qed.

Lemma clones_step : clones (S f).
Proof.
  intros v h t. destruct v as [|b|[w|]|[l|]|[l|]|[[[l off] len]|]|elements|fields]; cbn [readback];
    try (intros [= <-]; eexists _, h; split_and!; done).
  - intros Ew. destruct (Hf w h t Ew) as (v' & h' & E & Hh & Hr). exists v', h'. split; [exact E|]. split; [done|].
    intros h'' Hn. cbn [assign readback]. by eapply assign_reads, Hr.
  - destruct (h !! l) as [[v| |]|] eqn:El; try done. intros (tv & Ev & ->)%fmap_Some. by apply (clones_pointer l h v tv).
  - destruct (h !! l) as [[|entries|]|] eqn:El; try done. intros (ts & Ets & ->)%fmap_Some.
    apply (clones_map l h entries ts El). eapply mapM_impl; [|exact Ets]. by intros [k v] [tk tv].
  - destruct (h !! l) as [[| |elements]|] eqn:El; try done. destruct (Nat.leb_spec (off + len) (length elements)); [|done].
    intros (ts & Ets & ->)%fmap_Some. by eapply clones_slice.
  - intros (ts & Ets & ->)%fmap_Some. destruct (clone_elements_spec elements h ts Ets) as (l' & h' & E & Hh & Hr).
    exists (VArray l'), h'. cbn [cloneReflectValue]. unfold then_. rewrite E. split; [done|]. split; [done|].
    intros h'' Hn. cbn [assign readback]. by rewrite Hr.
  - intros H. assert (exists ts, mapM (readback true f h) (exported fields) = Some ts /\
      t = if settable fields then TStruct (zip fields.*1 ts) else TOpaque fields) as (ts & Ets & ->).
    { destruct (settable fields) eqn:Es; [rewrite <-(exported_settable _ Es) in H|];
        apply fmap_Some in H as (ts & Ets & ->); by exists ts. }
    destruct (clone_fields_spec fields h ts Ets) as (values & h' & E & Hh & Hv).
    destruct (settable fields) eqn:Es.
    + destruct Hv as (l' & -> & Hr). exists (VStruct (zip fields.*1 l')), h'. cbn [cloneReflectValue].
      unfold then_. rewrite E. split; [done|]. split; [done|]. intros h'' Hn. cbn [assign readback].
      specialize (Hr h'' Hn). pose proof (length_mapM _ _ _ Hr) as Hlen. pose proof (length_mapM _ _ _ Ets) as Hlen'.
      rewrite (exported_settable _ Es), length_fmap in Hlen'.
      rewrite (settable_fst _ fields) by (apply fst_zip; rewrite length_fmap; lia).
      rewrite Es, fst_zip, snd_zip, Hr by (rewrite length_fmap; lia). done.
    + subst values. exists (VStruct fields), h'. cbn [cloneReflectValue]. unfold then_. rewrite E.
      split; [done|]. split; [done|]. intros h'' _. cbn [assign readback]. by rewrite Es.
Qed.
End Step.

Lemma clones_all f : clones f.
Proof. induction f as [|f IH]; [by intros v h t|by apply clones_step]. Qed.

(** An entry of a payload: a name, and a value in an interface slot. *)
Definition payload_like (e : val * val) (t : tree * tree) : Prop :=
  (exists b, e.1 = VBasic b) /\ (exists v, e.2 = VInterface v) /\ t.2 <> TInvalid.

Lemma payload_entry_spec f h e t : read_pair true (S f) h e = Some t -> payload_like e t ->
  exists e' h', payload_entry f e h = Some (e', h') /\ h ⊆ h' /\
    forall h'', has_new h h' h'' -> read_pair false (S f) h'' e' = Some t.
Proof.
  destruct e as [k v], t as [tk tv]. intros H ([b Hb] & [o Ho] & Ht). cbn [fst snd] in Hb, Ho, Ht. subst.
  unfold read_pair in H. cbn [fst snd readback] in H. destruct o as [v|].
  - destruct (readback true f h v) as [tv'|] eqn:Ev; [|done]. injection H as <- ->.
    destruct (clones_all f v h tv Ev) as (v' & h' & E & Hh & Hr).
    assert (v' <> VInvalid) as Hv'.
    { intros ->. pose proof (assign_reads false f h' v VInvalid tv (Hr h' (fun _ _ _ => eq_refl))) as Hr'.
      destruct f as [|f']; [done|]. injection Hr' as <-. by apply Ht. }
    exists (VBasic b, VInterface (Some v')), h'. unfold payload_entry, clonePayloadValue, then_. cbn [fst snd]. rewrite E.
    split; [by destruct v'|]. split; [done|]. intros h'' Hn. unfold read_pair. cbn [fst snd readback].
    by rewrite (assign_reads false f h'' v v' tv (Hr h'' Hn)).
  - injection H as <- <-. exists (VBasic b, VInterface None), h. by split_and!.
Qed.


(** The recursion follows the memory: a value that contains itself is never
    cloned, whatever the stack. *)
Theorem clone_cycle f h l b : h !! l = Some (CMap [(VBasic b, VInterface (Some (VMap (Some l))))]) ->
  cloneReflectValue f (VMap (Some l)) h = None.
Proof.
  revert h. induction (lt_wf f) as [f _ IH]. intros h El. destruct f as [|f]; [done|]. cbn [cloneReflectValue].
  unfold then_ at 1, read. rewrite El. unfold then_ at 1, alloc. cbn [fill]. set (l' := fresh (dom h)).
  destruct (alloc_spec h (CMap [])) as (_ & Hfr & _). fold l' in Hfr.
  assert (clone_entry (cloneReflectValue f) (VBasic b, VInterface (Some (VMap (Some l)))) (<[l' := CMap []]> h) = None) as E.
  { unfold clone_entry, then_. cbn [fst snd]. destruct f as [|f]; [done|]. cbn [cloneReflectValue done_].
    unfold done_. rewrite IH; [done|lia|]. rewrite lookup_insert_ne; [done|].
    intros E. apply Hfr, elem_of_dom. rewrite E. by eexists. }
  unfold then_. by rewrite E.
Qed.
End Clone.

#[local] Open Scope string_scope.

(** ** An instance

    A payload with a pointer and a slice; after the clone was made, the slice
    of the original is overwritten. *)
Definition sample_fields : list (bool * val (Basic := string)) :=
  [(true, VPointer (Some 2%positive)); (false, VPointer (Some 3%positive))].

Definition sample_entries : list (val (Basic := string) * val (Basic := string)) :=
  [(VBasic "tool", VInterface (Some (VPointer (Some 2%positive))));
   (VBasic "args", VInterface (Some (VSlice (Some (3%positive, 1, 2)))));
   (VBasic "when", VInterface (Some (VStruct sample_fields)));
   (VBasic "none", VInterface None)].

Definition sample_heap : gmap positive (cell (Basic := string)) :=
  {[ 1%positive := CMap sample_entries; 2%positive := CValue (VBasic "bash");
     3%positive := CArray [VBasic "sudo"; VBasic "ls"; VBasic "-l"] ]}.

Definition sample_tree : list (tree (Basic := string) * tree (Basic := string)) :=
  [(TBasic "tool", TPointer (TBasic "bash")); (TBasic "args", TSlice [TBasic "ls"; TBasic "-l"]); (TBasic "when", TOpaque sample_fields); (TBasic "none", TNil)].


(** A copy of native metadata is not isolated: what is written into a map nested
    in the original is read through the copy. *)
Definition nested_heap : gmap positive (cell (Basic := string)) :=
  {[ 1%positive := CMap [(VBasic "rate_limit", VInterface (Some (VMap (Some 2%positive))))];
     2%positive := CMap [(VBasic "limit", VBasic "5")] ]}.

Lemma shallow_clone_shares : exists dst h,
  shallow_clone (Some 1%positive) nested_heap = Some (Some dst, h) /\
  readback false 4 h (VMap (Some dst)) =
    Some (TMap [(TBasic "rate_limit", TMap [(TBasic "limit", TBasic "5")])]) /\
  readback false 4 (<[2%positive := CMap []]> h) (VMap (Some dst)) = Some (TMap [(TBasic "rate_limit", TMap [])]).
Proof. eexists _, _. split; [reflexivity|]. split; reflexivity. Qed.
