(* ===== verification/MemoryStore.v ===== *)
(** * Run records and the in-memory run store of observability.go

    [RunRecord], [RunEventRecord] and the limits, the interface [RunStore] as a
    type class, and [MemoryRunStore] with all its operations. Records are
    values here, so cloning one is only visible where the Go code turns an
    empty map into nil. The store reads the wall clock; each reading is an
    argument. *)
From S2P Require Import Prelude GoStd Types Errors Events Policy.
From Stdlib Require Import Floats.SpecFloat.
#[local] Open Scope string_scope.

Record EventSummary := mkEventSummary {
  es_EventID : EventID;
  es_Time : Time;
  es_Kind : EventKind;
  es_Type : string;
  es_Status : RunStatus
}.
#[global] Instance eta_EventSummary : Eta EventSummary := fun r =>
  mkEventSummary (es_EventID r) (es_Time r) (es_Kind r) (es_Type r) (es_Status r).
#[global] Instance zero_EventSummary : Zero EventSummary :=
  mkEventSummary zero zero zero zero zero.

Record RunEventRecord := mkRunEventRecord {
  er_RunID : RunID;
  er_EventID : EventID;
  er_Sequence : Z;
  er_Time : Time;
  er_Kind : EventKind;
  er_Type : string;
  er_Payload : EventPayload;
  er_RawPresent : bool;
  er_RawSafe : bool;
  er_RawOmitted : bool;
  er_RawOmissionReason : string;
  er_RawSource : string;
  er_RawEncoding : string;
  er_RawData : list Byte.byte;
  er_ObservedAt : Time;
  er_StoredAt : Time
}.
#[global] Instance eta_RunEventRecord : Eta RunEventRecord := fun r =>
  mkRunEventRecord (er_RunID r) (er_EventID r) (er_Sequence r) (er_Time r) (er_Kind r)
    (er_Type r) (er_Payload r) (er_RawPresent r) (er_RawSafe r) (er_RawOmitted r)
    (er_RawOmissionReason r) (er_RawSource r) (er_RawEncoding r) (er_RawData r)
    (er_ObservedAt r) (er_StoredAt r).
#[global] Instance zero_RunEventRecord : Zero RunEventRecord :=
  mkRunEventRecord zero zero zero zero zero zero zero zero zero zero zero zero zero zero
    zero zero.

Record SinkFailure := mkSinkFailure {
  sf_Name : string;
  sf_Required : bool;
  sf_Operation : string;
  sf_At : Time;
  sf_Error : SDKError
}.
#[global] Instance eta_SinkFailure : Eta SinkFailure := fun r =>
  mkSinkFailure (sf_Name r) (sf_Required r) (sf_Operation r) (sf_At r) (sf_Error r).
#[global] Instance zero_SinkFailure : Zero SinkFailure :=
  mkSinkFailure zero zero zero zero zero.

Record RunRecord := mkRunRecord {
  rr_RunID : RunID;
  rr_ParentRunID : RunID;
  rr_SessionID : SessionID;
  rr_TurnID : TurnID;
  rr_Status : RunStatus;
  rr_Context : RuntimeContext;
  rr_EffectiveConfigSummary : StringMap;
  rr_StartedAt : Time;
  rr_FinishedAt : Time;
  rr_Duration : Duration;
  rr_ObservedAt : Time;
  rr_CompletedAt : Time;
  rr_LatestEvent : EventSummary;
  rr_EventCount : Z;
  rr_DroppedEventCount : Z;
  rr_SinkFailures : list SinkFailure;
  rr_StoreFailures : list SinkFailure;
  rr_Attempts : list AttemptSummary;
  rr_Policy : PolicyMetadata;
  rr_Session : SessionMetadata;
  rr_Permissions : PermissionMetadata;
  rr_Cleanup : CleanupMetadata;
  rr_Validation : ValidationMetadata;
  rr_Repair : RepairMetadata;
  rr_Artifacts : list ArtifactRef;
  rr_Warnings : list string;
  rr_Errors : list SDKError;
  rr_Usage : Usage;
  rr_EstimatedCost : option CostEstimate;
  rr_CostSource : CostSource;
  rr_ThroughputTPS : option spec_float;
  rr_NativeMetadata : AnyMap
}.
#[global] Instance eta_RunRecord : Eta RunRecord := fun r =>
  mkRunRecord (rr_RunID r) (rr_ParentRunID r) (rr_SessionID r) (rr_TurnID r)
    (rr_Status r) (rr_Context r) (rr_EffectiveConfigSummary r) (rr_StartedAt r)
    (rr_FinishedAt r) (rr_Duration r) (rr_ObservedAt r) (rr_CompletedAt r)
    (rr_LatestEvent r) (rr_EventCount r) (rr_DroppedEventCount r) (rr_SinkFailures r)
    (rr_StoreFailures r) (rr_Attempts r) (rr_Policy r) (rr_Session r) (rr_Permissions r)
    (rr_Cleanup r) (rr_Validation r) (rr_Repair r) (rr_Artifacts r) (rr_Warnings r)
    (rr_Errors r) (rr_Usage r) (rr_EstimatedCost r) (rr_CostSource r)
    (rr_ThroughputTPS r) (rr_NativeMetadata r).
#[global] Instance zero_RunRecord : Zero RunRecord :=
  mkRunRecord zero zero zero zero zero zero zero zero zero zero zero zero zero zero zero
    zero zero zero zero zero zero zero zero zero zero zero zero zero zero zero zero zero.

(** The interface [RunStore]: the two operations that a run being observed
    uses. The natural number is the moment of the call. *)
Class RunStore (S : Type) := {
  store_UpsertRun : nat -> RunRecord -> S -> option error * S;
  store_AppendEvent : nat -> RunEventRecord -> S -> option error * S;
  store_ListActiveRuns : nat -> S -> (list RunRecord * option error) * S;
  store_GetCompletedRun : nat -> RunID -> S -> (option RunRecord * option error) * S;
  store_ListRunEvents : nat -> RunID -> S -> (list RunEventRecord * option error) * S
}.

(** ** Clones *)
Definition clonePayload (src : EventPayload) : EventPayload :=
  match src with
  | None => None
  | Some m => if decide (m = ∅) then None else Some m
  end.

Definition cloneEventRecord (record : RunEventRecord) : RunEventRecord :=
  record <| er_Payload := clonePayload (er_Payload record) |>.

Definition cloneRunRecord (record : RunRecord) : RunRecord :=
  record <| rr_EffectiveConfigSummary := cloneStringMap (rr_EffectiveConfigSummary record) |>
         <| rr_Artifacts := map (fun a => a <| artf_Metadata ::= cloneStringMap |>) (rr_Artifacts record) |>
         <| rr_NativeMetadata := cloneAnyMap (rr_NativeMetadata record) |>
         <| rr_Usage ::= fun u => u <| us_Native ::= cloneAnyMap |> |>.

(** ** [MemoryRunStore] *)
Record MemoryRunStoreLimits := mkMemoryRunStoreLimits {
  lim_MaxEventsPerRun : Z;
  lim_MaxRawBytesPerRun : Z;
  lim_MaxCompletedRuns : Z;
  lim_CompletedRunTTL : Duration
}.
#[global] Instance eta_MemoryRunStoreLimits : Eta MemoryRunStoreLimits := fun r =>
  mkMemoryRunStoreLimits (lim_MaxEventsPerRun r) (lim_MaxRawBytesPerRun r)
    (lim_MaxCompletedRuns r) (lim_CompletedRunTTL r).
#[global] Instance zero_MemoryRunStoreLimits : Zero MemoryRunStoreLimits :=
  mkMemoryRunStoreLimits zero zero zero zero.

Definition defaultMemoryRunStoreLimits : MemoryRunStoreLimits :=
  mkMemoryRunStoreLimits 2048%Z (16 * 1024 * 1024)%Z 128%Z (24 * time.Hour)%Z.

Record MemoryRunStore := mkMemoryRunStore {
  ms_active : gmap string RunRecord;
  ms_completed : gmap string RunRecord;
  ms_events : gmap string (list RunEventRecord);
  ms_limits : MemoryRunStoreLimits;
  ms_completedOrder : list RunID;
  ms_completedStoredAt : gmap string Time;
  ms_rawBytes : gmap string Z
}.
#[global] Instance eta_MemoryRunStore : Eta MemoryRunStore := fun r =>
  mkMemoryRunStore (ms_active r) (ms_completed r) (ms_events r) (ms_limits r)
    (ms_completedOrder r) (ms_completedStoredAt r) (ms_rawBytes r).

Definition or_default (value default : Z) : Z := if (value =? 0)%Z then default else value.

Definition NewMemoryRunStoreWithLimits (limits : MemoryRunStoreLimits) : MemoryRunStore :=
  let d := defaultMemoryRunStoreLimits in
  mkMemoryRunStore ∅ ∅ ∅
    (mkMemoryRunStoreLimits
       (or_default (lim_MaxEventsPerRun limits) (lim_MaxEventsPerRun d))
       (or_default (lim_MaxRawBytesPerRun limits) (lim_MaxRawBytesPerRun d))
       (or_default (lim_MaxCompletedRuns limits) (lim_MaxCompletedRuns d))
       (or_default (lim_CompletedRunTTL limits) (lim_CompletedRunTTL d)))
    [] ∅ ∅.
Definition NewMemoryRunStore : MemoryRunStore := NewMemoryRunStoreWithLimits defaultMemoryRunStoreLimits.

Definition evictCompletedRunLocked (id : RunID) (s : MemoryRunStore) : MemoryRunStore :=
  s <| ms_completed ::= delete id |> <| ms_events ::= delete id |>
    <| ms_completedStoredAt ::= delete id |> <| ms_rawBytes ::= delete id |>.

(** The first loop of [evictCompletedLocked], over [completedOrder]; a missing
    time reads as the zero time. *)
Fixpoint evict_expired (cutoff : Time) (order : list RunID) (s : MemoryRunStore) : MemoryRunStore :=
  match order with
  | [] => s <| ms_completedOrder := [] |>
  | id :: rest =>
      if time.Before (default 0%Z (ms_completedStoredAt s !! id)) cutoff
      then evict_expired cutoff rest (evictCompletedRunLocked id s)
      else s <| ms_completedOrder := order |>
  end.

(** The second loop. *)
Fixpoint evict_excess (limit : Z) (order : list RunID) (s : MemoryRunStore) : MemoryRunStore :=
  match order with
  | [] => s <| ms_completedOrder := [] |>
  | id :: rest =>
      if (limit <? Z.of_nat (length order))%Z then evict_excess limit rest (evictCompletedRunLocked id s)
      else s <| ms_completedOrder := order |>
  end.

Definition evictCompletedLocked (now : Time) (s : MemoryRunStore) : MemoryRunStore :=
  let ttl := lim_CompletedRunTTL (ms_limits s) in
  let s := if (0 <? ttl)%Z then evict_expired (time.Add now (- ttl)%Z) (ms_completedOrder s) s else s in
  let limit := lim_MaxCompletedRuns (ms_limits s) in
  if (limit <? 0)%Z then s else evict_excess limit (ms_completedOrder s) s.

(** [now] and [now'] are the two readings of the clock. *)
Definition UpsertRun (now now' : Time) (record : RunRecord) (s : MemoryRunStore) : MemoryRunStore :=
  let record := cloneRunRecord record in
  let id := rr_RunID record in
  if Terminal (rr_Status record) then
    let s := s <| ms_active ::= delete id |> in
    let s := match ms_completed s !! id with
             | Some _ => s
             | None => s <| ms_completedOrder ::= fun l => (l ++ [id])%list |> end in
    evictCompletedLocked now'
      (s <| ms_completedStoredAt ::= insert id now |> <| ms_completed ::= insert id record |>)
  else s <| ms_active ::= insert id record |>.

Definition raw_size (e : RunEventRecord) : Z := Z.of_nat (length (er_RawData e)).

Definition limit_exceeded (limits : MemoryRunStoreLimits) (count bytes : Z) : bool :=
  ((0 <=? lim_MaxEventsPerRun limits) && (lim_MaxEventsPerRun limits <? count))%Z
  || ((0 <=? lim_MaxRawBytesPerRun limits) && (lim_MaxRawBytesPerRun limits <? bytes))%Z.

Definition eventLimitExceededLocked (s : MemoryRunStore) (id : RunID) : bool :=
  limit_exceeded (ms_limits s) (Z.of_nat (length (default [] (ms_events s !! id))))
    (default 0%Z (ms_rawBytes s !! id)).

(** The loop of [AppendEvent]: the oldest event goes while a limit is exceeded. *)
Fixpoint trim_events (limits : MemoryRunStoreLimits) (events : list RunEventRecord) (bytes : Z)
    : list RunEventRecord * Z :=
  match events with
  | [] => ([], bytes)
  | dropped :: rest =>
      if limit_exceeded limits (Z.of_nat (length events)) bytes
      then trim_events limits rest (bytes - raw_size dropped)
      else (events, bytes)
  end.

Definition AppendEvent (event : RunEventRecord) (s : MemoryRunStore) : MemoryRunStore :=
  let id := er_RunID event in
  let stored := cloneEventRecord event in
  let events := (default [] (ms_events s !! id) ++ [stored])%list in
  let bytes := (default 0 (ms_rawBytes s !! id) + raw_size stored)%Z in
  let '(events, bytes) := trim_events (ms_limits s) events bytes in
  s <| ms_events ::= insert id events |> <| ms_rawBytes ::= insert id bytes |>.

(** In the order [range] visits the map. *)
Definition ListActiveRuns (s : MemoryRunStore) : list RunRecord :=
  map cloneRunRecord (map_to_list (ms_active s)).*2.

Definition GetCompletedRun (now : Time) (id : RunID) (s : MemoryRunStore)
    : option RunRecord * MemoryRunStore :=
  let s := evictCompletedLocked now s in (cloneRunRecord <$> (ms_completed s !! id), s).

Definition ListRunEvents (now : Time) (id : RunID) (s : MemoryRunStore)
    : list RunEventRecord * MemoryRunStore :=
  let s := evictCompletedLocked now s in (map cloneEventRecord (default [] (ms_events s !! id)), s).

(** The store as a [RunStore], on a clock. It never reports an error. *)
Definition memory_store (clock : nat -> Time) : RunStore MemoryRunStore := {|
  store_UpsertRun tick record s := (None, UpsertRun (clock tick) (clock (S tick)) record s);
  store_AppendEvent _ event s := (None, AppendEvent event s);
  store_ListActiveRuns _ s := ((ListActiveRuns s, None), s);
  store_GetCompletedRun tick id s :=
    let '(record, s) := GetCompletedRun (clock tick) id s in ((record, None), s);
  store_ListRunEvents tick id s :=
    let '(events, s) := ListRunEvents (clock tick) id s in ((events, None), s)
|}.

(** * Theorems *)

(** ** Retained events *)
Definition total_bytes (events : list RunEventRecord) : Z := foldr Z.add 0%Z (map raw_size events).

Definition within_limits (limits : MemoryRunStoreLimits) (events : list RunEventRecord) : Prop :=
  limit_exceeded limits (Z.of_nat (length events)) (total_bytes events) = false.

Lemma total_bytes_app l l' : total_bytes (l ++ l') = (total_bytes l + total_bytes l')%Z.
Proof. unfold total_bytes. induction l as [|e l IH]; cbn; [done|]. rewrite IH. lia. Qed.

Lemma within_nil limits : within_limits limits [].
Proof.
  unfold within_limits, limit_exceeded. cbn. apply orb_false_iff.
  split; apply andb_false_iff; rewrite Z.leb_gt, Z.ltb_ge; lia.
Qed.

Lemma trim_events_spec limits events :
  let '(kept, bytes) := trim_events limits events (total_bytes events) in
  bytes = total_bytes kept /\
  exists dropped, events = (dropped ++ kept)%list /\
    within_limits limits kept /\
    forall n, n < length dropped -> ~ within_limits limits (drop n events).
Proof.
  induction events as [|e events IH]; cbn [trim_events].
  { split; [done|]. exists []. split_and!; [done|apply within_nil|]. intros n Hn. cbn in Hn. lia. }
  destruct (limit_exceeded limits (Z.of_nat (length (e :: events))) (total_bytes (e :: events))) eqn:E.
  - replace (total_bytes (e :: events) - raw_size e)%Z with (total_bytes events) by (unfold total_bytes; cbn; lia).
    destruct (trim_events limits events (total_bytes events)) as [kept bytes].
    destruct IH as (Hb & dropped & -> & Hk & Hn). split; [done|]. exists (e :: dropped).
    split; [done|]. split; [done|]. intros [|n] Hlt; [unfold within_limits; cbn [drop]; by rewrite E|].
    cbn in Hlt |- *. apply Hn. lia.
  - split; [done|]. exists []. split_and!; [done..|]. intros n Hn. cbn in Hn. lia.
Qed.

(** The book-keeping of the store: the byte counter of a run is the size of its
    retained events, and these are within the limits. *)
Definition events_ok (s : MemoryRunStore) : Prop :=
  forall id, default 0%Z (ms_rawBytes s !! id) = total_bytes (default [] (ms_events s !! id)) /\
    within_limits (ms_limits s) (default [] (ms_events s !! id)).

Lemma AppendEvent_fields event s :
  events_ok s ->
  let s' := AppendEvent event s in
  ms_limits s' = ms_limits s /\
  exists kept dropped,
    ms_events s' = <[er_RunID event := kept]> (ms_events s) /\
    ms_rawBytes s' = <[er_RunID event := total_bytes kept]> (ms_rawBytes s) /\
    (default [] (ms_events s !! er_RunID event) ++ [cloneEventRecord event] = dropped ++ kept)%list /\
    within_limits (ms_limits s) kept /\
    forall n, n < length dropped ->
      ~ within_limits (ms_limits s) (drop n (default [] (ms_events s !! er_RunID event) ++ [cloneEventRecord event])%list).
Proof.
  intros Hok. cbv zeta. unfold AppendEvent.
  set (stored := cloneEventRecord event).
  set (events := (default [] (ms_events s !! er_RunID event) ++ [stored])%list).
  assert (default 0%Z (ms_rawBytes s !! er_RunID event) + raw_size stored = total_bytes events)%Z as ->.
  { subst events. rewrite total_bytes_app. pose proof (proj1 (Hok (er_RunID event))).
    change (total_bytes [stored]) with (raw_size stored + 0)%Z. unfold RunID in *; lia. }
  pose proof (trim_events_spec (ms_limits s) events) as H.
  destruct (trim_events (ms_limits s) events (total_bytes events)) as [kept bytes].
  destruct H as (-> & dropped & He & Hk & Hn). split; [done|]. by exists kept, dropped.
Qed.

(** C35: [AppendEvent] keeps, for the run of the event, the longest suffix of the
    events appended so far that respects the limits on their number and on
    their raw bytes, changes no other run, and keeps the byte counters
    accurate; [events_ok] is an invariant of the store. *)
Theorem AppendEvent_longest_suffix event s :
  events_ok s ->
  let s' := AppendEvent event s in
  let all := (default [] (ms_events s !! er_RunID event) ++ [cloneEventRecord event])%list in
  events_ok s' /\
  (forall id, id <> er_RunID event -> ms_events s' !! id = ms_events s !! id) /\
  exists dropped kept, all = (dropped ++ kept)%list /\ ms_events s' !! er_RunID event = Some kept /\
    within_limits (ms_limits s) kept /\
    (forall n, n < length dropped -> ~ within_limits (ms_limits s) (drop n all)) /\
    ms_active s' = ms_active s /\ ms_completed s' = ms_completed s.
Proof.
  intros Hok. cbv zeta.
  destruct (AppendEvent_fields event s Hok) as (Hl & kept & dropped & He & Hb & Hall & Hk & Hn).
  split_and!.
  - intros id. rewrite Hl, He, Hb. destruct (decide (id = er_RunID event)) as [->|Hne].
    + by rewrite !lookup_insert_eq.
    + rewrite !lookup_insert_ne by done. apply Hok.
  - intros id Hne. rewrite He. by rewrite lookup_insert_ne.
  - exists dropped, kept. rewrite He, lookup_insert_eq. split_and!; try done;
      unfold AppendEvent; by destruct (trim_events _ _ _).
Qed.

Definition raw_event (id : EventID) (data : list Byte.byte) : RunEventRecord :=
  zero <| er_RunID := "run-1" |> <| er_EventID := id |> <| er_RawData := data |>.

(** With room for two raw bytes the second event pushes the first out. *)
Lemma AppendEvent_longest_suffix_witness :
  let s := AppendEvent (raw_event "e1" [Byte.x61])
    (NewMemoryRunStoreWithLimits (mkMemoryRunStoreLimits 0%Z 2%Z 0%Z 0%Z)) in
  events_ok (AppendEvent (raw_event "e2" [Byte.x61; Byte.x62]) s) /\
  ms_events (AppendEvent (raw_event "e2" [Byte.x61; Byte.x62]) s) !! "run-1"
  = Some [raw_event "e2" [Byte.x61; Byte.x62]].
Proof.
  cbv zeta.
  refine (conj (proj1 (AppendEvent_longest_suffix _ _ (proj1 (AppendEvent_longest_suffix _ _ _)))) _).
  - intros id. cbn. rewrite !lookup_empty. split; reflexivity.
  - vm_compute. reflexivity.
Defined.

(** ** Completed runs *)

(** [completedOrder] lists the completed runs, each once. *)
Definition order_ok (s : MemoryRunStore) : Prop :=
  NoDup (ms_completedOrder s) /\
  (forall id, id ∈ ms_completedOrder s <-> is_Some (ms_completed s !! id)) /\
  (forall id, id ∈ ms_completedOrder s <-> is_Some (ms_completedStoredAt s !! id)).

Definition with_order (s : MemoryRunStore) (order : list RunID) : MemoryRunStore :=
  s <| ms_completedOrder := order |>.

Lemma evict_order_ok id rest s :
  order_ok (with_order s (id :: rest)) -> order_ok (with_order (evictCompletedRunLocked id s) rest).
Proof.
  intros (Hnd & Hc & Ht). cbn in *. apply NoDup_cons in Hnd as [Hni Hnd]. split_and!; cbn; [done|..];
    intros x; [rewrite lookup_delete_is_Some, <-Hc|rewrite lookup_delete_is_Some, <-Ht];
    rewrite elem_of_cons; naive_solver.
Qed.

Lemma evict_events_ok id s : events_ok s -> events_ok (evictCompletedRunLocked id s).
Proof.
  intros H x. cbn. destruct (decide (x = id)) as [->|Hne].
  - rewrite !lookup_delete_eq. split; [done|apply within_nil].
  - rewrite !lookup_delete_ne by done. apply H.
Qed.

(** An eviction keeps the limits and the active runs. *)
Definition same_frame (s s' : MemoryRunStore) : Prop :=
  ms_limits s' = ms_limits s /\ ms_active s' = ms_active s.

(** [s'] is [s] without the completed runs in front of [suffix]. *)
Definition evicted_to (order : list RunID) (s s' : MemoryRunStore) : Prop :=
  same_frame s s' /\ (events_ok s -> events_ok s') /\ order_ok s' /\
  (exists gone, order = (gone ++ ms_completedOrder s')%list /\
     forall id, id ∉ gone -> ms_completed s' !! id = ms_completed s !! id /\
       ms_completedStoredAt s' !! id = ms_completedStoredAt s !! id /\ ms_events s' !! id = ms_events s !! id).

Lemma evicted_step id rest s s' :
  order_ok (with_order s (id :: rest)) ->
  evicted_to rest (evictCompletedRunLocked id s) s' -> evicted_to (id :: rest) s s'.
Proof.
  intros Hok (Hf & He & Ho & gone & -> & Hg). split; [exact Hf|]. split; [auto using evict_events_ok|].
  split; [done|]. exists (id :: gone). split; [done|].
  intros x [Hne Hni]%not_elem_of_cons. destruct (Hg x Hni) as (-> & -> & ->). cbn.
  by rewrite !lookup_delete_ne.
Qed.

Lemma evict_expired_spec cutoff order s :
  order_ok (with_order s order) ->
  let s' := evict_expired cutoff order s in
  evicted_to order s s' /\
  match ms_completedOrder s' with
  | [] => True
  | id :: _ => (cutoff <= default 0 (ms_completedStoredAt s' !! id))%Z
  end.
Proof.
  cbv zeta. revert s. induction order as [|id rest IH]; intros s Hok; cbn [evict_expired].
  - split; [|done]. split_and!; try done. by exists [].
  - destruct (time.Before _ cutoff) eqn:E.
    + destruct (IH (evictCompletedRunLocked id s) (evict_order_ok _ _ _ Hok)) as [H1 H2].
      split; [|done]. by apply evicted_step.
    + split; [|cbn; unfold time.Before in E; by apply Z.ltb_ge]. split_and!; try done. by exists [].
Qed.

Lemma evict_excess_spec limit order s :
  order_ok (with_order s order) -> (0 <= limit)%Z ->
  let s' := evict_excess limit order s in
  evicted_to order s s' /\ (Z.of_nat (length (ms_completedOrder s')) <= limit)%Z /\
  length (ms_completedOrder s') = Nat.min (Z.to_nat limit) (length order).
Proof.
  cbv zeta. intros Hok Hl. revert s Hok. induction order as [|id rest IH]; intros s Hok; cbn [evict_excess].
  - split; [|cbn; lia]. split_and!; try done. by exists [].
  - destruct (Z.ltb_spec limit (Z.of_nat (length (id :: rest)))) as [Hlt|Hge].
    + destruct (IH (evictCompletedRunLocked id s) (evict_order_ok _ _ _ Hok)) as (H1 & H2 & H3).
      split; [by apply evicted_step|]. cbn in Hlt |- *. lia.
    + split; [|cbn in *; lia]. split_and!; try done. by exists [].
Qed.

Lemma evicted_trans o s1 s2 s3 :
  evicted_to o s1 s2 -> evicted_to (ms_completedOrder s2) s2 s3 -> evicted_to o s1 s3.
Proof.
  intros ([Hl Ha] & He & Ho & gone & E & Hg) ([Hl' Ha'] & He' & Ho' & gone' & E' & Hg').
  split; [split; congruence|]. split; [auto|]. split; [done|]. exists (gone ++ gone')%list. split; [by rewrite <-app_assoc, <-E'|].
  intros id [Hn Hn']%not_elem_of_app. destruct (Hg id Hn) as (<- & <- & <-). by apply Hg'.
Qed.

Lemma evictCompletedLocked_spec now s :
  order_ok s ->
  let s' := evictCompletedLocked now s in
  evicted_to (ms_completedOrder s) s s' /\
  ((0 <= lim_MaxCompletedRuns (ms_limits s))%Z ->
     (Z.of_nat (length (ms_completedOrder s')) <= lim_MaxCompletedRuns (ms_limits s))%Z).
Proof.
  intros Hok. cbv zeta. unfold evictCompletedLocked.
  set (s1 := if (0 <? _)%Z then _ else s).
  assert (H1 : evicted_to (ms_completedOrder s) s s1).
  { subst s1. case_match; [by apply evict_expired_spec|]. split_and!; try done. by exists []. }
  pose proof H1 as ((Hl & _) & _ & Ho & _).
  destruct (Z.ltb_spec (lim_MaxCompletedRuns (ms_limits s1)) 0) as [Hneg|Hpos].
  - split; [done|]. rewrite <-Hl. lia.
  - destruct (evict_excess_spec (lim_MaxCompletedRuns (ms_limits s1)) (ms_completedOrder s1) s1) as (H2 & H3 & _);
      [done|done|]. split; [by eapply evicted_trans|]. by rewrite <-Hl.
Qed.

(** The store as its operations leave it. *)
Definition bounded (s : MemoryRunStore) : Prop :=
  (0 <= lim_MaxCompletedRuns (ms_limits s) ->
   Z.of_nat (length (ms_completedOrder s)) <= lim_MaxCompletedRuns (ms_limits s))%Z.

Definition store_ok (s : MemoryRunStore) : Prop := events_ok s /\ order_ok s /\ bounded s.

(** The state in which [UpsertRun] starts to evict. *)
Definition with_completed (now : Time) (record : RunRecord) (s : MemoryRunStore) : MemoryRunStore :=
  let id := rr_RunID record in
  (match ms_completed s !! id with
   | Some _ => s <| ms_active ::= delete id |>
   | None => s <| ms_active ::= delete id |> <| ms_completedOrder ::= fun l => (l ++ [id])%list |>
   end) <| ms_completedStoredAt ::= insert id now |> <| ms_completed ::= insert id (cloneRunRecord record) |>.

Lemma with_completed_ok now record s :
  events_ok s -> order_ok s ->
  events_ok (with_completed now record s) /\ order_ok (with_completed now record s).
Proof.
  intros He (Hnd & Hc & Ht). unfold with_completed. cbv zeta.
  destruct (ms_completed s !! _) as [old|] eqn:E; unfold RunID in *.
  - assert (rr_RunID record ∈ ms_completedOrder s) as Hin by (apply Hc; by exists old).
    split; [exact He|]. split_and!; cbn; [done|..]; intros id; rewrite lookup_insert_is_Some, <-?Hc, <-?Ht;
      unfold RunID in *; destruct (decide (rr_RunID record = id)) as [<-|]; naive_solver.
  - assert (rr_RunID record ∉ ms_completedOrder s) as Hin by (intros [? Hin]%Hc; unfold RunID in *; congruence).
    split; [exact He|]. split_and!; cbn.
    + apply NoDup_app. split_and!; [done| |apply NoDup_singleton]. intros x Hx ->%list_elem_of_singleton. done.
    + intros id. rewrite elem_of_app, list_elem_of_singleton, lookup_insert_is_Some, Hc.
      unfold RunID in *. destruct (decide (rr_RunID record = id)) as [<-|]; naive_solver.
    + intros id. rewrite elem_of_app, list_elem_of_singleton, lookup_insert_is_Some, Ht.
      unfold RunID in *. destruct (decide (rr_RunID record = id)) as [<-|]; naive_solver.
Qed.

Lemma UpsertRun_terminal now now' record s :
  Terminal (rr_Status record) = true ->
  UpsertRun now now' record s = evictCompletedLocked now' (with_completed now record s).
Proof. intros Ht. unfold UpsertRun, with_completed. cbv zeta.
  change (Terminal (rr_Status (cloneRunRecord record))) with (Terminal (rr_Status record)). rewrite Ht.
  change (rr_RunID (cloneRunRecord record)) with (rr_RunID record). cbn [ms_completed upd_field].
  by destruct (ms_completed s !! rr_RunID record) eqn:E; rewrite ?E.
Qed.

(** A non-terminal record only enters the active runs. *)
Lemma UpsertRun_running now now' record s :
  Terminal (rr_Status record) = false ->
  UpsertRun now now' record s = s <| ms_active ::= insert (rr_RunID record) (cloneRunRecord record) |>.
Proof.
  intros Ht. unfold UpsertRun. cbv zeta.
  change (Terminal (rr_Status (cloneRunRecord record))) with (Terminal (rr_Status record)). by rewrite Ht.
Qed.

Lemma evicted_ok now s :
  events_ok s -> order_ok s -> store_ok (evictCompletedLocked now s).
Proof.
  intros He Ho. destruct (evictCompletedLocked_spec now s Ho) as [((Hl & _) & He' & Ho' & _) Hb].
  split_and!; auto. unfold bounded. by rewrite Hl.
Qed.

Lemma UpsertRun_ok now now' record s : store_ok s -> store_ok (UpsertRun now now' record s).
Proof.
  intros (He & Ho & Hb). destruct (Terminal (rr_Status record)) eqn:Ht.
  - rewrite UpsertRun_terminal by done. apply evicted_ok; by apply with_completed_ok.
  - rewrite UpsertRun_running by done. done.
Qed.

Lemma new_store_ok limits : store_ok (NewMemoryRunStoreWithLimits limits).
Proof.
  split; [intros id|split; [|by intros H]; split_and!; cbn; [by constructor|..]; intros id];
    cbn; rewrite ?lookup_empty.
  - split; [done|apply within_nil].
  - split; [by intros ?%not_elem_of_nil|by intros [? ?]].
  - split; [by intros ?%not_elem_of_nil|by intros [? ?]].
Qed.

(** The operations of the store, and the stores they reach from a new one. *)
Inductive operation : Type :=
| OpUpsert (now now' : Time) (record : RunRecord)
| OpAppend (event : RunEventRecord)
| OpGet (now : Time) (id : RunID)
| OpList (now : Time) (id : RunID).

Definition step (s : MemoryRunStore) (op : operation) : MemoryRunStore :=
  match op with
  | OpUpsert now now' record => UpsertRun now now' record s
  | OpAppend event => AppendEvent event s
  | OpGet now id => (GetCompletedRun now id s).2
  | OpList now id => (ListRunEvents now id s).2
  end.

Lemma evict_ok now s : store_ok s -> store_ok (evictCompletedLocked now s).
Proof. intros (He & Ho & _). by apply evicted_ok. Qed.

Lemma AppendEvent_order event s :
  ms_completedOrder (AppendEvent event s) = ms_completedOrder s /\
  ms_completed (AppendEvent event s) = ms_completed s /\
  ms_completedStoredAt (AppendEvent event s) = ms_completedStoredAt s.
Proof. unfold AppendEvent. by destruct (trim_events _ _ _). Qed.

Lemma AppendEvent_ok event s : store_ok s -> store_ok (AppendEvent event s).
Proof.
  intros (He & (Hnd & Hc & Ht) & Hbd).
  destruct (AppendEvent_fields event s He) as (Hl & kept & dropped & Hev & Hb & _ & Hk & _).
  split_and!.
  - intros id. rewrite Hl, Hev, Hb. destruct (decide (id = er_RunID event)) as [->|Hne].
    + by rewrite !lookup_insert_eq.
    + rewrite !lookup_insert_ne by done. apply He.
  - unfold order_ok. destruct (AppendEvent_order event s) as (-> & -> & ->). done.
  - unfold bounded. rewrite Hl. by destruct (AppendEvent_order event s) as (-> & _).
Qed.

(** No operation changes the limits. *)
Lemma AppendEvent_limits event s : ms_limits (AppendEvent event s) = ms_limits s.
Proof. unfold AppendEvent. by destruct (trim_events _ _ _). Qed.

Lemma UpsertRun_limits now now' record s : store_ok s -> ms_limits (UpsertRun now now' record s) = ms_limits s.
Proof.
  intros (He & Ho & _). destruct (Terminal (rr_Status record)) eqn:Ht; [|by rewrite UpsertRun_running by done].
  rewrite UpsertRun_terminal by done. destruct (with_completed_ok now record s He Ho) as [_ Ho1].
  destruct (evictCompletedLocked_spec now' _ Ho1) as [((-> & _) & _) _].
  unfold with_completed. cbv zeta. by destruct (ms_completed s !! rr_RunID record).
Qed.

Lemma step_ok s op : store_ok s -> store_ok (step s op).
Proof. destruct op; cbn; auto using UpsertRun_ok, AppendEvent_ok, evict_ok. Qed.

Lemma steps_ok limits ops : store_ok (foldl step (NewMemoryRunStoreWithLimits limits) ops).
Proof.
  generalize (new_store_ok limits). generalize (NewMemoryRunStoreWithLimits limits).
  induction ops as [|op ops IH]; intros s Hs; [done|]. cbn. by apply IH, step_ok.
Qed.


(** ** What an eviction keeps *)
Lemma evict_expired_active cutoff order s : ms_active (evict_expired cutoff order s) = ms_active s.
Proof. revert s. induction order as [|x order IH]; intros s; [done|]. cbn. case_match; [by rewrite IH|done]. Qed.

Lemma evict_excess_active limit order s : ms_active (evict_excess limit order s) = ms_active s.
Proof.
  revert s. induction order as [|x order IH]; intros s; [done|]. cbn [evict_excess].
  case_match; [by rewrite IH|done].
Qed.

Lemma evict_active now s : ms_active (evictCompletedLocked now s) = ms_active s.
Proof.
  unfold evictCompletedLocked. case_match; case_match; by rewrite ?evict_excess_active, ?evict_expired_active.
Qed.

(** [UpsertRun] does not touch the active record of another run. *)
Lemma UpsertRun_other_active now now' record s id :
  id <> rr_RunID record -> ms_active (UpsertRun now now' record s) !! id = ms_active s !! id.
Proof.
  intros Hne. destruct (Terminal (rr_Status record)) eqn:Ht.
  - rewrite UpsertRun_terminal, evict_active by done. unfold with_completed. cbv zeta.
    destruct (ms_completed s !! rr_RunID record); cbn; by rewrite lookup_delete_ne.
  - rewrite UpsertRun_running by done. cbn. by rewrite lookup_insert_ne.
Qed.

Lemma evict_expired_keeps cutoff order s id t :
  order_ok (with_order s order) ->
  ms_completedStoredAt s !! id = Some t -> (cutoff <= t)%Z ->
  let s' := evict_expired cutoff order s in
  ms_completed s' !! id = ms_completed s !! id /\ ms_completedStoredAt s' !! id = Some t.
Proof.
  cbv zeta. revert s. induction order as [|x rest IH]; intros s Hok Ht Hle; cbn [evict_expired]; [done|].
  destruct (time.Before _ cutoff) eqn:E; [|done].
  assert (x <> id) as Hne.
  { intros ->. unfold time.Before, RunID in *. rewrite Ht in E. cbn in E. apply Z.ltb_lt in E. lia. }
  rewrite <-(lookup_delete_ne (ms_completed s) x id Hne).
  apply (IH (evictCompletedRunLocked x s)); [by apply evict_order_ok| |done].
  cbn. by rewrite lookup_delete_ne.
Qed.

(** The run [id] is among the [limit] youngest of [order]. *)
Definition young (limit : Z) (order : list RunID) (id : RunID) : Prop :=
  (Z.of_nat (length order) <= limit)%Z \/ (1 <= limit)%Z /\ exists older, order = (older ++ [id])%list.

Lemma young_suffix limit gone order id :
  young limit (gone ++ order) id -> id ∈ order -> young limit order id.
Proof.
  intros [H|(Hl & older & E)] Hin; [left; rewrite length_app in H; lia|].
  destruct order as [|y order _] using rev_ind; [by apply not_elem_of_nil in Hin|].
  rewrite app_assoc in E. apply app_inj_tail in E as [_ ->]. right. split; [done|]. by exists order.
Qed.

Lemma evict_excess_keeps limit order s id :
  order_ok (with_order s order) -> young limit order id ->
  let s' := evict_excess limit order s in
  ms_completed s' !! id = ms_completed s !! id /\
  ms_completedStoredAt s' !! id = ms_completedStoredAt s !! id.
Proof.
  cbv zeta. revert s. induction order as [|x rest IH]; intros s Hok Hy; cbn [evict_excess]; [done|].
  destruct (Z.ltb_spec limit (Z.of_nat (length (x :: rest)))) as [Hlt|]; [|done].
  destruct Hy as [Hle|(H1 & older & E)]; [lia|].
  assert (x <> id /\ young limit rest id) as [Hne Hy].
  { destruct Hok as (Hnd & _). cbn in Hnd. apply NoDup_cons in Hnd as [Hni _].
    destruct older as [|y older]; simplify_list_eq; [cbn in Hlt; lia|].
    split; [intros ->; apply Hni; set_solver|]. right. split; [done|]. by exists older. }
  destruct (IH (evictCompletedRunLocked x s) (evict_order_ok _ _ _ Hok) Hy) as [-> ->].
  cbn. by rewrite !lookup_delete_ne.
Qed.

Lemma eviction_keeps now s id t :
  order_ok s -> ms_completedStoredAt s !! id = Some t ->
  ((0 < lim_CompletedRunTTL (ms_limits s))%Z -> (now - lim_CompletedRunTTL (ms_limits s) <= t)%Z) ->
  ((lim_MaxCompletedRuns (ms_limits s) < 0)%Z \/
     young (lim_MaxCompletedRuns (ms_limits s)) (ms_completedOrder s) id) ->
  ms_completed (evictCompletedLocked now s) !! id = ms_completed s !! id /\
  ms_completedStoredAt (evictCompletedLocked now s) !! id = Some t.
Proof.
  intros Hok Ht Httl Hy. unfold evictCompletedLocked. set (s1 := if (0 <? _)%Z then _ else s).
  assert (evicted_to (ms_completedOrder s) s s1 /\ ms_completed s1 !! id = ms_completed s !! id /\
    ms_completedStoredAt s1 !! id = Some t) as (((Hl & _) & _ & Ho & gone & Eg & _) & <- & Ht1).
  { subst s1. case_match; boolify.
    - split; [by apply evict_expired_spec|]. apply evict_expired_keeps; [done..|].
      unfold time.Add. specialize (Httl ltac:(done)). lia.
    - split; [|done]. split_and!; try done. by exists []. }
  destruct (Z.ltb_spec (lim_MaxCompletedRuns (ms_limits s1)) 0) as [|Hpos]; [done|].
  rewrite <-Ht1. apply evict_excess_keeps; [done|]. rewrite Hl in Hpos |- *.
  destruct Hy as [|Hy]; [lia|]. rewrite Eg in Hy. apply young_suffix in Hy; [done|].
  apply (proj2 (proj2 Ho)). by exists t.
Qed.

Lemma cloneRunRecord_id record : cloneRunRecord record = record.
Proof.
  destruct record as [???????????????????????? artifacts ?? [] ????]. unfold cloneRunRecord. cbn.
  assert (map (fun a => upd_field artf_Metadata cloneStringMap a) artifacts = artifacts) as ->; [|done].
  induction artifacts as [|[] l IH]; [done|]. cbn [map]. by rewrite IH.
Qed.

(** A completed run can be read back. After [UpsertRun] of a record with a
    terminal status, [GetCompletedRun] returns that record, and the run
    is not active, whatever was stored before; this needs a limit on
    completed runs other than zero (which the constructor excludes) and a
    clock that has not moved by more than the time to live. *)
Theorem UpsertRun_then_GetCompletedRun now now' now'' record s :
  store_ok s -> Terminal (rr_Status record) = true ->
  lim_MaxCompletedRuns (ms_limits s) <> 0%Z ->
  ((0 < lim_CompletedRunTTL (ms_limits s))%Z ->
     now' - lim_CompletedRunTTL (ms_limits s) <= now /\ now'' - lim_CompletedRunTTL (ms_limits s) <= now)%Z ->
  let s' := UpsertRun now now' record s in
  fst (GetCompletedRun now'' (rr_RunID record) s') = Some record /\
  ms_active s' !! rr_RunID record = None.
Proof.
  intros (He & Ho & Hb) Ht Hlim Httl. cbv zeta. rewrite UpsertRun_terminal by done.
  destruct (with_completed_ok now record s He Ho) as [He1 Ho1].
  assert (Hf : ms_limits (with_completed now record s) = ms_limits s /\
    ms_active (with_completed now record s) = delete (rr_RunID record) (ms_active s) /\
    ms_completed (with_completed now record s) !! rr_RunID record = Some (cloneRunRecord record) /\
    ms_completedStoredAt (with_completed now record s) !! rr_RunID record = Some now /\
    ((lim_MaxCompletedRuns (ms_limits s) < 0)%Z \/
       young (lim_MaxCompletedRuns (ms_limits s)) (ms_completedOrder (with_completed now record s)) (rr_RunID record))).
  { unfold with_completed. cbv zeta. unfold bounded in Hb.
    destruct (Z.lt_ge_cases (lim_MaxCompletedRuns (ms_limits s)) 0);
      destruct (ms_completed s !! rr_RunID record); cbn; rewrite !lookup_insert_eq; split_and!;
      try done; try (by left); right; [by left; apply Hb|]. right. split; [lia|]. by exists (ms_completedOrder s). }
  destruct Hf as (Hl & Ha & Hc & Hs & Hy). rewrite <-Hl in Hlim, Httl, Hy.
  destruct (eviction_keeps now' _ _ _ Ho1 Hs (fun H => proj1 (Httl H)) Hy) as [Hc2 Hs2].
  destruct (evicted_ok now' _ He1 Ho1) as (He3 & Ho3 & Hb3).
  destruct (evictCompletedLocked_spec now' _ Ho1) as [((Hl2 & Ha2) & _) _].
  split; [|by rewrite Ha2, Ha, lookup_delete_eq]. unfold GetCompletedRun. cbv zeta. cbn [fst].
  destruct (eviction_keeps now'' _ _ _ Ho3 Hs2) as [-> _].
  - rewrite Hl2. intros H. exact (proj2 (Httl H)).
  - unfold bounded in Hb3. destruct (Z.lt_ge_cases (lim_MaxCompletedRuns (ms_limits (evictCompletedLocked now' (with_completed now record s)))) 0);
      [by left|right; left; by apply Hb3].
  - by rewrite Hc2, Hc; cbn; rewrite !cloneRunRecord_id.
Qed.

Definition finished_record : RunRecord :=
  zero <| rr_RunID := "run-1" |> <| rr_Status := StatusCompleted |> <| rr_EventCount := 3%Z |>.

Lemma UpsertRun_then_GetCompletedRun_witness :
  fst (GetCompletedRun 1200%Z "run-1" (UpsertRun 1000%Z 1100%Z finished_record NewMemoryRunStore))
  = Some finished_record.
Proof.
  refine (proj1 (UpsertRun_then_GetCompletedRun 1000%Z 1100%Z 1200%Z finished_record NewMemoryRunStore
    (new_store_ok _) _ _ _)).
  - reflexivity.
  - discriminate.
  - intros _. split; vm_compute; discriminate.
Defined.

(** A record with a status that is not terminal only enters the active
    runs. So a run that the store has as completed can become active again
    while its completed record stays. *)
Theorem UpsertRun_not_terminal now now' record s :
  Terminal (rr_Status record) = false ->
  let s' := UpsertRun now now' record s in
  ms_active s' = <[rr_RunID record := record]> (ms_active s) /\
  ms_completed s' = ms_completed s /\ ms_completedOrder s' = ms_completedOrder s /\ ms_events s' = ms_events s.
Proof. intros Ht. cbv zeta. rewrite UpsertRun_running by done. by rewrite cloneRunRecord_id. Qed.

Definition late_record : RunRecord := finished_record <| rr_Status := StatusRunning |>.

Lemma UpsertRun_not_terminal_witness :
  let s := UpsertRun 0%Z 0%Z finished_record NewMemoryRunStore in
  ms_active (UpsertRun 1%Z 1%Z late_record s) !! "run-1" = Some late_record /\
  ms_completed (UpsertRun 1%Z 1%Z late_record s) !! "run-1" = Some finished_record.
Proof.
  cbv zeta.
  destruct (UpsertRun_not_terminal 1%Z 1%Z late_record
    (UpsertRun 0%Z 0%Z finished_record NewMemoryRunStore) eq_refl) as (Ha & Hc & _).
  rewrite Ha, Hc. split; vm_compute; reflexivity.
Defined.
