(* ===== verification/Observing.v ===== *)
(** * The observing runtime of observability.go

    [ObservingRuntime] starts a runtime, projects the events of its run onto a
    [RunRecord], hands every event to the sinks and to the store, and passes it
    on to the caller. The state of the run handle [observedRun] is threaded
    through its methods; its store and its sinks are part of that state and are
    known only by the interfaces [RunStore] and [EventSink]. The mutex protects
    single steps, and the goroutine of [forward] is over when [Wait] reads the
    record, so the steps run in the order written here. *)
From Stdlib Require Import Ascii.
From S2P Require Import Prelude GoStd Types Errors Events Policy Environment MemoryStore GoFmt.
From Stdlib Require Import Floats.SpecFloat.
#[local] Open Scope string_scope.

(** The interface [EventSink]; the number is the moment of the call. *)
Class EventSink (K : Type) := {
  sink_AppendEvent : nat -> RunEventRecord -> K -> option error * K
}.

Record NamedEventSink (K : Type) := mkNamedEventSink {
  nes_Name : string;
  nes_Sink : option K;
  nes_Required : bool
}.
Arguments mkNamedEventSink {K}.
Arguments nes_Name {K}.
Arguments nes_Sink {K}.
Arguments nes_Required {K}.
#[global] Instance eta_NamedEventSink {K} : Eta (NamedEventSink K) := fun r =>
  mkNamedEventSink (nes_Name r) (nes_Sink r) (nes_Required r).

Record PersistencePolicy := mkPersistencePolicy {
  pol_PersistUnsafeRawPayloads : bool;
  pol_OmitSafeRawPayloads : bool;
  pol_RunUpsertInterval : Duration
}.
#[global] Instance eta_PersistencePolicy : Eta PersistencePolicy := fun r =>
  mkPersistencePolicy (pol_PersistUnsafeRawPayloads r) (pol_OmitSafeRawPayloads r)
    (pol_RunUpsertInterval r).
#[global] Instance zero_PersistencePolicy : Zero PersistencePolicy :=
  mkPersistencePolicy zero zero zero.

(** A [Run] that was started: its identifier, the events it will emit before it
    closes its channel, and the answer of [Wait]. *)
Record Run := mkRun {
  run_ID : RunID;
  run_Events : list Event;
  run_Wait : RunResult * option error
}.

(** ** Helpers *)

Definition sdkErrorValue (err : error) (operation : string) : SDKError :=
  match ErrorAs err with
  | Some sdk => sdk
  | None => NewError ErrorUnknown operation (error_Error err) (Some err) []
  end.

Definition reqParentRunID (req : RunRequest) : RunID := str_at (req_Metadata req) "parent_run_id".

Definition put_text (b : bool) (key value : string) (m : gmap string string) : gmap string string :=
  if b then <[key := value]> m else m.

Definition effectiveConfigSummary (req : RunRequest) : StringMap :=
  let text key value m := put_text (negb (value =s "")) key value m in
  let keys := size (default ∅ (req_Metadata req) : gmap string string) in
  let summary : gmap string string :=
    put_text (0 <? keys)%nat "metadata_keys" (itoa (Z.of_nat keys))
   (text "session_action" (req_SessionAction req)
   (put_text (0 <? req_Timeout req)%Z "timeout" (time.Duration_String (req_Timeout req))
   (text "sandbox" (req_Sandbox req)
   (text "permissions" (req_Permissions req)
   (text "model" (req_Model req)
   (text "provider" (req_Provider req)
   (text "workdir" (req_WorkDir req) ∅))))))) in
  if decide (summary = ∅) then None else Some summary.

Definition withProducerMetadata (artifact : ArtifactRef) (record : RunRecord) : ArtifactRef :=
  let text key value m := put_text (negb (value =s "")) key value m in
  let context := rr_Context record in
  artifact <| artf_Metadata ::= fun md =>
    let md : gmap string string := default ∅ (cloneStringMap md) in
    Some (text "producer_model" (ctx_Model context)
         (text "producer_provider" (ctx_Provider context)
         (text "producer_runtime_name" (ctx_RuntimeName context)
         (text "producer_runtime_kind" (ctx_RuntimeKind context)
         (text "producer_run_id" (rr_RunID record) md))))) |>.

Fixpoint merge_loop (seen : gset ArtifactID) (artifacts : list ArtifactRef) (record : RunRecord)
    : list ArtifactRef :=
  match artifacts with
  | [] => []
  | artifact :: rest =>
      let id := artf_ID artifact in
      if id =s "" then withProducerMetadata artifact record :: merge_loop seen rest record
      else if decide (id ∈ seen) then merge_loop seen rest record
      else withProducerMetadata artifact record :: merge_loop ({[ id ]} ∪ seen) rest record
  end.

Definition mergeArtifacts (existing result metadata : list ArtifactRef) (record : RunRecord)
    : list ArtifactRef := merge_loop ∅ ((existing ++ result) ++ metadata)%list record.

Definition firstRunID (primary fallback : RunID) : RunID := or_else primary fallback.

Definition firstContext (primary fallback : RuntimeContext) : RuntimeContext :=
  if negb (ctx_RuntimeKind primary =s "") || negb (ctx_RuntimeName primary =s "")
     || negb (ctx_Provider primary =s "") || negb (ctx_Model primary =s "")
  then primary else fallback.

Definition usage_present (usage : Usage) : bool :=
  let some (v : option Z) := match v with Some _ => true | None => false end in
  some (us_InputTokens usage) || some (us_OutputTokens usage) || some (us_TotalTokens usage)
  || some (us_ReasoningTokens usage) || some (us_CacheReadTokens usage)
  || some (us_CacheWriteTokens usage) || some (us_Turns usage)
  || (0 <? size (default ∅ (us_Native usage) : gmap string any))%nat.

Fixpoint firstUsage (values : list Usage) : Usage :=
  match values with
  | [] => zero
  | usage :: values => if usage_present usage then usage else firstUsage values
  end.

(** The first required failure of a list. *)
Fixpoint required_failure (failures : list SinkFailure) : option error :=
  match failures with
  | [] => None
  | failure :: rest => if sf_Required failure then Some (ESDK (sf_Error failure)) else required_failure rest
  end.

Definition mergeRequiredObserverError (primary : option error) (record : RunRecord) : option error :=
  match primary with
  | Some _ => primary
  | None =>
      match required_failure (rr_SinkFailures record) with
      | Some e => Some e
      | None => required_failure (rr_StoreFailures record)
      end
  end.

(** ** The handle *)

(** [ob_events] is what has been put on the channel [events]; [ob_done] says
    that [events] and [done] are closed. *)
Record observedRun (S K : Type) := mkobservedRun {
  ob_inner : Run;
  ob_store : option S;
  ob_sinks : list (NamedEventSink K);
  ob_policy : PersistencePolicy;
  ob_seq : Z;
  ob_lastUpsert : Time;
  ob_record : RunRecord;
  ob_result : RunResult;
  ob_waitErr : option error;
  ob_events : list Event;
  ob_done : bool;
  ob_tick : nat
}.
Arguments mkobservedRun {S K}.
Arguments ob_inner {S K}.
Arguments ob_store {S K}.
Arguments ob_sinks {S K}.
Arguments ob_policy {S K}.
Arguments ob_seq {S K}.
Arguments ob_lastUpsert {S K}.
Arguments ob_record {S K}.
Arguments ob_result {S K}.
Arguments ob_waitErr {S K}.
Arguments ob_events {S K}.
Arguments ob_done {S K}.
Arguments ob_tick {S K}.
#[global] Instance eta_observedRun {S K} : Eta (observedRun S K) := fun r =>
  mkobservedRun (ob_inner r) (ob_store r) (ob_sinks r) (ob_policy r) (ob_seq r)
    (ob_lastUpsert r) (ob_record r) (ob_result r) (ob_waitErr r) (ob_events r) (ob_done
    r) (ob_tick r).

Section Observed.
Context {Store Sink : Type} `{!RunStore Store, !EventSink Sink} (env : RunEnv).

Definition consult {A} (f : nat -> A) : St (observedRun Store Sink) A :=
  fun r => (f (ob_tick r), r <| ob_tick ::= S |>).
Definition now : St (observedRun Store Sink) Time := consult (env_now env).
Definition update_record (f : RunRecord -> RunRecord) : St (observedRun Store Sink) unit :=
  modify (fun r => r <| ob_record ::= f |>).

Definition recordFailure (operation name : string) (required : bool) (err : error)
    : St (observedRun Store Sink) unit :=
  let* at_ := now in
  let failure := mkSinkFailure name required operation at_ (sdkErrorValue err operation) in
  update_record (fun record =>
    (if (operation =s "store_append_event") || (operation =s "store_upsert_run")
     then record <| rr_StoreFailures ::= fun l => (l ++ [failure])%list |>
     else record <| rr_SinkFailures ::= fun l => (l ++ [failure])%list |>)
    <| rr_Warnings ::= fun l =>
         (l ++ [operation +:+ " " +:+ quoted name +:+ " failed: " +:+ error_Error err])%list |>).

Definition recordDroppedEvent : St (observedRun Store Sink) unit :=
  update_record (fun record => record <| rr_DroppedEventCount ::= Z.succ |>).

Definition upsert : St (observedRun Store Sink) unit :=
  let* r := get in
  match ob_store r with
  | None => ret tt
  | Some store =>
      let record := cloneRunRecord (ob_record r) in
      let* answer := consult (fun tick => store_UpsertRun tick record store) in
      modify (fun r => r <| ob_store := Some (snd answer) |>) ;;
      match fst answer with
      | Some err => recordFailure "store_upsert_run" "store" false err
      | None => ret tt
      end
  end.

Definition upsertIfDue : St (observedRun Store Sink) unit :=
  let* r := get in
  let interval := pol_RunUpsertInterval (ob_policy r) in
  let interval := if (interval <=? 0)%Z then (250 * time.Millisecond)%Z else interval in
  let* t := now in
  if negb (time.IsZero (ob_lastUpsert r)) && (time.Sub t (ob_lastUpsert r) <? interval)%Z then ret tt
  else modify (fun r => r <| ob_lastUpsert := t |>) ;; upsert.

(** ** Events *)

(** The raw part of the record of an event. *)
Definition raw_record (policy : PersistencePolicy) (raw : option RawPayload) (record : RunEventRecord)
    : RunEventRecord :=
  match raw with
  | None => record
  | Some raw =>
      let record := record <| er_RawPresent := true |> <| er_RawSafe := raw_Safe raw |>
        <| er_RawSource := raw_Source raw |> <| er_RawEncoding := raw_Encoding raw |> in
      if (raw_Safe raw && negb (pol_OmitSafeRawPayloads policy))
         || (negb (raw_Safe raw) && pol_PersistUnsafeRawPayloads policy)
      then record <| er_RawData := raw_Data raw |>
      else record <| er_RawOmitted := true |>
                  <| er_RawOmissionReason := "raw payload omitted by persistence policy" |>
  end.

Definition event_record (policy : PersistencePolicy) (id : RunID) (observedAt : Time) (seq : Z)
    (event : Event) : RunEventRecord :=
  let record := zero
    <| er_RunID := or_else (ev_RunID event) id |> <| er_EventID := ev_ID event |>
    <| er_Sequence := seq |> <| er_Time := ev_Time event |> <| er_Kind := Event_Kind event |>
    <| er_Type := ev_Type event |> <| er_Payload := clonePayload (ev_Payload event) |>
    <| er_ObservedAt := observedAt |> <| er_StoredAt := observedAt |> in
  raw_record policy (ev_Raw event) record.

Definition eventRecord (event : Event) : St (observedRun Store Sink) RunEventRecord :=
  let* observedAt := now in
  modify (fun r => r <| ob_seq ::= Z.succ |>) ;;
  let* r := get in
  ret (event_record (ob_policy r) (run_ID (ob_inner r)) observedAt (ob_seq r) event).

(** [applyEventLocked] on the record, at the time it reads, in its five steps. *)
Definition apply_latest (now : Time) (event : RunEventRecord) (record : RunRecord) : RunRecord :=
  record <| rr_ObservedAt := now |> <| rr_EventCount ::= Z.succ |>
    <| rr_LatestEvent := zero <| es_EventID := er_EventID event |>
         <| es_Time := if time.IsZero (er_Time event) then now else er_Time event |>
         <| es_Kind := er_Kind event |> <| es_Type := er_Type event |> |>.

Definition apply_status (event : RunEventRecord) (record : RunRecord) : RunRecord :=
  match statusFromPayload (er_Payload event) with
  | Some status => record <| rr_Status := status |> <| rr_LatestEvent ::= fun e => e <| es_Status := status |> |>
  | None => record
  end.

Definition apply_fatal (event : RunEventRecord) (record : RunRecord) : RunRecord :=
  if (er_Kind event =s EventFatalError) && (rr_Status record =s "")
  then record <| rr_Status := StatusFailed |> else record.

Definition apply_usage (event : RunEventRecord) (record : RunRecord) : RunRecord :=
  if er_Kind event =s EventUsage then
    match any_at (er_Payload event) "usage" with
    | AUsage usage => record <| rr_Usage := usage |>
    | _ => record
    end
  else record.

Definition apply_artifact (event : RunEventRecord) (record : RunRecord) : RunRecord :=
  if er_Kind event =s EventArtifact then
    match any_at (er_Payload event) "artifact" with
    | AArtifact artifact =>
        record <| rr_Artifacts ::= fun l => (l ++ [withProducerMetadata artifact record])%list |>
    | _ => record
    end
  else record.

Definition apply_event (now : Time) (event : RunEventRecord) (record : RunRecord) : RunRecord :=
  apply_artifact event (apply_usage event (apply_fatal event (apply_status event
    (apply_latest now event record)))).

Definition applyEventLocked (event : RunEventRecord) : St (observedRun Store Sink) unit :=
  let* t := now in
  update_record (apply_event t event).

(** The loop over the sinks; the result is the sinks as the calls leave them. *)
Fixpoint feed_sinks (event : RunEventRecord) (sinks : list (NamedEventSink Sink))
    : St (observedRun Store Sink) (list (NamedEventSink Sink)) :=
  match sinks with
  | [] => ret []
  | sink :: rest =>
      match nes_Sink sink with
      | None => let* rest := feed_sinks event rest in ret (sink :: rest)
      | Some k =>
          let* answer := consult (fun tick => sink_AppendEvent tick event k) in
          match fst answer with
          | Some err => recordFailure "event_sink" (nes_Name sink) (nes_Required sink) err
          | None => ret tt
          end ;;
          let* rest := feed_sinks event rest in
          ret (sink <| nes_Sink := Some (snd answer) |> :: rest)
      end
  end.

Definition store_event (event : RunEventRecord) : St (observedRun Store Sink) unit :=
  let* r := get in
  match ob_store r with
  | None => ret tt
  | Some store =>
      let* answer := consult (fun tick => store_AppendEvent tick event store) in
      modify (fun r => r <| ob_store := Some (snd answer) |>) ;;
      match fst answer with
      | Some err => recordFailure "store_append_event" "store" false err
      | None => ret tt
      end
  end.

Definition appendRecord (event : RunEventRecord) : St (observedRun Store Sink) unit :=
  applyEventLocked event ;;
  let* r := get in
  let* sinks := feed_sinks event (ob_sinks r) in
  modify (fun r => r <| ob_sinks := sinks |>) ;;
  store_event event ;;
  upsertIfDue.

(** ** The goroutine [forward] *)

(** The events that are dropped when the channel is full. *)
Definition droppable (event : Event) : bool := one_of (Event_Kind event) [EventMessage; EventProgress].

(** The [select] without a default: it blocks while the channel is full and the
    context is live. [None] means that it still blocks after [fuel] looks. *)
Fixpoint blocking_send (fuel : nat) : St (observedRun Store Sink) (option bool) :=
  match fuel with
  | O => ret None
  | S fuel =>
      let* sending := consult (env_send env) in
      match sending with
      | SendDelivered => ret (Some true)
      | SendDiscarded => ret (Some false)
      | SendFull => blocking_send fuel
      end
  end.

(** How the loop of [forward] ends: at the end of the inner events, by the
    return when the context is done, or not, blocked on a full channel. *)
Inductive forwarding : Type := Drained | Stopped | Blocked.

Definition deliver (event : Event) : St (observedRun Store Sink) unit :=
  modify (fun r => r <| ob_events ::= fun l => (l ++ [event])%list |>).

(** The body of the loop; [None] goes on with the next event. *)
Definition forward_event (fuel : nat) (event : Event) : St (observedRun Store Sink) (option forwarding) :=
  let* record := eventRecord event in
  appendRecord record ;;
  let* sending := consult (env_send env) in
  match sending with
  | SendDiscarded => ret (Some Stopped)
  | SendDelivered => deliver event ;; ret None
  | SendFull =>
      if droppable event then recordDroppedEvent ;; ret None
      else
        let* sent := blocking_send fuel in
        match sent with
        | Some true => deliver event ;; ret None
        | Some false => ret (Some Stopped)
        | None => ret (Some Blocked)
        end
  end.

Fixpoint forward_loop (fuel : nat) (events : list Event) : St (observedRun Store Sink) forwarding :=
  match events with
  | [] => ret Drained
  | event :: rest =>
      let* ending := forward_event fuel event in
      match ending with
      | Some ending => ret ending
      | None => forward_loop fuel rest
      end
  end.

Definition forward (fuel : nat) : St (observedRun Store Sink) forwarding :=
  let* r := get in
  let* ending := forward_loop fuel (run_Events (ob_inner r)) in
  match ending with
  | Blocked => ret Blocked
  | _ => modify (fun r => r <| ob_done := true |>) ;; ret ending
  end.

(** ** The end of the run *)
Definition mergeResultLocked (result : RunResult) : St (observedRun Store Sink) unit :=
  update_record (fun record => record
    <| rr_RunID ::= fun id => firstRunID (res_RunID result) id |>
    <| rr_SessionID := res_SessionID result |> <| rr_TurnID := res_TurnID result |>
    <| rr_Status ::= fun s => or_else (res_Status result) s |>) ;;
  let* r := get in
  (if negb (Terminal (rr_Status (ob_record r))) && negb (match res_Err result with Some _ => true | None => false end)
      && negb (match ob_waitErr r with Some _ => true | None => false end)
      && negb (time.IsZero (res_FinishedAt result))
   then update_record (fun record => record <| rr_Status := StatusCompleted |>) else ret tt) ;;
  update_record (fun record => record
    <| rr_StartedAt ::= fun t => firstTime (res_StartedAt result) t |>
    <| rr_FinishedAt := res_FinishedAt result |>) ;;
  (if time.IsZero (res_FinishedAt result) then ret tt
   else
     let* t := now in
     update_record (fun record => record <| rr_CompletedAt := t |>
       <| rr_Duration := time.Sub (res_FinishedAt result) (rr_StartedAt record) |>)) ;;
  update_record (fun record =>
    let metadata := res_Metadata result in
    let record := record
      <| rr_Context ::= fun c => firstContext (md_Context metadata) c |>
      <| rr_ParentRunID ::= fun id => firstRunID (md_ParentRunID metadata) id |>
      <| rr_Attempts := md_Attempts metadata |> <| rr_Policy := md_Policy metadata |>
      <| rr_Session := md_Session metadata |> <| rr_Permissions := md_Permissions metadata |>
      <| rr_Cleanup := md_Cleanup metadata |> <| rr_Validation := md_Validation metadata |>
      <| rr_Repair := md_Repair metadata |> in
    record
      <| rr_Artifacts := mergeArtifacts (rr_Artifacts record) (res_Artifacts result)
                           (md_Artifacts metadata) record |>
      <| rr_Warnings := (res_Warnings result ++ md_Warnings metadata)%list |>
      <| rr_Errors := (md_Errors metadata ++ match res_Err result with Some e => [e] | None => [] end)%list |>
      <| rr_Usage := firstUsage [md_Usage metadata; res_Usage result; rr_Usage record] |>
      <| rr_EstimatedCost := md_EstimatedCost metadata |> <| rr_CostSource := md_CostSource metadata |>
      <| rr_ThroughputTPS := md_ThroughputTPS metadata |>
      <| rr_NativeMetadata := cloneAnyMap (md_NativeMetadata metadata) |>).

(** [Wait], once the inner run has answered: [None] while [forward] runs. *)
Definition observedRun_Wait : St (observedRun Store Sink) (option (RunResult * option error)) :=
  let* r := get in
  let '(result, err) := run_Wait (ob_inner r) in
  if ob_done r then
    modify (fun r => r <| ob_result := result |>
                       <| ob_waitErr := mergeRequiredObserverError err (ob_record r) |>) ;;
    mergeResultLocked result ;;
    upsert ;;
    let* r := get in
    ret (Some (result, ob_waitErr r))
  else ret None.

(** ** [StartRun] *)
Record ObservingRuntime := mkObservingRuntime {
  or_Runtime : option RuntimeRef;
  or_Store : option Store;
  or_Sinks : list (NamedEventSink Sink);
  or_Policy : PersistencePolicy
}.

Definition first_record (inner : Run) (req : RunRequest) (startedAt observedAt : Time) : RunRecord :=
  zero <| rr_RunID := run_ID inner |> <| rr_ParentRunID := reqParentRunID req |>
       <| rr_SessionID := req_SessionID req |> <| rr_TurnID := req_TurnID req |>
       <| rr_Status := StatusStarting |>
       <| rr_Context := zero <| ctx_Provider := req_Provider req |> <| ctx_Model := req_Model req |> |>
       <| rr_EffectiveConfigSummary := effectiveConfigSummary req |>
       <| rr_StartedAt := startedAt |> <| rr_ObservedAt := observedAt |>.

(** [start] is the [StartRun] of the wrapped runtime. The clock is read at the
    ticks 0 and 1. *)
Definition ObservingRuntime_StartRun (start : RuntimeRef -> RunRequest -> error + Run)
    (o : ObservingRuntime) (req : RunRequest) : error + observedRun Store Sink :=
  match or_Runtime o with
  | None => inl (ESDK (NewError ErrorConfiguration "observing runner" "runtime is required" None []))
  | Some rt =>
      match start rt req with
      | inl err => inl err
      | inr inner =>
          inr (snd (upsert (mkobservedRun inner (or_Store o) (or_Sinks o) (or_Policy o) 0%Z zero
            (first_record inner req (env_now env 0) (env_now env 1)) zero None [] false 2)))
      end
  end.

(** The life of a run: [StartRun], [forward], [Wait]. *)
Definition ObservingRuntime_run (start : RuntimeRef -> RunRequest -> error + Run)
    (o : ObservingRuntime) (req : RunRequest) (fuel : nat)
    : error + option (RunResult * option error) * observedRun Store Sink :=
  match ObservingRuntime_StartRun start o req with
  | inl err => inl err
  | inr r => inr (observedRun_Wait (snd (forward fuel r)))
  end.

(** The interface [RunInspector]: its methods go to the store, if there is one;
    the runtime that is left has the store as the call left it. *)
Definition inspect {A} (none : A) (f : Store -> (A * option error) * Store) (o : ObservingRuntime)
    : (A * option error) * ObservingRuntime :=
  match or_Store o with
  | None => ((none, None), o)
  | Some store =>
      let '(answer, store) := f store in
      (answer, mkObservingRuntime (or_Runtime o) (Some store) (or_Sinks o) (or_Policy o))
  end.

Definition ObservingRuntime_ListActiveRuns (tick : nat) : ObservingRuntime -> (list RunRecord * option error) * ObservingRuntime :=
  inspect [] (store_ListActiveRuns tick).
Definition ObservingRuntime_GetCompletedRun (tick : nat) (id : RunID)
    : ObservingRuntime -> (option RunRecord * option error) * ObservingRuntime :=
  inspect None (store_GetCompletedRun tick id).
Definition ObservingRuntime_ListRunEvents (tick : nat) (id : RunID)
    : ObservingRuntime -> (list RunEventRecord * option error) * ObservingRuntime :=
  inspect [] (store_ListRunEvents tick id).
End Observed.

(** * Theorems *)

(** ** What the book-keeping leaves alone

    [frame] forgets the clock, the store, the sinks and what their failures
    write: calls of the store and of the sinks keep everything else. *)
Definition quiet (record : RunRecord) : RunRecord :=
  record <| rr_SinkFailures := [] |> <| rr_StoreFailures := [] |> <| rr_Warnings := [] |>.

Section Frame.
Context {Store Sink : Type} `{!RunStore Store, !EventSink Sink} (env : RunEnv).
Implicit Types r : observedRun Store Sink.

Definition frame (r : observedRun Store Sink) : observedRun Store Sink :=
  r <| ob_tick := 0 |> <| ob_lastUpsert := zero |> <| ob_store := None |> <| ob_sinks := [] |>
    <| ob_record ::= quiet |>.

#[local] Abbreviation keeps_frame := (keeps frame).

Lemma keeps_consult {A} (f : nat -> A) : keeps_frame (consult f).
Proof. intros r0 r Hr. exact Hr. Qed.
#[local] Hint Resolve keeps_consult : agentwrap.

Lemma keeps_recordFailure op name required err : keeps_frame (recordFailure env op name required err).
Proof.
  apply keeps_bind; [apply keeps_consult|]. intros t. apply keeps_modify. intros r. by destruct (_ || _).
Qed.
#[local] Hint Resolve keeps_recordFailure : agentwrap.

Lemma keeps_upsert : keeps_frame (upsert env).
Proof.
  apply keeps_bind; [auto with agentwrap|]. intros r. destruct (ob_store r); [|auto with agentwrap].
  apply keeps_bind; [auto with agentwrap|]. intros answer.
  apply keeps_bind; [by apply keeps_modify|]. intros _. destruct (fst answer); auto with agentwrap.
Qed.
#[local] Hint Resolve keeps_upsert : agentwrap.

Lemma keeps_upsertIfDue : keeps_frame (upsertIfDue env).
Proof.
  apply keeps_bind; [auto with agentwrap|]. intros r. apply keeps_bind; [apply keeps_consult|]. intros t.
  case_match; [auto with agentwrap|]. apply keeps_bind; [by apply keeps_modify|auto with agentwrap].
Qed.

Lemma keeps_feed_sinks event sinks : keeps_frame (feed_sinks env event sinks).
Proof.
  induction sinks as [|sink rest IH]; cbn; [auto with agentwrap|]. destruct (nes_Sink sink); [|auto with agentwrap].
  apply keeps_bind; [auto with agentwrap|]. intros answer.
  apply keeps_bind; [destruct (fst answer); auto with agentwrap|auto with agentwrap].
Qed.

Lemma keeps_store_event event : keeps_frame (store_event env event).
Proof.
  apply keeps_bind; [auto with agentwrap|]. intros r. destruct (ob_store r); [|auto with agentwrap].
  apply keeps_bind; [auto with agentwrap|]. intros answer.
  apply keeps_bind; [by apply keeps_modify|]. intros _. destruct (fst answer); auto with agentwrap.
Qed.

(** [appendRecord] does to the frame what [applyEventLocked] does. *)
Lemma appendRecord_frame event r :
  exists t, frame (appendRecord env event r).2 = frame (r <| ob_record ::= apply_event t event |>).
Proof.
  exists (env_now env (ob_tick r)).
  set (r1 := r <| ob_tick ::= S |> <| ob_record ::= apply_event (env_now env (ob_tick r)) event |>).
  change (frame (r <| ob_record ::= apply_event (env_now env (ob_tick r)) event |>)) with (frame r1).
  change (frame ((let* r := get in
    let* sinks := feed_sinks env event (ob_sinks r) in
    modify (fun r => r <| ob_sinks := sinks |>) ;; store_event env event ;; upsertIfDue env) r1).2 = frame r1).
  apply keeps_bind; [apply keeps_get| |done]. intros r'.
  apply keeps_bind; [apply keeps_feed_sinks|]. intros sinks.
  apply keeps_bind; [by apply keeps_modify|]. intros _.
  apply keeps_bind; [apply keeps_store_event|]. intros _. apply keeps_upsertIfDue.
Qed.
End Frame.

(** ** The projection of the events

    The record as a reader of the store sees it, without the times and the
    failures of observers; and what one event means for it. *)
Definition view (record : RunRecord) : RunRecord :=
  quiet record <| rr_ObservedAt := zero |> <| rr_LatestEvent := zero |> <| rr_DroppedEventCount := 0%Z |>.

Definition next_status (event : Event) (status : RunStatus) : RunStatus :=
  match statusFromPayload (ev_Payload event) with
  | Some status' => if (Event_Kind event =s EventFatalError) && (status' =s "") then StatusFailed else status'
  | None => if (Event_Kind event =s EventFatalError) && (status =s "") then StatusFailed else status
  end.

Definition event_usage (kind : EventKind) (payload : EventPayload) : option Usage :=
  if kind =s EventUsage
  then match any_at payload "usage" with AUsage usage => Some usage | _ => None end else None.

Definition event_artifact (kind : EventKind) (payload : EventPayload) : option ArtifactRef :=
  if kind =s EventArtifact
  then match any_at payload "artifact" with AArtifact artifact => Some artifact | _ => None end else None.

Definition project (record : RunRecord) (event : Event) : RunRecord :=
  record <| rr_EventCount ::= Z.succ |> <| rr_Status ::= next_status event |>
    <| rr_Usage ::= fun usage => default usage (event_usage (Event_Kind event) (ev_Payload event)) |>
    <| rr_Artifacts ::= fun l => (l ++ match event_artifact (Event_Kind event) (ev_Payload event) with
         | Some artifact => [withProducerMetadata artifact record] | None => [] end)%list |>.

Lemma any_at_clone payload key : any_at (clonePayload payload) key = any_at payload key.
Proof.
  destruct payload as [m|]; [|done]. cbn. destruct (decide (m = ∅)) as [->|]; [|done].
  cbn. by rewrite lookup_empty.
Qed.

Lemma statusFromPayload_clone payload : statusFromPayload (clonePayload payload) = statusFromPayload payload.
Proof. unfold statusFromPayload. cbn [first_status]. by rewrite !any_at_clone. Qed.

Lemma raw_record_fields policy raw record :
  er_Payload (raw_record policy raw record) = er_Payload record /\
  er_Kind (raw_record policy raw record) = er_Kind record.
Proof. destruct raw as [raw|]; [|done]. cbn. by destruct (_ || _). Qed.

Lemma event_record_fields policy id t seq event :
  er_Payload (event_record policy id t seq event) = clonePayload (ev_Payload event) /\
  er_Kind (event_record policy id t seq event) = Event_Kind event.
Proof.
  unfold event_record.
  set (r0 := _ <| er_StoredAt := t |>).
  destruct (raw_record_fields policy (ev_Raw event) r0) as [-> ->]. done.
Qed.

Lemma withProducer_ext artifact record record' :
  rr_RunID record = rr_RunID record' -> rr_Context record = rr_Context record' ->
  withProducerMetadata artifact record = withProducerMetadata artifact record'.
Proof. intros H1 H2. unfold withProducerMetadata. by rewrite H1, H2. Qed.

(** The steps of [applyEventLocked] seen through [view]. *)
Lemma view_latest now event record :
  view (apply_latest now event record) = view record <| rr_EventCount ::= Z.succ |>.
Proof. done. Qed.

Lemma view_status event record :
  view (apply_status event record) =
    view record <| rr_Status ::= fun s => default s (statusFromPayload (er_Payload event)) |>.
Proof. unfold apply_status. by destruct (statusFromPayload _). Qed.

Lemma view_fatal event record :
  view (apply_fatal event record) =
    view record <| rr_Status ::= fun s => if (er_Kind event =s EventFatalError) && (s =s "") then StatusFailed else s |>.
Proof.
  unfold apply_fatal, upd_field at 2. cbv zeta beta.
  change (rr_Status (view record)) with (rr_Status record). by destruct (_ && _).
Qed.

Lemma view_usage event record :
  view (apply_usage event record) =
    view record <| rr_Usage ::= fun usage => default usage (event_usage (er_Kind event) (er_Payload event)) |>.
Proof. unfold apply_usage, event_usage. destruct (er_Kind event =s EventUsage); [|done]. by destruct (any_at _ "usage"). Qed.

Lemma view_artifact event record :
  view (apply_artifact event record) =
    view record <| rr_Artifacts ::= fun l => (l ++
      match event_artifact (er_Kind event) (er_Payload event) with
      | Some artifact => [withProducerMetadata artifact (view record)] | None => []
      end)%list |>.
Proof.
  assert (view record = view record <| rr_Artifacts ::= fun l => (l ++ [])%list |>) as E
    by (unfold upd_field at 1; by rewrite app_nil_r).
  unfold apply_artifact, event_artifact. destruct (er_Kind event =s EventArtifact); [|exact E].
  destruct (any_at _ "artifact"); try exact E. done.
Qed.

Lemma event_parts_clone kind payload :
  event_usage kind (clonePayload payload) = event_usage kind payload /\
  event_artifact kind (clonePayload payload) = event_artifact kind payload.
Proof. unfold event_usage, event_artifact. by rewrite !any_at_clone. Qed.

Lemma apply_event_project policy id t seq now event record :
  view (apply_event now (event_record policy id t seq event) record) = project (view record) event.
Proof.
  destruct (event_record_fields policy id t seq event) as [Hp Hk].
  unfold apply_event. rewrite view_artifact, view_usage, view_fatal, view_status, view_latest, Hp, Hk.
  destruct (event_parts_clone (Event_Kind event) (ev_Payload event)) as [-> ->].
  rewrite statusFromPayload_clone. generalize (view record) as v. intros v. unfold project, next_status.
  destruct (event_artifact _ _) as [a|];
    [match goal with |- context [withProducerMetadata a (upd_field rr_Usage ?f ?R)] =>
       rewrite (withProducer_ext a (upd_field rr_Usage f R) v) by done end|];
    destruct (statusFromPayload _), (Event_Kind event =s EventFatalError); reflexivity.
Qed.

Lemma apply_event_dropped now event record :
  rr_DroppedEventCount (apply_event now event record) = rr_DroppedEventCount record.
Proof.
  unfold apply_event.
  assert (H1 : forall r, rr_DroppedEventCount (apply_artifact event r) = rr_DroppedEventCount r)
    by (intros r; unfold apply_artifact; destruct (_ =s _); [|done]; by destruct (any_at _ "artifact")).
  assert (H2 : forall r, rr_DroppedEventCount (apply_usage event r) = rr_DroppedEventCount r)
    by (intros r; unfold apply_usage; destruct (_ =s _); [|done]; by destruct (any_at _ "usage")).
  assert (H3 : forall r, rr_DroppedEventCount (apply_fatal event r) = rr_DroppedEventCount r)
    by (intros r; unfold apply_fatal; by destruct (_ && _)).
  assert (H4 : forall r, rr_DroppedEventCount (apply_status event r) = rr_DroppedEventCount r)
    by (intros r; unfold apply_status; by destruct (statusFromPayload _)).
  by rewrite H1, H2, H3, H4.
Qed.

(** ** Forwarding *)
Section Forward.
Context {Store Sink : Type} `{!RunStore Store, !EventSink Sink} (env : RunEnv).
Implicit Types r : observedRun Store Sink.

(** What is left of the handle when the book-keeping is taken away: two handles
    with one frame agree on it. *)
Lemma frame_view r1 r2 :
  frame r1 = frame r2 ->
  view (ob_record r1) = view (ob_record r2) /\ ob_events r1 = ob_events r2 /\
  rr_DroppedEventCount (ob_record r1) = rr_DroppedEventCount (ob_record r2) /\
  ob_seq r1 = ob_seq r2 /\ ob_inner r1 = ob_inner r2 /\ ob_policy r1 = ob_policy r2.
Proof.
  intros H.
  change (view (ob_record (frame r1)) = view (ob_record (frame r2)) /\ ob_events (frame r1) = ob_events (frame r2) /\
    rr_DroppedEventCount (ob_record (frame r1)) = rr_DroppedEventCount (ob_record (frame r2)) /\
    ob_seq (frame r1) = ob_seq (frame r2) /\ ob_inner (frame r1) = ob_inner (frame r2) /\
    ob_policy (frame r1) = ob_policy (frame r2)). by rewrite H.
Qed.

(** The handle [r'] is [r] after one more event was recorded, with the channel
    and the count of dropped events as given. *)
Definition recorded (event : Event) (events : list Event) (dropped : Z)
    (r r' : observedRun Store Sink) : Prop :=
  view (ob_record r') = project (view (ob_record r)) event /\
  ob_events r' = events /\ rr_DroppedEventCount (ob_record r') = dropped /\
  ob_seq r' = Z.succ (ob_seq r) /\ ob_inner r' = ob_inner r.

Lemma record_event_spec event r :
  let r' := ((let* record := eventRecord env event in appendRecord env record) r).2 in
  recorded event (ob_events r) (rr_DroppedEventCount (ob_record r)) r r'.
Proof.
  cbv zeta. set (r1 := r <| ob_tick ::= S |> <| ob_seq ::= Z.succ |>).
  set (er := event_record (ob_policy r) (run_ID (ob_inner r)) (env_now env (ob_tick r)) (Z.succ (ob_seq r)) event).
  change ((bind (eventRecord env event) (fun record => appendRecord env record) r).2) with
    ((appendRecord env er r1).2).
  destruct (appendRecord_frame env er r1) as [t Hf].
  destruct (frame_view _ _ Hf) as (Hv & He & Hd & Hs & Hi & _).
  unfold recorded. rewrite Hv, He, Hd, Hs, Hi. split_and!; try done; cbn [ob_record upd_field].
  - change (view (apply_event t er (ob_record r)) = project (view (ob_record r)) event). apply apply_event_project.
  - change (rr_DroppedEventCount (apply_event t er (ob_record r)) = rr_DroppedEventCount (ob_record r)).
    apply apply_event_dropped.
Qed.

Lemma blocking_send_spec fuel r :
  let '(sent, r') := blocking_send env fuel r in
  r' = r <| ob_tick := ob_tick r' |> /\
  (sent = Some false -> exists t e, env_ctxErr env t = Some e).
Proof.
  revert r. induction fuel as [|fuel IH]; intros r; cbn [blocking_send]; [by destruct r|].
  unfold bind, consult. destruct (env_send env (ob_tick r)) eqn:E.
  - by destruct r.
  - split; [by destruct r|]. intros _. unfold env_send in E.
    destruct (env_ctxErr env (ob_tick r)) as [e|] eqn:Ec; [by eauto|by destruct (env_room _ _)].
  - specialize (IH (r <| ob_tick ::= S |>)). destruct (blocking_send env fuel _) as [sent r'].
    destruct IH as [-> H]. split; [by destruct r|done].
Qed.

(** What the handle does after the event was recorded. *)
Lemma recorded_then event events dropped events' r r1 r2 :
  recorded event events dropped r r1 ->
  ob_record r2 = ob_record r1 -> ob_events r2 = events' -> ob_seq r2 = ob_seq r1 -> ob_inner r2 = ob_inner r1 ->
  recorded event events' dropped r r2.
Proof. intros (Hv & He & Hd & Hs & Hi) Er Ee Es Ei. unfold recorded. by rewrite Er, Es, Ei. Qed.

Lemma recorded_drop event events dropped r r1 t :
  recorded event events dropped r r1 ->
  recorded event events (Z.succ dropped) r
    (r1 <| ob_tick := t |> <| ob_record ::= fun record => record <| rr_DroppedEventCount ::= Z.succ |> |>).
Proof. intros (Hv & He & Hd & Hs & Hi). split; [exact Hv|]. rewrite <-Hd. by split_and!. Qed.

(** One round of the loop of [forward]. *)
Lemma forward_event_spec fuel event r :
  let '(ending, r') := forward_event env fuel event r in
  match ending with
  | None =>
      recorded event (ob_events r ++ [event])%list (rr_DroppedEventCount (ob_record r)) r r' \/
      droppable event = true /\
        recorded event (ob_events r) (Z.succ (rr_DroppedEventCount (ob_record r))) r r'
  | Some ending =>
      recorded event (ob_events r) (rr_DroppedEventCount (ob_record r)) r r' /\ ending <> Drained /\
      (ending = Stopped -> exists t e, env_ctxErr env t = Some e)
  end.
Proof.
  pose proof (record_event_spec event r) as H. cbv zeta in H. rewrite bind_run in H.
  unfold forward_event. rewrite bind_run, bind_run.
  set (r1 := (appendRecord env (eventRecord env event r).1 (eventRecord env event r).2).2) in *.
  clearbody r1. pose proof H as (_ & He & _ & _ & _). unfold bind at 1, consult.
  destruct (env_send env (ob_tick r1)) eqn:E.
  - left. apply (recorded_then _ _ _ _ _ r1 _ H); [done| |done|done]. cbn [ob_events upd_field]. by rewrite <-He.
  - split; [by apply (recorded_then _ _ _ _ _ r1 _ H)|]. split; [done|]. intros _. unfold env_send in E.
    destruct (env_ctxErr env (ob_tick r1)) as [e|] eqn:Ec; [by eauto|by destruct (env_room _ _)].
  - destruct (droppable event) eqn:Hdr.
    + right. split; [done|]. by apply recorded_drop.
    + unfold bind at 1. pose proof (blocking_send_spec fuel (r1 <| ob_tick ::= S |>)) as Hb.
      destruct (blocking_send env fuel _) as [[[]|] r2]; destruct Hb as [-> Hb].
      * left. apply (recorded_then _ _ _ _ _ r1 _ H); [done| |done|done]. cbn [ob_events upd_field]. by rewrite <-He.
      * split; [by apply (recorded_then _ _ _ _ _ r1 _ H)|]. split; [done|]. by auto.
      * split; [by apply (recorded_then _ _ _ _ _ r1 _ H)|]. done.
Qed.

(** [passed events delivered n]: [delivered] is [events] without [n] droppable
    ones. *)
Inductive passed : list Event -> list Event -> Z -> Prop :=
| passed_nil : passed [] [] 0
| passed_deliver event events delivered n :
    passed events delivered n -> passed (event :: events) (event :: delivered) n
| passed_drop event events delivered n :
    droppable event = true -> passed events delivered n -> passed (event :: events) delivered (Z.succ n).

(** The account of a loop that went from [r] to [r']. *)
Definition accounted (events : list Event) (ending : forwarding) (r r' : observedRun Store Sink) : Prop :=
  exists consumed rest delivered dropped,
    events = (consumed ++ rest)%list /\
    view (ob_record r') = foldl project (view (ob_record r)) consumed /\
    ob_seq r' = (ob_seq r + Z.of_nat (length consumed))%Z /\
    ob_events r' = (ob_events r ++ delivered)%list /\
    rr_DroppedEventCount (ob_record r') = (rr_DroppedEventCount (ob_record r) + dropped)%Z /\
    match ending with
    | Drained => rest = [] /\ passed consumed delivered dropped
    | _ => exists front last, consumed = (front ++ [last])%list /\ passed front delivered dropped
    end /\
    (ending = Stopped -> exists t e, env_ctxErr env t = Some e).

Lemma accounted_step event events ending delivered n r r1 r' :
  recorded event (ob_events r ++ delivered)%list (rr_DroppedEventCount (ob_record r) + n)%Z r r1 ->
  (forall es ds m, passed es ds m -> passed (event :: es) (delivered ++ ds)%list (n + m)%Z) ->
  accounted events ending r1 r' -> accounted (event :: events) ending r r'.
Proof.
  intros (Hv & He & Hd & Hs & _) Hp (consumed & rest & ds & m & -> & Hv' & Hs' & He' & Hd' & Hend & Hst).
  exists (event :: consumed), rest, (delivered ++ ds)%list, (n + m)%Z. split; [done|].
  split; [by rewrite Hv', Hv|]. split; [rewrite Hs', Hs; cbn [length]; lia|].
  split; [by rewrite He', He, app_assoc|]. split; [rewrite Hd', Hd; lia|]. split; [|done].
  destruct ending; [destruct Hend; auto|..]; destruct Hend as (front & last & -> & Hf);
    exists (event :: front), last; auto.
Qed.

Lemma forward_loop_spec fuel events r :
  let '(ending, r') := forward_loop env fuel events r in
  accounted events ending r r' /\ ob_inner r' = ob_inner r.
Proof.
  revert r. induction events as [|event events IH]; intros r; cbn [forward_loop].
  { split; [|done]. exists [], [], [], 0%Z. split; [done|]. split; [done|].
    split; [cbn [length]; lia|]. split; [by rewrite app_nil_r|]. split; [lia|].
    split; [split; [done|constructor]|done]. }
  unfold bind. pose proof (forward_event_spec fuel event r) as H.
  destruct (forward_event env fuel event r) as [[ending|] r1].
  - destruct H as ((Hv & He & Hd & Hs & Hi) & Hne & Hst). split; [|done].
    exists [event], events, [], 0%Z. split; [done|]. split; [done|]. split; [rewrite Hs; cbn [length]; lia|].
    split; [by rewrite app_nil_r|]. split; [rewrite Hd; lia|]. split; [|done].
    destruct ending; [done|..]; exists [], event; (split; [done|constructor]).
  - specialize (IH r1). destruct (forward_loop env fuel events r1) as [ending r'].
    destruct IH as [Hacc Hi]. destruct H as [H|[Hdr H]]; pose proof H as (_ & _ & _ & _ & Hi1); (split; [|by rewrite Hi]).
    + apply (accounted_step event events ending [event] 0%Z r r1); [by rewrite Z.add_0_r| |done].
      intros es ds m Hp. rewrite Z.add_0_l. by constructor.
    + apply (accounted_step event events ending [] 1%Z r r1); [by rewrite app_nil_r, Z.add_1_r| |done].
      intros es ds m Hp. rewrite Z.add_1_l. by constructor.
Qed.

(** A consumer that leaves room within [fuel] looks from any moment on. *)
Lemma blocking_send_delivers fuel r :
  env_done env = None -> (exists k, k < fuel /\ env_room env (ob_tick r + k) = true) ->
  (blocking_send env fuel r).1 = Some true.
Proof.
  intros Hd. revert r. induction fuel as [|fuel IH]; intros r (k & Hk & Hroom); [lia|].
  cbn [blocking_send]. unfold bind, consult, env_send at 1, env_ctxErr at 1. rewrite Hd.
  destruct (env_room env (ob_tick r)) eqn:E; [done|]. apply IH. destruct k as [|k].
  - rewrite Nat.add_0_r in Hroom. congruence.
  - exists k. split; [lia|]. cbn. by rewrite <-Nat.add_succ_r.
Qed.

Lemma forward_event_goes_on fuel event r :
  env_done env = None -> (forall t, exists k, k < fuel /\ env_room env (t + k) = true) ->
  (forward_event env fuel event r).1 = None.
Proof.
  intros Hd Hroom. unfold forward_event. rewrite bind_run, bind_run, bind_run.
  unfold consult at 1, env_send, env_ctxErr. rewrite Hd. cbn [fst].
  destruct (env_room _ _); [done|]. destruct (droppable event); [done|]. rewrite bind_run.
  by rewrite blocking_send_delivers by auto.
Qed.

Lemma forward_loop_drains fuel events r :
  env_done env = None -> (forall t, exists k, k < fuel /\ env_room env (t + k) = true) ->
  (forward_loop env fuel events r).1 = Drained.
Proof.
  intros Hd Hroom. revert r. induction events as [|event events IH]; intros r; [done|].
  cbn [forward_loop]. rewrite bind_run. by rewrite forward_event_goes_on.
Qed.

Lemma forward_run fuel r :
  let '(ending, r') := forward_loop env fuel (run_Events (ob_inner r)) r in
  forward env fuel r = (ending, match ending with Blocked => r' | _ => r' <| ob_done := true |> end).
Proof.
  unfold forward, get, bind. destruct (forward_loop env fuel (run_Events (ob_inner r)) r) as [[] r']; done.
Qed.

(** C19: what [forward] does with the events of the inner run, on every
    schedule of the channel and of the context. It consumes a prefix of them in
    order; the record is the projection of that prefix, with one sequence
    number per event; the caller gets the prefix without the droppable events
    counted in [DroppedEventCount] - only messages and progress - and without
    its last event if the loop ended early. It ends early only when the context
    is done, or is blocked while nobody reads the channel. *)
Theorem forward_accounting fuel r :
  let '(ending, r') := forward env fuel r in
  accounted (run_Events (ob_inner r)) ending r r' /\ (ending <> Blocked -> ob_done r' = true).
Proof.
  pose proof (forward_run fuel r) as Hf. pose proof (forward_loop_spec fuel (run_Events (ob_inner r)) r) as H.
  destruct (forward_loop env fuel (run_Events (ob_inner r)) r) as [ending r']. rewrite Hf.
  destruct H as [H _]. by destruct ending.
Qed.

(** C36: while the context is live and the reader of the channel makes room
    within [fuel] looks, [forward] reads the inner events to their end; so no
    event is lost but the dropped messages and progress reports. *)
Theorem forward_drains fuel r :
  env_done env = None -> (forall t, exists k, k < fuel /\ env_room env (t + k) = true) ->
  let '(ending, r') := forward env fuel r in
  ending = Drained /\ ob_done r' = true /\
  exists delivered dropped, ob_events r' = (ob_events r ++ delivered)%list /\
    passed (run_Events (ob_inner r)) delivered dropped /\
    rr_EventCount (ob_record r') = (rr_EventCount (ob_record r) + Z.of_nat (length (run_Events (ob_inner r))))%Z.
Proof.
  intros Hd Hroom. pose proof (forward_run fuel r) as Hf.
  pose proof (forward_loop_spec fuel (run_Events (ob_inner r)) r) as H.
  pose proof (forward_loop_drains fuel (run_Events (ob_inner r)) r Hd Hroom) as Hl.
  destruct (forward_loop env fuel (run_Events (ob_inner r)) r) as [ending r']. cbn in Hl. subst ending. rewrite Hf.
  destruct H as [(consumed & rest & delivered & dropped & -> & Hv & _ & He & _ & [-> Hp] & _) _].
  split; [done|]. split; [done|]. exists delivered, dropped. rewrite app_nil_r. split; [done|]. split; [done|].
  change (rr_EventCount (view (ob_record r')) = (rr_EventCount (ob_record r) + Z.of_nat (length consumed))%Z).
  rewrite Hv. change (rr_EventCount (ob_record r)) with (rr_EventCount (view (ob_record r))).
  clear. generalize (view (ob_record r)). induction consumed as [|event consumed IH]; intros v; cbn [foldl length]; [lia|].
  rewrite IH. change (rr_EventCount (project v event)) with (Z.succ (rr_EventCount v)). lia.
Qed.
End Forward.

(** ** Records of events *)

(** Raw payloads reach sinks and the store only as the persistence policy
    allows. The raw data of an event is kept exactly when it is marked safe and
    safe data is not omitted, or it is not marked safe and the policy persists
    unsafe data; otherwise the record says that it was omitted and carries no
    byte of it. The rest of the record copies the event, with the run's own
    identifier where the event has none. *)
Theorem event_record_raw_policy policy id t seq event :
  let record := event_record policy id t seq event in
  let allowed raw := if raw_Safe raw then negb (pol_OmitSafeRawPayloads policy)
                     else pol_PersistUnsafeRawPayloads policy in
  match ev_Raw event with
  | None => er_RawPresent record = false /\ er_RawData record = [] /\ er_RawOmitted record = false
  | Some raw =>
      er_RawPresent record = true /\ er_RawSafe record = raw_Safe raw /\
      er_RawData record = (if allowed raw then raw_Data raw else []) /\
      er_RawOmitted record = negb (allowed raw)
  end /\
  er_RunID record = (if ev_RunID event =s "" then id else ev_RunID event) /\
  er_EventID record = ev_ID event /\ er_Sequence record = seq /\ er_Kind record = Event_Kind event /\
  er_Time record = ev_Time event /\ er_Payload record = clonePayload (ev_Payload event).
Proof.
  cbv zeta. unfold event_record, raw_record, or_else. destruct (ev_Raw event) as [raw|]; [|done].
  destruct (raw_Safe raw), (pol_OmitSafeRawPayloads policy), (pol_PersistUnsafeRawPayloads policy); done.
Qed.

(** ** Artifacts *)
Definition has_id (id : ArtifactID) (a : ArtifactRef) : bool := artf_ID a =s id.

Lemma merge_loop_find seen artifacts record id :
  id <> "" ->
  find (has_id id) (merge_loop seen artifacts record) =
    if decide (id ∈ seen) then None
    else (fun a => withProducerMetadata a record) <$> find (has_id id) artifacts.
Proof.
  intros Hid. revert seen. induction artifacts as [|a rest IH]; intros seen; cbn [merge_loop find].
  { by destruct (decide _). }
  assert (Hw : has_id id (withProducerMetadata a record) = has_id id a) by done.
  destruct (String.eqb_spec (artf_ID a) "") as [E|Hne].
  - assert (has_id id a = false) as Hf by (unfold has_id; apply String.eqb_neq; congruence).
    cbn [find]. rewrite Hw, Hf. apply IH.
  - destruct (decide (artf_ID a ∈ seen)) as [Hin|Hni].
    + rewrite IH. unfold has_id at 2. destruct (String.eqb_spec (artf_ID a) id); [|done]. subst.
      rewrite !(decide_True (P := artf_ID a ∈ seen)) by exact Hin. done.
    + cbn [find]. rewrite Hw, IH. unfold has_id at 1 3.
      destruct (String.eqb_spec (artf_ID a) id) as [<-|Hne']; [by rewrite decide_False|].
      destruct (decide (id ∈ seen)) as [Hs|Hs]; [by rewrite decide_True by set_solver|].
      by rewrite decide_False by set_solver.
Qed.

Lemma merge_loop_ids seen artifacts record :
  let ids := filter (.≠ "") (map artf_ID (merge_loop seen artifacts record)) in
  NoDup ids /\ (forall id, id ∈ ids -> id ∉ seen).
Proof.
  cbv zeta. revert seen. induction artifacts as [|a rest IH]; intros seen; cbn [merge_loop map].
  { split; [constructor|]. intros id Hin. by apply not_elem_of_nil in Hin. }
  destruct (String.eqb_spec (artf_ID a) "") as [E|Hne].
  - cbn [map]. change (artf_ID (withProducerMetadata a record)) with (artf_ID a).
    rewrite filter_cons_False by (intros H; by apply H). apply IH.
  - destruct (decide (artf_ID a ∈ seen)) as [Hin|Hni]; [apply IH|].
    cbn [map]. change (artf_ID (withProducerMetadata a record)) with (artf_ID a).
    rewrite filter_cons_True by done. destruct (IH ({[artf_ID a]} ∪ seen)) as [Hnd Hs]. split.
    + constructor; [|done]. intros Hin. apply Hs in Hin. set_solver.
    + intros id [->|Hin]%elem_of_cons; [done|]. apply Hs in Hin. set_solver.
Qed.

Lemma merge_loop_anonymous seen artifacts record :
  filter (fun a => artf_ID a = "") (merge_loop seen artifacts record) =
  map (fun a => withProducerMetadata a record) (filter (fun a => artf_ID a = "") artifacts).
Proof.
  revert seen. induction artifacts as [|a rest IH]; intros seen; [done|]. cbn [merge_loop].
  destruct (String.eqb_spec (artf_ID a) "") as [E|Hne].
  - rewrite !filter_cons_True by done. cbn [map]. by rewrite IH.
  - rewrite (filter_cons_False _ a) by done. destruct (decide _); [apply IH|].
    rewrite filter_cons_False by done. apply IH.
Qed.

(** Merging the artifacts seen in events with those of the result and of its
    metadata keeps each identifier once: the first artifact with the identifier
    wins, artifacts without an identifier are all kept in order, and each
    kept artifact is marked with its producer. *)
Theorem mergeArtifacts_spec existing result metadata record :
  let all := ((existing ++ result) ++ metadata)%list in
  let merged := mergeArtifacts existing result metadata record in
  NoDup (filter (.≠ "") (map artf_ID merged)) /\
  (forall id, id <> "" ->
     find (has_id id) merged = (fun a => withProducerMetadata a record) <$> find (has_id id) all) /\
  filter (fun a => artf_ID a = "") merged =
    map (fun a => withProducerMetadata a record) (filter (fun a => artf_ID a = "") all).
Proof.
  cbv zeta. unfold mergeArtifacts. split; [apply merge_loop_ids|]. split; [|apply merge_loop_anonymous].
  intros id Hid. rewrite merge_loop_find by done. by rewrite decide_False by set_solver.
Qed.

(** ** Failures of observers *)
Section Failures.
Context {Store Sink : Type} `{!RunStore Store, !EventSink Sink} (env : RunEnv).
Implicit Types r : observedRun Store Sink.

Definition label (sink : NamedEventSink Sink) : string * bool := (nes_Name sink, nes_Required sink).

(** Failures of the store never count as required, and a failure of a sink
    carries the name and the requirement of a configured sink. *)
Definition failures_ok (labels : list (string * bool)) (inner : Run) (r : observedRun Store Sink) : Prop :=
  ob_inner r = inner /\ map label (ob_sinks r) = labels /\
  Forall (fun f => sf_Required f = false) (rr_StoreFailures (ob_record r)) /\
  Forall (fun f => (sf_Name f, sf_Required f) ∈ labels) (rr_SinkFailures (ob_record r)).

Context (labels : list (string * bool)) (inner : Run).
#[local] Abbreviation ok := (failures_ok labels inner).

Lemma ok_consult {A} (f : nat -> A) : preserves ok (consult f).
Proof. intros r H. exact H. Qed.

(** An update of the record that leaves the failures alone. *)
Lemma ok_update (f : RunRecord -> RunRecord) :
  (forall record, rr_StoreFailures (f record) = rr_StoreFailures record /\
     rr_SinkFailures (f record) = rr_SinkFailures record) ->
  preserves ok (update_record f).
Proof.
  intros Hf r (Hi & Hl & Hst & Hsk). destruct (Hf (ob_record r)) as [E1 E2].
  split; [done|]. split; [done|]. cbn. by rewrite E1, E2.
Qed.

Lemma ok_recordFailure_append err : preserves ok (recordFailure env "store_append_event" "store" false err).
Proof.
  apply preserves_bind; [apply ok_consult|]. intros t r (Hi & Hl & Hst & Hsk).
  split; [done|]. split; [done|]. cbn. by rewrite Forall_snoc.
Qed.

Lemma ok_recordFailure_upsert err : preserves ok (recordFailure env "store_upsert_run" "store" false err).
Proof.
  apply preserves_bind; [apply ok_consult|]. intros t r (Hi & Hl & Hst & Hsk).
  split; [done|]. split; [done|]. cbn. by rewrite Forall_snoc.
Qed.

Lemma ok_recordFailure_sink sink err :
  label sink ∈ labels -> preserves ok (recordFailure env "event_sink" (nes_Name sink) (nes_Required sink) err).
Proof.
  intros Hin. apply preserves_bind; [apply ok_consult|]. intros t r (Hi & Hl & Hst & Hsk).
  split; [done|]. split; [done|]. cbn. by rewrite Forall_snoc.
Qed.

Lemma ok_store store : preserves ok (modify (fun r => r <| ob_store := store |>)).
Proof. by apply preserves_modify. Qed.

Lemma ok_lastUpsert t : preserves ok (modify (fun r => r <| ob_lastUpsert := t |>)).
Proof. by apply preserves_modify. Qed.

Lemma ok_seq : preserves ok (modify (fun r => r <| ob_seq ::= Z.succ |>)).
Proof. by apply preserves_modify. Qed.

Lemma ok_deliver event : preserves ok (deliver event).
Proof. by apply preserves_modify. Qed.

Lemma ok_dropped : preserves ok recordDroppedEvent.
Proof. by apply ok_update. Qed.

Lemma ok_done b : preserves ok (modify (fun r => r <| ob_done := b |>)).
Proof. by apply preserves_modify. Qed.
#[local] Hint Resolve ok_consult ok_recordFailure_append ok_recordFailure_upsert ok_store ok_lastUpsert ok_seq ok_deliver ok_dropped
  ok_done : agentwrap.

Lemma ok_upsert : preserves ok (upsert env).
Proof. unfold upsert. preserve. Qed.
#[local] Hint Resolve ok_upsert : agentwrap.

Lemma ok_upsertIfDue : preserves ok (upsertIfDue env).
Proof. unfold upsertIfDue, now. preserve. Qed.

Lemma ok_store_event event : preserves ok (store_event env event).
Proof. unfold store_event. preserve. Qed.
#[local] Hint Resolve ok_upsertIfDue ok_store_event : agentwrap.

(** The sinks come back with their labels. *)
Lemma feed_sinks_labels event sinks r : map label (feed_sinks env event sinks r).1 = map label sinks.
Proof.
  revert r. induction sinks as [|sink rest IH]; intros r; [done|]. cbn [feed_sinks].
  destruct (nes_Sink sink) as [k|] eqn:E; rewrite !bind_run; cbn [ret fst map].
  - by rewrite IH.
  - by rewrite IH.
Qed.

Lemma ok_feed_sinks event sinks :
  (forall sink, sink ∈ sinks -> label sink ∈ labels) -> preserves ok (feed_sinks env event sinks).
Proof.
  induction sinks as [|sink rest IH]; intros Hin; cbn [feed_sinks]; [apply preserves_ret|].
  assert (preserves ok (feed_sinks env event rest)) as Hrest by (apply IH; intros s Hs; apply Hin; by right).
  destruct (nes_Sink sink) as [k|].
  - apply preserves_bind; [apply ok_consult|]. intros answer. apply preserves_bind.
    + destruct (fst answer); [apply ok_recordFailure_sink, Hin; by left|apply preserves_ret].
    + intros _. apply preserves_bind; [done|]. intros ?. apply preserves_ret.
  - apply preserves_bind; [done|]. intros ?. apply preserves_ret.
Qed.

Lemma apply_event_failures now event record :
  rr_StoreFailures (apply_event now event record) = rr_StoreFailures record /\
  rr_SinkFailures (apply_event now event record) = rr_SinkFailures record.
Proof.
  set (same := fun record' => rr_StoreFailures record' = rr_StoreFailures record /\
    rr_SinkFailures record' = rr_SinkFailures record).
  assert (H0 : same (apply_latest now event record)) by done.
  assert (H1 : forall x, same x -> same (apply_status event x))
    by (intros x; unfold apply_status; by destruct (statusFromPayload _)).
  assert (H2 : forall x, same x -> same (apply_fatal event x))
    by (intros x; unfold apply_fatal; by destruct (_ && _)).
  assert (H3 : forall x, same x -> same (apply_usage event x))
    by (intros x; unfold apply_usage; destruct (_ =s _); [|done]; by destruct (any_at _ "usage")).
  assert (H4 : forall x, same x -> same (apply_artifact event x))
    by (intros x; unfold apply_artifact; destruct (_ =s _); [|done]; by destruct (any_at _ "artifact")).
  apply H4, H3, H2, H1, H0.
Qed.

Lemma ok_appendRecord event : preserves ok (appendRecord env event).
Proof.
  apply preserves_bind.
  { apply preserves_bind; [apply ok_consult|]. intros t. apply ok_update. intros record. apply apply_event_failures. }
  intros _ r Hr. rewrite bind_run. cbn [get fst snd]. rewrite bind_run.
  assert (ok (feed_sinks env event (ob_sinks r) r).2) as Hf.
  { apply ok_feed_sinks; [|done]. intros sink Hs. destruct Hr as (_ & <- & _). by apply list_elem_of_fmap_2. }
  pose proof (feed_sinks_labels event (ob_sinks r) r) as Hl.
  set (sinks := (feed_sinks env event (ob_sinks r) r).1) in *.
  set (r1 := (feed_sinks env event (ob_sinks r) r).2) in *. clearbody sinks r1.
  assert (ok (r1 <| ob_sinks := sinks |>)) as H1.
  { destruct Hf as (Hi & _ & Hst & Hsk). split; [done|]. split; [|done]. cbn. rewrite Hl. by destruct Hr as (_ & <- & _). }
  rewrite bind_run. cbn [modify fst snd]. revert H1. generalize (r1 <| ob_sinks := sinks |>).
  change (preserves ok (store_event env event ;; upsertIfDue env)).
  apply preserves_bind; [apply ok_store_event|]. intros _. apply ok_upsertIfDue.
Qed.

#[local] Hint Resolve ok_appendRecord : agentwrap.

Lemma ok_blocking_send fuel : preserves ok (blocking_send env fuel).
Proof. induction fuel as [|fuel IH]; cbn [blocking_send]; preserve. Qed.
#[local] Hint Resolve ok_blocking_send : agentwrap.

Lemma ok_forward_event fuel event : preserves ok (forward_event env fuel event).
Proof. unfold forward_event, eventRecord, now. preserve. Qed.
#[local] Hint Resolve ok_forward_event : agentwrap.

Lemma ok_forward_loop fuel events : preserves ok (forward_loop env fuel events).
Proof. induction events as [|event events IH]; cbn [forward_loop]; preserve. Qed.
#[local] Hint Resolve ok_forward_loop : agentwrap.

Lemma ok_forward fuel : preserves ok (forward env fuel).
Proof. unfold forward. preserve. Qed.
End Failures.

(** ** The outcome of an observed run *)
Section Outcome.
Context {Store Sink : Type} `{!RunStore Store, !EventSink Sink} (env : RunEnv).
Implicit Types r : observedRun Store Sink.

(** The error is settled and the failures of sinks are final. *)
Definition settled (err : option error) (failures : list SinkFailure) (r : observedRun Store Sink) : Prop :=
  ob_waitErr r = err /\ rr_SinkFailures (ob_record r) = failures.

Lemma settled_consult err failures {A} (f : nat -> A) : preserves (settled err failures) (consult f).
Proof. intros r H. exact H. Qed.

Lemma settled_update err failures (f : RunRecord -> RunRecord) :
  (forall record, rr_SinkFailures (f record) = rr_SinkFailures record) ->
  preserves (settled err failures) (update_record f).
Proof. intros Hf r [He Hs]. split; [done|]. cbn. by rewrite Hf. Qed.

Lemma settled_recordFailure err failures e :
  preserves (settled err failures) (recordFailure env "store_upsert_run" "store" false e).
Proof. apply preserves_bind; [apply settled_consult|]. intros t. by apply settled_update. Qed.

Lemma settled_store err failures store :
  preserves (settled err failures) (modify (fun r => r <| ob_store := store |>)).
Proof. by apply preserves_modify. Qed.
#[local] Hint Resolve settled_consult settled_recordFailure settled_store : agentwrap.

Lemma settled_upsert err failures : preserves (settled err failures) (upsert env).
Proof. unfold upsert. preserve. Qed.

Lemma settled_mergeResult err failures result : preserves (settled err failures) (mergeResultLocked env result).
Proof. unfold mergeResultLocked, now. preserve; by apply settled_update. Qed.

Lemma Wait_spec r :
  ob_done r = true ->
  let '(answer, r') := observedRun_Wait env r in
  let err := mergeRequiredObserverError (snd (run_Wait (ob_inner r))) (ob_record r) in
  answer = Some (fst (run_Wait (ob_inner r)), err) /\
  rr_SinkFailures (ob_record r') = rr_SinkFailures (ob_record r).
Proof.
  intros Hdone. unfold observedRun_Wait. rewrite bind_run. cbn [get fst snd].
  destruct (run_Wait (ob_inner r)) as [result err0]. cbn [fst snd]. rewrite Hdone.
  rewrite !bind_run. cbn [modify get ret fst snd].
  set (err := mergeRequiredObserverError err0 (ob_record r)).
  set (r1 := r <| ob_result := result |> <| ob_waitErr := err |>).
  assert (settled err (rr_SinkFailures (ob_record r)) r1) as H1 by done.
  destruct (settled_upsert _ _ _ (settled_mergeResult _ _ result _ H1)) as [He Hs].
  split; [|exact Hs]. by rewrite He.
Qed.

Lemma required_failure_spec failures :
  match required_failure failures with
  | Some e => exists f, f ∈ failures /\ sf_Required f = true /\ e = ESDK (sf_Error f)
  | None => Forall (fun f => sf_Required f = false) failures
  end.
Proof.
  induction failures as [|f failures IH]; cbn; [constructor|]. destruct (sf_Required f) eqn:E.
  - exists f. split; [by left|done].
  - destruct (required_failure failures) as [e|].
    + destruct IH as (g & Hg & H). exists g. split; [by right|done].
    + by constructor.
Qed.

Lemma required_failure_none failures :
  Forall (fun f => sf_Required f = false) failures -> required_failure failures = None.
Proof. induction 1 as [|f failures E _ IH]; cbn; [done|by rewrite E]. Qed.

(** What [StartRun] hands to the goroutine and to [Wait]. *)
Lemma StartRun_ok start (o : ObservingRuntime (Store := Store) (Sink := Sink)) req r :
  ObservingRuntime_StartRun env start o req = inr r ->
  exists rt inner, or_Runtime o = Some rt /\ start rt req = inr inner /\
    failures_ok (map label (or_Sinks o)) inner r.
Proof.
  unfold ObservingRuntime_StartRun. destruct (or_Runtime o) as [rt|]; [|done].
  destruct (start rt req) as [|inner] eqn:E; [done|]. intros [= <-]. exists rt, inner. split; [done|].
  split; [done|]. apply (ok_upsert env). by split_and!.
Qed.

(** What [Wait] answers for the run of an inner run: its result, and its error
    with the failures of required sinks. *)
Lemma run_answer start (o : ObservingRuntime (Store := Store) (Sink := Sink)) req fuel result err r :
  ObservingRuntime_run env start o req fuel = inr (Some (result, err), r) ->
  exists rt inner record, or_Runtime o = Some rt /\ start rt req = inr inner /\
    result = fst (run_Wait inner) /\ err = mergeRequiredObserverError (snd (run_Wait inner)) record /\
    rr_SinkFailures (ob_record r) = rr_SinkFailures record /\
    Forall (fun f => sf_Required f = false) (rr_StoreFailures record) /\
    Forall (fun f => (sf_Name f, sf_Required f) ∈ map label (or_Sinks o)) (rr_SinkFailures record).
Proof.
  unfold ObservingRuntime_run. destruct (ObservingRuntime_StartRun env start o req) as [|r0] eqn:Hs; [done|].
  destruct (StartRun_ok _ _ _ _ Hs) as (rt & inner & Hrt & Hst & Hok). intros [= Hw].
  pose proof (ok_forward env _ _ fuel _ Hok) as (Hi & _ & Hstore & Hsinks).
  exists rt, inner, (ob_record (forward env fuel r0).2). split; [done|]. split; [done|].
  destruct (ob_done (forward env fuel r0).2) eqn:Hdone.
  - pose proof (Wait_spec _ Hdone) as H. rewrite Hw, Hi in H. by destruct H as [[= -> ->] Hf].
  - revert Hw. unfold observedRun_Wait. rewrite bind_run. cbn [get fst snd].
    destruct (run_Wait _). by rewrite Hdone.
Qed.

(** C18: observation does not change the outcome of a run, except through a sink
    configured as required. [Wait] returns the result of the inner run as it
    is; an error of the inner run is returned as it is; without one the error
    is that of a failure of a required sink, and none if no such sink failed.
    Failures of best-effort sinks and of the store never surface. *)
Theorem ObservingRuntime_outcome start (o : ObservingRuntime (Store := Store) (Sink := Sink)) req fuel result err r :
  ObservingRuntime_run env start o req fuel = inr (Some (result, err), r) ->
  exists rt inner, or_Runtime o = Some rt /\ start rt req = inr inner /\
    result = fst (run_Wait inner) /\
    match snd (run_Wait inner), err with
    | Some e, _ => err = Some e
    | None, Some e => exists f, f ∈ rr_SinkFailures (ob_record r) /\ e = ESDK (sf_Error f) /\
        (sf_Name f, true) ∈ map label (or_Sinks o)
    | None, None => Forall (fun f => sf_Required f = false) (rr_SinkFailures (ob_record r))
    end.
Proof.
  intros H. destruct (run_answer _ _ _ _ _ _ _ H) as (rt & inner & record & Hrt & Hst & -> & -> & Hf & Hstore & Hsinks).
  exists rt, inner. split; [done|]. split; [done|]. split; [done|]. rewrite Hf. rewrite Forall_forall in Hsinks.
  unfold mergeRequiredObserverError. destruct (snd (run_Wait inner)) as [e|]; [done|].
  rewrite (required_failure_none _ Hstore). pose proof (required_failure_spec (rr_SinkFailures record)) as Hr.
  destruct (required_failure _) as [e|]; [|done]. destruct Hr as (f & Hin & Hreq & ->).
  exists f. split; [done|]. split; [done|]. rewrite <-Hreq. by apply Hsinks.
Qed.
End Outcome.

(** ** The identifier a record is stored under *)
Section Identifier.
Context {Sink : Type} `{!EventSink Sink} (env : RunEnv) (clock : nat -> Time).
#[local] Instance clocked_store : RunStore MemoryRunStore := memory_store clock.

Lemma upsert_memory (r : observedRun MemoryRunStore Sink) s :
  ob_store r = Some s ->
  upsert env r = (tt, r <| ob_tick ::= S |> <| ob_store :=
    Some (UpsertRun (clock (ob_tick r)) (clock (S (ob_tick r))) (cloneRunRecord (ob_record r)) s) |>).
Proof. intros Hs. unfold upsert. rewrite bind_run. cbn [get fst snd]. by rewrite Hs. Qed.

Lemma mergeResult_fields result (r : observedRun MemoryRunStore Sink) :
  let r' := (mergeResultLocked env result r).2 in
  ob_store r' = ob_store r /\ rr_RunID (ob_record r') = firstRunID (res_RunID result) (rr_RunID (ob_record r)).
Proof.
  cbv zeta. unfold mergeResultLocked. rewrite !bind_run. cbn [fst snd get update_record modify].
  destruct (_ && _), (time.IsZero _); done.
Qed.

(** A record moves to the identifier of the result. When the result of the
    inner run names another run than its handle does - as the result of a
    policy run, which names the last attempt - the record that [StartRun]
    stored under the identifier of the handle is never completed: it is still
    among the active runs after [Wait]. *)
Theorem result_id_leaves_active start (o : ObservingRuntime (Sink := Sink)) req fuel rt id result err store :
  or_Runtime o = Some rt -> start rt req = inr (mkRun id [] (result, err)) -> or_Store o = Some store ->
  res_RunID result <> "" -> res_RunID result <> id ->
  exists err' r s record, ObservingRuntime_run env start o req fuel = inr (Some (result, err'), r) /\
    ob_store r = Some s /\ ms_active s !! id = Some record /\ rr_Status record = StatusStarting.
Proof.
  intros Hrt Hst Hstore Hne Hid. unfold ObservingRuntime_run, ObservingRuntime_StartRun. rewrite Hrt, Hst, Hstore.
  set (r0 := mkobservedRun _ _ _ _ _ _ _ _ _ _ _ _).
  rewrite (upsert_memory r0 store eq_refl). cbn [snd].
  set (s1 := UpsertRun _ _ _ store). set (r1 := r0 <| ob_tick ::= S |> <| ob_store := Some s1 |>).
  change (forward env fuel r1).2 with (r1 <| ob_done := true |>). set (r2 := r1 <| ob_done := true |>).
  unfold observedRun_Wait. rewrite bind_run. cbn [get fst snd].
  change (run_Wait (ob_inner r2)) with (result, err). cbv beta iota. change (ob_done r2) with true. cbv iota.
  rewrite bind_run, bind_run. cbn [modify fst snd].
  set (r3 := r2 <| ob_result := result |> <| ob_waitErr := mergeRequiredObserverError err (ob_record r2) |>).
  destruct (mergeResult_fields result r3) as [Hs Hrun].
  set (r4 := (mergeResultLocked env result r3).2) in *. clearbody r4.
  rewrite bind_run, bind_run. change (ob_store r3) with (Some s1) in Hs.
  rewrite (upsert_memory r4 s1 Hs). cbn [get ret fst snd].
  eexists _, _, _, (cloneRunRecord (first_record (mkRun id [] (result, err)) req (env_now env 0) (env_now env 1))).
  split; [reflexivity|]. split; [reflexivity|]. split; [|done].
  rewrite UpsertRun_other_active.
  - subst s1. rewrite UpsertRun_running by done. cbn [ms_active upd_field]. rewrite cloneRunRecord_id. by apply lookup_insert_eq.
  - rewrite cloneRunRecord_id, Hrun. unfold firstRunID, or_else. rewrite (proj2 (String.eqb_neq _ _) Hne). congruence.
Qed.

(** ** A completed run can be inspected *)
Context (limits : MemoryRunStoreLimits).

(** The store of the handle keeps its invariant and its limits. *)
Definition stored (r : observedRun MemoryRunStore Sink) : Prop :=
  exists s, ob_store r = Some s /\ store_ok s /\ ms_limits s = limits.

Lemma stored_consult {A} (f : nat -> A) : preserves stored (consult f).
Proof. by intros r H. Qed.

#[local] Abbreviation the_store := (@ob_store MemoryRunStore Sink).

Lemma stored_keeps {A} (m : St (observedRun MemoryRunStore Sink) A) : keeps the_store m -> preserves stored m.
Proof. intros Hm r (s & E & H). exists s. by rewrite (keeps_spec m r Hm). Qed.

Lemma keeps_store_consult {A} (f : nat -> A) : keeps the_store (consult f).
Proof. intros r0 r E. exact E. Qed.
#[local] Hint Resolve keeps_store_consult stored_consult : agentwrap.

Lemma keeps_store_failure op name required err : keeps the_store (recordFailure env op name required err).
Proof. unfold recordFailure, now, update_record. preserve; auto with agentwrap. Qed.

Lemma keeps_store_merge result : keeps the_store (mergeResultLocked env result).
Proof. unfold mergeResultLocked, now, update_record. preserve; auto with agentwrap. Qed.

Lemma keeps_store_feed event sinks : keeps the_store (feed_sinks env event sinks).
Proof.
  induction sinks as [|sink sinks IH]; cbn [feed_sinks]; [auto with agentwrap|].
  pose proof keeps_store_failure. preserve; auto with agentwrap.
Qed.

Lemma stored_upsert : preserves stored (upsert env).
Proof.
  intros r (s & E & Hok & Hl). rewrite (upsert_memory r s E). eexists. split; [done|]. cbn.
  split; [by apply UpsertRun_ok|]. by rewrite UpsertRun_limits.
Qed.

Lemma stored_store_event event : preserves stored (store_event env event).
Proof.
  intros r (s & E & Hok & Hl). unfold store_event. rewrite bind_run. cbn [get fst snd]. rewrite E, !bind_run. cbn.
  eexists. split; [done|]. split; [by apply AppendEvent_ok|]. by rewrite AppendEvent_limits.
Qed.
#[local] Hint Resolve stored_keeps stored_upsert stored_store_event keeps_store_failure keeps_store_merge
  keeps_store_feed : agentwrap.

Lemma stored_forward_event fuel event : preserves stored (forward_event env fuel event).
Proof.
  assert (preserves stored (blocking_send env fuel)) as Hb
    by (induction fuel; cbn [blocking_send]; preserve; auto with agentwrap).
  unfold forward_event, eventRecord, appendRecord, applyEventLocked, upsertIfDue, deliver, recordDroppedEvent,
    update_record, now.
  preserve; auto with agentwrap.
Qed.
#[local] Hint Resolve stored_forward_event : agentwrap.

Lemma stored_forward fuel : preserves stored (forward env fuel).
Proof.
  assert (forall events, preserves stored (forward_loop env fuel events)) as Hl
    by (induction events; cbn [forward_loop]; preserve; auto with agentwrap).
  unfold forward. preserve; auto with agentwrap.
Qed.

Lemma stored_start start (o : ObservingRuntime (Sink := Sink)) req r s :
  ObservingRuntime_StartRun env start o req = inr r -> or_Store o = Some s -> store_ok s -> ms_limits s = limits ->
  stored r.
Proof.
  unfold ObservingRuntime_StartRun. intros H Hs Hok Hl. destruct (or_Runtime o) as [rt|]; [|done].
  destruct (start rt req) as [|inner]; [done|]. injection H as <-. apply stored_upsert. by exists s.
Qed.

(** The last thing [Wait] does is to store the record. *)
Lemma Wait_upserts r result err r' :
  observedRun_Wait env r = (Some (result, err), r') -> stored r ->
  exists k s, ob_tick r' = S k /\ store_ok s /\ ms_limits s = limits /\
    ob_store r' = Some (UpsertRun (clock k) (clock (S k)) (ob_record r') s).
Proof.
  intros H Hr. unfold observedRun_Wait in H. rewrite bind_run in H. cbn [get fst snd] in H.
  destruct (run_Wait (ob_inner r)) as [result' err']. destruct (ob_done r); [|done].
  rewrite !bind_run in H. cbn [modify fst snd] in H.
  set (r1 := r <| ob_result := _ |> <| ob_waitErr := _ |>) in H.
  assert (stored (mergeResultLocked env result' r1).2) as (s & E & Hok & Hl)
    by (apply (stored_keeps _ (keeps_store_merge result')); exact Hr).
  revert H E. generalize (mergeResultLocked env result' r1).2. intros r2 H E.
  rewrite (upsert_memory r2 s E) in H. cbn [get ret fst snd] in H. injection H as _ _ <-.
  exists (ob_tick r2), s. cbn. rewrite cloneRunRecord_id. done.
Qed.

End Identifier.

(** ** Instances *)

(** A sink that keeps what it is given and reports an error at some ticks. *)
Definition log_sink (fails : nat -> option error) : EventSink (list RunEventRecord) :=
  {| sink_AppendEvent tick event log := (fails tick, (log ++ [event])%list) |}.

(** A reader who makes room at every second tick. *)
Definition slow_reader : RunEnv :=
  mkRunEnv (fun tick => Z.of_nat tick) None (fun _ _ _ => StartFailed ECanceled) (fun _ _ => None)
    Nat.even (fun _ => true).

Definition observed_events : list Event :=
  [ zero <| ev_ID := "e1" |> <| ev_Payload := EventPayloadWithKind EventMessage None |>;
    zero <| ev_ID := "e2" |> <| ev_Payload := EventPayloadWithKind EventTool None |>;
    zero <| ev_ID := "e3" |> <| ev_Payload := EventPayloadWithKind EventProgress None |> ].

Definition inner_run : Run :=
  mkRun "policy-1" observed_events (zero <| res_RunID := "run-1" |> <| res_Status := StatusCompleted |>, None).

Definition observed_req : RunRequest := zero.

Definition observed_by (required : bool) : ObservingRuntime (Store := MemoryRunStore) (Sink := list RunEventRecord) :=
  mkObservingRuntime (Some 1%positive) (Some NewMemoryRunStore)
    [mkNamedEventSink "log" (Some []) required] (mkPersistencePolicy false false 0%Z).

Definition broken_sink : EventSink (list RunEventRecord) := log_sink (fun _ => Some (EOther "disk full")).

Definition start_inner (rt : RuntimeRef) (req : RunRequest) : error + Run := inr inner_run.

Definition observed_start : error + observedRun MemoryRunStore (list RunEventRecord) :=
  ObservingRuntime_StartRun (RunStore0 := memory_store (fun tick => Z.of_nat tick))
    slow_reader start_inner (observed_by false) observed_req.

Definition started_run : observedRun MemoryRunStore (list RunEventRecord) :=
  match observed_start with
  | inr r => r
  | inl _ => mkobservedRun inner_run None [] (mkPersistencePolicy false false 0%Z) 0%Z 0%Z zero zero None [] false 0
  end.

Lemma forward_drains_witness :
  let '(ending, r') := forward (RunStore0 := memory_store (fun tick => Z.of_nat tick))
    (EventSink0 := broken_sink) slow_reader 2 started_run in
  ending = Drained /\ map ev_ID (ob_events r') = ["e1"; "e2"] /\ rr_EventCount (ob_record r') = 3%Z /\
  rr_DroppedEventCount (ob_record r') = 1%Z.
Proof.
  pose proof (forward_drains (RunStore0 := memory_store (fun tick => Z.of_nat tick))
    (EventSink0 := broken_sink) slow_reader 2 started_run eq_refl) as H.
  assert (Hroom : forall t, exists k, k < 2 /\ env_room slow_reader (t + k) = true).
  { intros t. destruct (Nat.even t) eqn:E.
    - exists 0. split; [lia|]. cbn. by rewrite Nat.add_0_r.
    - exists 1. split; [lia|]. cbn [env_room slow_reader]. rewrite Nat.add_1_r, Nat.even_succ.
      unfold Nat.odd. by rewrite E. }
  specialize (H Hroom). destruct (forward _ _ _) as [ending r'] eqn:E. destruct H as [-> _].
  split; [reflexivity|].
  assert ((map ev_ID (ob_events r'), rr_EventCount (ob_record r'), rr_DroppedEventCount (ob_record r'))
    = (["e1"; "e2"], 3%Z, 1%Z)) as [= -> -> ->].
  { assert (r' = (forward (RunStore0 := memory_store (fun tick => Z.of_nat tick))
      (EventSink0 := broken_sink) slow_reader 2 started_run).2) as -> by (by rewrite E).
    vm_compute. reflexivity. }
  split_and!; reflexivity.
Defined.

(** A failing sink that is required turns the success of the run into its error. *)
Abbreviation required_run := (ObservingRuntime_run (RunStore0 := memory_store (fun tick => Z.of_nat tick))
  (EventSink0 := broken_sink) slow_reader start_inner (observed_by true) observed_req 2).

Lemma required_run_returns :
  match required_run with
  | inr (Some (result, Some e), r) => result = fst (run_Wait inner_run) /\
      e = ESDK (NewError ErrorUnknown "event_sink" "disk full" (Some (EOther "disk full")) [])
  | _ => False
  end.
Proof. vm_compute. by split. Qed.

Lemma ObservingRuntime_outcome_witness :
  exists result e r, required_run = inr (Some (result, Some e), r) /\ result = fst (run_Wait inner_run) /\
    exists f, f ∈ rr_SinkFailures (ob_record r) /\ e = ESDK (sf_Error f) /\ sf_Name f = "log".
Proof.
  pose proof required_run_returns as H.
  destruct required_run as [|[[[result [e|]]|] r]] eqn:E; try contradiction.
  exists result, e, r. split; [reflexivity|]. split; [exact (proj1 H)|].
  destruct (ObservingRuntime_outcome (RunStore0 := memory_store (fun tick => Z.of_nat tick))
    (EventSink0 := broken_sink) slow_reader start_inner (observed_by true) observed_req 2 result (Some e) r E)
    as (rt & inner & _ & Hst & _ & Ho).
  injection Hst as <-. destruct Ho as (f & Hin & He & Hl). exists f. split; [exact Hin|]. split; [exact He|].
  apply list_elem_of_singleton in Hl. by injection Hl as ->.
Defined.

Definition quiet_run : Run :=
  mkRun "policy-1" [] (zero <| res_RunID := "run-1" |> <| res_Status := StatusCompleted |>, None).

Lemma result_id_leaves_active_witness :
  exists err' r s record,
    ObservingRuntime_run (RunStore0 := memory_store (fun tick => Z.of_nat tick)) (EventSink0 := broken_sink)
      slow_reader (fun _ _ => inr quiet_run) (observed_by false) observed_req 0
    = inr (Some (fst (run_Wait quiet_run), err'), r) /\
    ob_store r = Some s /\ ms_active s !! "policy-1" = Some record /\ rr_Status record = StatusStarting.
Proof.
  apply (result_id_leaves_active (EventSink0 := broken_sink) slow_reader (fun tick => Z.of_nat tick)
    (fun _ _ => inr quiet_run) (observed_by false) observed_req 0 1%positive "policy-1" _ None NewMemoryRunStore);
    try reflexivity; discriminate.
Defined.

Abbreviation inspected_run := (ObservingRuntime_run (RunStore0 := memory_store (fun tick => Z.of_nat tick))
  (EventSink0 := broken_sink) slow_reader start_inner (observed_by false) observed_req 2).

Lemma inspected_run_returns :
  match inspected_run with inr (Some _, r) => Terminal (rr_Status (ob_record r)) | _ => false end = true.
Proof. vm_compute. reflexivity. Qed.

