(* ===== verification/Capabilities.v ===== *)
(** * Capabilities and model listing of a stack of runtimes

    The capability types of runtime.go, what the policy runner, the validating
    runtime and the observing runtime report of the runtime they wrap, and how
    they pass the optional interface [ModelLister] on. *)
From S2P Require Import Prelude GoStd Types Errors.
#[local] Open Scope string_scope.

Definition CapabilitySessions : Capability := "sessions".
Definition CapabilitySessionContinue : Capability := "session_continue".
Definition CapabilitySessionFork : Capability := "session_fork".
Definition CapabilitySessionReplace : Capability := "session_replace".
Definition CapabilitySessionRelease : Capability := "session_release".
Definition CapabilityCancellation : Capability := "cancellation".
Definition CapabilityStructuredEvents : Capability := "structured_events".
Definition CapabilityRawPayloads : Capability := "raw_payloads".
Definition CapabilityArtifacts : Capability := "artifacts".
Definition CapabilityPermissions : Capability := "permissions".
Definition CapabilityUsage : Capability := "usage".
Definition CapabilityValidationEvents : Capability := "validation_events".
Definition CapabilityPromptCacheAdvisory : Capability := "prompt_cache_advisory".
Definition CapabilityPromptCacheNative : Capability := "prompt_cache_native".

Record CapabilitySupport := mkCapabilitySupport {
  cs_Supported : bool;
  cs_Detail : string
}.
#[global] Instance eta_CapabilitySupport : Eta CapabilitySupport := fun r =>
  mkCapabilitySupport (cs_Supported r) (cs_Detail r).
#[global] Instance zero_CapabilitySupport : Zero CapabilitySupport :=
  mkCapabilitySupport zero zero.

Record Capabilities := mkCapabilities {
  caps_RuntimeKind : RuntimeKind;
  caps_Features : option (gmap string CapabilitySupport);
  caps_Unsupported : list UnsupportedCapability
}.
#[global] Instance eta_Capabilities : Eta Capabilities := fun r =>
  mkCapabilities (caps_RuntimeKind r) (caps_Features r) (caps_Unsupported r).
#[global] Instance zero_Capabilities : Zero Capabilities :=
  mkCapabilities zero zero zero.

Definition feature (c : Capabilities) (capability : Capability) : CapabilitySupport :=
  default zero (caps_Features c ≫= fun m => m !! capability).

(** The method [Supports] of [Capabilities]. *)
Definition Supports (c : Capabilities) (capability : Capability) : bool := cs_Supported (feature c capability).

Record ModelsRequest := mkModelsRequest {
  mq_Provider : ProviderID;
  mq_WorkDir : string
}.
#[global] Instance eta_ModelsRequest : Eta ModelsRequest := fun r =>
  mkModelsRequest (mq_Provider r) (mq_WorkDir r).
#[global] Instance zero_ModelsRequest : Zero ModelsRequest :=
  mkModelsRequest zero zero.

Record ModelInfo := mkModelInfo {
  mi_Provider : ProviderID;
  mi_ID : ModelID;
  mi_Name : string
}.
#[global] Instance eta_ModelInfo : Eta ModelInfo := fun r =>
  mkModelInfo (mi_Provider r) (mi_ID r) (mi_Name r).
#[global] Instance zero_ModelInfo : Zero ModelInfo :=
  mkModelInfo zero zero zero.

(** What a wrapper asks of the runtime it wraps, which may be nil; a runtime may
    lack the method [ListModels]. *)
Record Wrapped := mkWrapped {
  wr_Capabilities : Capabilities * option error;
  wr_ListModels : option (ModelsRequest -> list ModelInfo * option error)
}.

Definition missing_runtime (operation detail : string) : Capabilities * option error :=
  (zero, Some (ESDK (NewError ErrorConfiguration operation detail None []))).

(** [PolicyRunner.Capabilities], [ObservingRuntime.Capabilities] and
    [ValidatingRuntime.Capabilities]. *)
Definition PolicyRunner_Capabilities (runtime : option Wrapped) : Capabilities * option error :=
  match runtime with
  | None => missing_runtime "policy runner capabilities" "primary runtime is required"
  | Some r => wr_Capabilities r
  end.

Definition ObservingRuntime_Capabilities (runtime : option Wrapped) : Capabilities * option error :=
  match runtime with
  | None => missing_runtime "observing runner capabilities" "runtime is required"
  | Some r => wr_Capabilities r
  end.

Definition ValidatingRuntime_Capabilities (runtime : option Wrapped) : Capabilities * option error :=
  match runtime with
  | None => missing_runtime "validation runner capabilities" "runtime is required"
  | Some r =>
      match wr_Capabilities r with
      | (caps, Some err) => (caps, Some err)
      | (caps, None) =>
          (caps <| caps_Features ::= fun features => Some (<[CapabilityValidationEvents :=
              mkCapabilitySupport true "runtime-neutral validation wrapper"]> (default ∅ features)) |>, None)
      end
  end.

Definition listerFor (runtime : option Wrapped) : option (ModelsRequest -> list ModelInfo * option error) :=
  runtime ≫= wr_ListModels.

(** The three wrappers forward a listing in the same way. *)
Definition forward_ListModels (runtime : option Wrapped) (req : ModelsRequest) : list ModelInfo * option error :=
  match listerFor runtime with
  | None => ([], None)
  | Some list_models => list_models req
  end.
Definition PolicyRunner_ListModels := forward_ListModels.
Definition ValidatingRuntime_ListModels := forward_ListModels.
Definition ObservingRuntime_ListModels := forward_ListModels.

(** The wrappers of one another: what the outer one wraps when it wraps the
    inner one. All three have the method [ListModels]. *)
Definition policy_layer (runtime : option Wrapped) : option Wrapped :=
  Some (mkWrapped (PolicyRunner_Capabilities runtime) (Some (PolicyRunner_ListModels runtime))).
Definition observing_layer (runtime : option Wrapped) : option Wrapped :=
  Some (mkWrapped (ObservingRuntime_Capabilities runtime) (Some (ObservingRuntime_ListModels runtime))).
Definition validating_layer (runtime : option Wrapped) : option Wrapped :=
  Some (mkWrapped (ValidatingRuntime_Capabilities runtime) (Some (ValidatingRuntime_ListModels runtime))).

Inductive layer : Type := LayerPolicy | LayerObserving | LayerValidating.
#[global] Instance layer_eq_dec : EqDecision layer.
Proof. solve_decision. Defined.

Definition wrap (l : layer) : option Wrapped -> option Wrapped :=
  match l with
  | LayerPolicy => policy_layer
  | LayerObserving => observing_layer
  | LayerValidating => validating_layer
  end.

(** The runtime that stands under a stack of layers, the outermost first. *)
Definition stack (layers : list layer) (runtime : Wrapped) : option Wrapped := foldr wrap (Some runtime) layers.

Definition validating (l : layer) : bool := match l with LayerValidating => true | _ => false end.

(** Whatever the layers around a runtime, the stack reports every capability
    as the runtime does, except that validation events are supported as soon as
    one layer validates; listing models goes to the runtime unchanged. *)
Theorem stack_Capabilities layers runtime caps :
  wr_Capabilities runtime = (caps, None) ->
  exists outer caps',
    stack layers runtime = Some outer /\ wr_Capabilities outer = (caps', None) /\
    caps_RuntimeKind caps' = caps_RuntimeKind caps /\ caps_Unsupported caps' = caps_Unsupported caps /\
    (forall capability, Supports caps' capability =
       (existsb validating layers && (capability =s CapabilityValidationEvents)) || Supports caps capability) /\
    (forall req, forward_ListModels (stack layers runtime) req = forward_ListModels (Some runtime) req).
Proof.
  intros Hcaps. induction layers as [|l layers (outer & caps' & Ho & Hc & Hk & Hu & Hs & Hl)].
  - exists runtime, caps. by repeat split.
  - cbn [stack foldr existsb]. fold (stack layers runtime). rewrite Ho in *.
    assert (Hsame : l <> LayerValidating -> exists w, wrap l (Some outer) = Some w /\
      wr_Capabilities w = (caps', None) /\ wr_ListModels w = Some (forward_ListModels (Some outer)) /\
      validating l = false) by (destruct l; [| |done]; intros _; eexists; by repeat split).
    destruct (decide (l = LayerValidating)) as [->|Hv].
    + eexists _, _. split; [done|]. cbn [wr_Capabilities ValidatingRuntime_Capabilities]. rewrite Hc.
      split; [done|]. split; [done|]. split; [done|]. split; [|exact Hl]. intros capability.
      cbn [validating orb andb]. unfold Supports, feature. cbn.
      destruct (String.eqb_spec capability CapabilityValidationEvents) as [->|Hne].
      * by rewrite lookup_insert_eq.
      * rewrite lookup_insert_ne by done. cbn [orb]. specialize (Hs capability).
        rewrite (proj2 (String.eqb_neq _ _) Hne), andb_false_r in Hs. cbn [orb] in Hs.
        unfold Supports, feature in Hs. rewrite <-Hs. destruct (caps_Features caps'); [done|].
        cbn. by rewrite lookup_empty.
    + destruct (Hsame Hv) as (w & Hw & Hwc & Hwl & Hval). exists w, caps'. rewrite Hw, Hval.
      repeat split; try done. intros req. rewrite <-Hl. unfold forward_ListModels at 1, listerFor. cbn. by rewrite Hwl.
Qed.

Definition streaming_runtime : Wrapped := mkWrapped
  (mkCapabilities "opencode" (Some {[ CapabilityUsage := mkCapabilitySupport true "" ]}) [], None) None.

Lemma stack_Capabilities_witness :
  exists outer caps, stack [LayerObserving; LayerValidating; LayerPolicy] streaming_runtime = Some outer /\
  wr_Capabilities outer = (caps, None) /\ Supports caps CapabilityValidationEvents = true.
Proof.
  destruct (stack_Capabilities [LayerObserving; LayerValidating; LayerPolicy] streaming_runtime _ eq_refl)
    as (outer & caps & Ho & Hc & _ & _ & Hs & _).
  exists outer, caps. split; [exact Ho|]. split; [exact Hc|]. rewrite Hs. reflexivity.
Defined.
