(* ===== verification/Pricing.v ===== *)
(** * Pricing token usage: pricing.go

    [PriceUsage] and [CacheSavings] price token totals against a table of
    rates; [ParseRateTable] builds the table from the LiteLLM catalogue;
    [RateTableStore] resolves it in memory, on disk and over the network. *)
From Stdlib Require Import Ascii Floats.SpecFloat.
From S2P Require Import Prelude GoStd Types Json.
#[local] Open Scope string_scope.

Definition CostSourceProviderReported : CostSource := "provider_reported".
Definition CostSourceModelPriced : CostSource := "model_priced".
Definition CostSourceUnpriced : CostSource := "unpriced".

Definition LiteLLMRatesURL : string :=
  "https://raw.githubusercontent.com/BerriAI/litellm/main/model_prices_and_context_window.json".
Definition RatesTTL : Duration := (24 * time.Hour)%Z.
Definition ratesSnapshotVer : Z := 1%Z.
Definition currencyUSD : string := "USD".
Definition RatesStatusFresh : string := "fresh".
Definition RatesStatusCached : string := "cached".
Definition RatesStatusUnavailable : string := "unavailable".

Record ModelRates := mkModelRates {
  mr_InputPerToken : spec_float;
  mr_OutputPerToken : spec_float;
  mr_CacheReadPerToken : spec_float;
  mr_CacheWritePerToken : spec_float
}.
#[global] Instance eta_ModelRates : Eta ModelRates := fun r =>
  mkModelRates (mr_InputPerToken r) (mr_OutputPerToken r) (mr_CacheReadPerToken r)
    (mr_CacheWritePerToken r).
#[global] Instance zero_ModelRates : Zero ModelRates :=
  mkModelRates zero zero zero zero.

(** [RateTable]: a nil table is an empty one for every operation. *)
Abbreviation RateTable := (gmap string ModelRates).
#[global] Instance zero_RateTable : Zero RateTable := (∅ : gmap string ModelRates).

Definition NormalizeModelName (model : string) : string :=
  let normalized := strings.ToLower (strings.TrimSpace model) in
  default normalized (strings.AfterLast normalized "/").

Definition Lookup (t : RateTable) (model : string) : option ModelRates := t !! NormalizeModelName model.

Definition Len (t : RateTable) : Z := Z.of_nat (size t).

Record PricedUsage := mkPricedUsage {
  pu_Amount : spec_float;
  pu_Currency : string;
  pu_Source : CostSource
}.
#[global] Instance eta_PricedUsage : Eta PricedUsage := fun r =>
  mkPricedUsage (pu_Amount r) (pu_Currency r) (pu_Source r).
#[global] Instance zero_PricedUsage : Zero PricedUsage :=
  mkPricedUsage zero zero zero.

Definition int64Value (value : option Z) : Z := default 0%Z value.

(** [float64(int64Value(n)) * rate] *)
Definition charge (n : option Z) (rate : spec_float) : spec_float :=
  float64.mul (float64.of_Z (int64Value n)) rate.

(** The products are rounded before they are added, as on amd64; Go may fuse
    the two operations elsewhere. *)
Definition PriceUsage (table : RateTable) (model : string) (usage : Usage) : PricedUsage :=
  match Lookup table model with
  | None => zero <| pu_Currency := currencyUSD |> <| pu_Source := CostSourceUnpriced |>
  | Some rate =>
      let amount := foldl float64.add (zero : spec_float)
        [charge (us_InputTokens usage) (mr_InputPerToken rate);
         charge (us_CacheReadTokens usage) (mr_CacheReadPerToken rate);
         charge (us_CacheWriteTokens usage) (mr_CacheWritePerToken rate);
         charge (us_OutputTokens usage) (mr_OutputPerToken rate)] in
      mkPricedUsage amount currencyUSD CostSourceModelPriced
  end.

Definition CacheSavings (table : RateTable) (model : string) (usage : Usage) : option spec_float :=
  match Lookup table model with
  | None => None
  | Some rate =>
      Some (charge (us_CacheReadTokens usage) (float64.sub (mr_InputPerToken rate) (mr_CacheReadPerToken rate)))
  end.

(** ** The catalogue *)
Definition is_finite (f : spec_float) : bool :=
  match f with S754_nan | S754_infinity _ => false | _ => true end.

(** The values are those of a decoded document, so there is no [json.Number]. A
    string is decoded again, into a float64 that starts at zero. *)
Definition finiteNumber (value : any) : option spec_float :=
  let finite f := if is_finite f then Some f else None in
  match value with
  | AFloat64 f => finite f
  | AString text =>
      match json.Unmarshal text with
      | Some (AFloat64 f) => finite f
      | Some ANil => Some (S754_zero false)
      | _ => None
      end
  | _ => None
  end.

Definition entry_value (entry : GoMap any) (key : string) : option spec_float :=
  map_get entry key ≫= finiteNumber.

(** The rates of one entry; none when the input or the output rate is missing. *)
Definition entry_rates (entry : GoMap any) : option ModelRates :=
  match entry_value entry "input_cost_per_token", entry_value entry "output_cost_per_token" with
  | Some input, Some output =>
      Some (mkModelRates input output
        (default input (entry_value entry "cache_read_input_token_cost"))
        (default input (entry_value entry "cache_creation_input_token_cost")))
  | _, _ => None
  end.

(** The body of the loop over the entries. *)
Definition add_entry (rates : RateTable) (named : string * GoMap any) : RateTable :=
  let '(name, entry) := named in
  let key := NormalizeModelName name in
  if one_of key [""; "synthetic"] then rates
  else match entry_rates entry with Some rate => <[key := rate]> rates | None => rates end.

(** [json.Unmarshal] into a [map[string]map[string]any], in the order a loop
    visits the map; a null member is the nil map. *)
Fixpoint decode_entries (members : GoMap any) : option (GoMap (GoMap any)) :=
  match members with
  | [] => Some []
  | (name, member) :: members =>
      match member, decode_entries members with
      | AMap entry, Some entries => Some ((name, entry) :: entries)
      | ANil, Some entries => Some ((name, []) :: entries)
      | _, _ => None
      end
  end.
Definition decode_catalog (document : string) : option (GoMap (GoMap any)) :=
  match json.Unmarshal document with
  | Some (AMap members) => decode_entries members
  | Some ANil => Some []
  | _ => None
  end.

(** The table the loop builds. *)
Definition rates_of (entries : GoMap (GoMap any)) : RateTable := foldl add_entry ∅ entries.

Definition ParseRateTable (document : string) : error + RateTable :=
  match decode_catalog document with
  | None => inl (EWrap "parse rate catalog" (EOther "invalid catalogue"))
  | Some entries =>
      let table := rates_of entries in
      if (Len table =? 0)%Z then inl (EOther "rate catalog contained no priced models") else inr table
  end.

(** ** The store *)
Record RatesInfo := mkRatesInfo {
  ri_Status : string;
  ri_Source : string;
  ri_FetchedAt : Time;
  ri_KnownModels : Z
}.
#[global] Instance eta_RatesInfo : Eta RatesInfo := fun r =>
  mkRatesInfo (ri_Status r) (ri_Source r) (ri_FetchedAt r) (ri_KnownModels r).
#[global] Instance zero_RatesInfo : Zero RatesInfo :=
  mkRatesInfo zero zero zero zero.

Record ratesSnapshot := mkratesSnapshot {
  snap_Version : Z;
  snap_FetchedAt : Time;
  snap_Source : string;
  snap_Rates : RateTable
}.
#[global] Instance eta_ratesSnapshot : Eta ratesSnapshot := fun r =>
  mkratesSnapshot (snap_Version r) (snap_FetchedAt r) (snap_Source r) (snap_Rates r).
#[global] Instance zero_ratesSnapshot : Zero ratesSnapshot :=
  mkratesSnapshot zero zero zero zero.

Record RateTableStore := mkRateTableStore {
  rs_dir : string;
  rs_url : string;
  rs_table : RateTable;
  rs_fetchedAt : Time;
  rs_source : string;
  rs_resolved : bool
}.
#[global] Instance eta_RateTableStore : Eta RateTableStore := fun r =>
  mkRateTableStore (rs_dir r) (rs_url r) (rs_table r) (rs_fetchedAt r) (rs_source r)
    (rs_resolved r).
#[global] Instance zero_RateTableStore : Zero RateTableStore :=
  mkRateTableStore zero zero zero zero zero zero.

Definition RateOption : Type := RateTableStore -> RateTableStore.
Definition WithRatesURL (url : string) : RateOption := fun s => if url =s "" then s else s <| rs_url := url |>.

(** The HTTP client and the clock are part of the environment, below. *)
Definition NewRateTableStore (dir : string) (options : list RateOption) : RateTableStore :=
  foldl (fun store option => option store)
    (zero <| rs_dir := dir |> <| rs_url := LiteLLMRatesURL |>) options.

(** What the store does not control: the clock, the answer of the HTTP client
    with the status and the body it reads, whether a write of the snapshot file
    succeeds. Every consultation is stamped with a tick. *)
Inductive HTTPOutcome : Type :=
| HTTPFailed (err : error)
| HTTPResponse (status : Z) (body : error + string).

Record RatesEnv := mkRatesEnv {
  re_now : nat -> Time;
  re_http : nat -> string -> HTTPOutcome;
  re_write : nat -> bool
}.

(** The store with the snapshot file of its directory: what decoding the text of
    the file gives, or none when there is no file or it cannot be decoded. *)
Record RatesWorld := mkRatesWorld {
  rw_store : RateTableStore;
  rw_file : option ratesSnapshot;
  rw_tick : nat
}.
#[global] Instance eta_RatesWorld : Eta RatesWorld := fun r =>
  mkRatesWorld (rw_store r) (rw_file r) (rw_tick r).
#[global] Instance zero_RatesWorld : Zero RatesWorld :=
  mkRatesWorld zero zero zero.

Section Store.
Context (env : RatesEnv).

Definition consult {A} (question : nat -> A) : St RatesWorld A :=
  fun w => (question (rw_tick w), w <| rw_tick ::= S |>).

Definition apply (fetchedAt : Time) (table : RateTable) (source : string) : St RatesWorld unit :=
  modify (fun w => w <| rw_store ::= fun s => s
    <| rs_table := table |> <| rs_fetchedAt := fetchedAt |> <| rs_source := source |>
    <| rs_resolved := (0 <? Len table)%Z |> |>).

Definition info (s : RateTableStore) (status : string) : RatesInfo :=
  mkRatesInfo status (rs_source s) (rs_fetchedAt s) (Len (rs_table s)).

Definition loadSnapshot (w : RatesWorld) : option ratesSnapshot :=
  if rs_dir (rw_store w) =s "" then None
  else
    match rw_file w with
    | None => None
    | Some snapshot =>
        if negb (snap_Version snapshot =? ratesSnapshotVer)%Z then None
        else if (Len (snap_Rates snapshot) =? 0)%Z || time.IsZero (snap_FetchedAt snapshot) then None
        else Some snapshot
    end.

(** The file is replaced by a rename, after every other step succeeded. *)
Definition writeSnapshot (fetchedAt : Time) (table : RateTable) : St RatesWorld unit :=
  let* w := get in
  if (rs_dir (rw_store w) =s "") || (Len table =? 0)%Z then ret tt
  else
    let* written := consult (re_write env) in
    if written : bool
    then modify (fun w => w <| rw_file := Some (mkratesSnapshot ratesSnapshotVer fetchedAt
                                (rs_url (rw_store w)) table) |>)
    else ret tt.

Definition fetch : St RatesWorld (error + RateTable) :=
  let* w := get in
  let* outcome := consult (fun t => re_http env t (rs_url (rw_store w))) in
  ret (match outcome with
       | HTTPFailed err => inl (EWrap "fetch rate catalog" err)
       | HTTPResponse status body =>
           if negb (status =? 200)%Z
           then inl (EOther ("fetch rate catalog: unexpected status " +:+ itoa status))
           else match body with
                | inl err => inl (EWrap "read rate catalog" err)
                | inr document => ParseRateTable document
                end
       end).

(** The answer from the store's own table. *)
Definition answer (status : string) : St RatesWorld (RateTable * RatesInfo * option error) :=
  let* w := get in
  ret (rs_table (rw_store w), info (rw_store w) status, None).

Definition Ensure : St RatesWorld (RateTable * RatesInfo * option error) :=
  let* now := consult (re_now env) in
  let* w := get in
  let s := rw_store w in
  if rs_resolved s && (time.Sub now (rs_fetchedAt s) <? RatesTTL)%Z then answer RatesStatusFresh
  else
    let stale := loadSnapshot w in
    let fresh := match stale with
      | Some snapshot => (time.Sub now (snap_FetchedAt snapshot) <? RatesTTL)%Z
      | None => false
      end in
    match stale, fresh with
    | Some snapshot, true =>
        apply (snap_FetchedAt snapshot) (snap_Rates snapshot) (snap_Source snapshot) ;;
        answer RatesStatusFresh
    | _, _ =>
        let* fetched := fetch in
        match fetched with
        | inr table =>
            let* fetchedAt := consult (re_now env) in
            apply fetchedAt table (rs_url s) ;;
            writeSnapshot fetchedAt table ;;
            answer RatesStatusFresh
        | inl _ =>
            match stale with
            | Some snapshot =>
                apply (snap_FetchedAt snapshot) (snap_Rates snapshot) (snap_Source snapshot) ;;
                answer RatesStatusCached
            | None =>
                if rs_resolved s then answer RatesStatusCached
                else ret (∅, zero <| ri_Status := RatesStatusUnavailable |> <| ri_Source := rs_url s |>,
                          Some (EOther "model rates unavailable"))
            end
        end
    end.

Definition Status (s : RateTableStore) : RatesInfo :=
  if negb (rs_resolved s)
  then zero <| ri_Status := RatesStatusUnavailable |> <| ri_Source := rs_url s |>
  else info s RatesStatusCached.
End Store.

(** ** Model names *)
Lemma is_space_lower c : strings.is_space (strings.lower_byte c) = strings.is_space c.
Proof. by destruct c as [[] [] [] [] [] [] [] []]. Qed.

Lemma lower_byte_slash c : Ascii.eqb (strings.lower_byte c) "/" = Ascii.eqb c "/".
Proof. by destruct c as [[] [] [] [] [] [] [] []]. Qed.

Lemma TrimLeft_ToLower s : strings.TrimLeft (strings.ToLower s) = strings.ToLower (strings.TrimLeft s).
Proof. induction s as [|c s IH]; cbn; [done|]. rewrite is_space_lower, IH. by destruct (strings.is_space c). Qed.

Lemma TrimRight_ToLower s : strings.TrimRight (strings.ToLower s) = strings.ToLower (strings.TrimRight s).
Proof.
  induction s as [|c s IH]; cbn; [done|]. rewrite IH, is_space_lower.
  destruct (strings.TrimRight s); cbn; [by destruct (strings.is_space c)|done].
Qed.

Lemma TrimSpace_ToLower s : strings.TrimSpace (strings.ToLower s) = strings.ToLower (strings.TrimSpace s).
Proof. unfold strings.TrimSpace. by rewrite TrimLeft_ToLower, TrimRight_ToLower. Qed.

Lemma AfterLast_app s t b :
  strings.AfterLast (s +:+ String b t) b = Some (default t (strings.AfterLast t b)).
Proof.
  induction s as [|c s IH].
  - change ("" +:+ String b t) with (String b t). cbn [strings.AfterLast]. rewrite Ascii.eqb_refl.
    by destruct (strings.AfterLast t b).
  - change (String c s +:+ String b t) with (String c (s +:+ String b t)). cbn [strings.AfterLast]. by rewrite IH.
Qed.

Lemma TrimRight_after s t c :
  strings.is_space c = false ->
  strings.TrimRight (s +:+ String c t) = s +:+ String c (strings.TrimRight t).
Proof.
  intros Hc. induction s as [|d s IH].
  - change ("" +:+ String c t) with (String c t). cbn [strings.TrimRight].
    destruct (strings.TrimRight t); [by rewrite Hc|done].
  - change (String d s +:+ String c t) with (String d (s +:+ String c t)). cbn [strings.TrimRight]. rewrite IH.
    by destruct s.
Qed.

Lemma TrimLeft_app s t c :
  strings.is_space c = false -> exists s', strings.TrimLeft (s +:+ String c t) = s' +:+ String c t.
Proof.
  intros Hc. induction s as [|d s [s' IH]].
  - exists "". change ("" +:+ String c t) with (String c t). cbn. by rewrite Hc.
  - change (String d s +:+ String c t) with (String d (s +:+ String c t)). cbn [strings.TrimLeft].
    destruct (strings.is_space d); [eauto|]. by exists (String d s).
Qed.

(** A model is priced under its bare name: the provider in front of it, its
    letter case and the white space around it make no difference. *)
Theorem Lookup_qualified table provider model :
  Lookup table (provider +:+ "/" +:+ strings.TrimSpace model) = Lookup table model /\
  Lookup table (strings.ToLower model) = Lookup table model /\
  Lookup table (strings.TrimSpace model) = Lookup table model.
Proof.
  unfold Lookup, NormalizeModelName.
  rewrite TrimSpace_ToLower, ToLower_idem, strings.TrimSpace_idem. split; [|done].
  set (m := strings.TrimSpace model). change ("/" +:+ m) with (String "/" m).
  destruct (TrimLeft_app provider m "/" eq_refl) as [s' E].
  assert (strings.TrimSpace (provider +:+ String "/" m) = s' +:+ String "/" m) as ->.
  { unfold strings.TrimSpace. rewrite E, TrimRight_after by done. do 2 f_equal. apply strings.TrimRight_idem. }
  rewrite ToLower_app. change (strings.ToLower (String "/" m)) with (String "/" (strings.ToLower m)).
  by rewrite AfterLast_app.
Qed.

(** ** The catalogue *)
Lemma decode_entries_spec members entries :
  decode_entries members = Some entries -> entries.*1 = members.*1.
Proof.
  revert entries. induction members as [|[name member] members IH]; cbn; [by intros ? [= <-]|].
  intros entries. destruct member; try done; destruct (decode_entries members); try done;
    intros [= <-]; cbn; by rewrite (IH _ eq_refl).
Qed.

(** An entry that is priced, with the key and the rates it gets. *)
Definition priced (named : string * GoMap any) : option (string * ModelRates) :=
  let key := NormalizeModelName named.1 in
  if one_of key [""; "synthetic"] then None else pair key <$> entry_rates named.2.

Lemma add_entry_priced rates named :
  add_entry rates named =
  match priced named with Some (key, rate) => <[key := rate]> rates | None => rates end.
Proof.
  destruct named as [name entry]. unfold add_entry, priced. cbn [fst snd].
  destruct (one_of _ _); [done|]. by destruct (entry_rates entry).
Qed.

Lemma rates_of_sound entries rates key rate :
  foldl add_entry rates entries !! key = Some rate ->
  rates !! key = Some rate \/ Exists (fun named => priced named = Some (key, rate)) entries.
Proof.
  revert rates. induction entries as [|named entries IH]; intros rates; cbn [foldl]; [by left|].
  intros [H|H]%IH; [|by right; right]. rewrite add_entry_priced in H.
  destruct (priced named) as [[k r]|] eqn:E; [|by left].
  destruct (decide (k = key)) as [->|Hk].
  - rewrite lookup_insert_eq in H. injection H as ->. right. by left.
  - rewrite lookup_insert_ne in H by done. by left.
Qed.

Lemma rates_of_keys entries rates key :
  is_Some (foldl add_entry rates entries !! key) <->
  is_Some (rates !! key) \/ Exists (fun named => exists rate, priced named = Some (key, rate)) entries.
Proof.
  revert rates. induction entries as [|named entries IH]; intros rates; cbn [foldl].
  - rewrite Exists_nil. tauto.
  - rewrite IH, Exists_cons, add_entry_priced. destruct (priced named) as [[k r]|] eqn:E.
    + rewrite lookup_insert_is_Some'. split.
      * intros [[->|H]|H]; eauto.
      * intros [H|[[r' [= -> ->]]|H]]; eauto.
    + split; [tauto|]. intros [H|[[r' [=]]|H]]; eauto.
Qed.

(** A rate of the table is a finite number. *)
Definition finite_rates (r : ModelRates) : Prop :=
  is_finite (mr_InputPerToken r) = true /\ is_finite (mr_OutputPerToken r) = true /\
  is_finite (mr_CacheReadPerToken r) = true /\ is_finite (mr_CacheWritePerToken r) = true.

Lemma finiteNumber_finite value f : finiteNumber value = Some f -> is_finite f = true.
Proof.
  destruct value; cbn; try done.
  - destruct (json.Unmarshal s) as [[]|]; try done; [by intros [= <-]|].
    destruct (is_finite f0) eqn:E; [by intros [= <-]|done].
  - destruct (is_finite f0) eqn:E; [by intros [= <-]|done].
Qed.

Lemma entry_rates_finite entry r : entry_rates entry = Some r -> finite_rates r.
Proof.
  assert (forall key f, entry_value entry key = Some f -> is_finite f = true) as H.
  { intros key f. unfold entry_value. destruct (map_get entry key); [apply finiteNumber_finite|done]. }
  unfold entry_rates. destruct (entry_value entry "input_cost_per_token") as [i|] eqn:Ei; [|done].
  destruct (entry_value entry "output_cost_per_token") as [o|] eqn:Eo; [|done]. intros [= <-].
  unfold finite_rates. cbn.
  destruct (entry_value entry "cache_read_input_token_cost") eqn:Er,
    (entry_value entry "cache_creation_input_token_cost") eqn:Ew; cbn; repeat split; eauto.
Qed.


(** ** The store *)
Definition store_ok (s : RateTableStore) : Prop := rs_resolved s = true -> rs_table s <> ∅.

(** What the download of a call of [Ensure] in [w] gives, if it comes to that. *)
Definition download (env : RatesEnv) (w : RatesWorld) : error + RateTable :=
  fst (fetch env (w <| rw_tick ::= S |>)).

Lemma Len_pos (t : RateTable) : t <> ∅ -> (0 <? Len t)%Z = true.
Proof.
  intros H. unfold Len. apply Z.ltb_lt. destruct (decide (size t = 0)) as [E|E]; [|lia].
  by apply map_size_empty_inv in E.
Qed.

Lemma Len_zero (t : RateTable) : (Len t =? 0)%Z = false <-> t <> ∅.
Proof.
  unfold Len. rewrite Z.eqb_neq. pose proof (map_size_empty_iff t). naive_solver lia.
Qed.

Lemma loadSnapshot_rates w snapshot :
  loadSnapshot w = Some snapshot -> snap_Rates snapshot <> ∅ /\ rw_file w = Some snapshot.
Proof.
  unfold loadSnapshot. destruct (_ =s ""); [done|]. destruct (rw_file w) as [s|]; [|done].
  destruct (negb _); [done|]. destruct (Len (snap_Rates s) =? 0)%Z eqn:E; [done|].
  cbn [orb]. destruct (time.IsZero _); [done|]. intros [= <-]. by apply Len_zero in E.
Qed.

Lemma download_table env w table : download env w = inr table -> table <> ∅.
Proof.
  unfold download, fetch. cbn. destruct (re_http _ _ _) as [|status body]; [done|].
  destruct (negb _); [done|]. destruct body as [|document]; [done|].
  unfold ParseRateTable. destruct (decode_catalog document); [|done].
  destruct (Len _ =? 0)%Z eqn:E; [done|]. intros [= <-]. by apply Len_zero in E.
Qed.

(** [writeSnapshot] only touches the file and the tick. *)
Lemma writeSnapshot_store env fetchedAt table w :
  rw_store (snd (writeSnapshot env fetchedAt table w)) = rw_store w.
Proof.
  unfold writeSnapshot. rewrite bind_run. cbn [get fst snd]. destruct (_ || _); [done|].
  rewrite bind_run. cbn [consult fst snd]. by destruct (re_write env (rw_tick w)).
Qed.

Lemma apply_store fetchedAt table source w : table <> ∅ ->
  rw_store (snd (apply fetchedAt table source w)) =
  mkRateTableStore (rs_dir (rw_store w)) (rs_url (rw_store w)) table fetchedAt source true.
Proof. intros H. cbn. by rewrite Len_pos. Qed.

(** The clock read is not older than the table by more than the time to live. *)
Definition within_ttl (env : RatesEnv) (fetchedAt : Time) : Prop :=
  exists tick, (time.Sub (re_now env tick) fetchedAt < RatesTTL)%Z.

(** The three places a table comes from. *)
Definition came_from (env : RatesEnv) (w : RatesWorld) (s' : RateTableStore) : Prop :=
  s' = rw_store w \/
  (exists snapshot, loadSnapshot w = Some snapshot /\ rs_table s' = snap_Rates snapshot /\
     rs_fetchedAt s' = snap_FetchedAt snapshot /\ rs_source s' = snap_Source snapshot) \/
  (download env w = inr (rs_table s') /\ rs_source s' = rs_url (rw_store w)).

(** What an answer without an error promises. *)
Definition answered (env : RatesEnv) (w : RatesWorld) (table : RateTable) (ri : RatesInfo)
    (s' : RateTableStore) : Prop :=
  rs_table s' = table /\ table <> ∅ /\ rs_resolved s' = true /\ ri = info s' (ri_Status ri) /\
  (ri_Status ri = RatesStatusFresh /\ within_ttl env (rs_fetchedAt s') \/
   ri_Status ri = RatesStatusCached /\ exists e, download env w = inl e) /\
  came_from env w s'.

Definition unavailable (env : RatesEnv) (w : RatesWorld) (table : RateTable) (ri : RatesInfo)
    (s' : RateTableStore) : Prop :=
  table = ∅ /\ ri_Status ri = RatesStatusUnavailable /\ s' = rw_store w /\
  rs_resolved (rw_store w) = false /\ loadSnapshot w = None /\ exists e, download env w = inl e.

(** The rest of [Ensure] once neither the store nor the file has a fresh table. *)
Definition refresh (env : RatesEnv) (s : RateTableStore) (stale : option ratesSnapshot)
    : St RatesWorld (RateTable * RatesInfo * option error) :=
  let* fetched := fetch env in
  match fetched with
  | inr table =>
      let* fetchedAt := consult (re_now env) in
      apply fetchedAt table (rs_url s) ;;
      writeSnapshot env fetchedAt table ;;
      answer RatesStatusFresh
  | inl _ =>
      match stale with
      | Some snapshot =>
          apply (snap_FetchedAt snapshot) (snap_Rates snapshot) (snap_Source snapshot) ;;
          answer RatesStatusCached
      | None =>
          if rs_resolved s then answer RatesStatusCached
          else ret (∅, zero <| ri_Status := RatesStatusUnavailable |> <| ri_Source := rs_url s |>,
                    Some (EOther "model rates unavailable"))
      end
  end.

Definition fresh_snapshot (now : Time) (stale : option ratesSnapshot) : option ratesSnapshot :=
  match stale with
  | Some snapshot => if (time.Sub now (snap_FetchedAt snapshot) <? RatesTTL)%Z then Some snapshot else None
  | None => None
  end.

Lemma Ensure_refresh env w :
  let now := re_now env (rw_tick w) in
  let w1 := w <| rw_tick ::= S |> in
  let s := rw_store w in
  Ensure env w =
  if rs_resolved s && (time.Sub now (rs_fetchedAt s) <? RatesTTL)%Z then answer RatesStatusFresh w1
  else match fresh_snapshot now (loadSnapshot w) with
       | Some snapshot =>
           (apply (snap_FetchedAt snapshot) (snap_Rates snapshot) (snap_Source snapshot) ;;
            answer RatesStatusFresh) w1
       | None => refresh env s (loadSnapshot w) w1
       end.
Proof.
  cbv zeta. unfold Ensure. rewrite bind_run. cbn [consult fst snd]. rewrite bind_run. cbn [get fst snd].
  change (rw_store (w <| rw_tick ::= S |>)) with (rw_store w).
  change (loadSnapshot (w <| rw_tick ::= S |>)) with (loadSnapshot w).
  destruct (rs_resolved (rw_store w) && _); [done|]. unfold fresh_snapshot, refresh.
  destruct (loadSnapshot w) as [snapshot|]; [|done]. by destruct (_ <? RatesTTL)%Z.
Qed.

Lemma fetch_store env w : rw_store (snd (fetch env w)) = rw_store w.
Proof. reflexivity. Qed.

Lemma Sub_self t : time.Sub t t = 0%Z.
Proof. unfold time.Sub. rewrite Z.sub_diag. reflexivity. Qed.

(** C30: [Ensure] gives a table that is not empty, its status and its origin told
    truly: fresh within the time to live, or cached because the download
    failed; it comes from the store, the snapshot or the catalogue. It fails
    only when none of the three has one, and then changes nothing. *)
Theorem Ensure_spec env w : store_ok (rw_store w) ->
  let '(table, ri, err) := fst (Ensure env w) in
  let s' := rw_store (snd (Ensure env w)) in
  match err with
  | None => answered env w table ri s'
  | Some _ => unavailable env w table ri s'
  end.
Proof.
  intros Hok. rewrite Ensure_refresh. cbv zeta. set (w1 := w <| rw_tick ::= S |>).
  destruct (rs_resolved (rw_store w) && _) eqn:E1.
  { apply andb_true_iff in E1 as [Hr Ht%Z.ltb_lt]. cbn. repeat split; try done; [by apply Hok| |by left].
    left. split; [done|]. by exists (rw_tick w). }
  destruct (fresh_snapshot _ (loadSnapshot w)) as [snapshot|] eqn:E2.
  { unfold fresh_snapshot in E2. destruct (loadSnapshot w) as [s|] eqn:Hl; [|done].
    destruct (time.Sub _ (snap_FetchedAt s) <? RatesTTL)%Z eqn:Ht; [|done].
    injection E2 as ->. apply Z.ltb_lt in Ht.
    destruct (loadSnapshot_rates _ _ Hl) as [Hne _]. rewrite bind_run.
    cbn. rewrite Len_pos by done. repeat split; try done; [left; split; [done|by exists (rw_tick w)]|].
    right; left. by exists snapshot. }
  clear E2. unfold refresh. rewrite bind_run.
  change (fst (fetch env w1)) with (download env w).
  destruct (download env w) as [e|table] eqn:Hd.
  - destruct (loadSnapshot w) as [snapshot|] eqn:Hl.
    + destruct (loadSnapshot_rates _ _ Hl) as [Hne _]. rewrite bind_run.
      cbn. rewrite Len_pos by done. repeat split; try done; [right; by eauto|].
      right; left. by exists snapshot.
    + destruct (rs_resolved (rw_store w)) eqn:Hr; cbn.
      * repeat split; try done; [by apply Hok|right; by eauto|by left].
      * repeat split; eauto.
  - pose proof (download_table _ _ _ Hd) as Hne. rewrite !bind_run. cbn [consult fst snd].
    set (w2 := snd (fetch env w1)). set (t := re_now env (rw_tick w2)).
    unfold answer. rewrite bind_run. cbn [get ret fst snd].
    rewrite writeSnapshot_store, apply_store by done. cbn.
    repeat split; try done.
    + left. split; [done|]. exists (rw_tick w2). change (time.Sub t t < RatesTTL)%Z. by rewrite Sub_self.
    + right; right. by rewrite Hd.
Qed.


(** A catalogue with one model, a server that gives it and one that is down. *)
Definition small_catalog : string :=
  json.with_quotes "{`openai/gpt-x`: {`input_cost_per_token`: 0.5, `output_cost_per_token`: `2`}, `note`: {}}".
Definition serving : RatesEnv :=
  mkRatesEnv (fun _ => time.Hour) (fun _ _ => HTTPResponse 200 (inr small_catalog)) (fun _ => true).
Definition offline : RatesEnv :=
  mkRatesEnv (fun _ => (130 * time.Hour)%Z) (fun _ _ => HTTPFailed (EOther "no route")) (fun _ => false).
Definition empty_world : RatesWorld := zero <| rw_store := NewRateTableStore "/var/rates" [] |>.

Lemma ParseRateTable_example :
  match ParseRateTable small_catalog with
  | inr table => Lookup table "GPT-X" = Some (mkModelRates (SFdiv 53 1024 (float64.of_Z 1) (float64.of_Z 2))
                   (float64.of_Z 2) (SFdiv 53 1024 (float64.of_Z 1) (float64.of_Z 2))
                   (SFdiv 53 1024 (float64.of_Z 1) (float64.of_Z 2)))
  | inl _ => False
  end.
Proof. vm_compute. reflexivity. Qed.

Lemma Ensure_spec_witness :
  store_ok (rw_store empty_world) /\
  let '(table, ri, err) := fst (Ensure serving empty_world) in err = None /\ table <> ∅.
Proof.
  split; [discriminate|]. pose proof (Ensure_spec serving empty_world ltac:(discriminate)) as H.
  destruct (fst (Ensure serving empty_world)) as [[table ri] [e|]] eqn:E.
  - exfalso. apply (f_equal snd) in E. vm_compute in E. discriminate E.
  - split; [reflexivity|]. destruct H as (_ & Hne & _). exact Hne.
Defined.

Definition one_rate : RateTable := {[ "gpt-x" := zero ]}.


(** The snapshot is taken for the better table even when the store holds one
    that was fetched later: here 100 hours against 50. *)
Definition newer_store : RateTableStore :=
  mkRateTableStore "/var/rates" LiteLLMRatesURL one_rate (100 * time.Hour)%Z LiteLLMRatesURL true.
Definition older_file : ratesSnapshot :=
  mkratesSnapshot ratesSnapshotVer (50 * time.Hour)%Z LiteLLMRatesURL {[ "gpt-y" := zero ]}.

Lemma Ensure_older_snapshot :
  let w := mkRatesWorld newer_store (Some older_file) 0 in
  rs_fetchedAt (rw_store (snd (Ensure offline w))) = (50 * time.Hour)%Z /\
  Lookup (fst (fst (fst (Ensure offline w)))) "gpt-x" = None.
Proof. vm_compute. split; reflexivity. Qed.
