(* ===== verification/OpenCodeDecoder.v ===== *)
(** * opencode/decoder.go: the JSON lines of an OpenCode process

    [decodeNativeLine] reads one line of structured output;
    [scanNativeRecords] reads the output of the process line by line and hands
    every record to a callback, which runs in the state of the caller. *)
From Stdlib Require Import Ascii.
From S2P Require Import Prelude GoStd Types Errors Json.
#[local] Open Scope string_scope.

Record nativeRecord := mknativeRecord {
  nr_Type : string;
  nr_Timestamp : any;
  nr_SessionID : string;
  nr_Data : GoMap any;
  nr_Raw : string;
  nr_Line : Z
}.
#[global] Instance eta_nativeRecord : Eta nativeRecord := fun r =>
  mknativeRecord (nr_Type r) (nr_Timestamp r) (nr_SessionID r) (nr_Data r) (nr_Raw r)
    (nr_Line r).
#[global] Instance zero_nativeRecord : Zero nativeRecord :=
  mknativeRecord zero zero zero zero zero zero.

(** What a [decodeError] wraps: an error of the JSON decoder, the missing type
    field, a blank line, or an error of the scanner. *)
Inductive decode_cause : Type :=
| CauseJSON
| CauseNoType
| CauseBlank
| CauseTooLong
| CauseRead (err : error).

Record decodeError := mkdecodeError {
  de_line : Z;
  de_raw : string;
  de_err : decode_cause
}.

Definition lookup_any (data : GoMap any) (key : string) : any := default ANil (map_get data key).

(** [value.(string)] without the flag. *)
Definition stringValue (value : any) : string := match value with AString s => s | _ => "" end.

(** [value.(map[string]any)] *)
Definition mapValue (value : any) : option (GoMap any) := match value with AMap m => Some m | _ => None end.

Definition decodeNativeLine (line : string) (pos : Z) : decodeError + nativeRecord :=
  let raw := strings.TrimNewlines line in
  match json.Unmarshal raw with
  | Some (AMap data) =>
      let t := stringValue (lookup_any data "type") in
      if t =s "" then inl (mkdecodeError pos raw CauseNoType)
      else inr (mknativeRecord t (lookup_any data "timestamp") (stringValue (lookup_any data "sessionID"))
                  data raw pos)
  | Some ANil => inl (mkdecodeError pos raw CauseNoType)
  | _ => inl (mkdecodeError pos raw CauseJSON)
  end.

(** The errors that end the reading of the stream: the context's, one of the
    decoder, one the callback returned. *)
Inductive streamError : Type :=
| StreamContext (err : error)
| StreamDecode (err : decodeError)
| StreamSDK (err : SDKError).

(** The largest line the scanner takes. *)
Definition maxLineBytes : Z := (16 * 1024 * 1024)%Z.

(** The standard output of a process: its text, and the error of the read that
    follows it, if it does not end in an end of file. *)
Record Stdout := mkStdout { out_text : string; out_err : option error }.

Section Scan.
Context {S : Type} (ctx_Err : St S (option error)) (emit : nativeRecord -> St S (option streamError)).

(** The end of the output. *)
Definition scan_end (pos : Z) (failure : option decode_cause) : St S (option streamError) :=
  let* err := ctx_Err in
  ret (match err, failure with
       | Some e, _ => Some (StreamContext e)
       | None, Some cause => Some (StreamDecode (mkdecodeError (pos + 1) "" cause))
       | None, None => None
       end).

Fixpoint scan_lines (pos : Z) (lines : list string) (failure : option decode_cause)
    : St S (option streamError) :=
  let* err := ctx_Err in
  match err with
  | Some e => ret (Some (StreamContext e))
  | None =>
      match lines with
      | [] => scan_end pos failure
      | line :: rest =>
          let pos := (pos + 1)%Z in
          if strings.TrimSpace line =s "" then ret (Some (StreamDecode (mkdecodeError pos line CauseBlank)))
          else
            match decodeNativeLine line pos with
            | inl err => ret (Some (StreamDecode err))
            | inr record =>
                let* err := emit record in
                match err with
                | Some e => ret (Some e)
                | None => scan_lines pos rest failure
                end
            end
      end
  end.

Definition scanNativeRecords (out : Stdout) : St S (option streamError) :=
  let '(lines, tooLong) := bufio.ScanLines maxLineBytes (out_text out) in
  scan_lines 0 lines (if tooLong then Some CauseTooLong else CauseRead <$> out_err out).
End Scan.

(** ** The records of a stream *)
Definition collect (record : nativeRecord) : St (list nativeRecord) (option streamError) :=
  modify (fun log => log ++ [record])%list ;; ret None.
Definition live : St (list nativeRecord) (option error) := ret None.

(** The record of the line at a position that starts from zero. *)
Definition record_at (lines : list string) (i : nat) (record : nativeRecord) : Prop :=
  exists line, lines !! i = Some line /\ strings.TrimSpace line <> "" /\
    decodeNativeLine line (Z.of_nat i + 1) = inr record.

(** Why a line gives no record. *)
Definition line_error (line : string) (pos : Z) : option decodeError :=
  if strings.TrimSpace line =s "" then Some (mkdecodeError pos line CauseBlank)
  else match decodeNativeLine line pos with inl err => Some err | inr _ => None end.

Lemma decodeNativeLine_line line pos record : decodeNativeLine line pos = inr record ->
  nr_Line record = pos /\ nr_Type record <> "" /\ nr_Raw record = strings.TrimNewlines line /\
  json.Unmarshal (strings.TrimNewlines line) = Some (AMap (nr_Data record)) /\
  nr_Type record = stringValue (lookup_any (nr_Data record) "type").
Proof.
  unfold decodeNativeLine. destruct (json.Unmarshal _) as [[]|] eqn:E; try done.
  destruct (String.eqb_spec (stringValue (lookup_any m "type")) "") as [|Hne]; [done|]. by intros [= <-].
Qed.

Lemma decodeNativeLine_error line pos err : decodeNativeLine line pos = inl err -> de_line err = pos.
Proof. unfold decodeNativeLine. repeat case_match; by intros [= <-]. Qed.

(** What the scan of the lines [rest] after [done] leaves. *)
Lemma scan_lines_collect failure all rest log err log' :
  all = (take (length log) all ++ rest)%list -> length log <= length all ->
  (forall i record, log !! i = Some record -> record_at all i record) ->
  scan_lines live collect (Z.of_nat (length log)) rest failure log = (err, log') ->
  (forall i record, log' !! i = Some record -> record_at all i record) /\
  match all !! length log' with
  | Some line => exists e, line_error line (Z.of_nat (length log') + 1) = Some e /\ err = Some (StreamDecode e)
  | None => length log' = length all /\
      err = match failure with
            | Some cause => Some (StreamDecode (mkdecodeError (Z.of_nat (length all) + 1) "" cause))
            | None => None
            end
  end.
Proof.
  revert log. induction rest as [|line rest IH]; intros log Hall Hle Hlog.
  - assert (length log = length all) as Hlen.
    { apply (f_equal length) in Hall. rewrite app_nil_r, length_take in Hall. lia. }
    cbn. intros [= <- <-]. split; [done|]. rewrite lookup_ge_None_2 by lia. split; [done|]. rewrite Hlen. by destruct failure.
  - assert (all !! length log = Some line) as Hline.
    { rewrite Hall, lookup_app_r by (rewrite length_take; lia). rewrite length_take. by replace (_ - _) with 0 by lia. }
    cbn [scan_lines]. unfold live at 1. rewrite bind_run. cbn [ret fst snd].
    destruct (String.eqb_spec (strings.TrimSpace line) "") as [Hb|Hb].
    { intros [= <- <-]. split; [done|]. rewrite Hline. eexists. unfold line_error. by rewrite Hb. }
    destruct (decodeNativeLine line _) as [e|record] eqn:E.
    { intros [= <- <-]. split; [done|]. rewrite Hline. eexists. unfold line_error.
      by rewrite (proj2 (String.eqb_neq _ _) Hb), E. }
    rewrite bind_run. change (collect record log) with (@None streamError, (log ++ [record])%list). cbn [fst snd].
    replace (Z.of_nat (length log) + 1)%Z with (Z.of_nat (length (log ++ [record]))) by (rewrite length_app; cbn; lia).
    apply IH.
    + rewrite length_app. cbn [length]. rewrite Hall at 1. rewrite Nat.add_1_r, (take_S_r _ _ _ Hline), <-app_assoc. done.
    + rewrite length_app. cbn. apply lookup_lt_Some in Hline. lia.
    + intros i r Hi. destruct (decide (i < length log)) as [Hlt|Hge].
      * rewrite lookup_app_l in Hi by done. by apply Hlog.
      * rewrite lookup_app_r in Hi by lia. destruct (i - length log) eqn:Ei; [|done]. injection Hi as <-.
        exists line. replace i with (length log) by lia. done.
Qed.

(** The scan hands over the records of the lines in order, each with its line
    number, its raw line and the data decoded from it, and stops at the first
    line that is blank, is not a JSON object or has no type, with an error that
    names that line; without such a line it ends with the error of the reader,
    or with none when every line gave its record. *)
Theorem scanNativeRecords_records out err log :
  scanNativeRecords live collect out [] = (err, log) ->
  let '(lines, tooLong) := bufio.ScanLines maxLineBytes (out_text out) in
  (forall i record, log !! i = Some record ->
     nr_Line record = (Z.of_nat i + 1)%Z /\ nr_Type record <> "" /\
     exists line, lines !! i = Some line /\ nr_Raw record = strings.TrimNewlines line /\
       json.Unmarshal (nr_Raw record) = Some (AMap (nr_Data record))) /\
  match lines !! length log with
  | Some line => exists e, line_error line (Z.of_nat (length log) + 1) = Some e /\ err = Some (StreamDecode e)
  | None => length log = length lines /\
      err = match (if tooLong then Some CauseTooLong else CauseRead <$> out_err out) with
            | Some cause => Some (StreamDecode (mkdecodeError (Z.of_nat (length lines) + 1) "" cause))
            | None => None
            end
  end.
Proof.
  unfold scanNativeRecords. destruct (bufio.ScanLines _ _) as [lines tooLong]. intros H.
  destruct (scan_lines_collect (if tooLong then Some CauseTooLong else CauseRead <$> out_err out) lines lines [] err log)
    as [Hlog Herr]; [done|cbn; lia|by intros i ? ?|exact H|].
  split; [|exact Herr]. intros i record (line & Hl & _ & (H1 & H2 & H3 & H4 & _)%decodeNativeLine_line)%Hlog.
  split; [done|]. split; [done|]. exists line. rewrite H3. done.
Qed.

Definition two_lines : Stdout :=
  mkStdout (json.with_quotes "{`type`:`text`}" +:+ String "010" "{}") None.

Lemma scanNativeRecords_records_witness :
  exists err log, scanNativeRecords live collect two_lines [] = (err, log) /\
    map nr_Line log = [1%Z] /\ exists e, line_error "{}" 2 = Some e /\ err = Some (StreamDecode e).
Proof.
  destruct (scanNativeRecords live collect two_lines []) as [err log] eqn:E. exists err, log.
  pose proof (scanNativeRecords_records two_lines err log E) as H. vm_compute in E. injection E as <- <-.
  split; [reflexivity|]. split; [reflexivity|]. exact (proj2 H).
Defined.
