(* ===== verification/OpenCodeProjector.v ===== *)
(** * opencode/projector.go: from native records to canonical events

    [classify] names the kind of a native record, [projectNative] builds the
    canonical event with what the run keeps of it: usage, artifacts, warnings,
    and whether the record ends the session. The classification of rate limits
    is that of opencode/rate_limit.go, passed in as an argument. A Go map is
    searched in the order its list of entries gives. *)
From Stdlib Require Import Ascii.
From S2P Require Import Prelude GoStd Types Errors Events Json OpenCodeDecoder.
From Stdlib Require Import Floats.SpecFloat.
#[local] Open Scope string_scope.

(** ** Searching native data *)

(** [nestedValue] with [depth = 6 - levels]. *)
Fixpoint nestedValue (levels : nat) (value : any) (keys : list string) {struct levels} : any :=
  match levels with
  | O => ANil
  | S levels =>
      let first_nested := fix go (l : list any) : any :=
        match l with
        | [] => ANil
        | nested :: l =>
            let found := nestedValue levels nested keys in if is_nil found then go l else found
        end in
      match value with
      | AMap typed =>
          let direct := fix go (ks : list string) : option any :=
            match ks with
            | [] => None
            | key :: ks =>
                match map_get typed key with
                | Some found => if is_nil found then go ks else Some found
                | None => go ks
                end
            end in
          match direct keys with
          | Some found => found
          | None => first_nested typed.*2
          end
      | AList typed => first_nested typed
      | _ => ANil
      end
  end.

Definition firstNestedValue (value : any) (keys : list string) : any := nestedValue 6 value keys.

Definition firstNestedString (value : any) (keys : list string) : string :=
  strings.TrimSpace (stringValue (firstNestedValue value keys)).

Definition toolObservationFrom (data : GoMap any) : ToolObservation :=
  let status := firstNestedString (AMap data) ["tool_status"; "status"; "phase"] in
  mkToolObservation
    (firstNestedString (AMap data) ["call_id"; "callID"; "tool_call_id"; "toolCallId"; "id"])
    (firstNestedString (AMap data) ["tool"; "name"; "tool_name"; "toolName"])
    (if status =s "" then firstNestedString (AMap data) ["state"] else status)
    (firstNestedValue (AMap data) ["arguments"; "args"; "input"; "parameters"])
    (firstNestedValue (AMap data) ["result"; "output"; "content"])
    (firstNestedValue (AMap data) ["error"]).

(** The first of the keys whose value is a non-empty string. *)
Fixpoint first_string (data : GoMap any) (keys : list string) : string :=
  match keys with
  | [] => ""
  | key :: keys =>
      let value := stringValue (lookup_any data key) in
      if value =s "" then first_string data keys else value
  end.

Definition finish_keys : list string :=
  ["finish_reason"; "finishReason"; "stopReason"; "stop_reason"; "reason"; "finish"].

Definition finishReasonFrom (data : GoMap any) : string :=
  let value := first_string data finish_keys in
  if value =s "" then
    match mapValue (lookup_any data "part") with
    | Some part => first_string part finish_keys
    | None => ""
    end
  else value.

Definition isTerminalFinish (reason : string) : bool :=
  one_of (strings.ToLower (strings.TrimSpace reason))
    [""; "stop"; "end_turn"; "end-turn"; "stop_sequence"; "stop-sequence"; "complete"; "completed"].

Definition isSessionIdleStatus (record : nativeRecord) : bool :=
  let idle data := strings.EqualFold (stringValue (lookup_any data "status")) "idle" in
  let idle_type status := strings.EqualFold (stringValue (lookup_any status "type")) "idle" in
  if negb (strings.TrimSpace (nr_Type record) =s "session.status") then false
  else if idle (nr_Data record) then true
  else
    match mapValue (lookup_any (nr_Data record) "status") with
    | Some status => idle_type status
    | None =>
        match mapValue (lookup_any (nr_Data record) "properties") with
        | Some properties =>
            if idle properties then true
            else match mapValue (lookup_any properties "status") with
                 | Some status => idle_type status
                 | None => false
                 end
        | None => false
        end
    end.

Definition messageFrom (data : GoMap any) : string :=
  let value := first_string data ["message"; "error"] in
  if value =s "" then
    match mapValue (lookup_any data "error") with
    | Some errObj =>
        match mapValue (lookup_any errObj "data") with
        | Some dataObj => stringValue (lookup_any dataObj "message")
        | None => stringValue (lookup_any errObj "message")
        end
    | None => ""
    end
  else value.

Definition classifyFatalEventError (data : GoMap any) (ctx : RuntimeContext) : SDKError :=
  let message := messageFrom data in
  let normalized := strings.ToLower message in
  let options := [WithDebugDetail message; WithProviderModel (ctx_Provider ctx) (ctx_Model ctx);
                  WithRuntimeKind (ctx_RuntimeKind ctx)] in
  if strings.Contains normalized "model not found" || strings.Contains normalized "unknown model" then
    NewError ErrorModelUnavailable "opencode event" "OpenCode model is unavailable" None options
  else if strings.Contains normalized "unauthorized" || strings.Contains normalized "authentication"
          || strings.Contains normalized "invalid api key" || strings.Contains normalized "api key" then
    NewError ErrorAuthentication "opencode event" "OpenCode provider authentication failed" None options
  else
    NewError ErrorRuntimeExit "opencode event" "OpenCode reported a fatal session error" None options.

(** ** Kinds *)
Definition classify (record : nativeRecord) : EventKind * string :=
  let nativeType := strings.TrimSpace (nr_Type record) in
  let has := strings.Contains nativeType in
  let kind :=
    if nativeType =s "step_start" then EventProgress
    else if nativeType =s "step_finish" then EventFinalResult
    else if one_of nativeType ["text"; "reasoning"] then EventMessage
    else if nativeType =s "tool_use" then EventTool
    else if nativeType =s "error" then EventFatalError
    else if has "permission" then EventPermission
    else if has "question" || (has "status" && has "waiting") then EventBlocking
    else if has "usage" || has "token" || has "cost" then EventUsage
    else if has "artifact" || has "file" then EventArtifact
    else if has "warn" then EventWarning
    else if has "session" then EventSession
    else EventNativeExtension in
  (kind, nativeType).

(** ** Values *)
Definition f1e12 : spec_float := float64.of_Z 1000000000000.

Definition eventTime (value : any) (fallback : Time) : Time :=
  match value with
  | AFloat64 v =>
      let n := float64.to_int64 float64.amd64 v in
      if float64.ltb f1e12 v then calendar.UnixMilli n else calendar.Unix n
  | AString v =>
      match calendar.ParseRFC3339 v with
      | Some parsed => parsed
      | None =>
          match Atoi v with
          | Some n => if (1000000000000 <? n)%Z then calendar.UnixMilli n else calendar.Unix n
          | None => fallback
          end
      end
  | _ => fallback
  end.

Fixpoint firstSessionID (values : list SessionID) : SessionID :=
  match values with
  | [] => ""
  | value :: values => if value =s "" then firstSessionID values else value
  end.

Definition propertiesStringValue (data : GoMap any) (key : string) : string :=
  match mapValue (lookup_any data "properties") with
  | Some properties => stringValue (lookup_any properties key)
  | None => ""
  end.

Definition int64From (value : any) : option Z :=
  match value with
  | AFloat64 v => Some (float64.to_int64 float64.amd64 v)
  | AInt64 v => Some v
  | AInt v => Some v
  | _ => None
  end.

(** [if n, ok := int64From(value); ok && *field == nil]. *)
Definition set_missing (field : option Z) (value : any) : option Z :=
  match field with Some _ => field | None => int64From value end.

Definition as_any_map (data : GoMap any) : gmap string any := list_to_map data.

Definition usage_tokens (usage : Usage) (tokens : GoMap any) : Usage :=
  let usage := usage
    <| us_InputTokens ::= fun f => set_missing f (lookup_any tokens "input") |>
    <| us_OutputTokens ::= fun f => set_missing f (lookup_any tokens "output") |>
    <| us_TotalTokens ::= fun f => set_missing f (lookup_any tokens "total") |>
    <| us_ReasoningTokens ::= fun f => set_missing f (lookup_any tokens "reasoning") |> in
  match mapValue (lookup_any tokens "cache") with
  | Some cache => usage
      <| us_CacheReadTokens ::= fun f => set_missing f (lookup_any cache "read") |>
      <| us_CacheWriteTokens ::= fun f => set_missing f (lookup_any cache "write") |>
  | None => usage
  end.

Definition usageFrom (data : GoMap any) : Usage :=
  let tokens := match mapValue (lookup_any data "tokens") with Some t => [t] | None => [] end in
  let part_tokens :=
    match mapValue (lookup_any data "part") with
    | Some part => match mapValue (lookup_any part "tokens") with Some t => [t] | None => [] end
    | None => []
    end in
  let usage := foldl usage_tokens ((zero : Usage) <| us_Native := Some (as_any_map data) |>)
                 (tokens ++ part_tokens)%list in
  usage
    <| us_InputTokens ::= fun f => set_missing f (lookup_any data "input_tokens") |>
    <| us_OutputTokens ::= fun f => set_missing f (lookup_any data "output_tokens") |>
    <| us_TotalTokens ::= fun f => set_missing f (lookup_any data "total_tokens") |>.

Definition artifactsFrom (data : GoMap any) : list ArtifactRef :=
  let uri := first_string data ["uri"; "path"] in
  if uri =s "" then []
  else [zero <| artf_URI := uri |> <| artf_Kind := stringValue (lookup_any data "kind") |>
             <| artf_Description := stringValue (lookup_any data "description") |>].

(** ** The projection *)
Record projectionInput := mkprojectionInput {
  in_runID : RunID;
  in_turnID : TurnID;
  in_ctx : RuntimeContext;
  in_seq : Z;
  in_now : Time;
  in_record : nativeRecord
}.

(** [rateLimitClassification] of rate_limit.go *)
Record rateLimitClassification := mkrateLimitClassification {
  rlc_err : SDKError;
  rlc_info : RateLimitInfo
}.

Record projectionResult := mkprojectionResult {
  pj_event : Event;
  pj_final : bool;
  pj_idle : bool;
  pj_usage : Usage;
  pj_artifacts : list ArtifactRef;
  pj_warnings : list string;
  pj_fatal : option SDKError;
  pj_rateLimit : option RateLimitInfo;
  pj_finishReason : string;
  pj_terminalEvidence : string
}.
#[global] Instance eta_projectionResult : Eta projectionResult := fun r =>
  mkprojectionResult (pj_event r) (pj_final r) (pj_idle r) (pj_usage r) (pj_artifacts r)
    (pj_warnings r) (pj_fatal r) (pj_rateLimit r) (pj_finishReason r)
    (pj_terminalEvidence r).
#[global] Instance zero_projectionResult : Zero projectionResult :=
  mkprojectionResult zero zero zero zero zero zero zero zero zero zero.

(** What [projectNative] knows of the record before it builds the event: the
    kind and the evidence that the session is over. *)
Definition kind_and_evidence (record : nativeRecord) : EventKind * string :=
  let kind := fst (classify record) in
  if strings.TrimSpace (nr_Type record) =s "step_finish" then
    if isTerminalFinish (finishReasonFrom (nr_Data record)) then (EventFinalResult, "step_finish")
    else (EventProgress, "")
  else if isSessionIdleStatus record then (kind, "session.status.idle")
  else (kind, "").

(** The payload of the event, before the kind is added to it. *)
Definition native_payload (inp : projectionInput) (kind : EventKind) : EventPayload :=
  let record := in_record inp in
  let finishReason := finishReasonFrom (nr_Data record) in
  let data : gmap string any := delete "timestamp" (delete "type" (as_any_map (nr_Data record))) in
  let payload := <["context" := AContext (in_ctx inp)]> (<["turn_id" := AString (in_turnID inp)]>
    (<["line" := AInt64 (nr_Line record)]> (<["native_type" := AString (nr_Type record)]> data))) in
  let payload := put_if (negb (finishReason =s "")) "finish_reason" (AString finishReason) payload in
  if kind =s EventTool
  then EventPayloadWithToolObservation (Some payload) (toolObservationFrom (nr_Data record))
  else Some payload.

Definition native_event (inp : projectionInput) (kind : EventKind) : Event :=
  let record := in_record inp in
  let data := nr_Data record in
  mkEvent (in_runID inp +:+ ":" +:+ itoa (in_seq inp)) (in_runID inp)
    (or_else
       (firstSessionID [nr_SessionID record; stringValue (lookup_any data "sessionID");
                        propertiesStringValue data "sessionID"])
       (stringValue (lookup_any data "session_id")))
    (eventTime (nr_Timestamp record) (in_now inp)) (snd (classify record))
    (EventPayloadWithKind kind (native_payload inp kind))
    (Some (mkRawPayload "opencode.stdout" "json" (String.list_byte_of_string (nr_Raw record)) false)).

Definition has_tokens (usage : Usage) : bool :=
  let some (v : option Z) := match v with Some _ => true | None => false end in
  some (us_InputTokens usage) || some (us_OutputTokens usage) || some (us_TotalTokens usage)
  || some (us_CacheReadTokens usage) || some (us_CacheWriteTokens usage) || some (us_ReasoningTokens usage).

Section Project.
Context (classifyRateLimitData : string -> GoMap any -> RuntimeContext -> option rateLimitClassification).

(** The branch of a fatal error. The payload of the event is a map that the
    result shares, so the rate limit added to it is part of the event. *)
Definition project_fatal (inp : projectionInput) (result : projectionResult) : projectionResult :=
  let data := nr_Data (in_record inp) in
  let result := result <| pj_final := true |> in
  match classifyRateLimitData "opencode event" data (in_ctx inp) with
  | Some classified => result
      <| pj_fatal := Some (rlc_err classified) |> <| pj_rateLimit := Some (rlc_info classified) |>
      <| pj_event ::= fun e => e <| ev_Payload ::= fun payload =>
           Some (<["rate_limit" := ARateLimitInfoPtr (Some (rlc_info classified))]> (default ∅ payload)) |> |>
  | None => result <| pj_fatal := Some (classifyFatalEventError data (in_ctx inp)) |>
  end.

Definition projectNative (inp : projectionInput) : projectionResult :=
  let record := in_record inp in
  let data := nr_Data record in
  let '(kind, evidence) := kind_and_evidence record in
  let of_kind k := kind =s k in
  let result := zero
    <| pj_event := native_event inp kind |> <| pj_idle := isSessionIdleStatus record |>
    <| pj_finishReason := finishReasonFrom data |> <| pj_terminalEvidence := evidence |>
    <| pj_final := of_kind EventFinalResult |>
    <| pj_usage := if of_kind EventUsage || has_tokens (usageFrom data) then usageFrom data else zero |>
    <| pj_artifacts := if of_kind EventArtifact then artifactsFrom data else [] |>
    <| pj_warnings := let msg := messageFrom data in
         if of_kind EventWarning && negb (msg =s "") then [msg] else [] |> in
  if of_kind EventFatalError then project_fatal inp result else result.
End Project.

(** ** What an event shows of its record *)
Lemma any_at_insert (m : gmap string any) k v k' : any_at (Some (<[k := v]> m)) k' = if k =s k' then v else any_at (Some m) k'.
Proof.
  cbn. destruct (String.eqb_spec k k') as [->|Hne]; [by rewrite lookup_insert_eq|by rewrite lookup_insert_ne].
Qed.

Lemma any_at_put_if b k v (m : gmap string any) k' :
  any_at (Some (put_if b k v m)) k' = if b && (k =s k') then v else any_at (Some m) k'.
Proof. destruct b; [apply any_at_insert|done]. Qed.

Lemma any_at_kind kind payload k :
  any_at (EventPayloadWithKind kind payload) k =
  if eventKindPayloadKey =s k then ANamed "EventKind" kind else any_at payload k.
Proof. unfold EventPayloadWithKind. rewrite any_at_insert. by destruct payload; cbn; rewrite ?lookup_empty. Qed.

Definition tool_keys : list string :=
  [ToolCallIDPayloadKey; ToolNamePayloadKey; "tool"; ToolStatusPayloadKey; ToolArgumentsPayloadKey;
   ToolResultPayloadKey; ToolErrorPayloadKey].

Lemma any_at_tool (m : gmap string any) tool k : k ∉ tool_keys ->
  any_at (EventPayloadWithToolObservation (Some m) tool) k = any_at (Some m) k.
Proof.
  intros Hk. unfold EventPayloadWithToolObservation. cbn [default from_option id].
  assert (forall key, key ∈ tool_keys -> (key =s k) = false) as H by (intros key Hin; apply String.eqb_neq; by intros ->).
  rewrite !any_at_put_if, !H by (unfold tool_keys; set_solver). by rewrite !andb_false_r.
Qed.

(** The keys that the adapter writes over the native data. *)
Definition own_keys : list string := ["native_type"; "line"; "turn_id"; "context"].

Lemma any_at_native_payload inp kind k :
  let record := in_record inp in
  k ∉ tool_keys -> k ∉ ["type"; "timestamp"; "finish_reason"] ->
  any_at (native_payload inp kind) k =
    if "context" =s k then AContext (in_ctx inp)
    else if "turn_id" =s k then AString (in_turnID inp)
    else if "line" =s k then AInt64 (nr_Line record)
    else if "native_type" =s k then AString (nr_Type record)
    else any_at (Some (as_any_map (nr_Data record))) k.
Proof.
  cbv zeta. intros Ht Hk. unfold native_payload. cbv zeta.
  assert (forall key, key ∈ ["type"; "timestamp"; "finish_reason"] -> (key =s k) = false /\ key <> k) as H.
  { intros key Hin. split; [apply String.eqb_neq|]; by intros ->. }
  destruct (H "finish_reason") as [Hf _]; [set_solver|]. destruct (H "type") as [_ Hty]; [set_solver|].
  destruct (H "timestamp") as [_ Hts]; [set_solver|].
  assert (forall m : gmap string any, any_at (if kind =s EventTool
      then EventPayloadWithToolObservation (Some m) (toolObservationFrom (nr_Data (in_record inp))) else Some m) k
    = any_at (Some m) k) as -> by (intros m; destruct (kind =s EventTool); [by apply any_at_tool|done]).
  rewrite any_at_put_if, Hf, andb_false_r, !any_at_insert. cbn [any_at]. by rewrite !lookup_delete_ne.
Qed.

(** The payload of the projected event, key by key. *)
Lemma projectNative_payload classifyData inp k :
  let record := in_record inp in
  let kind := fst (kind_and_evidence record) in
  k <> "rate_limit" ->
  any_at (ev_Payload (pj_event (projectNative classifyData inp))) k =
  if eventKindPayloadKey =s k then ANamed "EventKind" kind else any_at (native_payload inp kind) k.
Proof.
  cbv zeta. intros Hk. unfold projectNative. destruct (kind_and_evidence (in_record inp)) as [kind evidence]. cbn [fst].
  rewrite <-any_at_kind. destruct (kind =s EventFatalError); [|done]. unfold project_fatal.
  destruct (classifyData _ _ _); [|done].
  change (any_at (Some (<["rate_limit" := ARateLimitInfoPtr (Some (rlc_info r))]>
    (default ∅ (EventPayloadWithKind kind (native_payload inp kind))))) k = any_at (EventPayloadWithKind kind (native_payload inp kind)) k).
  rewrite any_at_insert. by destruct (String.eqb_spec "rate_limit" k).
Qed.

(** The keys under which the adapter files what it makes of a record. *)
Definition adapter_keys : list string :=
  (own_keys ++ tool_keys ++ ["type"; "timestamp"; "finish_reason"; eventKindPayloadKey; "rate_limit"])%list.

Lemma projectNative_kind classifyData inp :
  Event_Kind (pj_event (projectNative classifyData inp)) = fst (kind_and_evidence (in_record inp)).
Proof.
  pose proof (projectNative_payload classifyData inp eventKindPayloadKey) as H. cbv zeta in H.
  rewrite String.eqb_refl in H. specialize (H ltac:(done)). unfold Event_Kind.
  destruct (ev_Payload (pj_event (projectNative classifyData inp))); [by rewrite H|done].
Qed.

Lemma projectNative_raw classifyData inp :
  ev_Raw (pj_event (projectNative classifyData inp)) =
    Some (mkRawPayload "opencode.stdout" "json" (String.list_byte_of_string (nr_Raw (in_record inp))) false).
Proof.
  unfold projectNative. destruct (kind_and_evidence (in_record inp)) as [kind evidence].
  destruct (kind =s EventFatalError); [|done]. unfold project_fatal. by destruct (classifyData _ _ _).
Qed.

Lemma projectNative_data classifyData inp k : k ∉ adapter_keys ->
  any_at (ev_Payload (pj_event (projectNative classifyData inp))) k = any_at (Some (as_any_map (nr_Data (in_record inp)))) k.
Proof.
  intros Hk. unfold adapter_keys in Hk. do 2 apply not_elem_of_app in Hk as [? Hk]. rewrite projectNative_payload by set_solver.
  assert (forall key, key ∈ own_keys -> (key =s k) = false) as Hne by (intros key Hin; apply String.eqb_neq; by intros ->).
  rewrite (proj2 (String.eqb_neq eventKindPayloadKey k)) by set_solver.
  rewrite any_at_native_payload by set_solver. by rewrite !Hne by (vm_compute; set_solver).
Qed.

Lemma projectNative_own classifyData inp k : k ∈ own_keys ->
  any_at (ev_Payload (pj_event (projectNative classifyData inp))) k =
    if "context" =s k then AContext (in_ctx inp)
    else if "turn_id" =s k then AString (in_turnID inp)
    else if "line" =s k then AInt64 (nr_Line (in_record inp))
    else AString (nr_Type (in_record inp)).
Proof.
  intros Hin. unfold own_keys in Hin.
  repeat (apply elem_of_cons in Hin as [->|Hin];
    [rewrite projectNative_payload by done; rewrite any_at_native_payload by (vm_compute; set_solver); reflexivity|]).
  by apply elem_of_nil in Hin.
Qed.

(** C25: what a native record can and cannot make of its event. The kind is the
    adapter's classification, whatever keys the record has; the native type, the
    line, the turn and the context are the adapter's too; every other key of the
    record is kept, and nothing is added but the keys of tools and rate limits.
    The raw line goes along, marked unsafe. The event ends the run exactly when
    it is a final result or a fatal error, carries an error exactly when it is
    fatal, and a rate limit only with an error. *)
Theorem projectNative_spec classifyData inp :
  let p := projectNative classifyData inp in
  let payload := any_at (ev_Payload (pj_event p)) in
  let record := in_record inp in
  let kind := fst (kind_and_evidence record) in
  Event_Kind (pj_event p) = kind /\
  payload "native_type" = AString (nr_Type record) /\ payload "line" = AInt64 (nr_Line record) /\
  payload "turn_id" = AString (in_turnID inp) /\ payload "context" = AContext (in_ctx inp) /\
  (forall k, k ∉ adapter_keys ->
     payload k = any_at (Some (as_any_map (nr_Data record))) k) /\
  ev_Raw (pj_event p) = Some (mkRawPayload "opencode.stdout" "json" (String.list_byte_of_string (nr_Raw record)) false) /\
  (pj_final p = true <-> kind ∈ [EventFinalResult; EventFatalError]) /\
  (pj_fatal p <> None <-> kind = EventFatalError) /\ (pj_rateLimit p <> None -> pj_fatal p <> None).
Proof.
  cbv zeta. split; [apply projectNative_kind|].
  do 4 (split; [rewrite projectNative_own by (vm_compute; set_solver); reflexivity|]).
  split; [apply projectNative_data|]. split; [apply projectNative_raw|].
  unfold projectNative. destruct (kind_and_evidence (in_record inp)) as [kind evidence]. cbn [fst].
  destruct (String.eqb_spec kind EventFatalError) as [->|Hne].
  - unfold project_fatal. destruct (classifyData _ _ _); split_and!; try done; (split; [intros _; set_solver|done]).
  - split_and!; try done. change (pj_final _) with (kind =s EventFinalResult). rewrite String.eqb_eq. set_solver.
Qed.
