(* ===== verification/OpenCodeRateLimit.v ===== *)
(** * opencode/rate_limit.go: what counts as a rate limit

    A native error event, the standard error of the process or a line of
    OpenCode's log is classified as a rate limit from its status, its body and
    its message; headers and metadata say how long to wait. *)
From Stdlib Require Import Ascii Floats.SpecFloat.
From S2P Require Import Prelude GoStd Types Redact Errors Events Json GoFmt JsonBounds OpenCodeDecoder OpenCodeProjector.
#[local] Open Scope string_scope.

(** A [map[string]string] that the code ranges over; [None] is the nil map. *)
Abbreviation HeaderMap := (option (GoMap string)).
Definition headers_of (m : HeaderMap) : GoMap string := default [] m.
Definition as_StringMap (m : HeaderMap) : StringMap := (list_to_map : GoMap string -> gmap string string) <$> m.

(** [agentwrap.RedactStringMap], which keeps the entries in place. *)
Definition redact_headers (m : HeaderMap) : HeaderMap :=
  map (fun '(key, value) => (key, if secret_name key then "[REDACTED]" else RedactString value)) <$> m.

Fixpoint firstNonNil (values : list any) : any :=
  match values with
  | [] => ANil
  | value :: values => if is_nil value then firstNonNil values else value
  end.

Definition containsAny (value : string) (needles : list string) : bool := existsb (strings.Contains value) needles.

(** [strconv.Atoi] with the error dropped: zero for ill-formed text, the nearest
    bound for a number out of range. *)
Definition atoi_value (s : string) : Z :=
  let digits sign t := match t, parse_digits 0 t with
    | EmptyString, _ | _, None => 0%Z
    | _, Some n => Int64.saturate (sign * n)
    end in
  match s with
  | String c rest =>
      if Ascii.eqb c "-" then digits (-1)%Z rest
      else if Ascii.eqb c "+" then digits 1%Z rest else digits 1%Z s
  | EmptyString => 0%Z
  end.

(** [intFromAny] with the flag dropped, as every caller does. *)
Definition intFromAny (value : any) : Z :=
  match value with
  | AInt v => v
  | AInt64 v => v
  | AFloat64 v => float64.to_int64 float64.amd64 v
  | AString v => atoi_value (strings.TrimSpace v)
  | _ => 0%Z
  end.

Definition stringify (value : any) : string :=
  match value with
  | AString v => v
  | AFloat64 v => decimal.FormatFloat v
  | AInt v | AInt64 v => itoa v
  | ABool v => if v then "true" else "false"
  | v => Sprint v
  end.

(** The values are decoded JSON, which holds no [map[string]string]. *)
Definition stringMapFromAny (value : any) : HeaderMap :=
  match value with
  | AMap v => redact_headers (Some (map (fun '(key, value) => (key, stringify value)) v))
  | _ => None
  end.
Definition headerMapFromAny (value : any) : HeaderMap :=
  match value with
  | AMap v => redact_headers (Some (map (fun '(key, value) => (key, stringify value)) v))
  | _ => None
  end.

Fixpoint first_non_empty_ci (values : GoMap string) (key : string) : string :=
  match values with
  | [] => ""
  | (k, v) :: values =>
      if strings.EqualFold (strings.TrimSpace k) key && negb (strings.TrimSpace v =s "") then v
      else first_non_empty_ci values key
  end.
Definition firstNonEmptyCI (values : HeaderMap) (key : string) : string := first_non_empty_ci (headers_of values) key.

Definition userRateLimitDetail (body message : string) : string :=
  let lower := strings.ToLower body +:+ " " +:+ strings.ToLower message in
  let has := strings.Contains lower in
  if has "gousagelimiterror" then "OpenCode account rate limit reached"
  else if has "freeusagelimiterror" then "OpenCode free-tier usage limit reached"
  else if has "resource_exhausted" || has (json_string "unavailable") then "OpenCode provider is overloaded"
  else if negb (strings.TrimSpace message =s "") then RedactString message
  else "OpenCode provider rate limit reached".

Definition debugRateLimitDetail (status : Z) (headers : HeaderMap) (body message : string) : string :=
  "status=" +:+ itoa status +:+ " headers=" +:+ Sprint_map (as_StringMap (redact_headers headers)) +:+
  " message=" +:+ quoted (RedactString message) +:+ " body=" +:+ quoted (RedactString body).

Definition rateLimitErrorOptions (status : Z) (headers : HeaderMap) (body : string) (metadata : HeaderMap)
    (runtimeCtx : RuntimeContext) (info : RateLimitInfo) : list ErrorOption :=
  ([WithDebugDetail (debugRateLimitDetail status headers body ""); WithStatusCode status;
    WithResponse (as_StringMap headers) body; WithMetadata (as_StringMap metadata);
    WithProviderModel (ctx_Provider runtimeCtx) (ctx_Model runtimeCtx);
    WithRuntimeKind (ctx_RuntimeKind runtimeCtx)] ++
   (if (0 <? rl_RetryAfter info)%Z then [WithRetryAfter (rl_RetryAfter info)] else []))%list.

(** ** Text nested in text

    A string of the body may itself be JSON. Decoding shortens a string, so its
    length is fuel enough. *)
Fixpoint collectRateLimitStrings (fuel : nat) (value : any) : list string :=
  match fuel with
  | O => []
  | S fuel =>
      (fix go (v : any) : list string :=
        match v with
        | AMap m => flat_map (fun '(_, nested) => go nested) m
        | AList l => flat_map go l
        | AString s =>
            if strings.TrimSpace s =s "" then []
            else s :: match json.Unmarshal s with
                      | Some nested => collectRateLimitStrings fuel nested
                      | None => []
                      end
        | _ => []
        end) value
  end.

Definition newline : string := String "010" "".

Definition expandNestedRateLimitBody (body : string) : string :=
  let body := strings.TrimSpace body in
  if body =s "" then body
  else
    match json.Unmarshal body with
    | None => body
    | Some payload =>
        strings.Join (body :: collectRateLimitStrings (S (String.length body)) payload) newline
    end.

(** ** Structured text *)
Record structuredText := mkstructuredText {
  st_status : Z;
  st_body : string;
  st_message : string;
  st_headers : HeaderMap;
  st_metadata : HeaderMap
}.
#[global] Instance eta_structuredText : Eta structuredText := fun r =>
  mkstructuredText (st_status r) (st_body r) (st_message r) (st_headers r) (st_metadata r).
#[global] Instance zero_structuredText : Zero structuredText :=
  mkstructuredText zero zero zero zero zero.

(** What the nested error object adds. *)
Definition with_error_object (errObj : GoMap any) (st : structuredText) : structuredText :=
  let at_ := lookup_any errObj in
  let st :=
    if strings.EqualFold (stringValue (at_ "type")) "rate_limit_error" then
      st <| st_message ::= fun message =>
              stringValue (firstNonNil [at_ "message"; at_ "type"; AString message]) |>
         <| st_body ::= fun body =>
              if body =s "" then stringValue (firstNonNil [at_ "body"; at_ "type"]) else body |>
    else st in
  st <| st_message ::= fun message =>
          if message =s "" then stringValue (firstNonNil [at_ "message"; at_ "type"; at_ "code"]) else message |>
     <| st_body ::= fun body => if body =s "" then stringValue (at_ "body") else body |>
     <| st_headers ::= fun headers =>
          match headers_of headers with
          | [] => headerMapFromAny (firstNonNil [at_ "responseHeaders"; at_ "headers"])
          | _ => headers
          end |>
     <| st_metadata ::= fun metadata =>
          match headers_of metadata with [] => stringMapFromAny (at_ "metadata") | _ => metadata end |>.

Definition parseStructuredRateLimitText (text : string) : structuredText :=
  let text := strings.TrimSpace text in
  if text =s "" then zero
  else
    match json_UnmarshalMap text None with
    | None => zero <| st_body := text |> <| st_message := text |>
    | Some payload =>
        let at_ := lookup_any (default [] payload) in
        let st := mkstructuredText
          (intFromAny (firstNonNil [at_ "statusCode"; at_ "status"; at_ "code"]))
          (stringValue (firstNonNil [at_ "responseBody"; at_ "body"]))
          (stringValue (firstNonNil [at_ "message"; at_ "error"]))
          (headerMapFromAny (firstNonNil [at_ "responseHeaders"; at_ "headers"]))
          (stringMapFromAny (at_ "metadata")) in
        match mapValue (at_ "error") with Some errObj => with_error_object errObj st | None => st end
    end.

(** The limits that the headers name, by scope. *)
Record limitHeaders := mklimitHeaders {
  lh_limit : GoMap string;
  lh_remaining : GoMap string;
  lh_reset : GoMap string;
  lh_ResetAt : Time
}.
#[global] Instance eta_limitHeaders : Eta limitHeaders := fun r =>
  mklimitHeaders (lh_limit r) (lh_remaining r) (lh_reset r) (lh_ResetAt r).
#[global] Instance zero_limitHeaders : Zero limitHeaders :=
  mklimitHeaders zero zero zero zero.

(** ** How long to wait

    The clock is read anew by every delay that names a date: [clock n] is the
    answer at the [n]-th place that may ask. The dates of RFC 1123 depend on the
    zones the machine knows. *)
Section RateLimit.
Context (clock : nat -> Time) (parseRFC1123 parseRFC1123Z : string -> option Time).

(** [time.Until] of a date, when it is in the future. *)
Definition until (now : Time) (when : option Time) : option Duration :=
  match when with
  | Some t => if (0 <? time.Sub t now)%Z then Some (time.Sub t now) else None
  | None => None
  end.

Definition parseRetryDelay (now : Time) (value : string) : Duration :=
  let value := strings.TrimSpace value in
  if value =s "" then 0%Z
  else
    match ParseFloat value with
    | Some seconds => float64.to_int64 float64.amd64 (float64.mul seconds (float64.of_Z time.Second))
    | None =>
        match until now (parseRFC1123 value), until now (parseRFC1123Z value) with
        | Some delay, _ => delay
        | None, Some delay => delay
        | None, None => default 0%Z (duration.Parse (strings.ToLower value))
        end
    end.

(** [later] is the clock when the delay is added to it. *)
Definition parseResetAt (now later : Time) (value : string) : Time :=
  let value := strings.TrimSpace value in
  if value =s "" then 0%Z
  else
    let d := parseRetryDelay now value in
    if (0 <? d)%Z then time.Add later d else default 0%Z (calendar.ParseRFC3339 value).

(** A number of milliseconds in a header; the product wraps around. *)
Definition retry_ms (value : string) (current : Duration) : Duration :=
  if value =s "" then current
  else match Atoi (strings.TrimSpace value) with
       | Some ms => if (0 <? ms)%Z then Int64.wrap (ms * time.Millisecond) else current
       | None => current
       end.

(** The four places a delay is looked for, each only while there is none. *)
Definition retry_after (headers metadata : HeaderMap) : Duration :=
  let if_none (d next : Duration) := if (d =? 0)%Z then next else d in
  let delay k values := let v := firstNonEmptyCI values "retry-after" in
    if v =s "" then 0%Z else parseRetryDelay (clock k) v in
  let d := retry_ms (firstNonEmptyCI headers "retry-after-ms") 0%Z in
  let d := if_none d (delay 0 headers) in
  let d := if_none d (retry_ms (firstNonEmptyCI metadata "retry-after-ms") d) in
  if_none d (delay 1 metadata).

Definition set_reset (k : nat) (scope value : string) (st : limitHeaders) : limitHeaders :=
  st <| lh_reset ::= fun m => map_set m scope value |>
     <| lh_ResetAt ::= fun t => if time.IsZero t then parseResetAt (clock k) (clock (S k)) value else t |>.

(** The [switch] on the name of a header. *)
Definition limit_header (k : nat) (st : limitHeaders) (key value : string) : limitHeaders :=
  let lower := strings.ToLower (strings.TrimSpace key) in
  let anthropic part := strings.HasPrefix lower "anthropic-ratelimit-" && strings.Contains lower part in
  let scope suffix := strings.TrimSuffix (strings.TrimPrefix lower "anthropic-ratelimit-") suffix in
  if strings.HasPrefix lower "x-ratelimit-limit-" then
    st <| lh_limit ::= fun m => map_set m (strings.TrimPrefix lower "x-ratelimit-limit-") value |>
  else if strings.HasPrefix lower "x-ratelimit-remaining-" then
    st <| lh_remaining ::= fun m => map_set m (strings.TrimPrefix lower "x-ratelimit-remaining-") value |>
  else if strings.HasPrefix lower "x-ratelimit-reset-" then
    set_reset k (strings.TrimPrefix lower "x-ratelimit-reset-") value st
  else if anthropic "-limit" then st <| lh_limit ::= fun m => map_set m (scope "-limit") value |>
  else if anthropic "-remaining" then st <| lh_remaining ::= fun m => map_set m (scope "-remaining") value |>
  else if anthropic "-reset" then set_reset k (scope "-reset") value st
  else st.

(** The loop over the headers; [k] is the next place that may read the clock. *)
Fixpoint limit_headers (k : nat) (st : limitHeaders) (headers : GoMap string) : limitHeaders :=
  match headers with
  | [] => st
  | (key, value) :: headers => limit_headers (S (S k)) (limit_header k st key value) headers
  end.

(** The loop over the metadata: a provider and a model for what the run has none. *)
Definition name_from_metadata (word : string) (current : string) (metadata : GoMap string) : string :=
  foldl (fun current '(key, value) =>
    if strings.Contains (strings.ToLower key) word && (current =s "") then value else current) current metadata.

Definition rateLimitInfoFrom (headers metadata : HeaderMap) (runtimeCtx : RuntimeContext)
    (body message source : string) : RateLimitInfo :=
  let limits := limit_headers 2 zero (headers_of headers) in
  let string_map (m : HeaderMap) := AStringMap (as_StringMap m) in
  zero <| rl_Provider := name_from_metadata "provider" (ctx_Provider runtimeCtx) (headers_of metadata) |>
       <| rl_Model := name_from_metadata "model" (ctx_Model runtimeCtx) (headers_of metadata) |>
       <| rl_Source := source |>
       <| rl_UserDetail := userRateLimitDetail body message |>
       <| rl_RetryAfter := retry_after headers metadata |>
       <| rl_ResetAt := lh_ResetAt limits |>
       <| rl_NativeMetadata := RedactMetadata (Some (list_to_map
            [("headers", string_map (redact_headers headers));
             ("metadata", string_map (redact_headers metadata));
             ("body", AString (RedactString body));
             ("message", AString (RedactString message));
             ("limit", string_map (Some (lh_limit limits)));
             ("remaining", string_map (Some (lh_remaining limits)));
             ("reset", string_map (Some (lh_reset limits)))])) |>.

(** ** The classification *)
Definition quota_words : list string := ["insufficient_quota"; "quota_exceeded"; "freeusagelimiterror"].
Definition content_words : list string := ["content_policy"; "content_filter"; "safety"].
Definition body_words : list string :=
  ["gousagelimiterror"; "too_many_requests"; "rate_limit_error"; "usage limit exceeded";
   json_string "rate_limit"; json_string "resource_exhausted"; json_string "unavailable"].
Definition message_words : list string :=
  ["rate limit"; "too many requests"; "usage limit exceeded"; "rate_limit_error"; "rate increased too quickly";
   "provider is overloaded"; "resource_exhausted"; "too_many_requests"].

(** An error of the category rate limit with what is known of the limit. *)
Definition classified (op detail body message source : string) (headers metadata : HeaderMap) (status : Z)
    (runtimeCtx : RuntimeContext) : rateLimitClassification :=
  let info := rateLimitInfoFrom headers metadata runtimeCtx body message source in
  mkrateLimitClassification
    (NewError ErrorRateLimit op detail None
       (rateLimitErrorOptions status headers body metadata runtimeCtx info)) info.

Definition classifyRateLimitDetails (op message body : string) (headers metadata : HeaderMap) (status : Z)
    (runtimeCtx : RuntimeContext) : option rateLimitClassification :=
  let body := expandNestedRateLimitBody body in
  let normalizedBody := strings.ToLower body in
  let normalizedMessage := strings.ToLower message in
  let found detail source := Some (classified op detail body message source headers metadata status runtimeCtx) in
  if (status =? 429)%Z then
    if containsAny normalizedBody quota_words || containsAny normalizedMessage (quota_words ++ ["quota exceeded"])
    then None
    else if containsAny normalizedBody content_words || containsAny normalizedMessage content_words then None
    else found (userRateLimitDetail body message) "http_429"
  else if containsAny normalizedBody body_words || containsAny normalizedMessage message_words then
    found (userRateLimitDetail body message) "message_or_body"
  else if (status =? 503)%Z || (status =? 504)%Z || (status =? 529)%Z then
    found "OpenCode provider is temporarily rate limited or overloaded" "retryable_status"
  else None.

Definition classifyRateLimitPayload (op text : string) (headers : HeaderMap) (runtimeCtx : RuntimeContext)
    : option rateLimitClassification :=
  let st := parseStructuredRateLimitText text in
  let headers := match headers_of headers with [] => st_headers st | _ => headers end in
  classifyRateLimitDetails op (st_message st) (st_body st) headers (st_metadata st) (st_status st) runtimeCtx.

Definition classifyRateLimitText (op text : string) (runtimeCtx : RuntimeContext) : option rateLimitClassification :=
  classifyRateLimitPayload op text None runtimeCtx.

(** The error object names the rate limit by its type. *)
Definition classify_error_object (op : string) (nested data : GoMap any) (runtimeCtx : RuntimeContext)
    : rateLimitClassification :=
  let at_ := lookup_any data in
  let nested_at := lookup_any nested in
  let message := stringValue (firstNonNil [nested_at "message"; at_ "message"]) in
  let headers := headerMapFromAny (firstNonNil
    [nested_at "responseHeaders"; nested_at "headers"; at_ "responseHeaders"; at_ "headers"]) in
  let body := stringValue (firstNonNil [nested_at "responseBody"; nested_at "body"; at_ "responseBody"; at_ "body"]) in
  let metadata := stringMapFromAny (nested_at "metadata") in
  let metadata := match headers_of metadata with [] => stringMapFromAny (at_ "metadata") | _ => metadata end in
  let status := intFromAny (firstNonNil
    [nested_at "statusCode"; nested_at "status"; nested_at "code"; at_ "statusCode"; at_ "status"; at_ "code"]) in
  classified op (userRateLimitDetail body message) body message "nested_error_type" headers metadata status runtimeCtx.

Definition classify_data (op : string) (data : GoMap any) (runtimeCtx : RuntimeContext)
    : option rateLimitClassification :=
  let at_ := lookup_any data in
  let headers := headerMapFromAny (at_ "responseHeaders") in
  let headers := match headers_of headers with [] => headerMapFromAny (at_ "headers") | _ => headers end in
  let body := or_else (stringValue (at_ "responseBody")) (stringValue (at_ "body")) in
  let status := intFromAny (firstNonNil [at_ "statusCode"; at_ "status"; at_ "code"]) in
  let metadata := stringMapFromAny (at_ "metadata") in
  let metadata :=
    match headers_of metadata, mapValue (at_ "error") with
    | [], Some nested => stringMapFromAny (lookup_any nested "metadata")
    | _, _ => metadata
    end in
  classifyRateLimitDetails op (messageFrom data) body headers metadata status runtimeCtx.

Definition classifyRateLimitData (op : string) (data : GoMap any) (runtimeCtx : RuntimeContext)
    : option rateLimitClassification :=
  match data with
  | [] => None
  | _ =>
      match mapValue (lookup_any data "error") with
      | Some nested =>
          if strings.EqualFold (stringValue (lookup_any nested "type")) "rate_limit_error"
          then Some (classify_error_object op nested data runtimeCtx)
          else classify_data op data runtimeCtx
      | None => classify_data op data runtimeCtx
      end
  end.
End RateLimit.

(** ** What is recognised *)

(** The texts as they are compared with the lists of words. *)
Definition rate_limited (status : Z) (body message : string) : Prop :=
  if decide (status = 429%Z) then
    containsAny body quota_words = false /\ containsAny message (quota_words ++ ["quota exceeded"]) = false /\
    containsAny body content_words = false /\ containsAny message content_words = false
  else containsAny body body_words = true \/ containsAny message message_words = true \/
       status ∈ [503; 504; 529]%Z.

Lemma classified_error clock p pz op detail body message source headers metadata status ctx :
  let c := classified clock p pz op detail body message source headers metadata status ctx in
  let err := rlc_err c in
  err_Category err = ErrorRateLimit /\ err_Operation err = op /\ err_Cause err = None /\
  err_StatusCode err = status /\ err_Provider err = ctx_Provider ctx /\ err_Model err = ctx_Model ctx /\
  err_RetryAfter err = Z.max 0 (rl_RetryAfter (rlc_info c)) /\
  err_ResponseHeaders err = RedactStringMap (as_StringMap headers) /\
  err_Metadata err = RedactStringMap (as_StringMap metadata) /\
  err_ResponseBody err = RedactString body.
Proof.
  cbv zeta. unfold classified, rateLimitErrorOptions. cbn [rlc_err rlc_info].
  set (info := rateLimitInfoFrom _ _ _ _ _ _ _ _ _). clearbody info.
  destruct (Z.ltb_spec 0 (rl_RetryAfter info)); [rewrite Z.max_r by lia|rewrite Z.max_l by lia]; by repeat split.
Qed.

(** C33: an error is classified as a rate limit exactly when its status is 429
    and neither quota nor content policy is the reason, or its text or a status
    of 503, 504 or 529 says so. The error then has the category rate limit, the
    status, the context of the run and the delay, and its headers, metadata and
    body are redacted. *)
Theorem classifyRateLimitDetails_spec clock p pz op message body headers metadata status ctx :
  let expanded := expandNestedRateLimitBody body in
  let found := classifyRateLimitDetails clock p pz op message body headers metadata status ctx in
  (is_Some found <-> rate_limited status (strings.ToLower expanded) (strings.ToLower message)) /\
  (forall c, found = Some c ->
     err_Category (rlc_err c) = ErrorRateLimit /\ err_StatusCode (rlc_err c) = status /\
     err_Provider (rlc_err c) = ctx_Provider ctx /\ err_Model (rlc_err c) = ctx_Model ctx /\
     err_RetryAfter (rlc_err c) = Z.max 0 (rl_RetryAfter (rlc_info c)) /\
     rl_RetryAfter (rlc_info c) = retry_after clock p pz headers metadata /\
     err_ResponseHeaders (rlc_err c) = RedactStringMap (as_StringMap headers) /\
     err_Metadata (rlc_err c) = RedactStringMap (as_StringMap metadata) /\
     err_ResponseBody (rlc_err c) = RedactString expanded).
Proof.
  cbv zeta. unfold classifyRateLimitDetails, rate_limited. set (e := expandNestedRateLimitBody body). split.
  - destruct (Z.eqb_spec status 429) as [->|Hs].
    + rewrite decide_True by done.
      destruct (containsAny (strings.ToLower e) quota_words), (containsAny (strings.ToLower message) (quota_words ++ _)),
        (containsAny (strings.ToLower e) content_words), (containsAny (strings.ToLower message) content_words);
        cbn [orb]; split; try (intros [? [=]]); try (intros (? & ? & ? & ?); done); try done; eauto.
    + rewrite decide_False by done. rewrite !elem_of_cons, <-!Z.eqb_eq.
      destruct (containsAny (strings.ToLower e) body_words), (containsAny (strings.ToLower message) message_words);
        cbn [orb]; try (split; [tauto|by eexists]).
      destruct (status =? 503)%Z, (status =? 504)%Z, (status =? 529)%Z; cbn [orb];
        split; try (intros [? [=]]); try (by eexists); try tauto.
      intros [|[|[|[|[|H]]]]]; try done. by apply elem_of_nil in H.
  - intros c H.
    assert (exists detail source,
      c = classified clock p pz op detail e message source headers metadata status ctx) as (d & src & ->).
    { repeat case_match; simplify_eq; eauto. }
    destruct (classified_error clock p pz op d e message src headers metadata status ctx)
      as (? & ? & ? & ? & ? & ? & ? & ? & ? & ?). by repeat split.
Qed.

(** ** The fuel of nested text *)
Lemma collect_enough fuel v : within fuel v ->
  forall fuel', fuel <= fuel' -> collectRateLimitStrings fuel' v = collectRateLimitStrings fuel v.
Proof.
  revert v. induction fuel as [|fuel IH]; intros v Hv fuel' Hle; [by apply Nat.nlt_0_r in Hv|].
  destruct fuel' as [|fuel']; [lia|]. revert Hv. induction v as [s|l Hl|m Hm|v Hf] using any_nested_ind; intros Hv.
  - cbn [collectRateLimitStrings]. destruct (strings.TrimSpace s =s ""); [done|].
    destruct (json.Unmarshal s) as [nested|] eqn:E; [|done]. f_equal. apply IH; [|lia].
    apply (within_mono _ _ _ (Unmarshal_within _ _ E)). unfold within in Hv. cbn in Hv. lia.
  - apply longest_list in Hv as [_ Hv].
    change (flat_map (collectRateLimitStrings (S fuel')) l = flat_map (collectRateLimitStrings (S fuel)) l).
    induction Hl as [|x l Hx _ IHl]; [done|]. apply Forall_cons in Hv as [Hv1 Hv2]. cbn [flat_map].
    by rewrite (Hx Hv1), (IHl Hv2).
  - apply longest_map in Hv as [_ Hv].
    change (flat_map (fun '(_, x) => collectRateLimitStrings (S fuel') x) m =
            flat_map (fun '(_, x) => collectRateLimitStrings (S fuel) x) m).
    induction m as [|[k x] m IHm]; [done|]. apply Forall_cons in Hm as [Hx Hm].
    apply Forall_cons in Hv as [Hv1 Hv2]. specialize (Hx Hv1). cbn [flat_map snd] in *.
    by rewrite Hx, (IHm Hm Hv2).
  - by destruct v.
Qed.

(** The search for text inside text ends: decoding a string gives shorter
    ones, so the fuel that [expandNestedRateLimitBody] passes is enough, and
    more of it changes nothing. *)
Theorem collectRateLimitStrings_terminates body payload fuel :
  json.Unmarshal body = Some payload -> S (String.length body) <= fuel ->
  collectRateLimitStrings fuel payload = collectRateLimitStrings (S (String.length body)) payload.
Proof.
  intros H Hle. apply collect_enough; [|done].
  apply (within_mono _ _ _ (Unmarshal_within _ _ H)). lia.
Qed.

Definition nested_body : string := json.with_quotes "{`a`:`{\`b\`:\`deep\`}`}".

Lemma collectRateLimitStrings_terminates_witness :
  exists payload, json.Unmarshal nested_body = Some payload /\
  collectRateLimitStrings 100 payload = collectRateLimitStrings (S (String.length nested_body)) payload.
Proof.
  destruct (json.Unmarshal nested_body) as [payload|] eqn:E; [|vm_compute in E; discriminate E].
  exists payload. split; [reflexivity|].
  apply collectRateLimitStrings_terminates; [exact E|]. vm_compute. lia.
Defined.
