(* ===== verification/OpenCodePermissions.v ===== *)
(** * opencode/permissions.go: SDK permission policies as OpenCode configuration

    [translatePermissions] maps the tools of a policy to OpenCode's native
    permissions; [mergeEnv] writes them into the configuration that the
    environment of the process carries. *)
From S2P Require Import Prelude GoStd Types Errors Permissions Json GoFmt.
#[local] Open Scope string_scope.

Definition opencodeConfigContentEnv : string := "OPENCODE_CONFIG_CONTENT=".

Definition opencodePermissionTools : GoMap string :=
  [(PermissionToolRead, "read"); (PermissionToolEdit, "edit"); (PermissionToolWrite, "edit");
   (PermissionToolPatch, "edit"); (PermissionToolShell, "bash"); (PermissionToolBash, "bash");
   (PermissionToolGlob, "glob"); (PermissionToolSearch, "grep"); (PermissionToolList, "list");
   (PermissionToolTask, "task"); (PermissionToolTodo, "todowrite"); (PermissionToolQuestion, "question");
   (PermissionToolWebFetch, "webfetch"); (PermissionToolWebSearch, "websearch");
   (PermissionToolRepoClone, "repo_clone"); (PermissionToolRepoOverview, "repo_overview");
   (PermissionToolExternalDirectory, "external_directory"); (PermissionToolDoomLoop, "doom_loop");
   (PermissionToolLanguageServer, "lsp"); (PermissionToolSkill, "skill")].

(** The nil and the empty configuration are the empty list. *)
Record permissionTranslation := mkpermissionTranslation {
  pt_config : GoMap any;
  pt_metadata : PermissionMetadata
}.
#[global] Instance eta_permissionTranslation : Eta permissionTranslation := fun r =>
  mkpermissionTranslation (pt_config r) (pt_metadata r).
#[global] Instance zero_permissionTranslation : Zero permissionTranslation :=
  mkpermissionTranslation zero zero.

Definition unsupportedFeature (feature : string) (behavior : PermissionUnsupportedBehavior) (reason : string)
    : PermissionFeatureSupport :=
  mkPermissionFeatureSupport feature
    (if behavior =s PermissionUnsupportedBestEffort then PermissionEnforcementBestEffort
     else PermissionEnforcementUnsupported) reason.

Definition unsupportedPermissionError (feature : PermissionFeatureSupport) : SDKError :=
  NewError ErrorConfiguration "opencode permissions" (pfs_Reason feature) None
    [WithDebugDetail (pfs_Feature feature)].

(** The loop that expands the default action to every native tool. *)
Definition expand_default (action : PermissionAction) (st : permissionTranslation) : permissionTranslation :=
  if action =s PermissionActionDefault then st
  else st
    <| pt_config ::= fun config =>
         foldl (fun config native => map_set config native (AString action)) config opencodePermissionTools.*2 |>
    <| pt_metadata ::= fun md => md <| pmd_Support ::= fun l => (l ++
         [mkPermissionFeatureSupport "default" PermissionEnforcementNative
            "expanded to OpenCode native tool permissions"])%list |> |>.

(** A tool with a native counterpart and an action of its own. *)
Definition set_tool (tool native : string) (action : PermissionAction) (st : permissionTranslation)
    : permissionTranslation :=
  st <| pt_config ::= fun config => map_set config native (AString action) |>
     <| pt_metadata ::= fun md => md
          <| pmd_Support ::= fun l => (l ++
               [mkPermissionFeatureSupport tool PermissionEnforcementNative
                  ("mapped to OpenCode permission " +:+ quoted native)])%list |>
          <| pmd_Audit ::= fun l => (l ++
               [mkPermissionAudit "opencode.config" tool action PermissionEnforcementNative
                  "initialized from SDK permission policy" None])%list |> |>.

(** A tool without one. *)
Definition note_unsupported (unsupported : PermissionFeatureSupport) (st : permissionTranslation)
    : permissionTranslation :=
  st <| pt_metadata ::= fun md => md
          <| pmd_Support ::= fun l => (l ++ [unsupported])%list |>
          <| pmd_Unsupported ::= fun l => (l ++ [unsupported])%list |> |>.

(** The loop over [Tools], with the actions set explicitly so far. *)
Fixpoint translate_tools (behavior : PermissionUnsupportedBehavior) (tools : GoMap PermissionAction)
    (explicit : GoMap PermissionAction) (st : permissionTranslation) : SDKError + permissionTranslation :=
  match tools with
  | [] => inr st
  | (tool, action) :: tools =>
      match map_get opencodePermissionTools tool with
      | None =>
          let unsupported := unsupportedFeature tool behavior
            "OpenCode subprocess permission config has no native tool mapping" in
          if negb (behavior =s PermissionUnsupportedBestEffort) then inl (unsupportedPermissionError unsupported)
          else translate_tools behavior tools explicit (note_unsupported unsupported st)
      | Some native =>
          if action =s PermissionActionDefault then translate_tools behavior tools explicit st
          else
            match map_get explicit native with
            | Some previous =>
                if negb (previous =s action) then
                  inl (NewError ErrorConfiguration "opencode permissions"
                    ("permission aliases for OpenCode tool " +:+ quoted native +:+ " have conflicting actions")
                    None [WithDebugDetail tool])
                else translate_tools behavior tools (map_set explicit native action) (set_tool tool native action st)
            | None => translate_tools behavior tools (map_set explicit native action) (set_tool tool native action st)
            end
      end
  end.

(** The path rules found so far, or the rule that the tool's own action gives. *)
Definition external_paths (config : GoMap any) : GoMap any :=
  match map_get config "external_directory" with
  | Some (AMap paths) => paths
  | Some fallback => [("*", fallback)]
  | None => []
  end.

Definition add_path_rule (st : permissionTranslation) (rule : PermissionPathRule) : permissionTranslation :=
  st <| pt_config ::= fun config => map_set config "external_directory"
          (AMap (map_set (external_paths config) (ppr_Path rule) (AString (ppr_Action rule)))) |>
     <| pt_metadata ::= fun md => md
          <| pmd_Support ::= fun l => (l ++
               [mkPermissionFeatureSupport ("path:" +:+ ppr_Path rule) PermissionEnforcementNative
                  "mapped to OpenCode external_directory path permissions"])%list |>
          <| pmd_Audit ::= fun l => (l ++
               [mkPermissionAudit "opencode.config" PermissionToolExternalDirectory (ppr_Action rule)
                  PermissionEnforcementNative "initialized from SDK path permission rule" None])%list |> |>.

Definition translatePermissions (req : RunRequest) : SDKError + permissionTranslation :=
  let metadata : PermissionMetadata := zero <| pmd_Mode := req_Permissions req |> in
  match req_PermissionPolicy req with
  | None => inr (mkpermissionTranslation [] metadata)
  | Some policy =>
      match ValidatePermissionPolicy (Some policy) with
      | Some err => inl err
      | None =>
          let metadata := metadata <| pmd_Policy := Summary policy |> <| pmd_PolicyID := pps_ID (Summary policy) |> in
          match translate_tools (pp_UnsupportedBehavior policy) (pp_Tools policy) []
                  (expand_default (pp_Default policy) (mkpermissionTranslation [] metadata)) with
          | inl err => inl err
          | inr st => inr (foldl add_path_rule st (pp_PathRules policy))
          end
      end
  end.

(** What building an environment gives: the variables, an error, or the panic
    of an assignment to an entry of the nil map. *)
Inductive EnvResult : Type :=
| EnvOK (env : list string)
| EnvError (err : SDKError)
| EnvPanic.

(** The loop over the variables: those that are not the configuration, and the
    configuration decoded so far. *)
Fixpoint split_config (base : list string) (out : list string) (existing : option (GoMap any))
    : option (list string * option (GoMap any)) :=
  match base with
  | [] => Some (out, existing)
  | value :: base =>
      match strings.CutPrefix opencodeConfigContentEnv value with
      | Some content =>
          match json_UnmarshalMap content existing with
          | Some existing => split_config base out existing
          | None => None
          end
      | None => split_config base (out ++ [value])%list existing
      end
  end.

Definition set_all (permission config : GoMap any) : GoMap any :=
  foldl (fun permission '(key, value) => map_set permission key value) permission config.

(** The permission object of the configuration, if it is one. *)
Definition existing_permission (existing : option (GoMap any)) : option (GoMap any) :=
  match map_get (default [] existing) "permission" with
  | Some (AMap permission) => Some permission
  | Some _ => None
  | None => Some []
  end.

(** [json.Unmarshal] of the text null makes [existing] the nil map. The causes of
    the errors stand for those of the encoder and the decoder. *)
Definition mergeEnv (base : list string) (permissionConfig : GoMap any) : EnvResult :=
  match permissionConfig with
  | [] => EnvOK base
  | _ =>
      match split_config base [] (Some []) with
      | None => EnvError (NewError ErrorConfiguration "opencode permissions"
                  "existing OPENCODE_CONFIG_CONTENT is not valid JSON" (Some (EOther "invalid JSON")) [])
      | Some (out, existing) =>
          match existing_permission existing with
          | None => EnvError (NewError ErrorConfiguration "opencode permissions"
                      "existing OPENCODE_CONFIG_CONTENT permission value must be an object" None [])
          | Some permission =>
              match existing with
              | None => EnvPanic
              | Some existing =>
                  match json_Marshal (AMap (map_set existing "permission"
                          (AMap (set_all permission permissionConfig)))) with
                  | Some content => EnvOK (out ++ [opencodeConfigContentEnv +:+ content])%list
                  | None => EnvError (NewError ErrorConfiguration "opencode permissions"
                      "OpenCode permission config could not be encoded" (Some (EOther "unsupported value")) [])
                  end
              end
          end
      end
  end.

(** ** What a translation grants *)
Definition native_of (tool : string) : option string := map_get opencodePermissionTools tool.
Arguments native_of : simpl never.

(** The action that the tools of a policy give a native permission. *)
Fixpoint explicit_action (tools : GoMap PermissionAction) (native : string) : option PermissionAction :=
  match tools with
  | [] => None
  | (tool, action) :: tools =>
      if negb (action =s "") && bool_decide (native_of tool = Some native) then Some action
      else explicit_action tools native
  end.

(** The action of a native permission: that of its tools, else the default. *)
Definition native_action (policy : PermissionPolicy) (native : string) : option PermissionAction :=
  match explicit_action (pp_Tools policy) native with
  | Some action => Some action
  | None =>
      if negb (pp_Default policy =s "") && bool_decide (native ∈ opencodePermissionTools.*2)
      then Some (pp_Default policy) else None
  end.

(** The action of the last rule for a path. *)
Fixpoint rule_for (rules : list PermissionPathRule) (path : string) : option PermissionAction :=
  match rules with
  | [] => None
  | rule :: rules =>
      match rule_for rules path with
      | Some action => Some action
      | None => if path =s ppr_Path rule then Some (ppr_Action rule) else None
      end
  end.

(** Every tool is known to OpenCode, and aliases of one native permission agree. *)
Definition mapped (tools : GoMap PermissionAction) : Prop :=
  Forall (fun '(tool, _) => is_Some (native_of tool)) tools.
Definition aliases_agree (tools : GoMap PermissionAction) : Prop :=
  forall native tool action, (tool, action) ∈ tools -> native_of tool = Some native -> action <> "" ->
    explicit_action tools native = Some action.

Lemma explicit_action_elem tools native action :
  explicit_action tools native = Some action ->
  exists tool, (tool, action) ∈ tools /\ native_of tool = Some native /\ action <> "".
Proof.
  induction tools as [|[tool a] tools IH]; cbn; [done|].
  destruct (negb _ && _) eqn:E; intros H.
  - apply andb_true_iff in E as [E1 E2%bool_decide_eq_true]. boolify. simplify_eq.
    exists tool. split; [left|done].
  - destruct (IH H) as (t & Ht & Hn). exists t. split; [by right|done].
Qed.

Lemma expand_default_config action st native :
  map_get (pt_config (expand_default action st)) native =
  if negb (action =s "") && bool_decide (native ∈ opencodePermissionTools.*2)
  then Some (AString action) else map_get (pt_config st) native.
Proof.
  unfold expand_default, PermissionActionDefault. destruct (action =s ""); [done|]. cbn [negb andb].
  change (pt_config (_ <| pt_metadata ::= _ |>)) with
    (foldl (fun config native => map_set config native (AString action)) (pt_config st) opencodePermissionTools.*2).
  generalize (opencodePermissionTools.*2), (pt_config st). intros natives.
  induction natives as [|n natives IH]; intros config; cbn [foldl].
  - rewrite bool_decide_eq_false_2 by apply not_elem_of_nil. done.
  - rewrite IH, map_get_set. destruct (String.eqb_spec native n) as [->|Hn].
    + rewrite (bool_decide_eq_true_2 (n ∈ n :: natives)) by left. by destruct (bool_decide _).
    + rewrite (bool_decide_ext (native ∈ n :: natives) (native ∈ natives)); [done|].
      rewrite elem_of_cons. naive_solver.
Qed.

(** One step of the loop over the tools that does not fail. *)
Lemma translate_tools_step b tool action tools explicit st st' :
  translate_tools b ((tool, action) :: tools) explicit st = inr st' ->
  (native_of tool = None /\ b = PermissionUnsupportedBestEffort /\
   exists u, translate_tools b tools explicit (note_unsupported u st) = inr st') \/
  (is_Some (native_of tool) /\ action = "" /\ translate_tools b tools explicit st = inr st') \/
  (exists native, native_of tool = Some native /\ action <> "" /\
     (forall previous, map_get explicit native = Some previous -> previous = action) /\
     translate_tools b tools (map_set explicit native action) (set_tool tool native action st) = inr st').
Proof.
  cbn [translate_tools]. unfold native_of, PermissionActionDefault.
  destruct (map_get opencodePermissionTools tool) as [native|].
  - destruct (String.eqb_spec action ""); [right; left; eauto|].
    intros H. right; right. exists native. destruct (map_get explicit native) as [prev|].
    + destruct (prev =s action) eqn:E; [|done]. apply String.eqb_eq in E. naive_solver.
    + naive_solver.
  - destruct (String.eqb_spec b PermissionUnsupportedBestEffort) as [->|]; [|done]. cbn [negb]. left. eauto.
Qed.

(** The actions that later tools set are those that [explicit] has already. *)
Lemma translate_tools_explicit b tools explicit st st' native action :
  translate_tools b tools explicit st = inr st' ->
  map_get explicit native = Some action ->
  forall action', explicit_action tools native = Some action' -> action' = action.
Proof.
  revert explicit st. induction tools as [|[tool a] tools IH]; intros explicit st H Hx action' Ha; [done|].
  cbn in Ha. apply translate_tools_step in H as [(Hn & _ & u & H)|[(_ & -> & H)|(n & Hn & Hne & Hp & H)]].
  - rewrite Hn, bool_decide_eq_false_2, andb_false_r in Ha by done. eauto.
  - change ("" =s "") with true in Ha. cbn in Ha. eauto.
  - destruct (bool_decide_reflect (native_of tool = Some native)) as [E|E].
    + rewrite Hn in E. injection E as ->. rewrite (proj2 (String.eqb_neq _ _) Hne) in Ha. cbn in Ha.
      injection Ha as <-. symmetry. by apply Hp.
    + rewrite andb_false_r in Ha. apply (IH _ _ H); [|done]. rewrite map_get_set.
      destruct (String.eqb_spec native n) as [->|]; [congruence|done].
Qed.

Lemma translate_tools_config b tools explicit st st' native :
  translate_tools b tools explicit st = inr st' ->
  map_get (pt_config st') native =
  match explicit_action tools native with
  | Some action => Some (AString action)
  | None => map_get (pt_config st) native
  end.
Proof.
  revert explicit st. induction tools as [|[tool a] tools IH]; intros explicit st H; [by injection H as ->|].
  cbn [explicit_action].
  apply translate_tools_step in H as [(Hn & _ & u & H)|[(_ & -> & H)|(n & Hn & Hne & Hp & H)]].
  - rewrite Hn, bool_decide_eq_false_2, andb_false_r by done. by rewrite (IH _ _ H).
  - change ("" =s "") with true. cbn [negb andb]. eauto.
  - rewrite (IH _ _ H), (proj2 (String.eqb_neq _ _) Hne). cbn [negb andb].
    change (pt_config (set_tool tool n a st)) with (map_set (pt_config st) n (AString a)).
    rewrite map_get_set, Hn. destruct (String.eqb_spec native n) as [->|E].
    + rewrite bool_decide_eq_true_2 by done. destruct (explicit_action tools n) as [a'|] eqn:Ea; [|done].
      rewrite (translate_tools_explicit _ _ _ _ _ _ a H ltac:(rewrite map_get_set, String.eqb_refl; done) _ Ea). done.
    + rewrite bool_decide_eq_false_2 by congruence. done.
Qed.

(** The loop succeeds when the tools are known or best effort is enough, and the
    aliases agree with one another and with what was set before. *)
Definition agrees_with (explicit : GoMap PermissionAction) (tools : GoMap PermissionAction) : Prop :=
  forall native action previous, explicit_action tools native = Some action ->
    map_get explicit native = Some previous -> previous = action.

Lemma aliases_agree_cons tool action tools :
  aliases_agree ((tool, action) :: tools) <->
  aliases_agree tools /\
  (forall native a, native_of tool = Some native -> action <> "" ->
     explicit_action tools native = Some a -> a = action).
Proof.
  unfold aliases_agree. cbn [explicit_action]. split.
  - intros H. split.
    + intros n t a Ht Hn Ha. pose proof (H n t a ltac:(by right) Hn Ha) as E.
      destruct (negb _ && _) eqn:C; [|done]. apply andb_true_iff in C as [C1 C2%bool_decide_eq_true].
      injection E as <-. destruct (explicit_action tools n) as [a'|] eqn:Ea.
      * destruct (explicit_action_elem _ _ _ Ea) as (t' & Ht' & Hn' & Ha').
        pose proof (H n t' a' ltac:(by right) Hn' Ha') as E.
        rewrite C1, bool_decide_eq_true_2 in E by done. done.
      * exfalso. revert Ea. clear H C1. induction tools as [|[t2 a2] tools IH]; [by apply elem_of_nil in Ht|].
        cbn. apply elem_of_cons in Ht as [[= -> ->]|Ht].
        -- rewrite (proj2 (String.eqb_neq _ _) Ha), bool_decide_eq_true_2 by done. done.
        -- destruct (negb _ && _); [done|]. by apply IH.
    + intros n a Hn Ha Ea. destruct (explicit_action_elem _ _ _ Ea) as (t' & Ht' & Hn' & Ha').
      pose proof (H n t' a ltac:(by right) Hn' Ha') as E.
      rewrite (proj2 (String.eqb_neq _ _) Ha), bool_decide_eq_true_2 in E by done. by injection E.
  - intros [H1 H2] n t a Ht Hn Ha. apply elem_of_cons in Ht as [[= -> ->]|Ht].
    + rewrite (proj2 (String.eqb_neq _ _) Ha), bool_decide_eq_true_2 by done. done.
    + pose proof (H1 n t a Ht Hn Ha) as E. destruct (negb _ && _) eqn:C; [|done].
      apply andb_true_iff in C as [C1 C2%bool_decide_eq_true]. boolify. f_equal. symmetry. eauto.
Qed.

Lemma agrees_with_set explicit tools native action :
  agrees_with explicit tools ->
  (forall a, explicit_action tools native = Some a -> a = action) ->
  agrees_with (map_set explicit native action) tools.
Proof.
  intros Ha Hn n a p E Hp. rewrite map_get_set in Hp. destruct (String.eqb_spec n native) as [->|].
  - injection Hp as <-. symmetry. by apply Hn.
  - by apply (Ha n a p).
Qed.

(** The head of a list of tools against what was set before. *)
Lemma agrees_with_cons explicit tool action tools :
  aliases_agree ((tool, action) :: tools) ->
  agrees_with explicit ((tool, action) :: tools) <->
  (forall native previous, native_of tool = Some native -> action <> "" ->
     map_get explicit native = Some previous -> previous = action) /\ agrees_with explicit tools.
Proof.
  intros [_ Hc]%aliases_agree_cons. unfold agrees_with. cbn [explicit_action].
  split.
  - intros H. split.
    + intros n p Hn Ha. apply (H n action p).
      by rewrite (proj2 (String.eqb_neq _ _) Ha), bool_decide_eq_true_2.
    + intros n a p Ea. destruct (negb (action =s "") && bool_decide (native_of tool = Some n)) eqn:C.
      * pose proof C as [C1%negb_true_iff%String.eqb_neq C2%bool_decide_eq_true]%andb_true_iff.
        rewrite (Hc n a C2 C1 Ea). apply (H n action p). by rewrite C.
      * apply (H n a p). by rewrite C.
  - intros [H1 H2] n a p Ea. destruct (negb _ && _) eqn:C; [|by apply H2].
    apply andb_true_iff in C as [C1 C2%bool_decide_eq_true]. boolify. injection Ea as <-. by apply H1.
Qed.

Lemma translate_tools_rest b tool action tools explicit st st' :
  translate_tools b ((tool, action) :: tools) explicit st = inr st' ->
  exists explicit' st1, translate_tools b tools explicit' st1 = inr st'.
Proof. intros [(_ & _ & u & H)|[(_ & _ & H)|(n & _ & _ & _ & H)]]%translate_tools_step; eauto. Qed.

(** What was set before, and every alias of the head, is what later tools set. *)
Lemma translate_tools_agrees b tool action tools explicit st st' :
  translate_tools b ((tool, action) :: tools) explicit st = inr st' ->
  (forall native a, native_of tool = Some native -> action <> "" ->
     explicit_action tools native = Some a -> a = action) /\
  (forall native p, native_of tool = Some native -> action <> "" ->
     map_get explicit native = Some p -> p = action) /\
  agrees_with explicit tools.
Proof.
  intros [(Hn & _ & u & H)|[(_ & -> & H)|(n & Hn & Hne & Hp & H)]]%translate_tools_step.
  1,2: split; [congruence|split; [congruence|]]; intros n a p Ea Hx; symmetry;
    by apply (translate_tools_explicit _ _ _ _ _ _ _ H Hx).
  assert (Hset : map_get (map_set explicit n action) n = Some action) by by rewrite map_get_set, String.eqb_refl.
  pose proof (translate_tools_explicit _ _ _ _ _ n action H Hset) as Hlater.
  split; [intros n' a Hn' _; rewrite Hn in Hn'; injection Hn' as <-; apply Hlater|].
  split; [intros n' p Hn' _; rewrite Hn in Hn'; injection Hn' as <-; apply Hp|].
  intros n' a p Ea Hx. symmetry. destruct (String.eqb_spec n' n) as [->|Hd].
  - rewrite (Hp _ Hx). by apply Hlater.
  - apply (translate_tools_explicit _ _ _ _ _ n' p H); [|done].
    by rewrite map_get_set, (proj2 (String.eqb_neq _ _) Hd).
Qed.

Lemma translate_tools_only b tools explicit st st' :
  translate_tools b tools explicit st = inr st' ->
  (b = PermissionUnsupportedBestEffort \/ mapped tools) /\ aliases_agree tools /\ agrees_with explicit tools.
Proof.
  revert explicit st. induction tools as [|[tool action] tools IH]; intros explicit st H.
  - repeat split; [by right; constructor|by intros ? ? ? ?%elem_of_nil|done].
  - destruct (translate_tools_rest _ _ _ _ _ _ _ H) as (ex & st1 & Hrest).
    destruct (IH _ _ Hrest) as (Hm & Ha & _).
    destruct (translate_tools_agrees _ _ _ _ _ _ _ H) as (H1 & H2 & H3).
    assert (Hall : aliases_agree ((tool, action) :: tools)) by by apply aliases_agree_cons.
    split; [|split; [done|by apply agrees_with_cons]].
    destruct Hm as [Hm|Hm]; [by left|].
    apply translate_tools_step in H as [(_ & -> & _)|[(Hs & _)|(n & Hn & _)]]; [by left|right|right];
      constructor; done || by exists n.
Qed.

Lemma translate_tools_total b tools explicit st :
  b = PermissionUnsupportedBestEffort \/ mapped tools -> aliases_agree tools -> agrees_with explicit tools ->
  exists st', translate_tools b tools explicit st = inr st'.
Proof.
  revert explicit st. induction tools as [|[tool action] tools IH]; intros explicit st Hm Hall Hag; [by exists st|].
  apply agrees_with_cons in Hag as [Hh Hag]; [|done].
  pose proof Hall as [Hrest Hc]%aliases_agree_cons.
  assert (b = PermissionUnsupportedBestEffort \/ mapped tools) as Hm'.
  { destruct Hm as [|Hm]; [by left|right]. by apply Forall_cons in Hm as [_ ?]. }
  cbn [translate_tools]. change (map_get opencodePermissionTools tool) with (native_of tool).
  destruct (native_of tool) as [n|] eqn:Hn.
  - unfold PermissionActionDefault. destruct (String.eqb_spec action "") as [->|Hne]; [by apply IH|].
    assert (exists st', translate_tools b tools (map_set explicit n action) (set_tool tool n action st) = inr st')
      as Hgo by (apply IH; [done|done|]; apply agrees_with_set; eauto).
    destruct (map_get explicit n) as [p|] eqn:Hp; [|done].
    rewrite (Hh n p) by done. by rewrite String.eqb_refl.
  - assert (b = PermissionUnsupportedBestEffort) as ->.
    { destruct Hm as [|Hm]; [done|]. apply Forall_cons in Hm as [[n Hs] _]. congruence. }
    rewrite String.eqb_refl. by apply IH.
Qed.

(** The path rules only touch the external directories. *)
Lemma path_rules_config rules st native :
  native <> "external_directory" ->
  map_get (pt_config (foldl add_path_rule st rules)) native = map_get (pt_config st) native.
Proof.
  intros Hn. revert st. induction rules as [|rule rules IH]; intros st; [done|]. cbn [foldl]. rewrite IH.
  change (pt_config (add_path_rule st rule)) with
    (map_set (pt_config st) "external_directory"
       (AMap (map_set (external_paths (pt_config st)) (ppr_Path rule) (AString (ppr_Action rule))))).
  by rewrite map_get_set, (proj2 (String.eqb_neq _ _) Hn).
Qed.

Lemma path_rules_paths rules st path :
  map_get (external_paths (pt_config (foldl add_path_rule st rules))) path =
  match rule_for rules path with
  | Some action => Some (AString action)
  | None => map_get (external_paths (pt_config st)) path
  end.
Proof.
  revert st. induction rules as [|rule rules IH]; intros st; [done|]. cbn [foldl rule_for]. rewrite IH.
  destruct (rule_for rules path); [done|].
  change (pt_config (add_path_rule st rule)) with
    (map_set (pt_config st) "external_directory"
       (AMap (map_set (external_paths (pt_config st)) (ppr_Path rule) (AString (ppr_Action rule))))).
  unfold external_paths at 1. rewrite map_get_set, String.eqb_refl, map_get_set. by destruct (path =s ppr_Path rule).
Qed.


Definition deny_shell : RunRequest := zero <| req_PermissionPolicy := Some (mkPermissionPolicy
  PermissionActionAllow [(PermissionToolShell, PermissionActionDeny); (PermissionToolBash, PermissionActionDeny)]
  [mkPermissionPathRule "/etc" PermissionActionAsk] PermissionUnsupportedFail None) |>.


(** ** The environment of the process *)
Definition is_config (value : string) : bool := strings.HasPrefix value opencodeConfigContentEnv.

Lemma split_config_out base out existing out' existing' :
  split_config base out existing = Some (out', existing') ->
  out' = (out ++ filter (fun value => is_config value = false) base)%list.
Proof.
  revert out existing. induction base as [|value base IH]; intros out existing H; cbn [split_config] in H.
  - injection H as <- <-. by rewrite app_nil_r.
  - unfold is_config, strings.HasPrefix. rewrite filter_cons.
    destruct (strings.CutPrefix opencodeConfigContentEnv value) as [content|] eqn:E.
    + rewrite decide_False by (rewrite bool_decide_eq_true_2; [discriminate|by eexists]).
      destruct (json_UnmarshalMap content existing); [|done]. eauto.
    + rewrite decide_True by (rewrite bool_decide_eq_false_2; [done|by intros [? ?]]).
      rewrite (IH _ _ H), <-app_assoc. done.
Qed.

Lemma set_all_get permission config key : NoDup config.*1 ->
  map_get (set_all permission config) key =
  match map_get config key with Some value => Some value | None => map_get permission key end.
Proof.
  unfold set_all. revert permission. induction config as [|[k v] config IH]; intros permission Hnd; [done|].
  apply NoDup_cons in Hnd as [Hk Hnd]. cbn [foldl map_get]. rewrite IH by done.
  destruct (String.eqb_spec key k) as [->|Hd].
  - rewrite (proj2 (map_get_None config k)) by done. by rewrite map_get_set, String.eqb_refl.
  - destruct (map_get config key); [done|]. by rewrite map_get_set, (proj2 (String.eqb_neq _ _) Hd).
Qed.

(** C24: when there are permissions to enforce, the environment keeps every
    variable that is not the OpenCode configuration, in order, and ends in one
    configuration: the decoded one with every permission of the policy put over
    what it had. *)
Theorem mergeEnv_spec base config env :
  NoDup config.*1 -> config <> [] -> mergeEnv base config = EnvOK env ->
  exists existing permission content,
    split_config base [] (Some []) =
      Some (filter (fun value => is_config value = false) base, Some existing) /\
    env = (filter (fun value => is_config value = false) base ++ [opencodeConfigContentEnv +:+ content])%list /\
    json_Marshal (AMap (map_set existing "permission" (AMap permission))) = Some content /\
    (forall key, map_get permission key =
       match map_get config key with
       | Some value => Some value
       | None => existing_permission (Some existing) ≫= fun p => map_get p key
       end).
Proof.
  intros Hnd Hne H. unfold mergeEnv in H. destruct config as [|entry config]; [done|].
  set (cfg := entry :: config) in *. clearbody cfg.
  destruct (split_config base [] (Some [])) as [[out [existing|]]|] eqn:E; [| |done].
  - rewrite (split_config_out _ _ _ _ _ E) in *. cbn [app] in *.
    destruct (existing_permission (Some existing)) as [permission|] eqn:Ep; [|done].
    destruct (json_Marshal _) as [content|] eqn:Em; [|done]. injection H as <-.
    exists existing, (set_all permission cfg), content. repeat split; [done|].
    intros key. rewrite set_all_get, Ep by done. by destruct (map_get cfg key).
  - by destruct (existing_permission None).
Qed.

Definition deny_bash : GoMap any := [("bash", AString "deny")].
Definition asking_env : list string :=
  ["A=1"; opencodeConfigContentEnv +:+ json.with_quotes "{`permission`:{`edit`:`ask`}}"].

Lemma mergeEnv_spec_witness :
  exists env, mergeEnv asking_env deny_bash = EnvOK env /\ length env = 2.
Proof.
  destruct (mergeEnv asking_env deny_bash) as [env| |] eqn:E;
    [|vm_compute in E; discriminate E|vm_compute in E; discriminate E].
  exists env. split; [reflexivity|].
  destruct (mergeEnv_spec asking_env deny_bash env) as (ex & perm & content & _ & -> & _).
  - apply NoDup_singleton.
  - discriminate.
  - exact E.
  - vm_compute. reflexivity.
Defined.

(** A configuration that is the JSON null makes the merge panic. *)
Lemma mergeEnv_null : mergeEnv ["OPENCODE_CONFIG_CONTENT=null"] deny_bash = EnvPanic.
Proof. reflexivity. Qed.
