(* ===== verification/OpenCodeProcess.v ===== *)
(** * opencode/process.go and the files of the platforms: the process of a run

    Starting a process, its bounded buffer of standard error, waiting for it
    once and cancelling its process group, as process_linux.go, process_unix.go,
    process_windows.go and process_other.go do it. What the operating system
    answers is the environment. *)
From S2P Require Import Prelude GoStd Types.
#[local] Open Scope string_scope.

(** The struct [processSpec] of opencode/options.go. *)
Record processSpec := mkprocessSpec {
  ps_Executable : string;
  ps_Args : list string;
  ps_Env : list string;
  ps_WorkDir : string;
  ps_Stdin : string
}.
#[global] Instance eta_processSpec : Eta processSpec := fun r =>
  mkprocessSpec (ps_Executable r) (ps_Args r) (ps_Env r) (ps_WorkDir r) (ps_Stdin r).
#[global] Instance zero_processSpec : Zero processSpec :=
  mkprocessSpec zero zero zero zero zero.

Record processResult := mkprocessResult {
  pr_ExitCode : Z;
  pr_Err : option error
}.
#[global] Instance eta_processResult : Eta processResult := fun r =>
  mkprocessResult (pr_ExitCode r) (pr_Err r).
#[global] Instance zero_processResult : Zero processResult :=
  mkprocessResult zero zero.

Record cleanupResult := mkcleanupResult {
  cr_GracefulAttempted : bool;
  cr_ForceAttempted : bool;
  cr_Err : option error
}.
#[global] Instance eta_cleanupResult : Eta cleanupResult := fun r =>
  mkcleanupResult (cr_GracefulAttempted r) (cr_ForceAttempted r) (cr_Err r).
#[global] Instance zero_cleanupResult : Zero cleanupResult :=
  mkcleanupResult zero zero zero.

(** ** limitBuffer *)
Record limitBuffer := mklimitBuffer {
  lb_limit : Z;
  lb_buf : string
}.
#[global] Instance eta_limitBuffer : Eta limitBuffer := fun r =>
  mklimitBuffer (lb_limit r) (lb_buf r).
#[global] Instance zero_limitBuffer : Zero limitBuffer :=
  mklimitBuffer zero zero.

Definition newLimitBuffer (limit : Z) : limitBuffer := mklimitBuffer limit "".

Definition str_len (s : string) : Z := Z.of_nat (String.length s).

Definition Write (p : string) (b : limitBuffer) : Z * limitBuffer :=
  let written := str_len p in
  if (lb_limit b <=? 0)%Z then (written, b)
  else if (str_len (lb_buf b) + str_len p <=? lb_limit b)%Z then (written, b <| lb_buf ::= fun buf => buf +:+ p |>)
  else
    let remaining := (lb_limit b - str_len (lb_buf b))%Z in
    if (0 <? remaining)%Z
    then (written, b <| lb_buf ::= fun buf => buf +:+ strings.take (Z.to_nat remaining) p |>)
    else (written, b).

(** The buffer after the writes of the chunks, in order. *)
Definition write_all (chunks : list string) (b : limitBuffer) : limitBuffer :=
  foldl (fun b p => snd (Write p b)) b chunks.

(** The method [String]. *)
Definition limitBuffer_String (b : limitBuffer) : string := lb_buf b.

(** ** The platforms

    The build tags of the four files: every platform has exactly one of them. *)
Inductive Platform : Type := Linux | UnixNotLinux | Windows | OtherPlatform.

Inductive Signal : Type := SIGTERM | SIGKILL.

(** [syscall.SysProcAttr], as far as the code sets it. *)
Record SysProcAttr := mkSysProcAttr {
  spa_Setpgid : bool;
  spa_Pdeathsig : option Signal
}.

(** [exec.Cmd]; [cmd_Env] is [None] for nil, which stands for the environment
    of the parent. *)
Record Cmd := mkCmd {
  cmd_Path : string;
  cmd_Args : list string;
  cmd_Dir : string;
  cmd_Env : option (list string);
  cmd_Stdin : string;
  cmd_SysProcAttr : option SysProcAttr
}.
#[global] Instance eta_Cmd : Eta Cmd := fun r =>
  mkCmd (cmd_Path r) (cmd_Args r) (cmd_Dir r) (cmd_Env r) (cmd_Stdin r) (cmd_SysProcAttr r).

Definition configureProcessGroup_linux (cmd : Cmd) : Cmd :=
  cmd <| cmd_SysProcAttr := Some (mkSysProcAttr true (Some SIGTERM)) |>.
Definition configureProcessGroup_unix (cmd : Cmd) : Cmd :=
  cmd <| cmd_SysProcAttr := Some (mkSysProcAttr true None) |>.
Definition configureProcessGroup_windows (cmd : Cmd) : Cmd := cmd.
Definition configureProcessGroup_other (cmd : Cmd) : Cmd := cmd.

Definition configureProcessGroup (p : Platform) : Cmd -> Cmd :=
  match p with
  | Linux => configureProcessGroup_linux
  | UnixNotLinux => configureProcessGroup_unix
  | Windows => configureProcessGroup_windows
  | OtherPlatform => configureProcessGroup_other
  end.

(** ** Starting *)

(** What the operating system answers: its environment, and the errors of the
    two pipes and of [cmd.Start]. *)
Record ExecEnv := mkExecEnv {
  xe_environ : list string;
  xe_stdout : option error;
  xe_stderr : option error;
  xe_start : option error
}.

(** The command of [execProcessRunner.Start], before its pipes are opened. *)
Definition start_command (p : Platform) (x : ExecEnv) (spec : processSpec) : Cmd :=
  let cmd := mkCmd (ps_Executable spec) (ps_Args spec) "" None "" None in
  let cmd := if negb (ps_WorkDir spec =s "") then cmd <| cmd_Dir := ps_WorkDir spec |> else cmd in
  let cmd := match ps_Env spec with
             | [] => cmd
             | _ :: _ => cmd <| cmd_Env := Some (xe_environ x ++ ps_Env spec)%list |>
             end in
  let cmd := cmd <| cmd_Stdin := ps_Stdin spec |> in
  configureProcessGroup p cmd.

(** [execProcessRunner.Start]: the command that runs, or the first error. *)
Definition Start (p : Platform) (x : ExecEnv) (spec : processSpec) : error + Cmd :=
  let cmd := start_command p x spec in
  match xe_stdout x with
  | Some err => inl err
  | None =>
      match xe_stderr x with
      | Some err => inl err
      | None => match xe_start x with Some err => inl err | None => inr cmd end
      end
  end.

(** What the child sees, as os/exec documents it: the environment of the parent
    when none is set; of several entries for a variable the last one counts. *)
Definition child_environ (x : ExecEnv) (cmd : Cmd) : list string := default (xe_environ x) (cmd_Env cmd).

(** ** The process *)

(** [exec.Cmd.Wait]: its error, the exit code of the process state when there is
    one, and the exit code when the error is an [exec.ExitError]. *)
Record CmdExit := mkCmdExit {
  ce_err : option error;
  ce_state : option Z;
  ce_exit : option Z
}.

(** The body of [once.Do] in [execProcess.Wait]. *)
Definition wait_result (x : CmdExit) : processResult :=
  let code := default 0%Z (ce_state x) in
  match ce_err x with
  | None => mkprocessResult code None
  | Some err => mkprocessResult (default code (ce_exit x)) (Some err)
  end.

(** [execProcess.Wait]: the first call waits, later ones repeat its result. *)
Definition Wait (x : CmdExit) : St (option processResult) processResult :=
  let* waited := get in
  match waited with
  | Some result => ret result
  | None => modify (fun _ => Some (wait_result x)) ;; ret (wait_result x)
  end.

(** The error of [syscall.Kill], which is ESRCH when the group is gone. *)
Inductive KillError : Type := ESRCH | KillFailed (err : error).

Inductive Signalled : Type := SignalSent | SignalProcessDone | SignalError (err : error).

(** What is sent: a signal to a process group, by its negative number, or the
    kill of one process. *)
Inductive Delivery : Type := GroupSignal (group : Z) (signal : Signal) | KillProcess (pid : Z).

(** The part of [signalProcessGroup] before the system call; [pid] is [None]
    for a nil process. *)
Definition signal_target_unix (pid : option Z) (force : bool) : option Delivery :=
  match pid with
  | None => None
  | Some pid =>
      if (pid <=? 0)%Z then None else Some (GroupSignal (- pid) (if force then SIGKILL else SIGTERM))
  end.

Definition signal_target_windows (pid : option Z) (force : bool) : option Delivery := KillProcess <$> pid.
Definition signal_target_other (pid : option Z) (force : bool) : option Delivery := KillProcess <$> pid.

Definition signal_target (p : Platform) : option Z -> bool -> option Delivery :=
  match p with
  | Linux | UnixNotLinux => signal_target_unix
  | Windows => signal_target_windows
  | OtherPlatform => signal_target_other
  end.

(** [signalProcessGroup]; [kill] is the answer to what is sent, where ESRCH
    stands for every answer that says the process is gone. *)
Definition signalProcessGroup (p : Platform) (pid : option Z) (force : bool) (kill : option KillError) : Signalled :=
  match signal_target p pid force with
  | None => SignalProcessDone
  | Some _ =>
      match kill with
      | None => SignalSent
      | Some ESRCH => SignalProcessDone
      | Some (KillFailed err) => SignalError err
      end
  end.

(** What the process is seen to do while it is cancelled: whether it has exited
    before the signal and after the grace period, and what the two signals
    (SIGTERM, then SIGKILL) do. *)
Record CancelEnv := mkCancelEnv {
  ca_pid : option Z;
  ca_exited_before : bool;
  ca_term : option KillError;
  ca_exited_after : bool;
  ca_kill : option KillError
}.

(** The steps after the grace period. *)
Definition force (p : Platform) (env : CancelEnv) (result : cleanupResult) : cleanupResult :=
  if ca_exited_after env then result
  else
    let result := result <| cr_ForceAttempted := true |> in
    match signalProcessGroup p (ca_pid env) true (ca_kill env), cr_Err result with
    | SignalError err, None => result <| cr_Err := Some err |>
    | _, _ => result
    end.

Definition Cancel (p : Platform) (env : CancelEnv) : cleanupResult :=
  match ca_pid env with
  | None => zero
  | Some _ =>
      let result : cleanupResult := zero <| cr_GracefulAttempted := true |> in
      if ca_exited_before env then result
      else
        match signalProcessGroup p (ca_pid env) false (ca_term env) with
        | SignalError err => force p env (result <| cr_Err := Some err |>)
        | SignalProcessDone => result
        | SignalSent => force p env result
        end
  end.

(** What [Cancel] sent, read off its result. *)
Definition deliveries (p : Platform) (env : CancelEnv) : list Delivery :=
  let result := Cancel p env in
  let sent (attempted : bool) (forced : bool) :=
    if attempted then match signal_target p (ca_pid env) forced with Some d => [d] | None => [] end else [] in
  (sent (cr_GracefulAttempted result && negb (ca_exited_before env)) false ++ sent (cr_ForceAttempted result) true)%list.

(** ** Facts *)
Lemma Write_prefix b p text :
  lb_buf b = strings.take (Z.to_nat (lb_limit b)) text ->
  let b' := snd (Write p b) in
  lb_limit b' = lb_limit b /\ lb_buf b' = strings.take (Z.to_nat (lb_limit b)) (text +:+ p).
Proof.
  destruct b as [limit buf]. cbn [lb_limit lb_buf]. intros ->. unfold Write. cbn [lb_limit lb_buf].
  unfold str_len. rewrite strings.length_take, take_app.
  destruct (Z.leb_spec limit 0).
  { replace (Z.to_nat limit) with 0 by lia. cbn [snd lb_limit lb_buf]. rewrite !take_0. done. }
  destruct (Z.leb_spec (Z.of_nat (Nat.min (Z.to_nat limit) (String.length text)) + Z.of_nat (String.length p)) limit).
  - cbn. split; [done|]. f_equal. symmetry.
    destruct p; [by destruct (_ - _)|]. cbn [String.length] in *. apply take_all. cbn. lia.
  - destruct (Z.ltb_spec 0 (limit - Z.of_nat (Nat.min (Z.to_nat limit) (String.length text)))); cbn.
    + split; [done|]. f_equal. f_equal. lia.
    + split; [done|]. replace (Z.to_nat limit - String.length text) with 0 by lia. rewrite take_0. symmetry. apply str_app_nil_r.
Qed.

Lemma write_all_prefix limit chunks :
  limitBuffer_String (write_all chunks (newLimitBuffer limit)) =
  strings.take (Z.to_nat limit) (foldl (fun text p => text +:+ p) "" chunks).
Proof.
  unfold write_all, limitBuffer_String.
  assert (forall b text, lb_limit b = limit -> lb_buf b = strings.take (Z.to_nat limit) text ->
    lb_buf (foldl (fun b p => snd (Write p b)) b chunks) =
    strings.take (Z.to_nat limit) (foldl (fun text p => text +:+ p) text chunks)) as H.
  { induction chunks as [|p chunks IH]; intros b text <- Hb; [done|]. cbn [foldl].
    destruct (Write_prefix b p text Hb) as [H1 H2]. by apply IH. }
  apply H; [done|]. by destruct (Z.to_nat limit).
Qed.

(** The buffer holds the first [limit] bytes of what was written, however it
    was split into writes, and every write reports its whole length; a limit
    that is not positive keeps nothing. *)
Theorem limitBuffer_spec limit chunks :
  limitBuffer_String (write_all chunks (newLimitBuffer limit)) =
    strings.take (Z.to_nat limit) (foldl (fun text p => text +:+ p) "" chunks) /\
  (forall p b, fst (Write p b) = str_len p).
Proof.
  split; [apply write_all_prefix|]. intros p b. unfold Write. by repeat case_match.
Qed.

(** A cancelled process is signalled gently first; force is used only when it
    survived the grace period, nothing is sent to a process that has exited or
    was never started, and the error is that of the first signal that failed
    other than because the process was gone. *)
Theorem Cancel_spec p env :
  let result := Cancel p env in
  let first := signalProcessGroup p (ca_pid env) false (ca_term env) in
  (cr_GracefulAttempted result = true <-> is_Some (ca_pid env)) /\
  (cr_ForceAttempted result = true <->
     is_Some (ca_pid env) /\ ca_exited_before env = false /\ ca_exited_after env = false /\
     first <> SignalProcessDone) /\
  (forall err, cr_Err result = Some err ->
     first = SignalError err \/
     (first = SignalSent /\ cr_ForceAttempted result = true /\
      signalProcessGroup p (ca_pid env) true (ca_kill env) = SignalError err)).
Proof.
  unfold Cancel, force. destruct env as [[pid|] before term after kill]; cbn [ca_pid ca_exited_before ca_term ca_exited_after ca_kill].
  - destruct before; [cbn; naive_solver|].
    destruct (signalProcessGroup p (Some pid) false term) as [| |err] eqn:E; [|cbn; naive_solver|];
      destruct after; [cbn; naive_solver| |cbn; naive_solver|];
      destruct (signalProcessGroup p (Some pid) true kill) as [| |err'] eqn:E'; cbn; naive_solver.
  - cbn. split; [|split]; [split; [done|by intros [? ?]]| |done]. split; [done|by intros ([? ?] & _)].
Qed.

(** On Unix the signals go to the group of the process, SIGTERM and then SIGKILL;
    never to a group given by zero, which would be the caller's own. *)
Theorem Cancel_deliveries p env pid :
  (p = Linux \/ p = UnixNotLinux) -> ca_pid env = Some pid ->
  deliveries p env `sublist_of` [GroupSignal (- pid) SIGTERM; GroupSignal (- pid) SIGKILL] /\
  ((pid <= 0)%Z -> deliveries p env = []).
Proof.
  intros Hp Hpid. unfold deliveries. cbv zeta. rewrite Hpid.
  assert (signal_target p = signal_target_unix) as -> by (by destruct Hp as [-> | ->]).
  unfold signal_target_unix. destruct (Z.leb_spec pid 0).
  - assert (forall b : bool, (if b then [] else []) = @nil Delivery) as E by (by intros []).
    rewrite !E. split; [apply sublist_nil_l|done].
  - split; [|lia]. destruct (_ && _), (cr_ForceAttempted _); cbn; repeat constructor.
Qed.

(** Starting runs exactly the command of the specification: its executable and
    arguments, its working directory and standard input; on Unix in a process
    group of its own, which [Cancel] signals as a whole. It fails exactly when
    a pipe or the start itself does. *)
Theorem Start_spec p x spec :
  match Start p x spec with
  | inr cmd =>
      cmd_Path cmd = ps_Executable spec /\ cmd_Args cmd = ps_Args spec /\ cmd_Dir cmd = ps_WorkDir spec /\
      cmd_Stdin cmd = ps_Stdin spec /\ child_environ x cmd = (xe_environ x ++ ps_Env spec)%list /\
      (cmd_SysProcAttr cmd <> None <-> p = Linux \/ p = UnixNotLinux) /\
      (forall attr, cmd_SysProcAttr cmd = Some attr -> spa_Setpgid attr = true)
  | inl err => Some err = xe_stdout x \/ Some err = xe_stderr x \/ Some err = xe_start x
  end.
Proof.
  unfold Start. destruct (xe_stdout x); [by left|]. destruct (xe_stderr x); [by right; left|].
  destruct (xe_start x); [by right; right|]. unfold start_command, child_environ.
  destruct spec as [exe args [|e env] dir stdin]; cbn [ps_Env ps_Executable ps_Args ps_WorkDir ps_Stdin];
    case_str; destruct p; cbn; rewrite ?app_nil_r; split_and!; try done; try naive_solver.
Qed.

(** Waiting again gives the same result. *)
Lemma Wait_once x x' s : fst (Wait x' (snd (Wait x s))) = fst (Wait x s).
Proof. by destruct s. Qed.
