(* ===== verification/OpenCodeOptions.v ===== *)
(** * opencode/options.go: the runtime and its options

    [NewRuntime] applies the options to the defaults; [Capabilities] is what the
    adapter promises. The process runner and the clock of the runtime are part
    of the environment of its operations. *)
From S2P Require Import Prelude GoStd Types Capabilities.
#[local] Open Scope string_scope.

Definition defaultExecutable : string := "opencode".
Definition defaultStderrLimit : Z := (16 * 1024)%Z.

(** A query of OpenCode's database for a session since a time. *)
Definition DBQuery : Type := SessionID -> Time -> error + string.

(** [dbQuery] is nil, the runtime's own query, or one that an option set. *)
Inductive dbQueryField : Type := DBNil | DBOwn | DBSet (query : DBQuery).

Record Runtime := mkRuntime {
  rt_executable : string;
  rt_extraArgs : list string;
  rt_env : list string;
  rt_stderrLimit : Z;
  rt_dbQuery : dbQueryField;
  rt_dbQuerySet : bool;
  rt_rates : bool;
  rt_snapshots : option bool
}.
#[global] Instance zero_dbQueryField : Zero dbQueryField := DBNil.
#[global] Instance eta_Runtime : Eta Runtime := fun r =>
  mkRuntime (rt_executable r) (rt_extraArgs r) (rt_env r) (rt_stderrLimit r) (rt_dbQuery r)
    (rt_dbQuerySet r) (rt_rates r) (rt_snapshots r).
#[global] Instance zero_Runtime : Zero Runtime :=
  mkRuntime zero zero zero zero zero zero zero zero.

Definition Option : Type := Runtime -> Runtime.

Definition WithExecutable (path : string) : Option :=
  fun r => if path =s "" then r else r <| rt_executable := path |>.
Definition WithExtraArgs (args : list string) : Option := fun r => r <| rt_extraArgs := args |>.
Definition WithEnv (env : list string) : Option := fun r => r <| rt_env := env |>.
Definition WithSnapshots (enabled : bool) : Option := fun r => r <| rt_snapshots := Some enabled |>.
Definition WithStderrLimit (limit : Z) : Option :=
  fun r => if (0 <? limit)%Z then r <| rt_stderrLimit := limit |> else r.
(** The store itself is state that runs share; here it is set or not. *)
Definition WithRateTableStore (store : bool) : Option := fun r => if store then r <| rt_rates := true |> else r.
Definition withDBQuery (query : option DBQuery) : Option :=
  fun r => r <| rt_dbQuery := match query with Some q => DBSet q | None => DBNil end |> <| rt_dbQuerySet := true |>.

Definition NewRuntime (options : list Option) : Runtime :=
  let r := foldl (fun r opt => opt r)
    (zero <| rt_executable := defaultExecutable |> <| rt_stderrLimit := defaultStderrLimit |>) options in
  match rt_dbQuery r with
  | DBNil => if rt_dbQuerySet r then r else r <| rt_dbQuery := DBOwn |>
  | _ => r
  end.

Definition Runtime_Capabilities : Capabilities :=
  let yes detail := mkCapabilitySupport true detail in
  let no detail := mkCapabilitySupport false detail in
  mkCapabilities "opencode"
    (Some (list_to_map
      [(CapabilityStructuredEvents, yes "uses opencode run --format json");
       (CapabilityRawPayloads, yes "preserves native JSON lines as unsafe raw payloads");
       (CapabilityCancellation, yes "best-effort subprocess cancellation");
       (CapabilityArtifacts, yes "artifact references are projected when native events include them");
       (CapabilityUsage, yes "usage is projected when native events include token data");
       (CapabilityPermissions,
          yes "permission requests are surfaced and non-interactive OpenCode auto-rejects by default");
       (CapabilitySessions, no "full retained-session lifecycle is not supported");
       (CapabilitySessionContinue, yes "passes requested session id to opencode --session as best effort");
       (CapabilitySessionFork, no "forking retained sessions is not supported");
       (CapabilitySessionReplace, no "replacing retained sessions is not supported");
       (CapabilitySessionRelease, no "releasing retained sessions is not supported");
       (CapabilityValidationEvents, no "output validation is Sprint 7 scope");
       (CapabilityPromptCacheAdvisory,
          yes "validates and audits caller cache directives while OpenCode manages message-level provider caching");
       (CapabilityPromptCacheNative,
          no "OpenCode CLI does not expose caller-defined cache routing keys or byte breakpoints")]))
    [mkUnsupportedCapability CapabilitySessions "full retained-session lifecycle is not supported";
     mkUnsupportedCapability CapabilitySessionFork "OpenCode adapter does not support session fork";
     mkUnsupportedCapability CapabilitySessionReplace "OpenCode adapter does not support session replace";
     mkUnsupportedCapability CapabilitySessionRelease "OpenCode adapter does not support session release";
     mkUnsupportedCapability CapabilityValidationEvents "validation and repair are owned by a later sprint";
     mkUnsupportedCapability CapabilityPromptCacheNative
       "OpenCode CLI does not expose caller-defined cache routing keys or byte breakpoints"].

(** What the list of unsupported capabilities names is what the features deny. *)
Lemma Capabilities_consistent capability :
  capability ∈ map uc_Capability (caps_Unsupported Runtime_Capabilities) ->
  Supports Runtime_Capabilities capability = false.
Proof.
  intros H. cbn in H. repeat (apply elem_of_cons in H as [->|H]; [reflexivity|]). by apply elem_of_nil in H.
Qed.

(** Options never leave the runtime without an executable, nor with a buffer of
    standard error that keeps nothing. *)
Definition Option_ok (opt : Option) : Prop :=
  forall r, rt_executable r <> "" -> (0 < rt_stderrLimit r)%Z ->
    rt_executable (opt r) <> "" /\ (0 < rt_stderrLimit (opt r))%Z.

Lemma options_ok :
  (forall path, Option_ok (WithExecutable path)) /\ (forall args, Option_ok (WithExtraArgs args)) /\
  (forall env, Option_ok (WithEnv env)) /\ (forall b, Option_ok (WithSnapshots b)) /\
  (forall limit, Option_ok (WithStderrLimit limit)) /\ (forall b, Option_ok (WithRateTableStore b)) /\
  (forall query, Option_ok (withDBQuery query)).
Proof.
  repeat split; try done.
  - unfold WithExecutable. by destruct (String.eqb_spec path "").
  - unfold WithExecutable. by destruct (path =s "").
  - unfold WithStderrLimit. by destruct (0 <? limit)%Z.
  - unfold WithStderrLimit. by destruct (Z.ltb_spec 0 limit).
  - by destruct b.
  - by destruct b.
Qed.

Lemma NewRuntime_ok options : Forall Option_ok options ->
  rt_executable (NewRuntime options) <> "" /\ (0 < rt_stderrLimit (NewRuntime options))%Z.
Proof.
  intros H. unfold NewRuntime. set (r0 := _ <| rt_stderrLimit := _ |>).
  assert (rt_executable r0 <> "" /\ (0 < rt_stderrLimit r0)%Z) as H0 by done. clearbody r0.
  assert (let r := foldl (fun r (opt : Option) => opt r) r0 options in
          rt_executable r <> "" /\ (0 < rt_stderrLimit r)%Z) as Hr.
  { revert r0 H0. induction H as [|opt options Hopt _ IH]; intros r0 [H1 H2]; [done|]. by apply IH, Hopt. }
  cbv zeta in *. destruct (rt_dbQuery _); [destruct (rt_dbQuerySet _)| |]; done.
Qed.
