(* ===== verification/OpenCodeDB.v ===== *)
(** * opencode/runtime.go: terminal output and OpenCode's database

    The bounded text of the final answer, and what a run learns from the rows of
    OpenCode's database: usage, cost, and whether the session finished. *)
From Stdlib Require Import Ascii Floats.SpecFloat.
From S2P Require Import Prelude GoStd Types Errors Events Json GoFmt JsonBounds OpenCodeDecoder OpenCodeProjector OpenCodeProcess.
#[local] Open Scope string_scope.

(** ** Terminal output *)
Definition maxTerminalOutputBytes : Z := (96 * 1024)%Z.

(** Lengths are computed in [Z]: the limit is never a unary number. *)
Definition boundTerminalOutput (value : string) : string :=
  if (str_len value <=? maxTerminalOutputBytes)%Z then value
  else strings.drop (Z.to_nat (str_len value - maxTerminalOutputBytes)) value.

Definition appendTerminalOutput (current next : string) : string :=
  if (current =s "") || strings.HasPrefix next current then boundTerminalOutput next
  else if (next =s current) || strings.HasSuffix current next then current
  else boundTerminalOutput (current +:+ next).

Definition output_keys : list string := ["structured_output"; "output"; "content"; "text"; "message"; "part"].

(** [terminalOutputValue] at [depth = 6 - levels]; lists are read from the end. *)
Fixpoint output_value (levels : nat) (value : any) {struct levels} : string :=
  match levels with
  | O => ""
  | S levels =>
      match value with
      | AMap typed =>
          (fix first (keys : list string) : string :=
             match keys with
             | [] => ""
             | key :: keys =>
                 match map_get typed key with
                 | Some nested =>
                     let output := output_value levels nested in
                     if output =s "" then first keys else output
                 | None => first keys
                 end
             end) output_keys
      | AList typed =>
          (fix last_output (l : list any) : string :=
             match l with
             | [] => ""
             | nested :: l =>
                 let later := last_output l in
                 if later =s "" then output_value levels nested else later
             end) typed
      | AString typed => typed
      | _ => ""
      end
  end.

(** On the payload of an event, which is the map at depth zero. *)
Definition terminalOutputValue (payload : EventPayload) : string :=
  let m : gmap string any := default ∅ payload in
  (fix first (keys : list string) : string :=
     match keys with
     | [] => ""
     | key :: keys =>
         match m !! key with
         | Some nested => let output := output_value 5 nested in if output =s "" then first keys else output
         | None => first keys
         end
     end) output_keys.

(** ** Metrics *)
Record dbMetrics := mkdbMetrics {
  mt_turns : Z;
  mt_input : Z;
  mt_output : Z;
  mt_total : Z;
  mt_reasoning : Z;
  mt_cacheRead : Z;
  mt_cacheWrite : Z;
  mt_cost : spec_float;
  mt_costKnown : bool
}.
#[global] Instance eta_dbMetrics : Eta dbMetrics := fun r =>
  mkdbMetrics (mt_turns r) (mt_input r) (mt_output r) (mt_total r) (mt_reasoning r) (mt_cacheRead r)
    (mt_cacheWrite r) (mt_cost r) (mt_costKnown r).
#[global] Instance zero_dbMetrics : Zero dbMetrics :=
  mkdbMetrics zero zero zero zero zero zero zero zero zero.

Definition number (v : any) : Z := default 0%Z (int64From v).

Fixpoint firstNumber (values : GoMap any) (keys : list string) : Z :=
  match keys with
  | [] => 0%Z
  | key :: keys =>
      match int64From (lookup_any values key) with Some n => n | None => firstNumber values keys end
  end.

Definition float64From (v : any) : option spec_float :=
  match v with
  | AFloat64 n => Some n
  | AInt n | AInt64 n => Some (float64.of_Z n)
  | _ => None
  end.

(** [x += n] on an int64. *)
Definition plus64 (n x : Z) : Z := Int64.wrap (x + n).

(** The tokens and the cost of one assistant message. *)
Definition add_tokens (v : GoMap any) (m : dbMetrics) : dbMetrics :=
  match mapValue (lookup_any v "tokens") with
  | Some tokens =>
      let at_ := lookup_any tokens in
      let m := m <| mt_input ::= plus64 (number (at_ "input")) |>
                 <| mt_output ::= plus64 (number (at_ "output")) |>
                 <| mt_reasoning ::= plus64 (number (at_ "reasoning")) |>
                 <| mt_total ::= plus64 (number (at_ "total")) |> in
      match mapValue (at_ "cache") with
      | Some cache => m <| mt_cacheRead ::= plus64 (number (lookup_any cache "read")) |>
                        <| mt_cacheWrite ::= plus64 (number (lookup_any cache "write")) |>
      | None => m
      end
  | None =>
      m <| mt_input ::= plus64 (firstNumber v ["input_tokens"; "inputTokens"]) |>
        <| mt_output ::= plus64 (firstNumber v ["output_tokens"; "outputTokens"]) |>
        <| mt_total ::= plus64 (firstNumber v ["total_tokens"; "totalTokens"]) |>
  end.

Definition add_cost (v : GoMap any) (m : dbMetrics) : dbMetrics :=
  match float64From (lookup_any v "cost") with
  | Some c => m <| mt_costKnown := true |> <| mt_cost ::= fun cost => float64.add cost c |>
  | None => m
  end.

(** A finished message of the assistant: its own fields are not searched. *)
Definition finished_message (v : GoMap any) : bool :=
  strings.EqualFold (stringValue (lookup_any v "role")) "assistant" && negb (finishReasonFrom v =s "").

Definition add_message (v : GoMap any) (m : dbMetrics) : dbMetrics :=
  add_cost v (add_tokens v (m <| mt_turns ::= plus64 1 |>)).

(** A string that holds an object is decoded and searched; decoding shortens it,
    so its length is fuel enough. *)
Fixpoint collect_metrics (fuel : nat) (value : any) (m : dbMetrics) {struct fuel} : dbMetrics :=
  match fuel with
  | O => m
  | S fuel =>
      (fix go (v : any) (m : dbMetrics) {struct v} : dbMetrics :=
        match v with
        | AList l =>
            (fix each (l : list any) (m : dbMetrics) : dbMetrics :=
               match l with [] => m | item :: l => each l (go item m) end) l m
        | AString s =>
            if strings.HasPrefix (strings.TrimSpace s) "{" then
              match json.Unmarshal s with Some nested => collect_metrics fuel nested m | None => m end
            else m
        | AMap obj =>
            if finished_message obj then add_message obj m
            else
              (fix each (l : GoMap any) (m : dbMetrics) : dbMetrics :=
                 match l with [] => m | (_, nested) :: l => each l (go nested m) end) obj m
        | _ => m
        end) value m
  end.

Definition dbCollectMetrics (body : string) (value : any) (m : dbMetrics) : dbMetrics :=
  collect_metrics (S (String.length body)) value m.

(** ** The proof of a final state *)
Record dbReconcileProof := mkdbReconcileProof {
  dp_completed : bool;
  dp_usage : Usage;
  dp_terminalOutput : string;
  dp_warning : string;
  dp_err : option SDKError;
  dp_cost : option CostEstimate
}.
#[global] Instance eta_dbReconcileProof : Eta dbReconcileProof := fun r =>
  mkdbReconcileProof (dp_completed r) (dp_usage r) (dp_terminalOutput r) (dp_warning r) (dp_err r)
    (dp_cost r).
#[global] Instance zero_dbReconcileProof : Zero dbReconcileProof :=
  mkdbReconcileProof zero zero zero zero zero zero.

Definition dbAssistantText (value : any) : string :=
  match mapValue value with
  | Some root =>
      match lookup_any root "assistant_text" with
      | AList rows =>
          foldl (fun output row =>
            match mapValue row with
            | Some fields =>
                let text := stringValue (lookup_any fields "text") in
                if text =s "" then output else appendTerminalOutput output text
            | None => output
            end) "" rows
      | _ => ""
      end
  | None => ""
  end.

(** The usage of the metrics: nothing but its source when no message finished. *)
Definition metrics_usage (metrics : dbMetrics) : Usage :=
  let usage : Usage := zero <| us_Native := Some {[ "source" := AString "opencode_db" ]} |> in
  if (0 <? mt_turns metrics)%Z then
    usage <| us_Turns := Some (mt_turns metrics) |> <| us_InputTokens := Some (mt_input metrics) |>
          <| us_OutputTokens := Some (mt_output metrics) |> <| us_TotalTokens := Some (mt_total metrics) |>
          <| us_ReasoningTokens := Some (mt_reasoning metrics) |>
          <| us_CacheReadTokens := Some (mt_cacheRead metrics) |>
          <| us_CacheWriteTokens := Some (mt_cacheWrite metrics) |>
  else usage.

Definition reconcileDBResponse (response : error + string) : dbReconcileProof :=
  match response with
  | inl err =>
      let msg := strings.ToLower (error_Error err) in
      if strings.Contains msg "locked" || strings.Contains msg "wal_checkpoint" || strings.Contains msg "database"
      then zero <| dp_err := Some (NewError ErrorRuntimeUnavailable "opencode db" "OpenCode local DB is unavailable"
                     (Some err) [WithDebugDetail (error_Error err)]) |>
      else zero <| dp_warning := error_Error err |>
  | inr body =>
      let body := strings.TrimSpace body in
      if body =s "" then zero
      else
        match json.Unmarshal body with
        | None => zero <| dp_warning := "OpenCode DB response was not JSON" |>
        | Some data =>
            let metrics := dbCollectMetrics body data zero in
            mkdbReconcileProof (0 <? mt_turns metrics)%Z (metrics_usage metrics) (dbAssistantText data) "" None
              (if mt_costKnown metrics then Some (mkCostEstimate (mt_cost metrics) "USD" false) else None)
        end
  end.

(** Every field of the fallback that is set replaces the primary's. *)
Definition mergeUsage (primary fallback : Usage) : Usage :=
  let or_keep {A} (v : option A) (field : option A) := match v with Some _ => v | None => field end in
  primary <| us_InputTokens ::= or_keep (us_InputTokens fallback) |>
          <| us_OutputTokens ::= or_keep (us_OutputTokens fallback) |>
          <| us_TotalTokens ::= or_keep (us_TotalTokens fallback) |>
          <| us_ReasoningTokens ::= or_keep (us_ReasoningTokens fallback) |>
          <| us_CacheReadTokens ::= or_keep (us_CacheReadTokens fallback) |>
          <| us_CacheWriteTokens ::= or_keep (us_CacheWriteTokens fallback) |>
          <| us_Turns ::= or_keep (us_Turns fallback) |>
          <| us_Native ::= or_keep (us_Native fallback) |>.

Definition usageHasTokens (usage : Usage) : bool :=
  let some (v : option Z) := match v with Some _ => true | None => false end in
  some (us_InputTokens usage) || some (us_OutputTokens usage) || some (us_TotalTokens usage)
  || some (us_CacheReadTokens usage) || some (us_CacheWriteTokens usage).

(** ** Queries *)
Definition sqlString (value : string) : string :=
  "'" +:+ strings.ReplaceByte value "'" "''" +:+ "'".

(** The queries by name, in the order they are run. *)
Definition db_queries (sessionID : SessionID) (since : Time) : GoMap string :=
  let id := sqlString sessionID in
  let at_ := itoa (calendar.to_UnixMilli since) in
  let created := "session_id=" +:+ id +:+ " and time_created >= " +:+ at_ in
  [("session", "select * from session where id=" +:+ id);
   ("messages", "select * from message where " +:+ created +:+ " order by time_created");
   ("parts", "select * from part where " +:+ created +:+ " order by time_created");
   ("assistant_text",
     "select json_extract(p.data,'$.text') as text from part p join message m on m.id=p.message_id where "
     +:+ "p.session_id=" +:+ id +:+ " and p.time_created >= " +:+ at_
     +:+ " and json_extract(m.data,'$.role')='assistant' and json_extract(p.data,'$.type')='text' order by p.time_created")].

(** What running a command of the executable gives: its output, with the error
    and the error of the context afterwards when it failed. *)
Inductive CmdOutput : Type :=
| CmdOK (out : string)
| CmdFailed (out : string) (err : error) (ctxErr : option error).

Section Query.
Context (command : string -> CmdOutput).

Fixpoint run_queries (queries : GoMap string) (combined : GoMap any) : error + string :=
  match queries with
  | [] =>
      match json_Marshal (AMap combined) with
      | Some body => inr body
      | None => inl (EOther "json: unsupported value")
      end
  | (key, query) :: queries =>
      match command query with
      | CmdFailed _ _ (Some e) => inl e
      | CmdFailed out err None =>
          inl (EWrap ("opencode db " +:+ key +:+ " query failed")
                 (EOther (error_Error err +:+ ": " +:+ strings.TrimSpace out)))
      | CmdOK out =>
          let data := match json.Unmarshal out with Some data => data | None => AString out end in
          run_queries queries (map_set combined key data)
      end
  end.

Definition queryOpenCodeDB (sessionID : SessionID) (since : Time) : error + string :=
  if sessionID =s "" then inr "" else run_queries (db_queries sessionID since) [].
End Query.

Lemma str_app_eq_nil s t : s +:+ t = "" -> s = "" /\ t = "".
Proof. by destruct s. Qed.

(** ** The bound of the terminal output *)
Lemma max_pos : (0 < maxTerminalOutputBytes)%Z.
Proof. reflexivity. Qed.
#[local] Opaque maxTerminalOutputBytes.

(** The last bytes of the text, as many as there is room for. *)
Lemma bound_suffix v : exists p, v = p +:+ boundTerminalOutput v /\
  str_len (boundTerminalOutput v) = Z.min (str_len v) maxTerminalOutputBytes.
Proof.
  unfold boundTerminalOutput. pose proof max_pos. destruct (Z.leb_spec (str_len v) maxTerminalOutputBytes).
  - exists "". split; [done|lia].
  - eexists. split; [symmetry; apply take_drop|]. unfold str_len in *. rewrite length_drop. lia.
Qed.

Lemma bound_small v : (str_len v <= maxTerminalOutputBytes)%Z -> boundTerminalOutput v = v.
Proof. intros H. unfold boundTerminalOutput. by rewrite (proj2 (Z.leb_le _ _) H). Qed.

Lemma bound_app_long s t : (maxTerminalOutputBytes <= str_len t)%Z ->
  boundTerminalOutput (s +:+ t) = boundTerminalOutput t.
Proof.
  intros H. destruct (bound_suffix (s +:+ t)) as (p & E & Hl), (bound_suffix t) as (q & E' & Hl').
  apply (suffix_unique p (s +:+ q)).
  - by rewrite <-E, str_app_assoc, <-E'.
  - unfold str_len in *. rewrite str_length_app in Hl. lia.
Qed.

(** A text that fits is a suffix of the bounded text it ends. *)
Lemma bound_keeps_suffix s t : (str_len t <= maxTerminalOutputBytes)%Z ->
  strings.HasSuffix (boundTerminalOutput (s +:+ t)) t = true.
Proof.
  intros H. destruct (bound_suffix (s +:+ t)) as (p & E & Hl).
  set (b := boundTerminalOutput _) in *. apply HasSuffix_spec.
  exists (strings.take (String.length b - String.length t) b).
  rewrite <-(take_drop (String.length b - String.length t) b) at 1. f_equal.
  apply (suffix_unique (p +:+ strings.take (String.length b - String.length t) b) s).
  - by rewrite str_app_assoc, take_drop.
  - rewrite length_drop. unfold str_len in *. rewrite str_length_app in Hl. lia.
Qed.

Lemma append_bounded current next : (str_len current <= maxTerminalOutputBytes)%Z ->
  (str_len (appendTerminalOutput current next) <= maxTerminalOutputBytes)%Z.
Proof.
  intros H. unfold appendTerminalOutput.
  destruct (bound_suffix next) as (? & _ & ?), (bound_suffix (current +:+ next)) as (? & _ & ?).
  destruct (_ || _); [lia|]. destruct (_ || _); [done|lia].
Qed.

Lemma append_prefix_case current next :
  (current =s "") || strings.HasPrefix next current = true ->
  appendTerminalOutput current next = boundTerminalOutput next.
Proof. intros H. unfold appendTerminalOutput. by rewrite H. Qed.

(** Appending to what the bounded [next] left gives it again. *)
Lemma append_bound_self next : appendTerminalOutput (boundTerminalOutput next) next = boundTerminalOutput next.
Proof.
  unfold appendTerminalOutput. set (b := boundTerminalOutput next).
  destruct ((b =s "") || strings.HasPrefix next b); [done|].
  destruct ((next =s b) || strings.HasSuffix b next) eqn:E2; [done|].
  apply orb_false_iff in E2 as [E2%String.eqb_neq _]. subst b. apply bound_app_long. destruct (Z.le_gt_cases maxTerminalOutputBytes (str_len next)); [done|].
  rewrite bound_small in E2 by lia. done.
Qed.

(** The terminal output never exceeds its bound and ends in the fragment
    that was appended last, as far as that fits; a fragment that arrives twice
    in a row counts once. *)
Theorem appendTerminalOutput_spec current next :
  (str_len current <= maxTerminalOutputBytes)%Z ->
  let output := appendTerminalOutput current next in
  (str_len output <= maxTerminalOutputBytes)%Z /\
  strings.HasSuffix output (boundTerminalOutput next) = true /\
  appendTerminalOutput output next = output.
Proof.
  intros Hc output. split; [by apply append_bounded|]. subst output.
  assert (Hrefl : forall s, strings.HasSuffix s s = true) by (intros s; apply HasSuffix_spec; by exists "").
  pose proof (bound_suffix next) as (p & Hp & Hl).
  destruct ((current =s "") || strings.HasPrefix next current) eqn:E1.
  { rewrite append_prefix_case by done. split; [apply Hrefl|apply append_bound_self]. }
  destruct ((next =s current) || strings.HasSuffix current next) eqn:E2.
  { assert (appendTerminalOutput current next = current) as Ha by (unfold appendTerminalOutput; by rewrite E1, E2).
    rewrite Ha. assert (strings.HasSuffix current next = true) as Hs.
    { destruct (String.eqb_spec next current) as [->|]; [apply Hrefl|done]. }
    apply HasSuffix_spec in Hs as Hs'. destruct Hs' as [q ->].
    assert (str_len next <= maxTerminalOutputBytes)%Z by (unfold str_len in *; rewrite str_length_app in Hc; lia).
    rewrite bound_small by done. split; [apply HasSuffix_spec; by exists q|done]. }
  assert (appendTerminalOutput current next = boundTerminalOutput (current +:+ next)) as ->
    by (unfold appendTerminalOutput; by rewrite E1, E2).
  apply orb_false_iff in E1 as [E1%String.eqb_neq _].
  destruct (Z.le_gt_cases maxTerminalOutputBytes (str_len next)) as [Hn|Hn].
  - rewrite bound_app_long by done. split; [apply Hrefl|apply append_bound_self].
  - rewrite (bound_small next) by lia.
    pose proof (bound_keeps_suffix current next ltac:(lia)) as Hsuf. split; [done|].
    unfold appendTerminalOutput. rewrite Hsuf, orb_true_r.
    set (b := boundTerminalOutput (current +:+ next)) in *.
    destruct ((b =s "") || strings.HasPrefix next b) eqn:E3; [|done]. exfalso. subst b. apply orb_true_iff in E3 as [E3%String.eqb_eq|E3].
    + apply HasSuffix_spec in Hsuf as [q Hq]. rewrite E3 in Hq.
      pose proof (bound_suffix (current +:+ next)) as (r & Hr & Hlr). rewrite E3 in Hr, Hlr.
      pose proof max_pos. change (str_len "") with 0%Z in Hlr. unfold str_len in Hlr.
      assert (current +:+ next = "") as Hz by (destruct (current +:+ next); [done|cbn in Hlr; lia]).
      by apply str_app_eq_nil in Hz as [-> _].
    + apply HasPrefix_spec in E3 as [q Hq]. apply (f_equal String.length) in Hq. rewrite str_length_app in Hq.
      pose proof (bound_suffix (current +:+ next)) as (r & Hr & Hlr).
      unfold str_len in *. rewrite str_length_app in Hlr.
      assert (0 < String.length current) by (destruct current; [done|cbn; lia]). lia.
Qed.

Lemma appendTerminalOutput_spec_witness :
  (str_len "one" <= maxTerminalOutputBytes)%Z /\
  appendTerminalOutput (appendTerminalOutput "one" " two") " two" = appendTerminalOutput "one" " two".
Proof.
  assert (str_len "one" <= maxTerminalOutputBytes)%Z as H by (vm_compute; discriminate).
  split; [exact H|]. apply (appendTerminalOutput_spec "one" " two" H).
Defined.

(** ** Every finished message once *)

(** The finished messages of a value, in the order they are met: those of
    decoded strings included, nothing below a finished message. *)
Fixpoint messages (fuel : nat) (value : any) {struct fuel} : list (GoMap any) :=
  match fuel with
  | O => []
  | S fuel =>
      (fix go (v : any) : list (GoMap any) :=
        match v with
        | AList l => flat_map go l
        | AString s =>
            if strings.HasPrefix (strings.TrimSpace s) "{" then
              match json.Unmarshal s with Some nested => messages fuel nested | None => [] end
            else []
        | AMap obj => if finished_message obj then [obj] else flat_map (fun '(_, nested) => go nested) obj
        | _ => []
        end) value
  end.

Definition add_all (l : list (GoMap any)) (m : dbMetrics) : dbMetrics := foldl (fun m v => add_message v m) m l.

Lemma add_all_app l l' m : add_all (l ++ l') m = add_all l' (add_all l m).
Proof. apply foldl_app. Qed.

(** The loops over a list and over the entries of an object. *)
Lemma collect_list fuel l m :
  collect_metrics (S fuel) (AList l) m = foldl (fun m item => collect_metrics (S fuel) item m) m l.
Proof. revert m. induction l as [|x l IH]; intros m; [done|]. cbn [foldl]. rewrite <-IH. reflexivity. Qed.

Lemma collect_object fuel obj m : finished_message obj = false ->
  collect_metrics (S fuel) (AMap obj) m = foldl (fun m '(_, nested) => collect_metrics (S fuel) nested m) m obj.
Proof.
  intros H. transitivity ((fix each (l : GoMap any) (m : dbMetrics) : dbMetrics :=
    match l with [] => m | (_, nested) :: l => each l (collect_metrics (S fuel) nested m) end) obj m).
  - change (collect_metrics (S fuel) (AMap obj) m) with
      (if finished_message obj then add_message obj m else
       (fix each (l : GoMap any) (m : dbMetrics) : dbMetrics :=
          match l with [] => m | (_, nested) :: l => each l (collect_metrics (S fuel) nested m) end) obj m).
    by rewrite H.
  - clear H. revert m. induction obj as [|[k x] obj IH]; intros m; [done|]. cbn [foldl]. by rewrite <-IH.
Qed.

Lemma collect_messages fuel value m : collect_metrics fuel value m = add_all (messages fuel value) m.
Proof.
  revert value m. induction fuel as [|fuel IH]; intros value m; [done|].
  revert m. induction value as [s|l Hl|obj Hm|v Hf] using any_nested_ind; intros m.
  - cbn [collect_metrics messages]. destruct (strings.HasPrefix _ _); [|done].
    destruct (json.Unmarshal s); [apply IH|done].
  - rewrite collect_list. change (messages (S fuel) (AList l)) with (flat_map (messages (S fuel)) l).
    revert m. induction Hl as [|x l Hx _ IHl]; intros m; [done|]. cbn [foldl flat_map].
    by rewrite add_all_app, IHl, Hx.
  - destruct (finished_message obj) eqn:E.
    + cbn [collect_metrics messages]. by rewrite E.
    + rewrite collect_object by done.
      assert (messages (S fuel) (AMap obj) = flat_map (fun '(_, nested) => messages (S fuel) nested) obj) as ->
        by (cbn [messages]; by rewrite E).
      clear E. revert m. induction obj as [|[k x] obj IHobj]; intros m; [done|].
      apply Forall_cons in Hm as [Hx Hm]. cbn [foldl flat_map snd] in *. by rewrite add_all_app, IHobj, Hx.
  - by destruct v.
Qed.

Lemma messages_enough fuel value : within fuel value ->
  forall fuel', fuel <= fuel' -> messages fuel' value = messages fuel value.
Proof.
  revert value. induction fuel as [|fuel IH]; intros v Hv fuel' Hle; [by apply Nat.nlt_0_r in Hv|].
  destruct fuel' as [|fuel']; [lia|]. revert Hv. induction v as [s|l Hl|obj Hm|v Hf] using any_nested_ind; intros Hv.
  - cbn [messages]. destruct (strings.HasPrefix _ _); [|done].
    destruct (json.Unmarshal s) as [nested|] eqn:E; [|done]. apply IH; [|lia].
    apply (within_mono _ _ _ (Unmarshal_within _ _ E)). unfold within in Hv. cbn in Hv. lia.
  - apply longest_list in Hv as [_ Hv].
    change (flat_map (messages (S fuel')) l = flat_map (messages (S fuel)) l).
    induction Hl as [|x l Hx _ IHl]; [done|]. apply Forall_cons in Hv as [Hv1 Hv2]. cbn [flat_map].
    by rewrite (Hx Hv1), (IHl Hv2).
  - apply longest_map in Hv as [_ Hv].
    assert (forall n, messages (S n) (AMap obj) =
      if finished_message obj then [obj] else flat_map (fun '(_, nested) => messages (S n) nested) obj) as Hstep
      by done.
    rewrite !Hstep. destruct (finished_message obj); [done|]. clear Hstep.
    induction obj as [|[k x] obj IHobj]; [done|]. apply Forall_cons in Hm as [Hx Hm].
    apply Forall_cons in Hv as [Hv1 Hv2]. specialize (Hx Hv1). cbn [flat_map snd] in *. by rewrite Hx, (IHobj Hm Hv2).
  - by destruct v.
Qed.

Lemma add_all_turns l m : (mt_turns (add_all l m) = Int64.wrap (mt_turns m + Z.of_nat (length l)))%Z \/ l = [].
Proof.
  revert m. induction l as [|v l IH]; intros m; [by right|]. left.
  assert (mt_turns (add_message v m) = Int64.wrap (mt_turns m + 1)) as Ht.
  { unfold add_message, add_cost, add_tokens. by destruct (float64From _), (mapValue (lookup_any v "tokens"));
      [destruct (mapValue _)| |destruct (mapValue _)|]. }
  change (add_all (v :: l) m) with (add_all l (add_message v m)).
  destruct (IH (add_message v m)) as [-> | ->].
  - rewrite Ht. unfold Int64.wrap. cbn [length].
    set (p := (2 ^ 64)%Z). set (h := (2 ^ 63)%Z).
    replace (((mt_turns m + 1 + h) mod p - h + Z.of_nat (length l) + h))%Z with
      ((mt_turns m + 1 + h) mod p + Z.of_nat (length l))%Z by lia.
    rewrite Z.add_mod_idemp_l by done. do 2 f_equal. lia.
  - cbn [add_all foldl length]. rewrite Ht. do 2 f_equal.
Qed.


Definition db_body : string := json.with_quotes
  "{`messages`: [{`data`: `{\`role\`:\`assistant\`,\`finish\`:\`stop\`,\`tokens\`:{\`input\`:7}}`}, {`role`: `user`}]}".


(** ** SQL literals *)

(** The text of a literal after its opening quote, and what follows it. *)
Fixpoint sql_body (s : string) : option (string * string) :=
  match s with
  | EmptyString => None
  | String c s' =>
      if Ascii.eqb c "'" then
        match s' with
        | String d s'' =>
            if Ascii.eqb d "'" then
              match sql_body s'' with Some (t, rest) => Some (String "'" t, rest) | None => None end
            else Some ("", s')
        | EmptyString => Some ("", s')
        end
      else match sql_body s' with Some (t, rest) => Some (String c t, rest) | None => None end
  end.
Definition sql_literal (s : string) : option (string * string) := strings.CutPrefix "'" s ≫= sql_body.

(** C34: a session identifier is read back from the literal that is written into
    the queries, whatever it contains, and the query goes on after it: it cannot
    change the query it is part of. *)
Theorem sqlString_roundtrip value rest :
  strings.HasPrefix rest "'" = false -> sql_literal (sqlString value +:+ rest) = Some (value, rest).
Proof.
  intros Hrest. unfold sql_literal, sqlString. rewrite !str_app_assoc.
  change (strings.CutPrefix "'" ("'" +:+ ?s)) with (strings.CutPrefix "" s).
  cbn [strings.CutPrefix]. change (Some ?x ≫= ?f) with (f x).
  induction value as [|c value IH].
  - change (strings.ReplaceByte "" "'" "''" +:+ ("'" +:+ rest)) with (String "'" rest). cbn [sql_body].
    change (Ascii.eqb "'" "'") with true. cbv iota. destruct rest as [|d rest]; [done|].
    destruct (Ascii.eqb_spec d "'") as [->|]; [done|done].
  - cbn [strings.ReplaceByte]. rewrite str_app_assoc. destruct (Ascii.eqb_spec c "'") as [->|Hc].
    + change ("''" +:+ ?s) with (String "'" (String "'" s)). cbn [sql_body].
      change (Ascii.eqb "'" "'") with true. cbv iota. by rewrite IH.
    + change (String c "" +:+ ?s) with (String c s). cbn [sql_body].
      rewrite (proj2 (Ascii.eqb_neq _ _) Hc). by rewrite IH.
Qed.

Lemma sqlString_roundtrip_witness :
  sql_literal (sqlString "x' or '1'='1" +:+ " order by 1") = Some ("x' or '1'='1", " order by 1").
Proof. apply sqlString_roundtrip. reflexivity. Defined.
