(* ===== verification/OpenCodeDBScan.v ===== *)
(** * opencode/runtime.go: the search for a terminal message

    [dbHasTerminalAssistant] walks a decoded database answer until it meets an
    assistant message with a finish reason, and notes token counts on the way.
    The walk is that of [OpenCodeDB.collect_metrics] with two differences: it
    stops at the first hit and it does not look into text. *)
From S2P Require Import Prelude GoStd Types Json OpenCodeDecoder OpenCodeProjector OpenCodeDB.
#[local] Open Scope string_scope.

Fixpoint firstNonEmptyString (values : list any) : string :=
  match values with
  | [] => ""
  | value :: values =>
      let s := strings.TrimSpace (stringValue value) in
      if s =s "" then firstNonEmptyString values else s
  end.

(** A loop over keys that fill the same field. *)
Definition first_missing (v : GoMap any) (keys : list string) (field : option Z) : option Z :=
  foldl (fun field key => set_missing field (lookup_any v key)) field keys.

(** What the walk notes of one object. *)
Definition note_usage (v : GoMap any) (usage : Usage) : Usage :=
  let usage := match mapValue (lookup_any v "tokens") with Some tokens => usage_tokens usage tokens | None => usage end in
  usage <| us_InputTokens ::= first_missing v ["input_tokens"; "inputTokens"] |>
        <| us_OutputTokens ::= first_missing v ["output_tokens"; "outputTokens"] |>
        <| us_TotalTokens ::= first_missing v ["total_tokens"; "totalTokens"] |>.

Definition terminal_message (v : GoMap any) : bool :=
  let role := strings.ToLower (stringValue (lookup_any v "role")) in
  let finish := firstNonEmptyString [lookup_any v "finish"; lookup_any v "finishReason"; lookup_any v "finish_reason";
                                     lookup_any v "stopReason"; lookup_any v "stop_reason"] in
  (role =s "assistant") && negb (finish =s "").

(** [usage] is passed by reference: the second component is what it is left as. *)
Fixpoint dbHasTerminalAssistant (value : any) (usage : Usage) {struct value} : bool * Usage :=
  match value with
  | AList l =>
      (fix each (l : list any) (usage : Usage) : bool * Usage :=
         match l with
         | [] => (false, usage)
         | item :: l => let '(found, usage) := dbHasTerminalAssistant item usage in if found then (true, usage) else each l usage
         end) l usage
  | AMap v =>
      let usage := note_usage v usage in
      if terminal_message v then (true, usage)
      else
        (fix each (l : GoMap any) (usage : Usage) : bool * Usage :=
           match l with
           | [] => (false, usage)
           | (_, nested) :: l => let '(found, usage) := dbHasTerminalAssistant nested usage in if found then (true, usage) else each l usage
           end) v usage
  | _ => (false, usage)
  end.

(** ** What the walk visits *)

(** The objects of a value, each before the ones below it. *)
Fixpoint objects (value : any) : list (GoMap any) :=
  match value with
  | AList l => flat_map objects l
  | AMap v => v :: flat_map (fun '(_, nested) => objects nested) v
  | _ => []
  end.

(** A list up to the first element that satisfies [p], that one included. *)
Fixpoint upto {A} (p : A -> bool) (l : list A) : list A :=
  match l with [] => [] | x :: l => if p x then [x] else x :: upto p l end.

Lemma upto_app {A} (p : A -> bool) l l' : upto p (l ++ l') = if existsb p l then upto p l else (l ++ upto p l')%list.
Proof. induction l as [|x l IH]; [done|]. cbn. destruct (p x); [done|]. cbn. rewrite IH. by destruct (existsb p l). Qed.

Lemma upto_all {A} (p : A -> bool) l : existsb p l = false -> upto p l = l.
Proof. induction l as [|x l IH]; [done|]. cbn. destruct (p x); [done|]. intros H. by rewrite IH. Qed.

(** What a walk over some objects answers. *)
Definition walked (l : list (GoMap any)) (usage : Usage) : bool * Usage :=
  (existsb terminal_message l, foldl (fun usage v => note_usage v usage) usage (upto terminal_message l)).

Lemma walked_app l l' usage :
  walked (l ++ l') usage = let '(found, usage') := walked l usage in if found then (true, usage') else walked l' usage'.
Proof.
  unfold walked. rewrite existsb_app, upto_app. destruct (existsb terminal_message l) eqn:E; [done|].
  by rewrite foldl_app, (upto_all _ l E).
Qed.

Lemma walk_items {A} (nested : A -> any) (l : list A) usage :
  Forall (fun x => forall usage, dbHasTerminalAssistant (nested x) usage = walked (objects (nested x)) usage) l ->
  (fix each (l : list A) (usage : Usage) : bool * Usage :=
     match l with
     | [] => (false, usage)
     | x :: l => let '(found, usage) := dbHasTerminalAssistant (nested x) usage in if found then (true, usage) else each l usage
     end) l usage = walked (flat_map (fun x => objects (nested x)) l) usage.
Proof.
  intros H. revert usage. induction H as [|x l Hx _ IH]; intros usage; [done|]. cbn [flat_map].
  rewrite walked_app, Hx. destruct (walked (objects (nested x)) usage) as [[] usage']; [done|apply IH].
Qed.

(** The walk answers whether some object at any depth is a finished assistant
    message; the usage is noted from the objects up to the first of them, and
    what was known before is never replaced. *)
Theorem dbHasTerminalAssistant_spec value usage :
  dbHasTerminalAssistant value usage =
    (existsb terminal_message (objects value),
     foldl (fun usage v => note_usage v usage) usage (upto terminal_message (objects value))).
Proof.
  change (dbHasTerminalAssistant value usage = walked (objects value) usage). revert usage.
  induction value as [s|l IH|m IH|v Hv] using any_nested_ind; intros usage; [done| | |by destruct v].
  - exact (walk_items id l usage IH).
  - assert (forall v, objects (AMap v) = v :: flat_map (fun x => objects x.2) v) as ->.
    { intros v. cbn [objects]. f_equal. apply flat_map_ext. by intros []. }
    pose proof (walk_items snd m (note_usage m usage) (proj1 (Forall_fmap _ _ _) IH)) as E.
    transitivity (if terminal_message m then (true, note_usage m usage) else walked (flat_map (fun x => objects x.2) m) (note_usage m usage)).
    + rewrite <-E. cbn [dbHasTerminalAssistant]. destruct (terminal_message m); [done|]. clear. generalize (note_usage m usage). clear usage.
      induction m as [|[k x] m IHm]; intros u; [done|]. cbn [snd]. destruct (dbHasTerminalAssistant x u) as [[] u']; [done|apply IHm].
    + unfold walked at 2. cbn [existsb upto]. destruct (terminal_message m); [done|]. done.
Qed.

Lemma map_get_perm {V} (m m' : GoMap V) k : NoDup m.*1 -> m ≡ₚ m' -> map_get m k = map_get m' k.
Proof.
  intros Hd Hp. assert (NoDup m'.*1) as Hd' by (by rewrite <-Hp). destruct (map_get m k) as [v|] eqn:E.
  - symmetry. apply elem_map_get; [done|]. rewrite <-Hp. by apply map_get_elem.
  - symmetry. apply map_get_None. rewrite <-Hp. by apply map_get_None.
Qed.

(** The answer does not depend on the order in which Go visits a map, nor on
    what is known of the usage. *)
Lemma terminal_order m m' usage usage' : NoDup m.*1 -> m ≡ₚ m' ->
  (dbHasTerminalAssistant (AMap m) usage).1 = (dbHasTerminalAssistant (AMap m') usage').1.
Proof.
  intros Hd Hp. rewrite !dbHasTerminalAssistant_spec. cbn [fst objects existsb].
  assert (terminal_message m = terminal_message m') as ->.
  { unfold terminal_message, lookup_any. by rewrite !(map_get_perm m m') by done. }
  f_equal. apply eq_true_iff_eq. rewrite !existsb_exists. setoid_rewrite in_flat_map.
  split; intros (v & ((x & Hx & Hv) & Ht)); exists v; (split; [|done]); exists x; (split; [|done]); revert Hx; by apply Permutation_in.
Qed.

(** A finished answer below a session row; the tokens of the row come first. *)
Example terminal_example :
  dbHasTerminalAssistant
    (AList [AMap [("input_tokens", AInt 7)];
            AMap [("data", AMap [("role", AString "Assistant"); ("finish", AString " stop ");
                                 ("tokens", AMap [("input", AInt 5); ("output", AInt 2)])])];
            AMap [("total_tokens", AInt 9)]]) zero =
  (true, (zero : Usage) <| us_InputTokens := Some 7%Z |> <| us_OutputTokens := Some 2%Z |>).
Proof. vm_compute. reflexivity. Qed.
