(* ===== verification/OpenCodeSpawn.v ===== *)
(** * opencode/runtime.go: from a request to a process

    The checks of a request, the command line, environment and temporary
    directory of the process, the session metadata, the classification of
    errors, and the log files OpenCode writes. *)
From Stdlib Require Import Ascii.
From S2P Require Import Prelude GoStd Types Errors Events Cache Capabilities Json GoFmt OpenCodeDecoder OpenCodeProjector OpenCodeRateLimit OpenCodePermissions OpenCodeProcess OpenCodeOptions.
#[local] Open Scope string_scope.

Definition MetadataDatabasePath : string := "opencode.database_path".
Definition MetadataTempRoot : string := "opencode.temp_root".

(** ** Checks of the request *)
Definition unsupportedSessionAction (capability : Capability) (reason : string) : SDKError :=
  NewError ErrorConfiguration "opencode session" reason None [WithDebugDetail capability].

Definition validateSessionRequest (req : RunRequest) : option SDKError :=
  let action := req_SessionAction req in
  if one_of action [SessionActionDefault; SessionActionFresh; SessionActionContinue] then None
  else if action =s SessionActionFork then
    Some (unsupportedSessionAction CapabilitySessionFork "OpenCode adapter does not support session fork")
  else if action =s SessionActionReplace then
    Some (unsupportedSessionAction CapabilitySessionReplace "OpenCode adapter does not support session replace")
  else if action =s SessionActionRelease then
    Some (unsupportedSessionAction CapabilitySessionRelease "OpenCode adapter does not support session release")
  else Some (unsupportedSessionAction CapabilitySessions ("unsupported session action " +:+ quoted action)).

Definition validateProviderModelRequest (req : RunRequest) : option SDKError :=
  let provider := strings.TrimSpace (req_Provider req) in
  let model := strings.TrimSpace (req_Model req) in
  let reject detail := Some (NewError ErrorConfiguration "opencode model" detail None
                         [WithProviderModel (req_Provider req) (req_Model req)]) in
  if negb (provider =s "") && strings.Contains provider "/" then reject "provider must not contain '/'"
  else if negb (model =s "") && (1 <? strings.CountByte model "/")%nat then
    reject "model must be either a model id or provider/model"
  else None.

Definition sessionMetadata (req : RunRequest) (observedID : SessionID) : SessionMetadata :=
  let has_id := negb (req_SessionID req =s "") in
  let action :=
    if req_SessionAction req =s SessionActionDefault then
      if has_id then SessionActionContinue
      else if req_WantSession req then SessionActionFresh else req_SessionAction req
    else req_SessionAction req in
  let metadata : SessionMetadata := zero
    <| sm_ID := firstSessionID [observedID; req_SessionID req] |>
    <| sm_RequestedID := req_SessionID req |> <| sm_RequestedAction := action |>
    <| sm_Retained := req_WantSession req || has_id |> in
  if action =s SessionActionFresh then metadata <| sm_Relationship := SessionRelationshipFresh |>
  else if action =s SessionActionContinue then
    metadata <| sm_Relationship := SessionRelationshipBestEffort |> <| sm_Continued := has_id |>
             <| sm_BestEffort := true |>
             <| sm_UnsupportedReason :=
                  "OpenCode --session continuation is passed through but not verified as durable retention" |>
  else if one_of action [SessionActionFork; SessionActionReplace; SessionActionRelease] then
    let reason := "retained-session action is unsupported by OpenCode adapter" in
    metadata <| sm_Relationship := SessionRelationshipUnsupported |> <| sm_UnsupportedReason := reason |>
             <| sm_Unsupported := [mkUnsupportedCapability CapabilitySessions reason] |>
  else if req_WantSession req || has_id then
    metadata <| sm_Relationship := SessionRelationshipBestEffort |> <| sm_BestEffort := true |>
             <| sm_UnsupportedReason := "full retained-session lifecycle is unsupported by OpenCode adapter" |>
  else metadata.

Definition openCodePromptCacheMetadata (req : RunRequest) : PromptCacheMetadata :=
  let directive := req_PromptCache req in
  if negb (Enabled directive) then zero
  else mkPromptCacheMetadata true (PromptCacheKeySHA256 (pcd_Key directive))
    (strings.ToLower (strings.TrimSpace (pcd_PrefixSHA256 directive))) (pcd_BreakpointBytes directive)
    (pcd_Mode directive) "opencode-provider-managed-message-cache" true false false true
    ("OpenCode applies provider cache controls at message boundaries; its CLI does not expose the caller routing key or "
     +:+ "byte breakpoint").

(** ** The environment of the process *)
Definition setEnvValue (env : list string) (key value : string) : list string :=
  let prefix := key +:+ "=" in
  (filter (fun item => strings.HasPrefix item prefix = false) env ++ [prefix +:+ value])%list.

(** The loop decodes every configuration into one map; a JSON null makes that
    map nil, and the assignment after the loop panics. *)
Definition withSnapshotConfig (env : list string) (enabled : bool) : EnvResult :=
  match split_config env [] (Some []) with
  | None => EnvError (NewError ErrorConfiguration "opencode snapshots"
              "existing OPENCODE_CONFIG_CONTENT is not valid JSON" (Some (EOther "invalid JSON")) [])
  | Some (_, None) => EnvPanic
  | Some (result, Some config) =>
      match json_Marshal (AMap (map_set config "snapshot" (ABool enabled))) with
      | Some content => EnvOK (result ++ [opencodeConfigContentEnv +:+ content])%list
      | None => EnvError (NewError ErrorConfiguration "opencode snapshots"
                  "OpenCode snapshot config could not be encoded" (Some (EOther "unsupported value")) [])
      end
  end.

(** What the file system answers when a temporary directory is made. *)
Record TempEnv := mkTempEnv {
  te_mkdirAll : option error;
  te_mkdirTemp : error + string;
  te_chmod : option error
}.

Definition createProcessTempDir (fs : TempEnv) (root : string) : SDKError + string :=
  let root := strings.TrimSpace root in
  let fails category op detail cause := inl (NewError category op detail cause []) in
  if root =s "" then inr ""
  else if negb (filepath.IsAbs (filepath.Clean root)) then
    fails ErrorConfiguration "opencode temp root" "OpenCode temp root must be an absolute path" None
  else
    match te_mkdirAll fs, te_mkdirTemp fs, te_chmod fs with
    | Some err, _, _ =>
        fails ErrorRuntimeUnavailable "opencode temp root" "OpenCode temp root could not be created" (Some err)
    | None, inl err, _ =>
        fails ErrorRuntimeUnavailable "opencode temp directory"
          "OpenCode process temp directory could not be created" (Some err)
    | None, inr _, Some err =>
        fails ErrorRuntimeUnavailable "opencode temp directory"
          "OpenCode process temp directory could not be secured" (Some err)
    | None, inr dir, None => inr dir
    end.

(** [os.RemoveAll] and its error, unless there is no directory. *)
Definition removeProcessTempDir (removeAll : string -> option error) (dir : string) : option error :=
  if strings.TrimSpace dir =s "" then None else removeAll dir.

(** [filepath.Base] of a cleaned path. *)
Definition base_of (path : string) : string :=
  match strings.AfterLast path "/" with
  | Some EmptyString => "/"
  | Some base => base
  | None => path
  end.

(** The argument of [--model], empty when there is none. *)
Definition model_argument (req : RunRequest) : string :=
  let provider := req_Provider req in
  if (provider =s "") && (req_Model req =s "") then ""
  else if negb (provider =s "") && negb (strings.HasPrefix (req_Model req) (provider +:+ "/"))
  then provider +:+ "/" +:+ req_Model req else req_Model req.

Definition process_args (r : Runtime) (req : RunRequest) : list string :=
  let option_if flag value := if value =s "" then [] else [flag; value] in
  (["run"; "--format"; "json"] ++ option_if "--dir" (req_WorkDir req) ++ option_if "--model" (model_argument req)
   ++ option_if "--session" (req_SessionID req) ++ rt_extraArgs r)%list.

Inductive SpecResult : Type :=
| SpecOK (spec : processSpec) (tempDir : string)
| SpecError (err : SDKError)
| SpecPanic.

(** Continues with the environment, or ends with its error or its panic. *)
Definition with_env (env : EnvResult) (k : list string -> SpecResult) : SpecResult :=
  match env with EnvOK env => k env | EnvError err => SpecError err | EnvPanic => SpecPanic end.

Definition database_env (req : RunRequest) (env : list string) : EnvResult :=
  let databasePath := strings.TrimSpace (str_at (req_Metadata req) MetadataDatabasePath) in
  if databasePath =s "" then EnvOK env
  else if negb (filepath.IsAbs databasePath) || negb (base_of (filepath.Clean databasePath) =s "opencode.db") then
    EnvError (NewError ErrorConfiguration "opencode database path"
      "OpenCode database path must be an absolute path ending in opencode.db" None [])
  else EnvOK (setEnvValue env "OPENCODE_DB" (filepath.Clean databasePath)).

Definition temp_env (tempDir : string) (env : list string) : list string :=
  if tempDir =s "" then env
  else setEnvValue (setEnvValue (setEnvValue env "TMPDIR" tempDir) "TMP" tempDir) "TEMP" tempDir.

(** The method [processSpec] of the runtime. *)
Definition Runtime_processSpec (r : Runtime) (fs : TempEnv) (req : RunRequest) (permissions : permissionTranslation)
    : SpecResult :=
  with_env (mergeEnv (rt_env r) (pt_config permissions)) (fun env =>
  with_env (match rt_snapshots r with Some enabled => withSnapshotConfig env enabled | None => EnvOK env end) (fun env =>
  with_env (database_env req env) (fun env =>
    match createProcessTempDir fs (str_at (req_Metadata req) MetadataTempRoot) with
    | inl err => SpecError err
    | inr tempDir =>
        SpecOK (mkprocessSpec (rt_executable r) (process_args r req) (temp_env tempDir env) (req_WorkDir req)
                  (req_Prompt req)) tempDir
    end))).

(** ** Classified errors *)
Definition classifyStartError (err : error) : SDKError :=
  NewError ErrorRuntimeUnavailable "opencode start" "OpenCode could not be started" (Some err)
    [WithDebugDetail (error_Error err)].

Definition classifyContextError (err : error) (op : string) : SDKError :=
  if errors_Is is_DeadlineExceeded err
  then NewError ErrorTimeout op "OpenCode run timed out" (Some err) []
  else NewError ErrorCancellation op "OpenCode run was cancelled" (Some err) [].

Definition debugDetail (stderr : string) : string := if strings.TrimSpace stderr =s "" then "" else stderr.

Definition lifecycleReason (status : RunStatus) : string :=
  if status =s StatusCompleted then "run_finished"
  else if status =s StatusCancelled then "run_cancelled"
  else if status =s StatusFailed then "run_failed" else status.

(** The message of the JSON decoder is its own. *)
Section DecodeErrors.
Context (json_error : string -> string).

Definition cause_text (e : decodeError) : string :=
  match de_err e with
  | CauseJSON => json_error (de_raw e)
  | CauseNoType => "missing string field type"
  | CauseBlank => "blank structured output record"
  | CauseTooLong => "bufio.Scanner: token too long"
  | CauseRead err => error_Error err
  end.

(** The method [Error] of [decodeError]. *)
Definition decodeError_Error (e : decodeError) : string :=
  "decode opencode event line " +:+ itoa (de_line e) +:+ ": " +:+ cause_text e.

(** The error value that ended the stream. *)
Definition stream_error (e : streamError) : error :=
  match e with
  | StreamContext err => err
  | StreamDecode d => EOther (decodeError_Error d)
  | StreamSDK err => ESDK err
  end.

Definition classifyDecodeError (e : streamError) : SDKError :=
  let detail := match e with
    | StreamDecode d => "line=" +:+ itoa (de_line d) +:+ " raw=" +:+ quoted (de_raw d) +:+ " error=" +:+ cause_text d
    | _ => error_Error (stream_error e)
    end in
  NewError ErrorMalformedEvent "opencode decode" "OpenCode emitted malformed structured output"
    (Some (stream_error e)) [WithDebugDetail detail].
End DecodeErrors.

Section ExitErrors.
Context (classifyRateLimitText : string -> string -> RuntimeContext -> option rateLimitClassification).

Definition classifyExitError (result : processResult) (stderr : string) : SDKError :=
  match classifyRateLimitText "opencode run" stderr zero with
  | Some classified => rlc_err classified
  | None =>
      NewError ErrorRuntimeExit "opencode run" "OpenCode exited before a successful final result" (pr_Err result)
        [WithDebugDetail ("exit_code=" +:+ itoa (pr_ExitCode result) +:+ " stderr=" +:+ debugDetail stderr)]
  end.
End ExitErrors.

(** ** OpenCode's log files *)
Definition maxOpenCodeLogScanBytes : Z := (256 * 1024)%Z.

(** An entry of a log directory: its modification time when [Info] succeeds, its
    size when [Stat] does, and its content when the file can be read. *)
Record DirEntry := mkDirEntry {
  de_Name : string;
  de_IsDir : bool;
  de_ModTime : option Time;
  de_Size : option Z;
  de_Content : option string
}.

(** A directory that cannot be read has no entries. *)
Definition log_dirs (dataHome home : string) : list string :=
  ((if dataHome =s "" then [] else [filepath.Join (filepath.Join dataHome "opencode") "log"]) ++
   (if home =s "" then []
    else [filepath.Join (filepath.Join (filepath.Join (filepath.Join home ".local") "share") "opencode") "log"]))%list.

Record logFile := mklogFile {
  lf_path : string;
  lf_mod : Time;
  lf_size : option Z;
  lf_content : option string
}.

Definition log_candidate (cutoff : Time) (seen : list logFile) (dir : string) (entry : DirEntry) : list logFile :=
  let path := filepath.Join dir (de_Name entry) in
  if de_IsDir entry || negb (strings.HasSuffix (de_Name entry) ".log") then seen
  else if existsb (fun f => lf_path f =s path) seen then seen
  else match de_ModTime entry with
       | None => seen
       | Some mod_ =>
           if time.Before mod_ cutoff then seen else (seen ++ [mklogFile path mod_ (de_Size entry) (de_Content entry)])%list
       end.

(** The newest first; files of the same age keep their order, which the sort of
    the code leaves open. *)
Definition newer (f g : logFile) : Prop := (lf_mod g <= lf_mod f)%Z.
#[global] Instance newer_dec : RelDecision newer := fun f g => decide (lf_mod g <= lf_mod f)%Z.

Definition recentOpenCodeLogs (dirs : list string) (readDir : string -> list DirEntry) (cutoff : Time) : list logFile :=
  merge_sort newer
    (foldl (fun seen dir => foldl (fun seen entry => log_candidate cutoff seen dir entry) seen (readDir dir)) [] dirs).

(** The size of every file there is when the run starts. *)
Definition openCodeLogOffsets (logs : list logFile) : gmap string Z :=
  foldl (fun offsets f => match lf_size f with
                          | Some size => <[lf_path f := size]> offsets
                          | None => offsets
                          end) ∅ logs.

(** What was written since the offset, at most the last 256 KiB; all of a file
    that has become shorter. *)
Definition readOpenCodeLogDelta (content : string) (offset : Z) : string :=
  let size := str_len content in
  let offset := if (offset <? 0)%Z || (size <? offset)%Z then 0%Z else offset in
  let start := if (maxOpenCodeLogScanBytes <? size - offset)%Z then (size - maxOpenCodeLogScanBytes)%Z else offset in
  strings.drop (Z.to_nat start) content.

Definition logMayBelongToRun (text : string) (ctx : RuntimeContext) : bool :=
  if (ctx_Model ctx =s "") && (ctx_Provider ctx =s "") then true
  else if negb (ctx_Model ctx =s "") && strings.Contains text (ctx_Model ctx) then true
  else negb (ctx_Provider ctx =s "") && strings.Contains text (ctx_Provider ctx).

(** The loop of [classifyRecentLogFailure] over the recent log files. *)
Section Logs.
Context (classifyRateLimitText : string -> string -> RuntimeContext -> option rateLimitClassification)
  (logOffsets : gmap string Z) (ctx : RuntimeContext).

Fixpoint classify_logs (logs : list logFile) : option rateLimitClassification :=
  match logs with
  | [] => None
  | f :: logs =>
      match lf_content f with
      | None => classify_logs logs
      | Some content =>
          let text := readOpenCodeLogDelta content (default 0%Z (logOffsets !! lf_path f)) in
          if (text =s "") || negb (logMayBelongToRun text ctx) then classify_logs logs
          else match classifyRateLimitText "opencode run" text ctx with
               | Some classified => Some classified
               | None => classify_logs logs
               end
      end
  end.
End Logs.

(** ** What the process sees *)

(** The value of a variable: its last assignment. *)
Definition env_value (env : list string) (key : string) : option string :=
  last (omap (strings.CutPrefix (key +:+ "=")) env).

(** A name of a variable contains no equals sign. *)
Definition plain (key : string) : bool := negb (strings.ContainsAny key "=").

Lemma plain_cons c key : plain (String c key) = true -> c <> "="%char /\ plain key = true.
Proof.
  unfold plain, strings.ContainsAny. cbn. destruct (Ascii.eqb_spec c "=") as [->|Hc]; [done|].
  cbn [orb negb]. by intros ->.
Qed.

Lemma CutPrefix_key key key' item v v' :
  plain key = true -> plain key' = true ->
  strings.CutPrefix (key +:+ "=") item = Some v -> strings.CutPrefix (key' +:+ "=") item = Some v' -> key = key'.
Proof.
  revert key' item. induction key as [|c key IH]; intros [|c' key'] item Hk Hk' H H'; [done| | |].
  - apply plain_cons in Hk' as [Hc _]. change ("" +:+ "=") with "=" in H.
    change (String c' key' +:+ "=") with (String c' (key' +:+ "=")) in H'.
    destruct item as [|d item]; [done|]. cbn [strings.CutPrefix] in H, H'.
    destruct (Ascii.eqb_spec "=" d) as [<-|]; [|done]. by destruct (Ascii.eqb_spec c' "=").
  - apply plain_cons in Hk as [Hc _]. change ("" +:+ "=") with "=" in H'.
    change (String c key +:+ "=") with (String c (key +:+ "=")) in H.
    destruct item as [|d item]; [done|]. cbn [strings.CutPrefix] in H, H'.
    destruct (Ascii.eqb_spec "=" d) as [<-|]; [|done]. by destruct (Ascii.eqb_spec c "=").
  - apply plain_cons in Hk as [_ Hk], Hk' as [_ Hk'].
    change (String c key +:+ "=") with (String c (key +:+ "=")) in H.
    change (String c' key' +:+ "=") with (String c' (key' +:+ "=")) in H'.
    destruct item as [|d item]; [done|]. cbn [strings.CutPrefix] in H, H'.
    destruct (Ascii.eqb_spec c d) as [->|]; [|done]. destruct (Ascii.eqb_spec c' d) as [->|]; [|done].
    f_equal. by apply (IH key' item).
Qed.

(** Removing the assignments of one variable leaves the others. *)
Lemma env_value_without (env : list string) key other : plain key = true -> plain other = true -> other <> key ->
  omap (strings.CutPrefix (other +:+ "=")) (filter (fun item => strings.HasPrefix item (key +:+ "=") = false) env) =
  omap (strings.CutPrefix (other +:+ "=")) env.
Proof.
  intros Hk Ho Hne. induction env as [|item env IH]; [done|]. rewrite filter_cons. cbn [omap list_omap].
  destruct (decide _) as [Hp|Hp]; [cbn [omap list_omap]; by rewrite IH|]. rewrite IH.
  destruct (strings.CutPrefix (other +:+ "=") item) as [v|] eqn:E; [|done].
  exfalso. apply Hp. unfold strings.HasPrefix. apply bool_decide_eq_false. intros [w Hw].
  by destruct (Hne (CutPrefix_key _ _ _ _ _ Ho Hk E Hw)).
Qed.

Lemma CutPrefix_app key value : strings.CutPrefix (key +:+ "=") (key +:+ "=" +:+ value) = Some value.
Proof.
  induction key as [|c key IH]; [done|].
  change (String c key +:+ ?s) with (String c (key +:+ s)). cbn [strings.CutPrefix]. by rewrite Ascii.eqb_refl.
Qed.

Lemma env_value_other_entry key other value : plain key = true -> plain other = true -> other <> key ->
  strings.CutPrefix (other +:+ "=") (key +:+ "=" +:+ value) = None.
Proof.
  intros Hk Ho Hne. destruct (strings.CutPrefix (other +:+ "=") _) eqn:E; [|done].
  destruct (Hne (CutPrefix_key _ _ _ _ _ Ho Hk E (CutPrefix_app key value))).
Qed.

Lemma setEnvValue_same env key value : env_value (setEnvValue env key value) key = Some value.
Proof.
  unfold env_value, setEnvValue. rewrite omap_app. cbn [omap list_omap].
  rewrite str_app_assoc, CutPrefix_app, last_snoc. done.
Qed.

Lemma setEnvValue_other env key value other : plain key = true -> plain other = true -> other <> key ->
  env_value (setEnvValue env key value) other = env_value env other.
Proof.
  intros Hk Ho Hne. unfold env_value, setEnvValue. rewrite omap_app, env_value_without by done.
  cbn [omap list_omap]. by rewrite str_app_assoc, env_value_other_entry, app_nil_r.
Qed.

Definition config_key : string := "OPENCODE_CONFIG_CONTENT".

(** The environment without the configuration, and one configuration after it. *)
Lemma config_other (base : list string) content other : plain other = true -> other <> config_key ->
  env_value (filter (fun value => is_config value = false) base ++ [opencodeConfigContentEnv +:+ content])%list other =
  env_value base other.
Proof. exact (setEnvValue_other base config_key content other eq_refl). Qed.

Lemma mergeEnv_other base config env other : plain other = true -> other <> config_key ->
  mergeEnv base config = EnvOK env -> env_value env other = env_value base other.
Proof.
  intros Ho Hne. unfold mergeEnv. destruct config as [|entry config]; [by intros [= <-]|].
  destruct (split_config base [] (Some [])) as [[out existing]|] eqn:E; [|done].
  apply split_config_out in E as ->. destruct (existing_permission existing); [|done].
  destruct existing; [|done]. destruct (json_Marshal _); [|done]. intros [= <-]. by apply config_other.
Qed.

Lemma withSnapshotConfig_other base enabled env other : plain other = true -> other <> config_key ->
  withSnapshotConfig base enabled = EnvOK env -> env_value env other = env_value base other.
Proof.
  intros Ho Hne. unfold withSnapshotConfig.
  destruct (split_config base [] (Some [])) as [[out [config|]]|] eqn:E; [|done|done].
  apply split_config_out in E as ->. destruct (json_Marshal _); [|done]. intros [= <-]. by apply config_other.
Qed.

Lemma with_env_ok env k spec dir : with_env env k = SpecOK spec dir -> exists e, env = EnvOK e /\ k e = SpecOK spec dir.
Proof. destruct env; cbn; try done. eauto. Qed.

Definition temp_keys : list string := ["TMPDIR"; "TMP"; "TEMP"].

Lemma temp_env_spec dir env :
  (forall key, key ∈ temp_keys -> dir <> "" -> env_value (temp_env dir env) key = Some dir) /\
  (forall key, plain key = true -> key ∉ temp_keys \/ dir = "" -> env_value (temp_env dir env) key = env_value env key).
Proof.
  unfold temp_env. split.
  - intros key Hkey Hne. rewrite (proj2 (String.eqb_neq _ _) Hne).
    repeat (apply elem_of_cons in Hkey as [->|Hkey]);
      [| | |by apply elem_of_nil in Hkey]; rewrite ?setEnvValue_other by done; apply setEnvValue_same.
  - intros key Hp Hkey. destruct (String.eqb_spec dir "") as [|Hne]; [done|]. destruct Hkey as [Hkey|]; [|done].
    assert (key <> "TMPDIR" /\ key <> "TMP" /\ key <> "TEMP") as (H1 & H2 & H3).
    { repeat split; intros ->; apply Hkey; vm_compute; by repeat constructor. }
    by rewrite !setEnvValue_other.
Qed.

Lemma database_env_spec req env env' : database_env req env = EnvOK env' ->
  let path := strings.TrimSpace (str_at (req_Metadata req) MetadataDatabasePath) in
  (path <> "" -> filepath.IsAbs path = true /\ base_of (filepath.Clean path) = "opencode.db" /\
     env_value env' "OPENCODE_DB" = Some (filepath.Clean path)) /\
  (forall key, plain key = true -> key <> "OPENCODE_DB" \/ path = "" -> env_value env' key = env_value env key).
Proof.
  unfold database_env. cbv zeta. set (path := strings.TrimSpace _). destruct (String.eqb_spec path "") as [->|Hne].
  - intros [= <-]. done.
  - destruct (filepath.IsAbs path); [|done]. destruct (String.eqb_spec (base_of (filepath.Clean path)) "opencode.db"); [|done].
    cbn [orb negb]. intros [= <-]. split; [intros _; split; [done|]; split; [done|]; apply setEnvValue_same|].
    intros key Hp [Hk|]; [|done]. by apply setEnvValue_other.
Qed.

(** The process runs the configured executable, gets the prompt on its
    standard input, and its arguments are those of the request followed by the
    extra ones. Of its environment, a database path that was asked for is the
    value of OPENCODE_DB and ends in opencode.db, a temporary directory is the
    value of the three variables that name one, and every other variable but
    the OpenCode configuration is as the caller set it. *)
Theorem Runtime_processSpec_spec r fs req permissions spec dir :
  Runtime_processSpec r fs req permissions = SpecOK spec dir ->
  let path := strings.TrimSpace (str_at (req_Metadata req) MetadataDatabasePath) in
  ps_Executable spec = rt_executable r /\ ps_Stdin spec = req_Prompt req /\ ps_WorkDir spec = req_WorkDir req /\
  ps_Args spec = process_args r req /\
  (path <> "" -> filepath.IsAbs path = true /\ base_of (filepath.Clean path) = "opencode.db" /\
     env_value (ps_Env spec) "OPENCODE_DB" = Some (filepath.Clean path)) /\
  (dir <> "" -> forall key, key ∈ temp_keys -> env_value (ps_Env spec) key = Some dir) /\
  (forall key, plain key = true -> key <> config_key ->
     key <> "OPENCODE_DB" \/ path = "" -> key ∉ temp_keys \/ dir = "" ->
     env_value (ps_Env spec) key = env_value (rt_env r) key).
Proof.
  intros H path. unfold Runtime_processSpec in H.
  apply with_env_ok in H as (e1 & H1 & H). apply with_env_ok in H as (e2 & H2 & H).
  apply with_env_ok in H as (e3 & H3 & H). destruct (createProcessTempDir _ _) as [err|dir']; [done|].
  injection H as <- <-. cbn [ps_Executable ps_Stdin ps_WorkDir ps_Args ps_Env].
  destruct (temp_env_spec dir' e3) as [Ht1 Ht2]. destruct (database_env_spec _ _ _ H3) as [Hd1 Hd2].
  split; [done|]. split; [done|]. split; [done|]. split; [done|]. split; [|split].
  - intros Hp. destruct (Hd1 Hp) as (? & ? & Hv). split; [done|]. split; [done|].
    rewrite Ht2; [exact Hv|done|]. left. vm_compute. intros Hin. repeat (apply elem_of_cons in Hin as [Hin|Hin]; [discriminate|]). by apply elem_of_nil in Hin.
  - intros Hne key Hk. by apply Ht1.
  - intros key Hp Hc Hdb Htmp. rewrite Ht2, Hd2 by done.
    rewrite <-(mergeEnv_other _ _ _ key Hp Hc H1). destruct (rt_snapshots r); [|by injection H2 as ->].
    by apply (withSnapshotConfig_other _ _ _ key Hp Hc H2).
Qed.

Definition spawning : Runtime := NewRuntime [WithEnv ["HOME=/root"; "TMP=/old"]; WithExtraArgs ["--quiet"]].
Definition spawn_request : RunRequest := zero <| req_Prompt := "hello" |> <| req_Model := "gpt" |>
  <| req_Provider := "openai" |> <| req_Metadata := Some {[ MetadataTempRoot := "/scratch" ]} |>.
Definition spawn_fs : TempEnv := mkTempEnv None (inr "/scratch/attempt-1") None.

Lemma Runtime_processSpec_spec_witness :
  exists spec, Runtime_processSpec spawning spawn_fs spawn_request zero = SpecOK spec "/scratch/attempt-1" /\
  ps_Args spec = ["run"; "--format"; "json"; "--model"; "openai/gpt"; "--quiet"] /\
  env_value (ps_Env spec) "TMP" = Some "/scratch/attempt-1" /\ env_value (ps_Env spec) "HOME" = Some "/root".
Proof.
  destruct (Runtime_processSpec spawning spawn_fs spawn_request zero) as [spec dir| |] eqn:E;
    [|vm_compute in E; discriminate E|vm_compute in E; discriminate E].
  assert (dir = "/scratch/attempt-1") as -> by (vm_compute in E; injection E as _ <-; reflexivity).
  exists spec. destruct (Runtime_processSpec_spec _ _ _ _ _ _ E) as (_ & _ & _ & Ha & _ & Ht & Ho).
  split; [reflexivity|]. split; [rewrite Ha; reflexivity|].
  split; [apply Ht; [discriminate|vm_compute; right; left]|].
  rewrite Ho; [reflexivity|reflexivity|discriminate|right; reflexivity|].
  left. vm_compute. intros Hin. repeat (apply elem_of_cons in Hin as [Hin|Hin]; [discriminate|]). by apply elem_of_nil in Hin.
Defined.

(** ** Sessions *)

(** A session action is refused exactly when it is not the default, fresh or
    continue; the error is a configuration error that names a capability which
    the adapter reports as unsupported, so a caller that asks first is never
    surprised. *)
Theorem validateSessionRequest_spec req :
  (validateSessionRequest req = None <->
     req_SessionAction req ∈ [SessionActionDefault; SessionActionFresh; SessionActionContinue]) /\
  (forall err, validateSessionRequest req = Some err ->
     err_Category err = ErrorConfiguration /\ Supports Runtime_Capabilities (err_DebugDetail err) = false /\
     err_DebugDetail err ∈ map uc_Capability (caps_Unsupported Runtime_Capabilities)).
Proof.
  unfold validateSessionRequest. split.
  - rewrite <-one_of_spec. destruct (one_of _ _); [done|]. split; [|done].
    repeat (case_match; [done|]). done.
  - destruct (one_of _ _); [done|]. intros err H.
    assert (err_DebugDetail err ∈ [CapabilitySessionFork; CapabilitySessionReplace; CapabilitySessionRelease; CapabilitySessions]
      /\ err_Category err = ErrorConfiguration) as [Hin ->].
    { repeat (case_match; [injection H as <-; split; [vm_compute; by repeat constructor|done]|]).
      injection H as <-. split; [vm_compute; by repeat constructor|done]. }
    split; [done|]. assert (err_DebugDetail err ∈ map uc_Capability (caps_Unsupported Runtime_Capabilities)) as Hu.
    { revert Hin. generalize (err_DebugDetail err). intros d Hin. vm_compute in Hin |- *.
      repeat (apply elem_of_cons in Hin as [->|Hin]; [by repeat constructor|]). by apply elem_of_nil in Hin. }
    split; [by apply Capabilities_consistent|done].
Qed.
