(* ===== verification/OpenCodeConfig.v ===== *)
(** * The settings an OpenCode process gets

    The configuration of OpenCode travels in one environment variable, which
    [mergeEnv] and, for the snapshot setting, [withSnapshotConfig] decode and
    encode again. The theorems follow the permissions of a policy through both
    and through the rest of [processSpec] to what the child process decodes. *)
From S2P Require Import Prelude GoStd Types Json GoFmt JsonRoundTrip Permissions OpenCodePermissions OpenCodeProcess OpenCodeOptions OpenCodeSpawn.
#[local] Open Scope string_scope.

(** ** The rules of a policy

    A rule is an action, or actions by path. *)
Definition is_action (v : any) : Prop := match v with AString _ => True | _ => False end.

Definition is_rule (v : any) : Prop :=
  match v with AMap m => NoDup m.*1 /\ Forall is_action m.*2 | _ => is_action v end.

Definition rules (config : GoMap any) : Prop := NoDup config.*1 /\ Forall is_rule config.*2.

Lemma rules_set config k v : rules config -> is_rule v -> rules (map_set config k v).
Proof. intros [Hnd Hr] Hv. split; [by apply map_set_NoDup|by apply map_set_Forall]. Qed.

Lemma set_tools_rules action tools config : rules config ->
  rules (foldl (fun config native => map_set config native (AString action)) config tools).
Proof. revert config. induction tools as [|t tools IH]; intros config H; [done|]. by apply IH, rules_set. Qed.

Lemma translate_tools_rules behavior tools explicit st :
  rules (pt_config st) ->
  match translate_tools behavior tools explicit st with inl _ => True | inr t => rules (pt_config t) end.
Proof.
  revert explicit st. induction tools as [|[tool action] tools IH]; intros explicit st H; [exact H|].
  cbn [translate_tools]. destruct (map_get opencodePermissionTools tool) as [native|].
  - assert (rules (pt_config (set_tool tool native action st))) by (by apply rules_set).
    destruct (action =s _); [by apply IH|]. destruct (map_get explicit native); [|by apply IH].
    destruct (negb _); [done|]. by apply IH.
  - cbv zeta. destruct (negb _); [done|]. by apply IH.
Qed.

Lemma add_path_rules st rule : rules (pt_config st) -> rules (pt_config (add_path_rule st rule)).
Proof.
  intros H. apply rules_set; [done|]. cbn [is_rule]. unfold external_paths.
  destruct (map_get (pt_config st) "external_directory") as [v|] eqn:E.
  - apply map_get_elem in E. destruct H as [_ H]. rewrite Forall_forall in H.
    assert (is_rule v) as Hv by (apply H, list_elem_of_fmap; by exists ("external_directory", v)).
    destruct v; try done; cbn [is_rule] in Hv.
    + split; [apply map_set_NoDup, NoDup_singleton|]. apply map_set_Forall; [by apply Forall_singleton|done].
    + destruct Hv as [Hnd Hv]. split; [by apply map_set_NoDup|by apply map_set_Forall].
  - split; [apply NoDup_singleton|by apply Forall_singleton].
Qed.

Lemma translate_rules req t : translatePermissions req = inr t -> rules (pt_config t).
Proof.
  assert (rules []) as H0 by (split; constructor).
  unfold translatePermissions. destruct (req_PermissionPolicy req) as [policy|]; [|by intros [= <-]].
  destruct (ValidatePermissionPolicy _); [done|]. cbv zeta. set (st := expand_default _ _).
  assert (rules (pt_config st)) as Hst
    by (subst st; unfold expand_default; destruct (_ =s _); [done|]; by apply set_tools_rules).
  pose proof (translate_tools_rules (pp_UnsupportedBehavior policy) (pp_Tools policy) [] st Hst) as H. revert H.
  destruct (translate_tools _ _ _ _) as [|t']; [done|]. intros H [= <-]. revert t' H.
  induction (pp_PathRules policy) as [|rule l IH]; intros t' H; [exact H|]. by apply IH, add_path_rules.
Qed.

Lemma rule_sized v : is_rule v -> sized 1 v.
Proof.
  destruct v; try done; cbn [is_rule]; [by split; [constructor|]|]. intros [Hnd H]. apply sized_map.
  split; [done|]. split; [done|]. eapply Forall_impl; [exact H|]. intros []; try done. by split; [constructor|].
Qed.

(** ** Settings *)
Definition settings_ok (settings : GoMap any) : Prop := sized 10000 (AMap settings).

Lemma settings_set settings k v : settings_ok settings -> sized 9999 v -> settings_ok (map_set settings k v).
Proof.
  intros (Hn & Hnd & H)%sized_map Hv. apply sized_map. split; [done|].
  split; [by apply map_set_NoDup|by apply map_set_Forall].
Qed.

Lemma set_all_sized n permission config : sized n (AMap permission) -> (2 <= n)%Z -> rules config ->
  sized n (AMap (set_all permission config)).
Proof.
  intros H Hn [_ Hr]. unfold set_all. revert permission H. induction config as [|[k v] config IH]; intros permission H; [done|].
  apply Forall_cons in Hr as [Hv Hr]. cbn [foldl]. apply IH; [done|]. apply sized_map in H as (H1 & Hnd & H).
  apply sized_map. split; [done|]. split; [by apply map_set_NoDup|]. apply map_set_Forall; [done|].
  apply (sized_mono 1); [lia|]. by apply rule_sized.
Qed.

(** The settings an environment carries, as the code decodes them, can be
    encoded again: their numbers read back. *)
Definition readable_settings (env : list string) : Prop :=
  match split_config env [] (Some []) with
  | Some (_, Some settings) => shaped True readable (AMap settings)
  | _ => True
  end.

(** The loop over the variables decodes settings of at most the decoder's depth. *)
Lemma split_config_fits env out existing out' settings :
  split_config env out existing = Some (out', Some settings) ->
  Forall (fits 1) (default [] existing).*2 -> Forall (fits 1) settings.*2.
Proof.
  revert out existing. induction env as [|value env IH]; intros out existing; cbn [split_config].
  - by intros [= _ ->].
  - destruct (strings.CutPrefix _ value) as [content|]; [|apply IH].
    unfold json_UnmarshalMap. destruct (json.Unmarshal content) as [v|] eqn:E; [|done].
    apply Unmarshal_typed in E as [Hv Hd]. destruct v; try done.
    + intros H _. by apply IH in H.
    + intros H Hx. apply IH in H; [done|]. cbn [default].
      apply depth_map_le in Hd as [_ Hd]. inversion Hv as [| | | | | |m' Hnd Hm]; subst.
      revert Hx. generalize (default [] existing). clear -Hm Hd.
      induction m as [|[k v] m IH]; intros acc Hacc; [done|].
      apply Forall_cons in Hm as [Hv Hm], Hd as [Hdv Hd]. cbn [foldl]. apply IH; [done..|].
      apply map_set_Forall; [done|]. split; [exact Hv|cbn in Hdv; lia].
Qed.

Lemma split_config_settings env out settings :
  split_config env [] (Some []) = Some (out, Some settings) -> readable_settings env -> settings_ok settings.
Proof.
  intros H Hr. unfold readable_settings in Hr. rewrite H in Hr. apply split_config_fits in H; [|constructor].
  split; [done|]. apply depth_map_le. split; [done|]. eapply Forall_impl; [exact H|]. intros v [_ Hv]. lia.
Qed.

(** ** What a text asks for *)

(** Decoded, the text asks for all the permissions. *)
Definition asks (permissions : GoMap any) (content : string) : Prop :=
  exists settings permission, json.Unmarshal content = Some (AMap settings) /\ settings_ok settings /\
    map_get settings "permission" = Some (AMap permission) /\
    forall key value, map_get permissions key = Some value ->
      exists value', map_get permission key = Some value' /\ same_value value' value.

Lemma canon_entries m : canon (AMap m) = AMap (sorted_entries ANil (map (fun '(k, v) => (k, canon v)) m)).
Proof. done. Qed.

Lemma canon_get m key : map_get (sorted_entries ANil (map (fun '(k, v) => (k, canon v)) m)) key = canon <$> map_get m key.
Proof. by rewrite sorted_get, map_get_map. Qed.

(** Encoded settings ask for the permissions they hold. *)
Lemma Marshal_asks permissions settings permission content : settings_ok settings ->
  map_get settings "permission" = Some (AMap permission) ->
  (forall key value, map_get permissions key = Some value ->
     exists value', map_get permission key = Some value' /\ same_value value' value) ->
  json_Marshal (AMap settings) = Some content -> asks permissions content.
Proof.
  intros Hok Hp Hall Hm. destruct (Marshal_sized _ Hok) as (text & Hm' & Hu). rewrite Hm in Hm'. injection Hm' as <-.
  rewrite canon_entries in Hu. eexists _, _. split; [exact Hu|]. split.
  - unfold settings_ok. rewrite <-canon_entries. by apply sized_canon.
  - rewrite canon_get, Hp. split; [done|]. intros key value Hk. destruct (Hall key value Hk) as (v & Hv & Hs).
    exists (canon v). rewrite canon_get, Hv. split; [done|]. etransitivity; [apply canon_same|exact Hs].
Qed.

(** The environment hands the child settings that ask for the permissions. *)
Definition enforces (permissions : GoMap any) (env : list string) : Prop :=
  exists content, env_value env config_key = Some content /\ asks permissions content.

Lemma foldl_set_fresh {V} (acc m : GoMap V) : NoDup (acc.*1 ++ m.*1) ->
  foldl (fun acc '(k, v) => map_set acc k v) acc m = (acc ++ m)%list.
Proof.
  revert acc. induction m as [|[k v] m IH]; intros acc H; [by rewrite app_nil_r|]. cbn [foldl].
  rewrite map_set_fresh; [rewrite IH|].
  - by rewrite <-app_assoc.
  - rewrite fmap_app, <-app_assoc. exact H.
  - cbn in H. apply NoDup_app in H as (_ & H & _). intros Hk. by apply (H k Hk); left.
Qed.

(** One configuration at the end of an environment that has no other. *)
Lemma split_config_one out content settings acc : Forall (fun value => is_config value = false) out ->
  json.Unmarshal content = Some (AMap settings) -> NoDup settings.*1 ->
  split_config (out ++ [opencodeConfigContentEnv +:+ content])%list acc (Some []) = Some ((acc ++ out)%list, Some settings).
Proof.
  intros Ho Hu Hnd. revert acc. induction Ho as [|value out Hv Ho IH]; intros acc; cbn [app split_config].
  - rewrite (proj2 (CutPrefix_spec _ _ content) eq_refl). unfold json_UnmarshalMap. rewrite Hu. cbn [default].
    rewrite app_nil_r. do 3 f_equal. exact (foldl_set_fresh [] settings Hnd).
  - unfold is_config, strings.HasPrefix in Hv. apply bool_decide_eq_false in Hv.
    destruct (strings.CutPrefix opencodeConfigContentEnv value); [by destruct Hv|].
    rewrite IH, <-app_assoc. done.
Qed.

(** The environment with one configuration at its end, and none before. *)
Definition carries (permissions : GoMap any) (env : list string) : Prop :=
  exists out content, env = (out ++ [opencodeConfigContentEnv +:+ content])%list /\
    Forall (fun value => is_config value = false) out /\ asks permissions content.

Lemma others_no_config base : Forall (fun value => is_config value = false) (filter (fun value => is_config value = false) base).
Proof. apply Forall_forall. by intros value [? _]%list_elem_of_filter. Qed.

Lemma mergeEnv_carries base permissions env : rules permissions -> permissions <> [] -> readable_settings base ->
  mergeEnv base permissions = EnvOK env -> carries permissions env.
Proof.
  intros Hrules Hne Hread. unfold mergeEnv. destruct permissions as [|entry permissions]; [done|].
  set (config := entry :: permissions) in *. clearbody config.
  destruct (split_config base [] (Some [])) as [[out existing]|] eqn:E; [|done].
  destruct (existing_permission existing) as [permission|] eqn:Ep; [|done]. destruct existing as [existing|]; [|done].
  destruct (json_Marshal _) as [content|] eqn:Em; [|done]. intros [= <-].
  pose proof (split_config_settings _ _ _ E Hread) as Hok. pose proof (split_config_out _ _ _ _ _ E) as ->.
  eexists _, content. split; [done|]. split; [apply others_no_config|].
  assert (sized 9999 (AMap permission)) as Hp.
  { unfold existing_permission in Ep. cbn [default] in Ep. apply sized_map in Hok as (_ & _ & Hok).
    destruct (map_get _ _) as [v|] eqn:Eg in Ep.
    - destruct v; try done. injection Ep as <-. apply map_get_elem in Eg. rewrite Forall_forall in Hok.
      apply Hok, list_elem_of_fmap. by exists ("permission", AMap m).
    - injection Ep as <-. apply sized_map. split; [done|]. split; constructor. }
  apply (Marshal_asks config _ (set_all permission config) content) in Em; [exact Em|..].
  - apply settings_set; [done|]. by apply set_all_sized.
  - by rewrite map_get_set.
  - intros key value Hk. exists value. rewrite set_all_get by apply Hrules. by rewrite Hk.
Qed.

(** The snapshot setting leaves the permissions as they are. *)
Lemma withSnapshotConfig_carries permissions enabled env env' :
  carries permissions env -> withSnapshotConfig env enabled = EnvOK env' -> carries permissions env'.
Proof.
  intros (out & content & -> & Ho & settings & permission & Hu & Hok & Hp & Hall). unfold withSnapshotConfig.
  pose proof Hok as (_ & Hnd & _)%sized_map. rewrite (split_config_one out content settings [] Ho Hu Hnd).
  destruct (json_Marshal _) as [content'|] eqn:Em; [|done]. intros [= <-]. exists out, content'.
  split; [done|]. split; [exact Ho|].
  apply (Marshal_asks permissions _ permission content') in Em; [exact Em|..].
  - apply settings_set; [done|]. by split; [constructor|].
  - by rewrite map_get_set.
  - exact Hall.
Qed.

Lemma carries_enforces permissions env : carries permissions env -> enforces permissions env.
Proof.
  intros (out & content & -> & _ & Ha). exists content. split; [|exact Ha].
  unfold env_value, config_key. rewrite omap_app, last_app. cbn [omap list_omap].
  change opencodeConfigContentEnv with ("OPENCODE_CONFIG_CONTENT" +:+ "="). by rewrite (proj2 (CutPrefix_spec _ _ content) eq_refl).
Qed.

(** The child process sees the variables of its specification before those of
    its parent. *)
Lemma env_value_app (env env' : list string) key :
  env_value (env ++ env') key = match env_value env' key with Some v => Some v | None => env_value env key end.
Proof. unfold env_value. by rewrite omap_app, last_app. Qed.

(** The permissions of a request reach the child: whatever the adapter had in
    its own settings, with or without a snapshot setting, on every platform the
    process that is started decodes settings that ask for every permission its
    request translates to. *)
Lemma process_enforces r fs req t spec dir p x cmd :
  translatePermissions req = inr t -> pt_config t <> [] -> readable_settings (rt_env r) ->
  Runtime_processSpec r fs req t = SpecOK spec dir -> OpenCodeProcess.Start p x spec = inr cmd ->
  enforces (pt_config t) (child_environ x cmd).
Proof.
  intros Ht Hne Hread Hspec Hstart.
  pose proof (Start_spec p x spec) as H. rewrite Hstart in H. destruct H as (_ & _ & _ & _ & -> & _).
  assert (enforces (pt_config t) (ps_Env spec)) as (content & Hv & Ha).
  { revert Hspec. unfold Runtime_processSpec.
    intros (e1 & H1 & (e2 & H2 & (e3 & H3 & H)%with_env_ok)%with_env_ok)%with_env_ok.
    destruct (createProcessTempDir _ _) as [|dir']; [done|]. injection H as <- <-. cbn [ps_Env].
    apply mergeEnv_carries in H1; [|by eapply translate_rules|done..].
    assert (carries (pt_config t) e2) as Hc
      by (destruct (rt_snapshots r); [by eapply withSnapshotConfig_carries|by injection H2 as <-]).
    apply carries_enforces in Hc as (content & Hv & Ha). exists content. split; [|exact Ha].
    rewrite (proj2 (temp_env_spec dir' e3)), (proj2 (database_env_spec _ _ _ H3)); [exact Hv| | | |]; try done.
    - by left.
    - left. intros Hin. by repeat (apply elem_of_cons in Hin as [Hin|Hin]; [discriminate|]); apply elem_of_nil in Hin. }
  exists content. by rewrite env_value_app, Hv.
Qed.
