(* ===== verification/OpenCodeModels.v ===== *)
(** * opencode/models.go: the models OpenCode knows

    [ListModels] runs the listing command and reads its output;
    [parseModelListing] turns the lines into model references. *)
From Stdlib Require Import Ascii.
From S2P Require Import Prelude GoStd Types Redact Errors Capabilities OpenCodeDecoder OpenCodeProcess OpenCodeOptions.
#[local] Open Scope string_scope.

Definition maxModelListBytes : Z := (512 * 1024)%Z.

(** The limit of the scanner. *)
Definition maxModelLineBytes : Z := (64 * 1024)%Z.

(** A line that is no model reference. *)
Definition skip_line (line : string) : bool :=
  (line =s "") || strings.HasPrefix line "{" || strings.HasPrefix line "[" ||
  strings.ContainsAny line (" " +:+ String "009" "").

Definition reference (requested : ProviderID) (line : string) : ModelInfo :=
  match strings.Cut line "/" with
  | Some (String c provider, id) => mkModelInfo (String c provider) id ""
  | _ => mkModelInfo requested line ""
  end.

Definition reference_key (model : ModelInfo) : string := mi_Provider model +:+ "/" +:+ mi_ID model.

(** One round of the loop; the keys seen are those of the models so far. *)
Definition list_line (requested : ProviderID) (models : list ModelInfo) (text : string) : list ModelInfo :=
  let line := strings.TrimSpace text in
  if skip_line line then models
  else
    let model := reference requested line in
    if (reference_key model =s "/") || one_of (reference_key model) (map reference_key models) then models
    else (models ++ [model])%list.

Definition parseModelListing (text : string) (requested : ProviderID) : list ModelInfo :=
  foldl (list_line requested) [] (fst (bufio.ScanLines maxModelLineBytes text)).

(** What the listing command gave. *)
Record Listing := mkListing {
  ls_stdout : Stdout;
  ls_stderr : string;
  ls_result : processResult
}.

(** What is read of standard output; its error is not seen past the limit. *)
Definition read_listing (out : Stdout) : string * option error :=
  (strings.take (Z.to_nat maxModelListBytes) (out_text out),
   if (maxModelListBytes <? str_len (out_text out))%Z then None else out_err out).

Definition ListModels (r : Runtime) (start : processSpec -> error + Listing) (req : ModelsRequest)
    : SDKError + list ModelInfo :=
  let fails category detail cause opts := inl (NewError category "opencode models" detail cause opts) in
  let args := if strings.TrimSpace (mq_Provider req) =s "" then ["models"] else ["models"; mq_Provider req] in
  match start (mkprocessSpec (rt_executable r) args (rt_env r) (mq_WorkDir req) "") with
  | inl err => fails ErrorRuntimeUnavailable "OpenCode model listing could not start" (Some err) []
  | inr listing =>
      let '(text, readErr) := read_listing (ls_stdout listing) in
      let stderr := strings.take (Z.to_nat (rt_stderrLimit r)) (ls_stderr listing) in
      let result := ls_result listing in
      match readErr, pr_Err result, (pr_ExitCode result =? 0)%Z with
      | Some err, _, _ => fails ErrorHealth "OpenCode model listing output could not be read" (Some err) []
      | None, None, true =>
          match parseModelListing text (mq_Provider req) with
          | [] => fails ErrorModelUnavailable "OpenCode reported no available models" None
                    [WithDebugDetail (RedactString text)]
          | models => inr models
          end
      | None, cause, _ =>
          fails ErrorRuntimeUnavailable "OpenCode model listing failed" cause
            [WithDebugDetail ("exit_code=" +:+ itoa (pr_ExitCode result) +:+ " stderr=" +:+
                              RedactString (strings.TrimSpace stderr))]
      end
  end.

(** ** Listings that are read back *)

(** A reference as the listing prints it. *)
Definition print_model (model : ModelInfo) : string := reference_key model +:+ String "010" "".
Definition print_listing (models : list ModelInfo) : string :=
  foldr (fun model text => print_model model +:+ text) "" models.

(** A reference without white space, with a provider that has no slash, and that
    fits on a line. *)
Definition printable (model : ModelInfo) : Prop :=
  strings.no_space (reference_key model) = true /\ strings.Contains (mi_Provider model) "/" = false /\
  mi_Provider model <> "" /\ mi_Name model = "" /\ (str_len (reference_key model) < maxModelLineBytes)%Z /\
  strings.HasPrefix (mi_Provider model) "{" = false /\ strings.HasPrefix (mi_Provider model) "[" = false.

Definition no_byte (b : ascii) (s : string) : Prop := b ∉ String.list_ascii_of_string s.

Lemma no_space_byte b s : strings.is_space b = true -> strings.no_space s = true -> no_byte b s.
Proof.
  intros Hb Hs Hin. unfold strings.no_space in Hs. rewrite forallb_forall in Hs.
  specialize (Hs b). rewrite <-list_elem_of_In in Hs. apply Hs in Hin. by rewrite Hb in Hin.
Qed.

Lemma SplitByte_line b s t : no_byte b s -> strings.SplitByte (s +:+ String b t) b = s :: strings.SplitByte t b.
Proof.
  unfold no_byte. induction s as [|c s IH]; intros H.
  - change ("" +:+ String b t) with (String b t). cbn [strings.SplitByte]. by rewrite Ascii.eqb_refl.
  - cbn in H. apply not_elem_of_cons in H as [Hc H]. change (String c s +:+ ?x) with (String c (s +:+ x)).
    cbn [strings.SplitByte]. destruct (Ascii.eqb_spec c b); [congruence|]. by rewrite IH.
Qed.

Lemma SplitByte_listing models : Forall printable models ->
  strings.SplitByte (print_listing models) "010" = (map reference_key models ++ [""])%list.
Proof.
  induction 1 as [|model models Hm _ IH]; [done|]. cbn [print_listing foldr map app]. unfold print_model.
  rewrite str_app_assoc. change (String "010" "" +:+ ?t) with (String "010" t). rewrite SplitByte_line; [by rewrite <-IH|].
  apply no_space_byte; [done|]. by destruct Hm.
Qed.

Lemma drop_cr_no_space s : strings.no_space s = true -> bufio.drop_cr s = s.
Proof.
  intros H. unfold bufio.drop_cr. destruct (strings.HasSuffix s _) eqn:E; [|done].
  apply HasSuffix_spec in E as [q ->]. exfalso. eapply (no_space_byte "013" _ eq_refl H).
  clear. induction q as [|c q IH]; cbn; set_solver.
Qed.

Lemma within_listing models : Forall printable models ->
  bufio.within maxModelLineBytes (map reference_key models) = (map reference_key models, false).
Proof.
  induction 1 as [|model models (Hs & _ & _ & _ & Hl & _) _ IH]; cbn [map bufio.within]; [done|].
  unfold str_len in Hl. rewrite IH, (proj2 (Z.leb_gt _ _)) by done. by rewrite drop_cr_no_space.
Qed.

Lemma Cut_provider provider id : strings.Contains provider "/" = false ->
  strings.Cut (provider +:+ "/" +:+ id) "/" = Some (provider, id).
Proof.
  induction provider as [|c provider IH]; intros H; [done|].
  change (String c provider +:+ ?t) with (String c (provider +:+ t)). cbn [strings.Cut strings.CutPrefix].
  destruct (Ascii.eqb_spec "/" c) as [<-|Hc].
  - exfalso. rewrite (proj2 (Contains_spec _ _)) in H; [done|]. by exists "", provider.
  - rewrite IH; [done|]. apply not_true_iff_false. intros (a & b & E)%Contains_spec.
    rewrite (proj2 (Contains_spec _ _)) in H; [done|]. exists (String c a), b. by rewrite E.
Qed.

Lemma list_line_printed requested models model : printable model ->
  reference_key model ∉ map reference_key models ->
  list_line requested models (reference_key model) = (models ++ [model])%list.
Proof.
  intros (Hs & Hp & Hne & Hn & _ & Hb & Hb') Hnew. destruct model as [provider id name]. cbn in Hn, Hp, Hne, Hb, Hb'. subst name.
  unfold list_line. rewrite (strings.TrimSpace_no_space _ Hs). unfold skip_line, reference.
  assert (strings.ContainsAny (reference_key (mkModelInfo provider id "")) (" " +:+ String "009" "") = false) as ->.
  { unfold strings.ContainsAny. apply not_true_iff_false. rewrite existsb_exists. intros (c & Hin & Hc).
    rewrite <-list_elem_of_In in Hin. cbn in Hc. apply orb_true_iff in Hc as [Hc%Ascii.eqb_eq|Hc].
    - subst c. by apply (no_space_byte " " _ eq_refl Hs).
    - apply orb_true_iff in Hc as [Hc%Ascii.eqb_eq|]; [|done]. subst c. by apply (no_space_byte "009" _ eq_refl Hs). }
  unfold reference_key in *. cbn [mi_Provider mi_ID] in *. destruct provider as [|c provider]; [done|].
  rewrite (Cut_provider _ _ Hp). cbn [mi_Provider mi_ID].
  assert (forall b, strings.HasPrefix (String c provider) (String b "") = false ->
    strings.HasPrefix (String c provider +:+ "/" +:+ id) (String b "") = false) as Hpre.
  { intros b. unfold strings.HasPrefix. rewrite !bool_decide_eq_false. change (String c provider +:+ ?t) with (String c (provider +:+ t)).
    cbn [strings.CutPrefix]. destruct (Ascii.eqb b c); [|by intros _ [? ?]]. intros H. exfalso. apply H. by eexists. }
  rewrite (Hpre "{"%char Hb), (Hpre "["%char Hb'). cbn [orb]. change (?x || false) with x. cbn [String.eqb orb].
  assert ((String c provider +:+ "/" +:+ id =s "/") = false) as ->.
  { apply String.eqb_neq. change (String c provider +:+ ?t) with (String c (provider +:+ t)). intros [= -> E].
    by destruct provider. }
  cbn [orb]. by rewrite (proj2 (one_of_false _ _) Hnew).
Qed.

Lemma list_lines_printed requested models seen : Forall printable models ->
  NoDup (map reference_key (seen ++ models)) ->
  foldl (list_line requested) seen (map reference_key models) = (seen ++ models)%list.
Proof.
  intros Hm. revert seen. induction Hm as [|model models Hm _ IH]; intros seen Hnd; cbn [map foldl]; [by rewrite app_nil_r|].
  rewrite list_line_printed; [|done|].
  - rewrite IH; [by rewrite <-app_assoc|]. by rewrite <-app_assoc.
  - rewrite map_app in Hnd. apply NoDup_app in Hnd as (_ & H & _). intros Hin. apply (H _ Hin). cbn. set_solver.
Qed.

(** A listing is read back as it was printed: references without white space,
    with a provider that has no slash, on lines that fit the scanner, come back
    in order, each with its provider and the rest of the line as its identifier,
    whatever provider was asked for. *)
Theorem parseModelListing_roundtrip requested models :
  Forall printable models -> NoDup (map reference_key models) ->
  parseModelListing (print_listing models) requested = models.
Proof.
  intros Hm Hnd. unfold parseModelListing, bufio.ScanLines. rewrite SplitByte_listing by done.
  unfold bufio.terminated. rewrite last_snoc, removelast_last, within_listing by done. by apply (list_lines_printed _ _ []).
Qed.

Definition sample_models : list ModelInfo :=
  [mkModelInfo "anthropic" "claude-x" ""; mkModelInfo "openrouter" "~anthropic/claude-x" ""].

Lemma parseModelListing_roundtrip_witness :
  parseModelListing (print_listing sample_models) "openai" = sample_models.
Proof.
  apply parseModelListing_roundtrip.
  - repeat constructor; try discriminate.
  - apply (bool_decide_unpack _). vm_compute. exact I.
Defined.

(** A line of 64 KiB ends the listing without an error: what follows is lost. *)
Lemma parseModelListing_long_line line text requested :
  no_byte "010" line -> (maxModelLineBytes <= str_len line)%Z ->
  parseModelListing (line +:+ String "010" text) requested = [].
Proof.
  intros Hn Hl. unfold parseModelListing, bufio.ScanLines. rewrite SplitByte_line by done.
  assert (exists rest, bufio.terminated (line :: strings.SplitByte text "010") = line :: rest) as [rest ->].
  { unfold bufio.terminated. destruct (strings.SplitByte text "010") as [|x l] eqn:E.
    - exfalso. destruct text as [|c text]; [done|]. cbn in E. destruct (Ascii.eqb c "010"); [done|].
      by destruct (strings.SplitByte text "010").
    - destruct (last _) as [[]|]; [|by eexists|by eexists]. exists (removelast (x :: l)). done. }
  cbn [bufio.within]. unfold str_len in Hl. by rewrite (proj2 (Z.leb_le _ _)).
Qed.
