(* ===== verification/OpenCodeHealth.v ===== *)
(** * opencode/health.go: preflight probes

    [CheckHealth] runs the requested checks one after the other: probes of the
    OpenCode command line, whose output is searched while it is read, and a look
    at the working directory. [requiredPreflight] of opencode/runtime.go turns
    the report into a decision. *)
From Stdlib Require Import Ascii.
From S2P Require Import Prelude GoStd Types Redact Errors Config Health GoFmt OpenCodeProcess OpenCodeOptions OpenCodeSpawn.
#[local] Open Scope string_scope.

(** ** Reading the output of a probe *)
Record probeOutput := mkprobeOutput {
  po_Sample : string;
  po_Matches : gmap string bool
}.

(** The needles in lower case, without the empty one, and the longest length. *)
Definition lower_needles (needles : list string) : list string :=
  filter (fun needle => needle <> "") (map strings.ToLower needles).

Definition maxNeedle (needles : list string) : nat :=
  foldl (fun longest needle => Nat.max longest (String.length needle)) 0 (lower_needles needles).

(** What the next window keeps of this one. *)
Definition window_tail (longest : nat) (window : string) : string :=
  if (1 <? longest)%nat && (longest - 1 <=? String.length window)%nat
  then strings.drop (String.length window - (longest - 1)) window else window.

Definition note_matches (needles : list string) (window : string) (matches : gmap string bool) : gmap string bool :=
  foldl (fun matches needle => if strings.Contains window needle then <[needle := true]> matches else matches)
    matches (lower_needles needles).

(** One round of the loop, with the bytes that were read. *)
Definition scan_chunk (needles : list string) (state : string * gmap string bool) (chunk : string)
    : string * gmap string bool :=
  if chunk =s "" then state
  else
    let window := fst state +:+ strings.ToLower chunk in
    (window_tail (maxNeedle needles) window, note_matches needles window (snd state)).

(** The matches after all chunks the reader gives; the sample gets every chunk. *)
Definition scanProbeOutput (sample : limitBuffer) (chunks needles : list string) (matches : gmap string bool)
    : limitBuffer * gmap string bool :=
  (write_all chunks sample, snd (foldl (scan_chunk needles) ("", matches) chunks)).

Definition readProbeOutput (chunks : list string) (limit : Z) (needles : list string) : probeOutput :=
  let '(sample, matches) := scanProbeOutput (newLimitBuffer limit) chunks needles ∅ in
  mkprobeOutput (if (limit <=? 0)%Z then "" else limitBuffer_String sample) matches.

Definition mergeProbeMatches (parts : list (gmap string bool)) : gmap string bool :=
  foldl (union_with (fun a b => Some (a || b))) ∅ parts.

Definition probeMatched (result : HealthResult) (needle : string) : bool :=
  match any_at (hr_NativeMetadata result) "matches" with
  | ABoolMap matches => default false (matches !! strings.ToLower needle)
  | _ => false
  end.

(** ** What the probes are told *)

(** A process that was probed: what its outputs gave, read by read, and how it
    ended. *)
Record Probe := mkProbe {
  pb_stdout : list string;
  pb_stderr : list string;
  pb_result : processResult
}.

(** The environment answers by tick: the clock, the context of the checks, the
    runner. [os.Stat] says whether a path is a directory. *)
Record HealthEnv := mkHealthEnv {
  he_now : nat -> Time;
  he_ctx : nat -> option error;
  he_start : nat -> processSpec -> error + Probe;
  he_stat : string -> error + bool;
  he_temp : TempEnv
}.

Section Checks.
Context (env : HealthEnv).

Definition ask {A} (question : nat -> A) : St nat A := fun t => (question t, S t).
Definition health_now : St nat Time := ask (he_now env).

Definition healthResult (check : HealthCheckID) (status : HealthStatus) (severity : HealthSeverity)
    (userDetail debugDetail : string) (native : AnyMap) (err : option SDKError) : St nat HealthResult :=
  let* t := health_now in
  ret (mkHealthResult check status severity userDetail (RedactString debugDetail) (RedactMetadata native) err t t).

(** A result that reports its error. *)
Definition failed_check (check : HealthCheckID) (status : HealthStatus) (severity : HealthSeverity) (err : SDKError)
    (native : AnyMap) : St nat HealthResult :=
  healthResult check status severity (err_UserDetail err) (err_DebugDetail err) native (Some err).

Definition probe_metadata (args : list string) (workDir : string) (stdout stderr : probeOutput) (exitCode : Z)
    : AnyMap :=
  Some (list_to_map [("args", AOpaque "[]string"); ("workdir", AString workDir);
    ("stdout", AString (RedactString (po_Sample stdout))); ("stderr", AString (RedactString (po_Sample stderr)));
    ("matches", ABoolMap (mergeProbeMatches [po_Matches stdout; po_Matches stderr])); ("exit_code", AInt exitCode)]).

Definition probeCommand (r : Runtime) (check : HealthCheckID) (workDir : string) (args needles : list string)
    (category : ErrorCategory) (readyDetail : string) : St nat HealthResult :=
  let* started := health_now in
  let* proc := ask (fun t => he_start env t (mkprocessSpec (rt_executable r) args (rt_env r) workDir "")) in
  match proc with
  | inl err =>
      let sdkErr := ErrorForHealthStatus check HealthUnrecoverable category "OpenCode probe could not start"
                      (error_Error err) (Some err) in
      let* finished := health_now in
      ret (mkHealthResult check HealthUnrecoverable HealthSeverityError (err_UserDetail sdkErr)
             (err_DebugDetail sdkErr) None (Some sdkErr) started finished)
  | inr probe =>
      let stdout := readProbeOutput (pb_stdout probe) (rt_stderrLimit r) needles in
      let stderr := readProbeOutput (pb_stderr probe) (rt_stderrLimit r) needles in
      let code := pr_ExitCode (pb_result probe) in
      let native := probe_metadata args workDir stdout stderr code in
      if match pr_Err (pb_result probe) with Some _ => true | None => negb (code =? 0)%Z end then
        let detail := "exit_code=" +:+ itoa code +:+ " stderr=" +:+ RedactString (po_Sample stderr) in
        failed_check check HealthTransientFail HealthSeverityError
          (ErrorForHealthStatus check HealthTransientFail category "OpenCode probe failed" detail
             (pr_Err (pb_result probe))) native
      else
        let* finished := health_now in
        ret (mkHealthResult check HealthReady HealthSeverityInfo readyDetail "" native None started finished)
  end.

(** [fmt.Sprint] of a field of the native metadata. *)
Definition native_text (result : HealthResult) (key : string) : string := Sprint (any_at (hr_NativeMetadata result) key).

Definition unmet (check : HealthCheckID) (category : ErrorCategory) (userDetail debugDetail : string)
    (native : AnyMap) : St nat HealthResult :=
  failed_check check HealthUnrecoverable HealthSeverityError
    (ErrorForHealthStatus check HealthUnrecoverable category userDetail debugDetail None) native.

Definition skipped (check : HealthCheckID) (detail : string) : St nat HealthResult :=
  healthResult check HealthSkipped HealthSeverityInfo detail "" None None.

(** ** The checks *)
Definition check_structured_output (r : Runtime) (req : HealthCheckRequest) (check : HealthCheckID) : St nat HealthResult :=
  let* result := probeCommand r check (hq_WorkDir req) ["run"; "--help"] ["--format"; "json"] ErrorHealth
                   "OpenCode run help is available" in
  if negb (hr_Status result =s HealthReady) then ret result
  else if negb (probeMatched result "--format") || negb (probeMatched result "json") then
    unmet check ErrorHealth "OpenCode structured JSON output support was not detected"
      (native_text result "stdout" +:+ String "010" "" +:+ native_text result "stderr") (hr_NativeMetadata result)
  else ret result.

Definition check_workdir (req : HealthCheckRequest) (check : HealthCheckID) : St nat HealthResult :=
  let dir := hq_WorkDir req in
  let invalid err :=
    let sdkErr := NewError ErrorConfiguration "opencode workdir" "working directory is invalid" (Some err)
                    [WithDebugDetail dir] in
    failed_check check HealthUnrecoverable HealthSeverityError sdkErr None in
  if dir =s "" then skipped check "no working directory was provided"
  else match he_stat env dir with
       | inl err => invalid err
       | inr false => invalid (EOther "workdir is not a directory")
       | inr true => healthResult check HealthReady HealthSeverityInfo "working directory is valid" "" None None
       end.

(** The first line of the listing that names the provider. *)
Definition provider_line (output provider : string) : string :=
  default "" (head (filter (fun line => strings.Contains line provider = true) (strings.SplitByte output "010"))).

Definition check_provider (r : Runtime) (req : HealthCheckRequest) (check : HealthCheckID) : St nat HealthResult :=
  if hq_Provider req =s "" then skipped check "no provider was requested"
  else
    let provider := strings.ToLower (hq_Provider req) in
    let* result := probeCommand r check (hq_WorkDir req) ["providers"; "list"] [provider] ErrorProviderUnavailable
                     "OpenCode provider probe completed" in
    if negb (hr_Status result =s HealthReady) then ret result
    else
      let line := provider_line (strings.ToLower (native_text result "stdout")) provider in
      if (line =s "") && negb (probeMatched result provider) then
        unmet check ErrorProviderUnavailable "requested provider was not found" provider (hr_NativeMetadata result)
      else if (check =s HealthCheckAuthentication) &&
              ((line =s "") || negb (strings.Contains line "auth" || strings.Contains line "login" || strings.Contains line "key"))
      then healthResult check HealthUnknown HealthSeverityWarn
             "provider authentication readiness could not be proven without starting work" "" (hr_NativeMetadata result) None
      else ret result.

Definition check_model (r : Runtime) (req : HealthCheckRequest) (check : HealthCheckID) : St nat HealthResult :=
  if (hq_Provider req =s "") || (hq_Model req =s "") then skipped check "provider or model was not requested"
  else
    let args := (["models"; hq_Provider req; "--verbose"] ++ if hq_IncludeRefresh req then ["--refresh"] else [])%list in
    let model := strings.ToLower (hq_Model req) in
    let* result := probeCommand r check (hq_WorkDir req) args [model] ErrorModelUnavailable
                     "OpenCode model probe completed" in
    if negb (hr_Status result =s HealthReady) then ret result
    else
      let output := strings.ToLower (native_text result "stdout") in
      if negb (strings.Contains output model) && negb (probeMatched result model) then
        unmet check ErrorModelUnavailable "requested model was not found" model (hr_NativeMetadata result)
      else ret result.

Definition runHealthCheck (r : Runtime) (req : HealthCheckRequest) (check : HealthCheckID) : St nat HealthResult :=
  let probe args category detail := probeCommand r check (hq_WorkDir req) args [] category detail in
  if check =s HealthCheckRuntimeAvailable then
    probe ["--version"] ErrorRuntimeUnavailable "OpenCode executable is available"
  else if check =s HealthCheckStructuredOutput then check_structured_output r req check
  else if check =s HealthCheckWorkDir then check_workdir req check
  else if check =s HealthCheckConfig then probe ["debug"; "config"] ErrorHealth "OpenCode configuration probe completed"
  else if check =s HealthCheckRuntimePaths then probe ["debug"; "paths"] ErrorHealth "OpenCode paths probe completed"
  else if one_of check [HealthCheckProvider; HealthCheckAuthentication] then check_provider r req check
  else if check =s HealthCheckModel then check_model r req check
  else failed_check check HealthUnsupported HealthSeverityWarn
         (ErrorForHealthStatus check HealthUnsupported ErrorHealth "health check is unsupported" check None) None.

(** ** The report *)
Definition effectiveConfig (r : Runtime) (req : HealthCheckRequest) : EffectiveConfig :=
  let secrets := omap (fun item => let '(secret, ok) := SecretFromEnv item ConfigSourceAdapterOption in
                                   if ok : bool then Some secret else None) (rt_env r) in
  MergeEffectiveConfig "opencode"
    [zero <| ly_Source := ConfigSourceDefault |> <| ly_RuntimeName := Some "opencode" |>;
     zero <| ly_Source := ConfigSourceAdapterOption |> <| ly_Executable := Some (rt_executable r) |>
          <| ly_Secrets := secrets |>;
     zero <| ly_Source := ConfigSourceCallerRequest |> <| ly_Metadata := RedactStringMap (hq_Metadata req) |>
          <| ly_Provider := ptr_if (hq_Provider req) |> <| ly_Model := ptr_if (hq_Model req) |>
          <| ly_WorkDir := ptr_if (hq_WorkDir req) |> <| ly_Permissions := ptr_if (hq_Permissions req) |>
          <| ly_Sandbox := ptr_if (hq_Sandbox req) |>
          <| ly_Timeout := if (hq_Timeout req =? 0)%Z then None else Some (hq_Timeout req) |>].

(** The context of the report, with what the request says filled in. *)
Definition report_context (req : HealthCheckRequest) : RuntimeContext :=
  hq_Context req
    <| ctx_RuntimeKind ::= fun kind => or_else kind "opencode" |> <| ctx_RuntimeName ::= fun name => or_else name "opencode" |>
    <| ctx_Provider ::= or_else (hq_Provider req) |> <| ctx_Model ::= or_else (hq_Model req) |>.

Definition default_checks : list HealthCheckID :=
  [HealthCheckRuntimeAvailable; HealthCheckStructuredOutput; HealthCheckWorkDir; HealthCheckConfig;
   HealthCheckRuntimePaths; HealthCheckProvider; HealthCheckAuthentication; HealthCheckModel].

(** The loop over the checks; a context that is done ends it with a result of its own. *)
Fixpoint run_checks (r : Runtime) (req : HealthCheckRequest) (checks : list HealthCheckID) (results : list HealthResult)
    : St nat (list HealthResult) :=
  match checks with
  | [] => ret results
  | check :: checks =>
      let* done := ask (he_ctx env) in
      match done with
      | Some cause =>
          let err := NewError ErrorTimeout "opencode health" "OpenCode health check timed out" (Some cause) [] in
          let* result := failed_check check HealthTransientFail HealthSeverityError err None in
          ret (results ++ [result])%list
      | None => let* result := runHealthCheck r req check in run_checks r req checks (results ++ [result])%list
      end
  end.

(** The method [CheckHealth]; the error is that of the temporary directory. *)
Definition CheckHealth (r : Runtime) (req : HealthCheckRequest) : St nat (HealthReport * option SDKError) :=
  let ctx := report_context req in
  let req := req <| hq_Context := ctx |> in
  let config := effectiveConfig r req in
  let* generated := health_now in
  let environment := strings.Join (RedactEnv (rt_env r)) (String "010" "") in
  let report : HealthReport := zero <| hp_Context := ctx |> <| hp_EffectiveConfig := config |>
    <| hp_GeneratedAt := generated |>
    <| hp_NativeMetadata := Some {["env" := any_at (RedactMetadata (Some {["values" := AString environment]})) "values"]} |> in
  match createProcessTempDir (he_temp env) (str_at (hq_Metadata req) MetadataTempRoot) with
  | inl err => ret (report, Some err)
  | inr tempDir =>
      match ValidateEffectiveConfig config with
      | Some err =>
          let* result := failed_check HealthCheckConfig HealthUnrecoverable HealthSeverityError err None in
          ret (AggregateHealth (report <| hp_Results := [result] |>), None)
      | None =>
          let probeRuntime := r <| rt_env ::= temp_env tempDir |> in
          let checks := match hq_Checks req with [] => default_checks | checks => checks end in
          let* results := run_checks probeRuntime req checks [] in
          ret (AggregateHealth (report <| hp_Results := results |>), None)
      end
  end.

(** The method [requiredPreflight] of opencode/runtime.go. *)
Definition preflight_request (req : RunRequest) : HealthCheckRequest :=
  zero <| hq_Context := zero <| ctx_RuntimeKind := "opencode" |> <| ctx_RuntimeName := "opencode" |>
                             <| ctx_Provider := req_Provider req |> <| ctx_Model := req_Model req |> |>
       <| hq_WorkDir := req_WorkDir req |> <| hq_Provider := req_Provider req |> <| hq_Model := req_Model req |>
       <| hq_Permissions := req_Permissions req |> <| hq_Sandbox := req_Sandbox req |>
       <| hq_Timeout := req_Timeout req |> <| hq_Metadata := req_Metadata req |>
       <| hq_Checks := default [] (req_RequireHealth req) |>
       <| hq_RequiredChecks := default [] (req_RequireHealth req) |>.

Definition requiredPreflight (r : Runtime) (req : RunRequest) (order : list HealthCheckID) : St nat (option SDKError) :=
  match default [] (req_RequireHealth req) with
  | [] => ret None
  | required =>
      let* '(report, err) := CheckHealth r (preflight_request req) in
      ret (match err with Some err => Some err | None => RequiredHealthFailure report required order end)
  end.
End Checks.

(** ** The search finds what the whole output contains *)
Section Search.
Context (needles : list string).

Lemma maxNeedle_bound needle : needle ∈ lower_needles needles -> String.length needle <= maxNeedle needles.
Proof.
  unfold maxNeedle. generalize (lower_needles needles) as l.
  assert (forall l longest, longest <= foldl (fun n s => Nat.max n (String.length s)) longest l) as Hmono.
  { intros l. induction l as [|s l IH]; intros longest; cbn [foldl]; [lia|]. specialize (IH (Nat.max longest (String.length s))). lia. }
  intros l. generalize 0 as longest. induction l as [|s l IH]; intros longest [->|H]%elem_of_cons || intros ? []%elem_of_nil.
  - cbn [foldl]. specialize (Hmono l (Nat.max longest (String.length s))). lia.
  - cbn [foldl]. by apply IH.
Qed.

(** The needles found so far are those that the text contains. *)
Definition matches_of (text : string) (matches : gmap string bool) : Prop :=
  forall needle, matches !! needle =
    if bool_decide (needle ∈ lower_needles needles) && strings.Contains text needle then Some true else None.

(** The tail is long enough for a needle to begin in it. *)
Definition tail_of (text tail : string) : Prop :=
  exists dropped, text = dropped +:+ tail /\ (dropped = "" \/ maxNeedle needles <= S (String.length tail)).

Lemma window_tail_of text window : tail_of text window -> tail_of text (window_tail (maxNeedle needles) window).
Proof.
  intros (dropped & -> & Hd). unfold window_tail.
  destruct (Nat.ltb_spec 1 (maxNeedle needles)); cbn [andb]; [|by exists dropped].
  destruct (Nat.leb_spec (maxNeedle needles - 1) (String.length window)); [|by exists dropped].
  set (n := String.length window - (maxNeedle needles - 1)).
  exists (dropped +:+ strings.take n window). split; [by rewrite str_app_assoc, take_drop|]. right.
  rewrite length_drop. unfold n. lia.
Qed.

(** A needle in the longer text is in the text read before or in the window. *)
Lemma Contains_window text tail chunk needle : tail_of text tail -> needle ∈ lower_needles needles ->
  strings.Contains (text +:+ chunk) needle = strings.Contains text needle || strings.Contains (tail +:+ chunk) needle.
Proof.
  intros (dropped & -> & Hd) Hin. apply eq_true_iff_eq. rewrite orb_true_iff, !Contains_spec. split.
  - intros (a & b & E). rewrite str_app_assoc in E.
    destruct (Nat.le_gt_cases (String.length dropped) (String.length a)) as [Hl|Hl].
    + right. destruct (app_eq_app_longer a dropped (needle +:+ b) (tail +:+ chunk)) as (k & _ & ->); [done|done|]. by exists k, b.
    + left. destruct Hd as [->|Hd]; [cbn in Hl; lia|]. pose proof (maxNeedle_bound needle Hin) as Hn.
      rewrite <-!str_app_assoc in E.
      destruct (app_eq_app_longer (dropped +:+ tail) (a +:+ needle) chunk b) as (k & -> & _);
        [done|rewrite !str_length_app; lia|]. exists a, k. by rewrite str_app_assoc.
  - intros [(a & b & E)|(a & b & E)].
    + exists a, (b +:+ chunk). rewrite E, !str_app_assoc. done.
    + exists (dropped +:+ a), b. rewrite str_app_assoc, E, str_app_assoc. done.
Qed.

Lemma note_matches_lookup window matches needle :
  note_matches needles window matches !! needle =
  if bool_decide (needle ∈ lower_needles needles) && strings.Contains window needle then Some true else matches !! needle.
Proof.
  unfold note_matches. generalize (lower_needles needles) as l. intros l. revert matches.
  induction l as [|s l IH]; intros matches; cbn [foldl]; [by rewrite bool_decide_eq_false_2 by set_solver|].
  rewrite IH. destruct (decide (needle = s)) as [->|Hne].
  - rewrite (bool_decide_eq_true_2 (s ∈ s :: l)) by set_solver. cbn [andb].
    destruct (strings.Contains window s); [|by rewrite andb_false_r]. rewrite lookup_insert_eq. by destruct (_ && _).
  - rewrite (bool_decide_ext (needle ∈ s :: l) (needle ∈ l)) by set_solver.
    destruct (_ && _); [done|]. destruct (strings.Contains window s); [by rewrite lookup_insert_ne|done].
Qed.

Lemma scan_chunk_spec text state chunk : tail_of text state.1 -> matches_of text state.2 ->
  let state' := scan_chunk needles state chunk in
  tail_of (text +:+ strings.ToLower chunk) state'.1 /\ matches_of (text +:+ strings.ToLower chunk) state'.2.
Proof.
  intros Ht Hm. cbv zeta. unfold scan_chunk. destruct (String.eqb_spec chunk "") as [->|_].
  { cbn [strings.ToLower]. by rewrite str_app_nil_r. }
  cbn [fst snd]. split.
  - apply window_tail_of. destruct Ht as (dropped & -> & Hd). exists dropped. rewrite str_app_assoc. split; [done|].
    destruct Hd as [|Hd]; [by left|right]. rewrite str_length_app. lia.
  - intros needle. rewrite note_matches_lookup, Hm. destruct (bool_decide (_ ∈ _)) eqn:E; cbn [andb]; [|done].
    apply bool_decide_eq_true in E. rewrite (Contains_window text state.1) by done.
    destruct (strings.Contains text needle), (strings.Contains (_ +:+ _) needle); done.
Qed.
End Search.

(** C28: what a probe is found to print does not depend on how its output arrives.
    However the reads split the output, a needle is noted exactly when it is one
    of those asked for and the whole output contains it, both in lower case; the
    sample is the beginning of the output, up to the limit. *)
Theorem readProbeOutput_spec chunks limit needles :
  let output := foldl (fun text chunk => text +:+ chunk) "" chunks in
  let read := readProbeOutput chunks limit needles in
  po_Sample read = strings.take (Z.to_nat limit) output /\
  forall needle, po_Matches read !! needle =
    if one_of needle (map strings.ToLower needles) && negb (needle =s "") &&
       strings.Contains (strings.ToLower output) needle then Some true else None.
Proof.
  cbv zeta. unfold readProbeOutput. cbn [scanProbeOutput po_Sample po_Matches]. split.
  - rewrite write_all_prefix. destruct (Z.leb_spec limit 0); [|done]. by replace (Z.to_nat limit) with 0 by lia.
  - assert (forall text state, tail_of needles (strings.ToLower text) state.1 ->
      matches_of needles (strings.ToLower text) state.2 ->
      matches_of needles (strings.ToLower (foldl (fun text chunk => text +:+ chunk) text chunks))
        (foldl (scan_chunk needles) state chunks).2) as H.
    { induction chunks as [|chunk chunks IH]; intros text state Ht Hm; cbn [foldl]; [done|].
      destruct (scan_chunk_spec needles _ state chunk Ht Hm) as [Ht' Hm']. rewrite <-ToLower_app in Ht', Hm'. by apply IH. }
    intros needle. rewrite (H "" ("", ∅)); [|exists ""; by auto|intros n; cbn [snd]; rewrite lookup_empty].
    + replace (bool_decide (needle ∈ lower_needles needles))
        with (one_of needle (map strings.ToLower needles) && negb (needle =s "")); [done|].
      apply eq_true_iff_eq. rewrite bool_decide_eq_true, andb_true_iff, one_of_spec, negb_true_iff, String.eqb_neq.
      unfold lower_needles. rewrite list_elem_of_filter. tauto.
    + destruct (bool_decide _) eqn:E; [|done]. apply bool_decide_eq_true in E.
      unfold lower_needles in E. apply list_elem_of_filter in E as [Hn _]. by destruct n.
Qed.

(** ** Reports *)
Section Reports.
Context (env : HealthEnv) (r : Runtime) (req : HealthCheckRequest).

Definition of_check (check : HealthCheckID) (result : HealthResult) : Prop := hr_Check result = check.

Lemma healthResult_check check status severity user debug native err :
  answers (of_check check) (healthResult env check status severity user debug native err).
Proof. unfold healthResult. answer ltac:(done). Qed.

Lemma probeCommand_check check workDir args needles category detail :
  answers (of_check check) (probeCommand env r check workDir args needles category detail).
Proof. unfold probeCommand, failed_check. cbv zeta. answer ltac:(done); apply healthResult_check. Qed.

Lemma runHealthCheck_check check : answers (of_check check) (runHealthCheck env r req check).
Proof.
  unfold runHealthCheck, check_structured_output, check_workdir, check_provider, check_model, unmet, skipped, failed_check.
  cbv zeta. repeat first [ apply probeCommand_check | apply healthResult_check | apply answers_ret; assumption
    | eapply answers_bind_of; [apply probeCommand_check|intros ? ?]
    | match goal with |- answers _ (if ?b then _ else _) => destruct b
      | |- answers _ (match ?b with _ => _ end) => destruct b end ].
Qed.

(** Why the loop stopped before the last check. *)
Definition timed_out (results : list HealthResult) : Prop :=
  exists result, last results = Some result /\ hr_Status result = HealthTransientFail /\
    (err_Category <$> hr_Err result) = Some ErrorTimeout.

Lemma run_checks_results checks results :
  answers (fun results' => exists more, results' = (results ++ more)%list /\ 
      (map hr_Check more = checks \/ map hr_Check more `prefix_of` checks /\ timed_out more))
    (run_checks env r req checks results).
Proof.
  revert results. induction checks as [|check checks IH]; intros results; cbn [run_checks].
  - apply answers_ret. exists []. rewrite app_nil_r. auto.
  - apply answers_bind. intros [cause|].
    + intros t. rewrite bind_run. unfold failed_check, healthResult. rewrite bind_run. cbn [ret fst snd]. eexists [_].
      split; [reflexivity|]. right. split; [by exists checks|]. by eexists.
    + eapply answers_bind_of; [apply runHealthCheck_check|]. intros result Hr.
      intros t. destruct (IH (results ++ [result])%list t) as (more & -> & H). exists (result :: more).
      rewrite <-app_assoc. split; [done|]. cbn [map]. rewrite Hr. destruct H as [->|[Hp (last_ & Hl & Hs)]]; [by left|right].
      split; [by apply prefix_cons|]. exists last_. split; [|done]. by destruct more.
Qed.
End Reports.

Section Requested.
Context (env : HealthEnv) (r : Runtime) (req : HealthCheckRequest).

(** What the report is, by what became of the temporary directory and of the
    configuration. *)
Definition reported (temp : SDKError + string) (invalid : option SDKError) (requested : list HealthCheckID)
    (report : HealthReport) (err : option SDKError) : Prop :=
  match temp, invalid with
  | inl e, _ => err = Some e /\ hp_Results report = []
  | inr _, Some e => err = None /\ map hr_Status (hp_Results report) = [HealthUnrecoverable] /\
      map hr_Check (hp_Results report) = [HealthCheckConfig] /\ map hr_Err (hp_Results report) = [Some e]
  | inr _, None => err = None /\ hp_OverallStatus report = OverallHealthStatus (hp_Results report) /\
      (map hr_Check (hp_Results report) = requested \/
       map hr_Check (hp_Results report) `prefix_of` requested /\ timed_out (hp_Results report))
  end.

Definition requested : list HealthCheckID := match hq_Checks req with [] => default_checks | checks => checks end.

(** What a health report contains. A temporary directory that cannot be made is
    an error and leaves the report without results; a configuration that is
    invalid gives one unrecoverable result of the config check and probes
    nothing; otherwise the requested checks, or the default ones, are answered
    one by one in order, and only a context that is done cuts them short, with a
    transient result of the timeout category at the end. The overall status is
    that of the results. *)
Lemma CheckHealth_spec t :
  let '(report, err) := (CheckHealth env r req t).1 in
  hp_EffectiveConfig report = effectiveConfig r req /\
  reported (createProcessTempDir (he_temp env) (str_at (hq_Metadata req) MetadataTempRoot))
    (ValidateEffectiveConfig (effectiveConfig r req)) requested report err.
Proof.
  unfold CheckHealth. cbv zeta. rewrite bind_run.
  change (effectiveConfig r (req <| hq_Context := report_context req |>)) with (effectiveConfig r req).
  generalize (snd (health_now env t)) as t1. generalize (fst (health_now env t)) as generated. intros generated t1.
  destruct (createProcessTempDir _ _) as [e|dir]; [done|].
  destruct (ValidateEffectiveConfig _) as [e|].
  - rewrite bind_run. unfold failed_check, healthResult. rewrite bind_run. done.
  - rewrite bind_run. change (hq_Checks (req <| hq_Context := _ |>)) with (hq_Checks req). fold requested.
    destruct (run_checks_results env (r <| rt_env ::= temp_env dir |>) (req <| hq_Context := report_context req |>)
                requested [] t1) as (more & E & H). cbn [app] in E.
    split; [done|]. split; [done|]. split; [done|].
    change (hp_Results (AggregateHealth (?p <| hp_Results := ?l |>))) with l. by rewrite E.
Qed.
End Requested.

Lemma preflight_decision temp invalid report err required order :
  required <> [] -> (forall c, c ∈ order <-> c ∈ required) -> reported temp invalid required report err ->
  match err with Some err => Some err | None => RequiredHealthFailure report required order end = None <->
  err = None /\ map hr_Check (hp_Results report) = required /\ Forall result_ok (hp_Results report).
Proof.
  intros Hne Horder H. destruct err as [e|]; [split; [done|by intros []]|].
  rewrite RequiredHealthFailure_passes by done. split.
  - intros [Hok Hall]. split; [done|]. rewrite Forall_forall.
    destruct temp as [e|dir]; [by destruct H|]. destruct invalid as [e|].
    + exfalso. destruct H as (_ & Hbad & Hcheck & _). destruct required as [|c cs]; [done|]. destruct (Hall c) as (result & Hin & Hc); [set_solver|].
      destruct (hp_Results report) as [|x [|]] eqn:El; try discriminate Hcheck. apply list_elem_of_singleton in Hin as ->.
      injection Hbad as Hbad. destruct (Hok x) as [E|E]; [set_solver|rewrite Hc; set_solver| |]; by rewrite E in Hbad.
    + destruct H as (_ & _ & [Hall'|[[rest Hp] (x & Hx & Hs & _)]]).
      * split; [done|]. intros x Hx. apply Hok; [done|]. rewrite <-Hall'. by apply list_elem_of_fmap_2.
      * exfalso. assert (x ∈ hp_Results report) as Hin by (apply last_Some in Hx as [l ->]; set_solver).
        destruct (Hok x Hin) as [E|E]; [|by rewrite E in Hs|by rewrite E in Hs].
        rewrite Hp. apply elem_of_app. left. by apply list_elem_of_fmap_2.
  - intros (_ & Hmap & Hok). rewrite Forall_forall in Hok. split; [intros result Hr _; by apply Hok|].
    intros check Hc. rewrite <-Hmap in Hc. apply list_elem_of_fmap in Hc as (result & -> & Hr). by exists result.
Qed.

Lemma preflight_checks req : hq_Checks (preflight_request req) = default [] (req_RequireHealth req).
Proof. reflexivity. Qed.

(** The preflight of a run passes exactly when nothing is required, or the
    health report has one result for every required check, in order, and each of
    them is ready or skipped. A report that stopped early, an invalid
    configuration, and a temporary directory that cannot be made never pass. *)
Theorem requiredPreflight_passes env r req order t :
  (forall c, c ∈ order <-> c ∈ default [] (req_RequireHealth req)) ->
  (requiredPreflight env r req order t).1 = None <->
  default [] (req_RequireHealth req) = [] \/
  let '(report, err) := (CheckHealth env r (preflight_request req) t).1 in
  err = None /\ map hr_Check (hp_Results report) = default [] (req_RequireHealth req) /\
  Forall result_ok (hp_Results report).
Proof.
  intros Horder. unfold requiredPreflight. pose proof (CheckHealth_spec env r (preflight_request req) t) as H.
  unfold requested in H. rewrite preflight_checks in H.
  destruct (default [] (req_RequireHealth req)) as [|c cs]; [split; [by left|reflexivity]|]. rewrite bind_run. revert H.
  generalize (CheckHealth env r (preflight_request req) t).
  intros [[report err] t1] [_ H]. cbn [fst snd ret].
  pose proof (preflight_decision _ _ report err (c :: cs) order ltac:(discriminate) Horder H) as Hd.
  split; [intros Hn; right; exact (proj1 Hd Hn)|intros [Hn|Hn]; [discriminate Hn|exact (proj2 Hd Hn)]].
Qed.

Definition healthy_env : HealthEnv :=
  mkHealthEnv Z.of_nat (fun _ => None) (fun _ _ => inr (mkProbe ["open"; "code 1.0"] [] (mkprocessResult 0 None)))
    (fun _ => inr true) (mkTempEnv None (inr "") None).
Definition careful_request : RunRequest :=
  zero <| req_WorkDir := "/work" |> <| req_RequireHealth := Some [HealthCheckRuntimeAvailable; HealthCheckWorkDir] |>.

Lemma requiredPreflight_passes_witness :
  (requiredPreflight healthy_env (NewRuntime []) careful_request [HealthCheckWorkDir; HealthCheckRuntimeAvailable] 0).1 = None.
Proof.
  apply requiredPreflight_passes.
  - intros c. cbn. set_solver.
  - right. vm_compute. repeat split. repeat constructor.
Defined.
