(* ===== verification/OpenCodeRun.v ===== *)
(** * opencode/runtime.go: a run of OpenCode

    The state of a run handle, its events and lifecycle, the loop over the
    native records, the outcome, and [Wait].

    The goroutine of the run shares its state with three others: the caller's
    [Cancel], the one that cleans up when the context ends, and the one that
    watches the logs. They are scheduled by the environment: at every [yield]
    of the run it lists those that take a step, and each step is taken whole. *)
From Stdlib Require Import Ascii Floats.SpecFloat.
From S2P Require Import Prelude GoStd Types Redact Errors Events Permissions Cache Policy Pricing Json GoFmt OpenCodeDecoder OpenCodeProjector OpenCodeRateLimit OpenCodePermissions OpenCodeProcess OpenCodeOptions OpenCodeDB OpenCodeSpawn.
#[local] Open Scope string_scope.

(** What is fixed when the run starts. *)
Record runConfig := mkrunConfig {
  rc_id : RunID;
  rc_req : RunRequest;
  rc_context : RuntimeContext;
  rc_started : Time;
  rc_tempDir : string;
  rc_logOffsets : gmap string Z;
  rc_hasDB : bool;
  rc_hasRates : bool
}.
#[global] Instance eta_runConfig : Eta runConfig := fun r =>
  mkrunConfig (rc_id r) (rc_req r) (rc_context r) (rc_started r) (rc_tempDir r)
    (rc_logOffsets r) (rc_hasDB r) (rc_hasRates r).

(** The steps of the other goroutines. *)
Inductive interference : Type := CallerCancel | ContextCleanup | LogWatch.

(** What the run does not control. The context is done from some tick on, with
    one error; the channel has room at a tick or not, and [oe_pick] is the
    choice of a [select] with two ready cases. A blocking send waits until it
    can go on; a tick stands for the moment it does. *)
Record runEnv := mkrunEnv {
  oe_now : nat -> Time;
  oe_done : option (nat * error);
  oe_room : nat -> bool;
  oe_pick : nat -> bool;
  oe_stdout : Stdout;
  oe_exit : processResult;
  oe_stderr : string;
  oe_removeAll : string -> option error;
  oe_cancel : cleanupResult;
  oe_db : nat -> DBQuery;
  oe_rates : nat -> error + RateTable;
  oe_logDirs : list string;
  oe_readDir : nat -> string -> list DirEntry;
  oe_clock : nat -> nat -> Time;
  oe_rfc1123 : string -> option Time;
  oe_rfc1123z : string -> option Time;
  oe_json_error : string -> string;
  oe_others : nat -> list interference
}.
#[global] Instance eta_runEnv : Eta runEnv := fun r =>
  mkrunEnv (oe_now r) (oe_done r) (oe_room r) (oe_pick r) (oe_stdout r) (oe_exit r)
    (oe_stderr r) (oe_removeAll r) (oe_cancel r) (oe_db r) (oe_rates r) (oe_logDirs r)
    (oe_readDir r) (oe_clock r) (oe_rfc1123 r) (oe_rfc1123z r) (oe_json_error r)
    (oe_others r).

(** A counter that was not bumped: the nil map and the empty one read alike. *)
#[global] Instance zero_counts : Zero (gmap string Z) := (∅ : gmap string Z).

(** The state of the handle. Five fields are history: the events delivered on
    the channel with their sequence numbers, the transitions of the lifecycle,
    the number of times the process was cancelled, how many sequence numbers
    were given out, and the tick. *)
Record run := mkrun {
  run_lifecycle : RunStatus;
  run_seq : Z;
  run_sawFinal : bool;
  run_sawIdle : bool;
  run_sawOutput : bool;
  run_sessionID : SessionID;
  run_artifacts : list ArtifactRef;
  run_warnings : list string;
  run_usage : Usage;
  run_rateLimit : option RateLimitInfo;
  run_liveRateLimitKey : string;
  run_permissions : PermissionMetadata;
  run_nativeTypes : gmap string Z;
  run_categories : gmap string Z;
  run_postFinalDecodeErr : string;
  run_finishReason : string;
  run_terminalEvidence : string;
  run_terminalOutput : string;
  run_cleanup : option CleanupMetadata;
  run_cancelled : option error;
  run_finished : Time;
  run_result : option (RunResult * option error);
  run_sent : list (Z * Event);
  run_moves : list (RunStatus * RunStatus);
  run_cancels : nat;
  run_reserved : nat;
  run_tick : nat
}.
#[global] Instance eta_run : Eta run := fun r =>
  mkrun (run_lifecycle r) (run_seq r) (run_sawFinal r) (run_sawIdle r) (run_sawOutput r)
    (run_sessionID r) (run_artifacts r) (run_warnings r) (run_usage r) (run_rateLimit r)
    (run_liveRateLimitKey r) (run_permissions r) (run_nativeTypes r) (run_categories r)
    (run_postFinalDecodeErr r) (run_finishReason r) (run_terminalEvidence r)
    (run_terminalOutput r) (run_cleanup r) (run_cancelled r) (run_finished r)
    (run_result r) (run_sent r) (run_moves r) (run_cancels r) (run_reserved r)
    (run_tick r).
#[global] Instance zero_run : Zero run :=
  mkrun zero zero zero zero zero zero zero zero zero zero zero zero zero zero zero zero
    zero zero zero zero zero zero zero zero zero zero zero.

Section Run.
Context (cfg : runConfig) (env : runEnv).

Definition consult {A} (question : nat -> A) : St run A :=
  fun r => (question (run_tick r), r <| run_tick ::= S |>).

Definition now : St run Time := consult (oe_now env).

(** [r.ctx.Err()]: the error of the context the run was given, or that of its
    own cancellation, whichever came first. *)
Definition ctxErr_at (cancelled : option error) (tick : nat) : option error :=
  match cancelled, oe_done env with
  | Some e, _ => Some e
  | None, Some (from, e) => if (from <=? tick)%nat then Some e else None
  | None, None => None
  end.
Definition ctx_Err : St run (option error) :=
  let* r := get in consult (ctxErr_at (run_cancelled r)).

Definition rateLimitText (tick : nat) (op text : string) (ctx : RuntimeContext) : option rateLimitClassification :=
  classifyRateLimitText (oe_clock env tick) (oe_rfc1123 env) (oe_rfc1123z env) op text ctx.
Definition rateLimitData (tick : nat) (op : string) (data : GoMap any) (ctx : RuntimeContext)
    : option rateLimitClassification :=
  classifyRateLimitData (oe_clock env tick) (oe_rfc1123 env) (oe_rfc1123z env) op data ctx.

(** ** Events *)
Definition nextSequence : St run Z :=
  modify (fun r => r <| run_seq ::= fun n => Int64.wrap (n + 1) |> <| run_reserved ::= S |>) ;;
  let* r := get in ret (run_seq r).

Definition bump (key : string) (counts : gmap string Z) : gmap string Z :=
  <[key := Int64.wrap (default 0%Z (counts !! key) + 1)]> counts.

Definition recordEventStats (event : Event) : St run unit :=
  modify (fun r => r <| run_categories ::= bump (Event_Kind event) |>) ;;
  if ev_Type event =s "" then ret tt
  else modify (fun r => r <| run_nativeTypes ::= bump (ev_Type event) |>).

(** The event goes onto the channel. *)
Definition deliver (seq : Z) (event : Event) : St run unit :=
  modify (fun r => r <| run_sent ::= fun l => (l ++ [(seq, event)])%list |>).

(** Blocks until the channel takes the event or the context is done. *)
Definition sendEvent (seq : Z) (event : Event) : St run bool :=
  let* err := ctx_Err in
  let* room := consult (fun t => oe_room env t && oe_pick env t) in
  if match err with None => true | Some _ => room end
  then deliver seq event ;; ret true else ret false.

(** Never blocks; a send on the closed channel of a finished run is a drop. *)
Definition sendLocalEvent (seq : Z) (event : Event) : St run bool :=
  let* room := consult (oe_room env) in
  if room : bool then deliver seq event ;; ret true else ret false.

(** An event of the run itself: counted when it is delivered. *)
Definition send_counted (seq : Z) (event : Event) : St run unit :=
  let* sent := sendLocalEvent seq event in
  if sent : bool then recordEventStats event else ret tt.

Definition updateSessionID (sessionID : SessionID) : St run bool :=
  let* r := get in
  if (sessionID =s "") || (run_sessionID r =s sessionID) then ret false
  else modify (fun r => r <| run_sessionID := sessionID |>) ;; ret true.

Definition observedSessionID (record : nativeRecord) : SessionID :=
  let data := nr_Data record in
  firstSessionID [nr_SessionID record; stringValue (lookup_any data "sessionID");
                  propertiesStringValue data "sessionID"; stringValue (lookup_any data "session_id")].

Definition transitionLifecycle (to : RunStatus) : St run (option (Z * RunStatus)) :=
  let* r := get in
  let from := run_lifecycle r in
  if (from =s to) || Terminal from then ret None
  else
    let* seq := nextSequence in
    modify (fun r => r <| run_lifecycle := to |> <| run_moves ::= fun l => (l ++ [(from, to)])%list |>) ;;
    ret (Some (seq, from)).

Definition emitLifecycle (to : RunStatus) (reason : string) : St run unit :=
  let* moved := transitionLifecycle to in
  match moved with
  | None => ret tt
  | Some (seq, from) =>
      let* at_ := now in
      send_counted seq (LifecycleEvent (rc_id cfg) (req_SessionID (rc_req cfg)) (req_TurnID (rc_req cfg))
                          (rc_context cfg) seq at_ from to reason)
  end.

Definition emitSession : St run unit :=
  let* seq := nextSequence in
  let* r := get in
  let* at_ := now in
  send_counted seq (SessionEvent (rc_id cfg) (firstSessionID [run_sessionID r; req_SessionID (rc_req cfg)])
                      (req_TurnID (rc_req cfg)) (rc_context cfg) seq at_
                      (sessionMetadata (rc_req cfg) (run_sessionID r))).

(** The identifier of an event that is not of the lifecycle or of the session. *)
Definition event_id (seq : Z) : EventID := rc_id cfg +:+ ":" +:+ itoa seq.

Definition emitPermissionAudit (reason : string) : St run unit :=
  let* r := get in
  let p := run_permissions r in
  match pmd_Audit p, pmd_Support p, req_Permissions (rc_req cfg) with
  | [], [], "" => ret tt
  | _, _, _ =>
      let* seq := nextSequence in
      let* at_ := now in
      send_counted seq (mkEvent (event_id seq) (rc_id cfg) (req_SessionID (rc_req cfg)) at_ "permission.policy"
        (EventPayloadWithKind EventPermission (Some (list_to_map
          [("turn_id", AString (req_TurnID (rc_req cfg))); ("context", AContext (rc_context cfg));
           ("reason", AString reason); ("mode", AString (pmd_Mode p)); ("policy_id", AString (pmd_PolicyID p));
           ("policy", AOpaque "PermissionPolicySummary"); ("support", AOpaque "[]PermissionFeatureSupport");
           ("unsupported", AOpaque "[]PermissionFeatureSupport"); ("audit", AOpaque "[]PermissionAudit")])))
        None)
  end.

(** The key under which a rate limit of the logs is reported once in a row. *)
Definition rate_limit_key (info : RateLimitInfo) : string :=
  strings.Join [rl_Provider info; rl_Model info; rl_UserDetail info; time.Duration_String (rl_RetryAfter info)]
    (String "000" "").

Definition emitObservedRateLimit (classified : option rateLimitClassification) : St run unit :=
  match classified with
  | None => ret tt
  | Some classified =>
      let info := rlc_info classified in
      let* r := get in
      if rate_limit_key info =s run_liveRateLimitKey r then ret tt
      else
        modify (fun r => r <| run_liveRateLimitKey := rate_limit_key info |>) ;;
        let* seq := nextSequence in
        let* at_ := now in
        send_counted seq (mkEvent (event_id seq) (rc_id cfg)
          (firstSessionID [run_sessionID r; req_SessionID (rc_req cfg)]) at_ "opencode.log.rate_limit"
          (EventPayloadWithKind EventRateLimit (Some (list_to_map
            [("turn_id", AString (req_TurnID (rc_req cfg))); ("context", AContext (rc_context cfg));
             ("provider", ANamed "ProviderID" (rl_Provider info)); ("model", ANamed "ModelID" (rl_Model info));
             ("retry_after", AString (time.Duration_String (rl_RetryAfter info)));
             ("reset_at", ATime (rl_ResetAt info)); ("detail", AString (rl_UserDetail info));
             ("source", AString "opencode.log")])))
          None)
  end.

Definition permissionAuditFromEvent (event : Event) : PermissionAudit :=
  let audit : PermissionAudit := zero <| pa_Source := "opencode.event" |>
    <| pa_Enforcement := PermissionEnforcementNative |> <| pa_Reason := "native permission event observed" |> in
  match any_at (ev_Payload event) "native_type" with
  | AString nativeType => audit <| pa_Metadata := Some {[ "native_type" := nativeType ]} |>
  | _ => audit
  end.

(** ** Cleanup and the other goroutines *)

(** The body of [cleanupOnce]. *)
Definition cleanup_metadata (c : cleanupResult) : CleanupMetadata :=
  match cr_Err c with
  | None => mkCleanupMetadata true true false None
  | Some err => mkCleanupMetadata true false true
      (Some (NewError ErrorCleanup "opencode cleanup" "OpenCode cleanup failed" (Some err)
               [WithDebugDetail (error_Error err)]))
  end.

Definition cleanup : St run CleanupMetadata :=
  let* r := get in
  match run_cleanup r with
  | Some result => ret result
  | None =>
      let result := cleanup_metadata (oe_cancel env) in
      modify (fun r => r <| run_cleanup := Some result |> <| run_cancels ::= S |>) ;; ret result
  end.

(** [r.cancel()] *)
Definition cancel_context : St run unit :=
  let* err := ctx_Err in
  match err with
  | Some _ => ret tt
  | None => modify (fun r => r <| run_cancelled := Some ECanceled |>)
  end.

Definition classifyRecentLogFailure : St run (option rateLimitClassification) :=
  consult (fun t => classify_logs (rateLimitText t) (rc_logOffsets cfg) (rc_context cfg)
                      (recentOpenCodeLogs (oe_logDirs env) (oe_readDir env t) (rc_started cfg))).

(** [Cancel] up to its wait, [cancelOnContextDone], and one tick of the ticker of
    [watchLogRateLimits]. *)
Definition interfere (i : interference) : St run unit :=
  match i with
  | CallerCancel =>
      emitLifecycle StatusCancelled "caller_cancel" ;;
      let* _ := cleanup in cancel_context
  | ContextCleanup =>
      let* err := ctx_Err in
      let* r := get in
      match err with
      | None => ret tt
      | Some _ => if Terminal (run_lifecycle r) then ret tt else let* _ := cleanup in ret tt
      end
  | LogWatch =>
      let* err := ctx_Err in
      match err with
      | Some _ => ret tt
      | None => let* classified := classifyRecentLogFailure in emitObservedRateLimit classified
      end
  end.

Definition yield : St run unit :=
  let* steps := consult (oe_others env) in iterM interfere steps.

(** ** The loop over the records *)

(** Usage that says anything: [projected.usage] and the usage of a proof. *)
Definition usage_known (usage : Usage) : bool :=
  let some (v : option Z) := match v with Some _ => true | None => false end in
  match us_Native usage with Some _ => true | None => false end
  || some (us_InputTokens usage) || some (us_OutputTokens usage) || some (us_TotalTokens usage).

(** What a delivered event leaves in the run: evidence of the end, output, usage,
    artifacts, warnings and a rate limit. *)
Definition note_evidence (projected : projectionResult) (kind : EventKind) : St run unit :=
  modify (fun r => if pj_final projected then r <| run_sawFinal := true |> else r) ;;
  modify (fun r => if pj_idle projected then r <| run_sawIdle := true |> else r) ;;
  modify (fun r => if pj_finishReason projected =s "" then r else r <| run_finishReason := pj_finishReason projected |>) ;;
  modify (fun r => if pj_terminalEvidence projected =s "" then r
                   else r <| run_terminalEvidence := pj_terminalEvidence projected |>) ;;
  modify (fun r => if kind =s EventMessage then r <| run_sawOutput := true |> else r).

Definition note_output (event : Event) (kind : EventKind) : St run unit :=
  let output := terminalOutputValue (ev_Payload event) in
  if one_of kind [EventMessage; EventFinalResult] && negb (output =s "")
  then modify (fun r => r <| run_terminalOutput ::= fun current => appendTerminalOutput current output |>)
  else ret tt.

Definition note_values (projected : projectionResult) : St run unit :=
  modify (fun r => if usage_known (pj_usage projected) then r <| run_usage := pj_usage projected |> else r) ;;
  modify (fun r => r <| run_artifacts ::= fun l => (l ++ pj_artifacts projected)%list |>) ;;
  modify (fun r => r <| run_warnings ::= fun l => (l ++ pj_warnings projected)%list |>) ;;
  match pj_rateLimit projected with
  | Some info => modify (fun r => r <| run_rateLimit := Some info |>)
  | None => ret tt
  end.

(** The event as it is sent: the session of the request stands in for none. *)
Definition with_session (event : Event) : Event :=
  if ev_SessionID event =s "" then event <| ev_SessionID := req_SessionID (rc_req cfg) |> else event.

(** The callback of [scanNativeRecords]. *)
Definition on_record (record : nativeRecord) : St run (option streamError) :=
  yield ;;
  let* changed := updateSessionID (observedSessionID record) in
  (if changed : bool then emitSession else ret tt) ;;
  let* seq := nextSequence in
  yield ;;
  let* at_ := now in
  let* projected := consult (fun t => projectNative (rateLimitData t)
    (mkprojectionInput (rc_id cfg) (req_TurnID (rc_req cfg)) (rc_context cfg) seq at_ record)) in
  let event := with_session (pj_event projected) in
  let kind := Event_Kind event in
  (if kind =s EventPermission
   then modify (fun r => r <| run_permissions ::= fun p => p <| pmd_Audit ::= fun l =>
                                (l ++ [permissionAuditFromEvent event])%list |> |>)
   else ret tt) ;;
  recordEventStats event ;;
  yield ;;
  let* sent := sendEvent seq event in
  if negb sent then let* err := ctx_Err in ret (StreamContext <$> err)
  else
    note_evidence projected kind ;;
    note_output event kind ;;
    note_values projected ;;
    ret (StreamSDK <$> pj_fatal projected).

(** ** The outcome *)
Definition add_warning (warning : string) : St run unit :=
  modify (fun r => r <| run_warnings ::= fun l => (l ++ [warning])%list |>).

Definition postFinalDecodeWarning (r : run) (err : option streamError) : string :=
  match err with
  | None => ""
  | Some err =>
      if negb (run_sawFinal r) then ""
      else match err with
           | StreamDecode d =>
               "OpenCode emitted malformed structured output after a final result; ignoring post-final decode error at line "
               +:+ itoa (de_line d) +:+ ": " +:+ cause_text (oe_json_error env) d
           | _ =>
               match ErrorAs (stream_error (oe_json_error env) err) with
               | Some _ => ""
               | None => "OpenCode returned an error after a final result; ignoring post-final error: "
                         +:+ error_Error (stream_error (oe_json_error env) err)
               end
           end
  end.

Definition reconcileFinalState : St run dbReconcileProof :=
  let* r := get in
  if ((req_SessionID (rc_req cfg) =s "") && (run_sessionID r =s "")) || negb (rc_hasDB cfg) then ret zero
  else consult (fun t => reconcileDBResponse
         (oe_db env t (firstSessionID [run_sessionID r; req_SessionID (rc_req cfg)]) (rc_started cfg))).

Definition priceFinalUsage : St run (option CostEstimate * CostSource) :=
  let* r := get in
  if negb (rc_hasRates cfg) || negb (usageHasTokens (run_usage r)) then ret (None, "")
  else
    let* rates := consult (oe_rates env) in
    ret (match rates with
         | inl _ => (None, CostSourceUnpriced)
         | inr table =>
             let priced := PriceUsage table (ctx_Model (rc_context cfg)) (run_usage r) in
             if pu_Source priced =s CostSourceModelPriced
             then (Some (mkCostEstimate (pu_Amount priced) (pu_Currency priced) true), CostSourceModelPriced)
             else (None, CostSourceUnpriced)
         end).

(** The error of a context that is done: a rate limit found in the logs explains
    a deadline. *)
Definition context_failure (err : error) : St run SDKError :=
  if errors_Is is_DeadlineExceeded err then
    let* classified := classifyRecentLogFailure in
    match classified with
    | Some classified =>
        modify (fun r => r <| run_rateLimit := Some (rlc_info classified) |>) ;; ret (rlc_err classified)
    | None => ret (classifyContextError err "opencode run")
    end
  else ret (classifyContextError err "opencode run").

Definition Outcome : Type := RunStatus * option SDKError.
Definition completed : Outcome := (StatusCompleted, None).
Definition failed (err : SDKError) : Outcome := (StatusFailed, Some err).
Definition interrupted (err : SDKError) : Outcome :=
  ((if err_Category err =s ErrorCancellation then StatusCancelled else StatusFailed), Some err).

Definition clean_exit (p : processResult) : bool :=
  match pr_Err p with None => (pr_ExitCode p =? 0)%Z | Some _ => false end.

Definition exit_error : St run SDKError :=
  consult (fun t => classifyExitError (rateLimitText t) (oe_exit env) (oe_stderr env)).

(** A clean exit without a final record or the idle status. *)
Definition unproven_outcome : St run Outcome :=
  let* r := get in
  if run_sawOutput r then
    add_warning ("OpenCode finished without a final structured result; treating assistant output on clean exit as "
                 +:+ "completed") ;; ret completed
  else
    let* proof := reconcileFinalState in
    match dp_err proof with
    | Some err => ret (failed err)
    | None =>
        if dp_completed proof then
          add_warning ("OpenCode finished without a final structured result; recovered terminal finish from durable "
                       +:+ "DB state") ;;
          modify (fun r => if usage_known (dp_usage proof) then r <| run_usage := dp_usage proof |> else r) ;;
          ret completed
        else ret (failed (NewError ErrorRuntimeExit "opencode run" "OpenCode finished without a final structured result"
                            None [WithDebugDetail (debugDetail (oe_stderr env))]))
    end.

(** The outcome once the stream was read to its end and the context is live. *)
Definition exit_outcome : St run Outcome :=
  let* r := get in
  if run_sawFinal r then
    if clean_exit (oe_exit env) then ret completed
    else let* err := exit_error in
         ret (if err_Category err =s ErrorRuntimeExit then completed else failed err)
  else if negb (clean_exit (oe_exit env)) then let* err := exit_error in ret (failed err)
  else if run_sawIdle r then ret completed
  else unproven_outcome.

(** The first part of [finalResult]: status and error. *)
Definition decide_outcome (decodeErr : option streamError) : St run Outcome :=
  match decodeErr with
  | Some e =>
      let err := stream_error (oe_json_error env) e in
      if errors_Is is_Canceled err || errors_Is is_DeadlineExceeded err then
        let* sdkErr := context_failure err in ret (interrupted sdkErr)
      else ret (failed (match ErrorAs err with Some already => already | None => classifyDecodeError (oe_json_error env) e end))
  | None =>
      let* err := ctx_Err in
      match err with
      | Some err => let* sdkErr := context_failure err in ret (interrupted sdkErr)
      | None => exit_outcome
      end
  end.

(** The rate limit of the native metadata: the one observed, or what standard
    error tells of an error of that category. *)
Definition rate_limit_metadata (sdkErr : option SDKError) : St run (option RateLimitInfo) :=
  let* r := get in
  match run_rateLimit r, sdkErr with
  | Some info, _ => ret (Some info)
  | None, Some err =>
      if err_Category err =s ErrorRateLimit then
        consult (fun t => rlc_info <$> rateLimitText t "opencode run" (oe_stderr env) (rc_context cfg))
      else ret None
  | None, None => ret None
  end.

Definition event_stats (r : run) : gmap string any :=
  list_to_map [("event_count", AInt64 (run_seq r)); ("event_categories", AIntMap (run_categories r));
               ("native_event_types", AIntMap (run_nativeTypes r));
               ("native_extension_count", AInt (default 0%Z (run_categories r !! EventNativeExtension)))].

Definition cleanup_warning : string :=
  "OpenCode cleanup failed after run outcome was determined; preserving primary run outcome".

(** The native metadata of the result. *)
Definition native_metadata (r : run) (rateLimit : option RateLimitInfo) (cleanup : CleanupMetadata) : gmap string any :=
  let m := <["stderr" := AString (oe_stderr env)]> (<["exit_code" := AInt (pr_ExitCode (oe_exit env))]> (event_stats r)) in
  let m := put_if (negb (run_postFinalDecodeErr r =s "")) "post_final_decode_warning" (AString (run_postFinalDecodeErr r)) m in
  let m := put_if (negb (run_finishReason r =s "")) "finish_reason" (AString (run_finishReason r)) m in
  let m := put_if (negb (run_terminalEvidence r =s "")) "native_terminal_evidence" (AString (run_terminalEvidence r)) m in
  let m := match rateLimit with Some info => <["rate_limit_info" := ARateLimitInfoPtr (Some info)]> m | None => m end in
  match cl_Error cleanup with Some _ => <["cleanup_warning" := AString cleanup_warning]> m | None => m end.

(** The result from the state of the run, once everything is known. *)
Definition result_of (r : run) (outcome : Outcome) (cleanup : CleanupMetadata) (rateLimit : option RateLimitInfo)
    (cost : option CostEstimate * CostSource) : RunResult :=
  let '(status, sdkErr) := outcome in
  let errors := match sdkErr with Some e => [e] | None => [] end in
  let errors := match cl_Error cleanup with Some e => (errors ++ [e])%list | None => errors end in
  let metadata : RunMetadata := zero
    <| md_Context := rc_context cfg |> <| md_Status := status |> <| md_StartedAt := rc_started cfg |>
    <| md_FinishedAt := run_finished r |> <| md_Duration := time.Sub (run_finished r) (rc_started cfg) |>
    <| md_Session := sessionMetadata (rc_req cfg) (run_sessionID r) |> <| md_Permissions := run_permissions r |>
    <| md_Cleanup := cleanup |> <| md_Artifacts := run_artifacts r |> <| md_Warnings := run_warnings r |>
    <| md_Usage := run_usage r |> <| md_PromptCache := openCodePromptCacheMetadata (rc_req cfg) |>
    <| md_NativeMetadata := Some (native_metadata r rateLimit cleanup) |>
    <| md_EstimatedCost := fst cost |> <| md_CostSource := snd cost |> <| md_Errors := errors |> in
  mkRunResult (rc_id cfg) (firstSessionID [run_sessionID r; req_SessionID (rc_req cfg)]) (req_TurnID (rc_req cfg))
    status (run_terminalOutput r) metadata (run_artifacts r) (run_warnings r) (run_usage r) (rc_started cfg)
    (run_finished r) sdkErr.

(** The database enriches every outcome. *)
Definition enrich : St run dbReconcileProof :=
  let* proof := reconcileFinalState in
  modify (fun r => r <| run_usage ::= fun usage => mergeUsage usage (dp_usage proof) |>) ;;
  modify (fun r => if dp_terminalOutput proof =s "" then r else r <| run_terminalOutput := dp_terminalOutput proof |>) ;;
  ret proof.

(** The cost the runtime reported itself wins over the estimate. *)
Definition final_cost (proof : dbReconcileProof) : St run (option CostEstimate * CostSource) :=
  match dp_cost proof with
  | Some cost => ret (Some cost, CostSourceProviderReported)
  | None => priceFinalUsage
  end.

Definition finalResult (decodeErr : option streamError) (cleanup : CleanupMetadata) : St run (RunResult * option error) :=
  let* outcome := decide_outcome decodeErr in
  let* proof := enrich in
  let* cost := final_cost proof in
  let* rateLimit := rate_limit_metadata (snd outcome) in
  (match cl_Error cleanup with Some _ => add_warning cleanup_warning | None => ret tt end) ;;
  let* r := get in
  let result := result_of r outcome cleanup rateLimit cost in
  ret (result, ESDK <$> snd outcome).

(** [refreshResultEventStats]: the counts after the last event. *)
Definition refreshResultEventStats (r : run) (result : RunResult) : RunResult :=
  result <| res_Metadata ::= fun md => md <| md_NativeMetadata ::= fun native =>
    Some (event_stats r ∪ default ∅ native) |> |>.

(** The part of [run] after the stream. *)
Definition finish_run (decodeErr : option streamError) : St run unit :=
  let* r := get in
  let warning := postFinalDecodeWarning r decodeErr in
  let ignored := negb (warning =s "") in
  (if ignored then add_warning warning ;; modify (fun r => r <| run_postFinalDecodeErr := warning |>) else ret tt) ;;
  yield ;;
  (match removeProcessTempDir (oe_removeAll env) (rc_tempDir cfg) with
   | Some err => add_warning ("remove OpenCode process temp directory: " +:+ error_Error err)
   | None => ret tt
   end) ;;
  let* cleaned := cleanup in
  yield ;;
  let* finished := now in
  modify (fun r => r <| run_finished := finished |>) ;;
  let* answer := finalResult (if ignored then None else decodeErr) cleaned in
  yield ;;
  emitLifecycle (res_Status (fst answer)) (lifecycleReason (res_Status (fst answer))) ;;
  yield ;;
  modify (fun r => r <| run_result := Some (refreshResultEventStats r (fst answer), snd answer) |>).

(** The method [run]. *)
Definition run_run : St run unit :=
  let* decodeErr := scanNativeRecords ctx_Err on_record (oe_stdout env) in
  finish_run decodeErr.

(** [Wait] on the run, with what its own context says if the run is not done. *)
Definition run_Wait (r : run) (waitCtx : option error) : RunResult * option error :=
  match run_result r, waitCtx with
  | Some answer, _ => answer
  | None, Some err => (zero, Some (ESDK (classifyContextError err "opencode wait")))
  | None, None => (zero, None)
  end.

(** The handle [StartRun] makes, and as it is when the goroutines start: the
    permissions were reported and the process was started. *)
Definition new_handle (permissions : PermissionMetadata) : run :=
  zero <| run_lifecycle := StatusStarting |> <| run_permissions := permissions |>.

Definition started_handle (permissions : PermissionMetadata) : run :=
  snd ((emitPermissionAudit "policy_initialized" ;; emitLifecycle StatusRunning "process_started")
         (new_handle permissions)).

(** The handle after its run. *)
Definition finished_handle (permissions : PermissionMetadata) : run := snd (run_run (started_handle permissions)).
End Run.
