(* ===== verification/OpenCodeStart.v ===== *)
(** * opencode/runtime.go: StartRun

    The checks in front of a run, in their order, the process it starts, and the
    handle it leaves behind. The run of the handle is that of OpenCodeRun. *)
From Stdlib Require Import Ascii.
From S2P Require Import Prelude GoStd Types Errors Events Cache Health OpenCodePermissions OpenCodeProcess OpenCodeOptions OpenCodeSpawn OpenCodeHealth OpenCodeRun.
#[local] Open Scope string_scope.

(** What [StartRun] finds: the answers to the preflight, the file system, the
    counter of runs, the clock, the log files, and the process runner, which
    starts a process or fails. *)
Record StartEnv := mkStartEnv {
  se_health : HealthEnv;
  se_order : list HealthCheckID;
  se_temp : TempEnv;
  se_counter : Z;
  se_now : Time;
  se_logDirs : list string;
  se_readDir : string -> list DirEntry;
  se_start : processSpec -> option error
}.

(** How it ends: an error, the panic of mergeEnv or withSnapshotConfig, or a
    handle, given by what is fixed in it and by its permissions. *)
Inductive StartResult : Type :=
| StartError (err : SDKError)
| StartPanic
| Started (cfg : runConfig) (permissions : PermissionMetadata).

(** What it did to the world: the agent processes the runner was asked for, and
    the directories that were made and removed. *)
Record StartTrace := mkStartTrace {
  tr_launched : list processSpec;
  tr_made : list string;
  tr_removed : list string
}.
Definition nothing_done : StartTrace := mkStartTrace [] [] [].

(** The temporary directory of a run, if it has one. *)
Definition directory (tempDir : string) : list string := if strings.TrimSpace tempDir =s "" then [] else [tempDir].

(** The request with the cache directive of its metadata, unless it has one. *)
Definition request_directive (req : RunRequest) : SDKError + RunRequest :=
  if Enabled (req_PromptCache req) then inr req
  else match PromptCacheDirectiveFromMetadata (req_Metadata req) with
       | (_, _, Some err) => inl err
       | (directive, true, None) => inr (req <| req_PromptCache := directive |>)
       | (_, false, None) => inr req
       end.

Definition native_cache_error (req : RunRequest) : option SDKError :=
  if pcd_RequireNative (req_PromptCache req)
  then Some (NewError ErrorConfiguration "prompt cache directive"
               "OpenCode does not expose caller-defined cache routing keys or byte breakpoints" None [])
  else None.

(** The checks on the request alone, in order. *)
Definition request_error (req : RunRequest) : option SDKError :=
  match ValidatePromptCacheDirective (req_Prompt req) (req_PromptCache req), native_cache_error req,
        validateSessionRequest req with
  | Some err, _, _ | None, Some err, _ | None, None, Some err => Some err
  | None, None, None => validateProviderModelRequest req
  end.

Definition run_config (r : Runtime) (se : StartEnv) (req : RunRequest) (tempDir : string) : runConfig :=
  mkrunConfig ("opencode-" +:+ itoa (se_counter se)) req
    (zero <| ctx_RuntimeKind := "opencode" |> <| ctx_RuntimeName := "opencode" |> <| ctx_Provider := req_Provider req |>
          <| ctx_Model := req_Model req |>)
    (se_now se) tempDir
    (openCodeLogOffsets (recentOpenCodeLogs (se_logDirs se) (se_readDir se) zero))
    (match rt_dbQuery r with DBNil => false | _ => true end) (rt_rates r).

(** The process, once the permissions are translated. *)
Definition launch (r : Runtime) (se : StartEnv) (req : RunRequest) (permissions : permissionTranslation)
    : StartResult * StartTrace :=
  match Runtime_processSpec r (se_temp se) req permissions with
  | SpecError err => (StartError err, nothing_done)
  | SpecPanic => (StartPanic, nothing_done)
  | SpecOK spec tempDir =>
      match se_start se spec with
      | Some err => (StartError (classifyStartError err),
                     mkStartTrace [spec] (directory tempDir) (directory tempDir))
      | None => (Started (run_config r se req tempDir) (pt_metadata permissions),
                 mkStartTrace [spec] (directory tempDir) [])
      end
  end.

Definition StartRun (r : Runtime) (se : StartEnv) (req : RunRequest) : StartResult * StartTrace :=
  match request_directive req with
  | inl err => (StartError err, nothing_done)
  | inr req =>
      match request_error req with
      | Some err => (StartError err, nothing_done)
      | None =>
          match (requiredPreflight (se_health se) r req (se_order se) 0).1, translatePermissions req with
          | Some err, _ | None, inl err => (StartError err, nothing_done)
          | None, inr permissions => launch r se req permissions
          end
      end
  end.

(** ** What a run has passed when it starts *)
Lemma request_directive_same req req' : request_directive req = inr req' ->
  req' = req <| req_PromptCache := req_PromptCache req' |>.
Proof.
  unfold request_directive. destruct (Enabled _); [intros [= <-]; by destruct req|].
  destruct (PromptCacheDirectiveFromMetadata _) as [[directive []] []]; try done; intros [= <-]; by destruct req.
Qed.

Lemma request_error_None req : request_error req = None ->
  ValidatePromptCacheDirective (req_Prompt req) (req_PromptCache req) = None /\
  pcd_RequireNative (req_PromptCache req) = false /\
  validateSessionRequest req = None /\ validateProviderModelRequest req = None.
Proof.
  unfold request_error, native_cache_error. destruct (ValidatePromptCacheDirective _ _); [done|].
  destruct (pcd_RequireNative _); [done|]. by destruct (validateSessionRequest req).
Qed.

Lemma Runtime_processSpec_command r fs req permissions spec dir :
  Runtime_processSpec r fs req permissions = SpecOK spec dir ->
  ps_Executable spec = rt_executable r /\ ps_Stdin spec = req_Prompt req /\ ps_Args spec = process_args r req.
Proof.
  unfold Runtime_processSpec. intros (e1 & _ & (e2 & _ & (e3 & _ & H)%with_env_ok)%with_env_ok)%with_env_ok.
  destruct (createProcessTempDir _ _); [done|]. by injection H as <- _.
Qed.

Lemma validateSessionRequest_None req : validateSessionRequest req = None ->
  req_SessionAction req ∈ [SessionActionDefault; SessionActionFresh; SessionActionContinue].
Proof.
  unfold validateSessionRequest. destruct (one_of _ _) eqn:E; [by intros _; apply one_of_spec|].
  by repeat case_match.
Qed.

