(* ===== verification/OpenCodeOutcome.v ===== *)
(** * opencode/runtime.go: the outcome of a run

    [finalResult]: when a run is reported as completed, failed or cancelled, and
    what its result carries. *)
From Stdlib Require Import Ascii.
From S2P Require Import Prelude GoStd Types Errors Events Json OpenCodeDecoder OpenCodeProjector OpenCodeRateLimit OpenCodeProcess OpenCodeDB OpenCodeSpawn OpenCodeRun.
#[local] Open Scope string_scope.

Section Outcome.
Context (cfg : runConfig) (env : runEnv).

(** The outcome is one of three, and an error goes with all but the first. *)
Definition outcome_ok (o : Outcome) : Prop :=
  match o with
  | (status, None) => status = StatusCompleted
  | (status, Some err) =>
      status = StatusFailed \/ status = StatusCancelled /\ err_Category err = ErrorCancellation
  end.

Lemma interrupted_ok err : outcome_ok (interrupted err).
Proof. unfold interrupted. destruct (String.eqb_spec (err_Category err) ErrorCancellation); cbn; auto. Qed.

Lemma decide_outcome_ok decodeErr : answers outcome_ok (decide_outcome cfg env decodeErr).
Proof.
  unfold decide_outcome, exit_outcome, unproven_outcome.
  answer ltac:(first [apply interrupted_ok | by cbn; auto]).
Qed.

(** What proves that a live run whose stream was read to its end has completed. *)
Definition proven (r : run) : Prop :=
  if run_sawFinal r then
    clean_exit (oe_exit env) = true \/ err_Category (exit_error env r).1 = ErrorRuntimeExit
  else clean_exit (oe_exit env) = true /\
    (run_sawIdle r = true \/ run_sawOutput r = true \/
     let proof := (reconcileFinalState cfg env r).1 in dp_err proof = None /\ dp_completed proof = true).

Lemma exit_outcome_completed r : (exit_outcome cfg env r).1.1 = StatusCompleted <-> proven r.
Proof.
  unfold exit_outcome, proven. rewrite bind_run. cbn [get fst snd].
  destruct (run_sawFinal r); [|destruct (clean_exit _) eqn:Ec; cbn [negb]].
  - destruct (clean_exit _); [cbn; tauto|]. rewrite bind_run. cbn [ret fst].
    destruct (String.eqb_spec (err_Category (exit_error env r).1) ErrorRuntimeExit) as [E|E]; cbn; [tauto|].
    split; [done|]. by intros [|].
  - destruct (run_sawIdle r) eqn:Ei; [cbn; tauto|]. unfold unproven_outcome. rewrite bind_run. cbn [get fst snd].
    destruct (run_sawOutput r) eqn:Eo; [rewrite bind_run; cbn; tauto|]. rewrite bind_run. cbv zeta.
    destruct (dp_err _) eqn:Ee; [cbn; split; [done|by intros [_ [|[|[]]]]]|].
    destruct (dp_completed _) eqn:Ed; [rewrite !bind_run; cbn; tauto|].
    cbn. split; [done|by intros [_ [|[|[]]]]].
  - rewrite bind_run. cbn. split; [done|by intros []].
Qed.

(** The error that ended the stream is one of the context. *)
Definition of_context (e : streamError) : bool :=
  let err := stream_error (oe_json_error env) e in errors_Is is_Canceled err || errors_Is is_DeadlineExceeded err.

Lemma decide_outcome_completed decodeErr r :
  (decide_outcome cfg env decodeErr r).1.1 = StatusCompleted <->
  decodeErr = None /\ (ctx_Err env r).1 = None /\ proven (ctx_Err env r).2.
Proof.
  destruct decodeErr as [e|]; cbn [decide_outcome].
  - pose proof (decide_outcome_ok (Some e) r) as Ho. cbn [decide_outcome] in Ho. split; [|by intros []].
    cbv zeta in *. destruct (_ || _).
    + rewrite bind_run. cbn. unfold interrupted. by destruct (_ =s _).
    + done.
  - rewrite bind_run. destruct (ctx_Err env r).1 as [err|].
    + rewrite bind_run. cbn. unfold interrupted. split; [by destruct (_ =s _)|by intros (_ & [=] & _)].
    + rewrite exit_outcome_completed. tauto.
Qed.

Lemma answers_exit_outcome (Q : Outcome -> Prop) :
  Q completed -> (forall err, Q (failed err)) -> answers Q (exit_outcome cfg env).
Proof. intros Hc Hf. unfold exit_outcome, unproven_outcome. answer ltac:(auto). Qed.

Lemma decide_outcome_cancelled decodeErr r :
  (decide_outcome cfg env decodeErr r).1.1 = StatusCancelled ->
  match decodeErr with Some e => of_context e = true | None => (ctx_Err env r).1 <> None end.
Proof.
  destruct decodeErr as [e|]; cbn [decide_outcome].
  - unfold of_context. cbv zeta. by destruct (_ || _).
  - rewrite bind_run. destruct (ctx_Err env r).1 as [err|]; [done|].
    intros H _. revert H. apply (answers_exit_outcome (fun o => o.1 <> StatusCancelled)); done.
Qed.

(** The error an outcome and a cleanup put into the metadata. *)
Definition errors_of (err cleanup : option SDKError) : list SDKError :=
  (match err with Some e => [e] | None => [] end ++ match cleanup with Some e => [e] | None => [] end)%list.

Lemma finalResult_result decodeErr cleanup r :
  let outcome := (decide_outcome cfg env decodeErr r).1 in
  let answered := (finalResult cfg env decodeErr cleanup r).1 in
  let res := answered.1 in
  answered.2 = (ESDK <$> outcome.2) /\ res_Status res = outcome.1 /\ res_Err res = outcome.2 /\
  md_Status (res_Metadata res) = outcome.1 /\ md_Cleanup (res_Metadata res) = cleanup /\
  md_Errors (res_Metadata res) = errors_of outcome.2 (cl_Error cleanup).
Proof.
  cbv zeta. unfold finalResult. rewrite bind_run. destruct (decide_outcome cfg env decodeErr r) as [[status err] r1].
  cbn [fst snd]. rewrite !bind_run. cbn [ret fst snd]. repeat split. cbn. unfold errors_of.
  destruct err, (cl_Error cleanup); done.
Qed.

(** An answer of [Wait] that says one thing: a terminal status, an error unless
    the run has completed, and the same error next to the result. *)
Definition consistent (answer : RunResult * option error) : Prop :=
  res_Status answer.1 ∈ [StatusCompleted; StatusFailed; StatusCancelled] /\
  (res_Err answer.1 = None <-> res_Status answer.1 = StatusCompleted) /\
  answer.2 = (ESDK <$> res_Err answer.1).

Lemma finalResult_consistent decodeErr cleanup r :
  consistent (finalResult cfg env decodeErr cleanup r).1 /\
  md_Cleanup (res_Metadata (finalResult cfg env decodeErr cleanup r).1.1) = cleanup.
Proof.
  pose proof (finalResult_result decodeErr cleanup r) as (Ea & Es & Ee & _ & Ec & _).
  pose proof (decide_outcome_ok decodeErr r) as Ho. unfold consistent. rewrite Ea, Es, Ee. split; [|done].
  destruct (decide_outcome cfg env decodeErr r).1 as [status [e|]]; cbn in Ho |- *.
  - destruct Ho as [->|[-> _]]; (split; [set_solver|done]).
  - subst status. by split; [set_solver|].
Qed.

End Outcome.
