(* ===== verification/OpenCodeRunInvariants.v ===== *)
(** * opencode/runtime.go: what holds of every run

    Whatever the process writes, whatever the other goroutines do between its
    steps and whenever the context ends: the lifecycle, the sequence numbers and
    identifiers of the events, and the cleanup of the process. *)
From Stdlib Require Import Ascii.
From S2P Require Import Prelude GoStd Types Errors Events Json OpenCodeDecoder OpenCodeProjector OpenCodeRateLimit OpenCodeProcess OpenCodeDB OpenCodeSpawn OpenCodeRun OpenCodeOutcome.
#[local] Open Scope string_scope.

(** The identifier of an event carries its number. *)
Definition carries (id : RunID) (seq : Z) (event : Event) : Prop :=
  ev_ID event = id +:+ ":" +:+ itoa seq \/ ev_ID event = id +:+ "-lifecycle-" +:+ itoa64 seq \/
  ev_ID event = id +:+ "-session-" +:+ itoa64 seq.

Lemma itoa64_itoa z : (0 <= z)%Z -> itoa64 z = itoa z.
Proof. intros Hz. unfold itoa64, itoa. destruct (Z.eqb_spec z 0); [done|]. by destruct (Z.ltb_spec z 0); [lia|]. Qed.

Lemma itoa_inj a b : Int64.in_range a -> Int64.in_range b -> itoa a = itoa b -> a = b.
Proof. intros Ha Hb E. apply Atoi_itoa in Ha, Hb. congruence. Qed.

Lemma str_app_inj (s t t' : string) : s +:+ t = s +:+ t' -> t = t'.
Proof. apply str_app_inv_l. Qed.

Lemma carries_inj id a b e f :
  (0 <= a)%Z -> (0 <= b)%Z -> Int64.in_range a -> Int64.in_range b ->
  carries id a e -> carries id b f -> ev_ID e = ev_ID f -> a = b.
Proof.
  unfold carries. intros Pa Pb Ha Hb He Hf E. rewrite (itoa64_itoa a) in He by done. rewrite (itoa64_itoa b) in Hf by done.
  apply (itoa_inj a b Ha Hb).
  destruct He as [He|[He|He]], Hf as [Hf|[Hf|Hf]]; rewrite He, Hf in E; apply str_app_inj in E; try discriminate E;
    by injection E.
Qed.

(** Splits the membership in a list that is spelled out. *)
Ltac elems := repeat match goal with
  | H : _ ∈ _ :: _ |- _ => apply elem_of_cons in H as [->|H]
  | H : _ ∈ [] |- _ => by apply elem_of_nil in H
  end.

Lemma NoDup_map_Forall2 {A B C} (R : A -> B -> Prop) (g : B -> C) ks l :
  Forall2 R ks l -> NoDup ks ->
  (forall k k' s s', k ∈ ks -> k' ∈ ks -> R k s -> R k' s' -> g s = g s' -> k = k') -> NoDup (map g l).
Proof.
  induction 1 as [|k s ks l Hs Hl IH]; cbn [map]; [constructor|]. intros [Hk Hnd]%NoDup_cons Hinj.
  constructor; [|apply IH; [done|]; intros; eapply Hinj; eauto; by apply elem_of_cons; right].
  intros (s' & E & Hin)%list_elem_of_fmap. apply list_elem_of_lookup in Hin as [i Hi].
  destruct (Forall2_lookup_r _ _ _ _ _ Hl Hi) as (k' & Hk'%list_elem_of_lookup_2 & Hs').
  apply Hk. rewrite (Hinj k k' s s'); [done|set_solver|set_solver|done|done|done].
Qed.

Section Invariants.
Context (cfg : runConfig) (env : runEnv).

(** What the invariant is about. *)
Definition view (r : run) :=
  (run_lifecycle r, run_moves r, (run_seq r, run_reserved r), run_sent r, (run_cleanup r, run_cancels r)).

(** The [k]-th sequence number, and whether it was given out. *)
Definition number (k : nat) : Z := Int64.wrap (Z.of_nat k).
Definition given_out (r : run) (k : nat) : Prop := 1 <= k <= run_reserved r.

(** How far the run has come: its process is not started yet, it reads the stream,
    the process is cleaned up, it has ended in a status. *)
Inductive phase : Type := Booting | Streaming | Cleaned | Ended (status : RunStatus).

(** The cleanup ran once or, while the stream is read, not at all; its result is
    remembered. *)
Definition cleaned_in (ending : phase) (r : run) : Prop :=
  match run_cleanup r, ending with
  | Some result, _ => run_cancels r = 1 /\ result = cleanup_metadata (oe_cancel env)
  | None, (Booting | Streaming) => run_cancels r = 0
  | None, _ => False
  end.

(** The lifecycle and the moves that led to it. Before the end the run is running
    or was cancelled; after it the lifecycle shows the status of the end, or the
    cancellation that came first. *)
Definition lifecycle_in (ending : phase) (lifecycle : RunStatus) : Prop :=
  match ending with
  | Booting => lifecycle = StatusStarting
  | Streaming | Cleaned => lifecycle ∈ [StatusRunning; StatusCancelled]
  | Ended status => Terminal lifecycle = true /\ lifecycle ∈ [status; StatusCancelled]
  end.

Definition moves_to (lifecycle : RunStatus) : list (RunStatus * RunStatus) :=
  if lifecycle =s StatusStarting then []
  else (StatusStarting, StatusRunning) :: if lifecycle =s StatusRunning then [] else [(StatusRunning, lifecycle)].

(** [held] are the numbers given out to events that are not sent yet; [ending]
    is the phase of the run. *)
Record healthy (held : list nat) (ending : phase) (r : run) : Prop := {
  healthy_moves : run_moves r = moves_to (run_lifecycle r);
  healthy_lifecycle : lifecycle_in ending (run_lifecycle r);
  healthy_seq : run_seq r = number (run_reserved r);
  healthy_sent : exists ks,
    Forall2 (fun k sent => fst sent = number k /\ carries (rc_id cfg) (fst sent) (snd sent)) ks (run_sent r) /\
    NoDup (held ++ ks) /\ Forall (given_out r) (held ++ ks);
  healthy_cleanup : cleaned_in ending r
}.

#[local] Abbreviation ok := healthy.

Lemma ok_view held ending r r' : view r' = view r -> ok held ending r -> ok held ending r'.
Proof.
  unfold view. intros [= E1 E2 E3 E4 E5 E6 E7] [H1 H2 H3 H4 H5].
  split; unfold cleaned_in, given_out in *; rewrite ?E1, ?E2, ?E3, ?E4, ?E5, ?E6, ?E7; done.
Qed.

#[local] Abbreviation keeps_view := (keeps view).

Lemma ok_keeps {A} held ending (m : St run A) : keeps_view m -> preserves (ok held ending) m.
Proof. intros Hm r. apply ok_view. by apply keeps_spec. Qed.

Lemma view_consult {A} (f : nat -> A) : keeps_view (consult f).
Proof. intros r0 r H. exact H. Qed.
#[local] Hint Resolve view_consult : agentwrap.

Lemma view_now : keeps_view (now env).
Proof. apply view_consult. Qed.

Lemma view_ctx_Err : keeps_view (ctx_Err env).
Proof. unfold ctx_Err. preserve. Qed.
#[local] Hint Resolve view_now view_ctx_Err : agentwrap.

Lemma view_recordEventStats event : keeps_view (recordEventStats event).
Proof. unfold recordEventStats. preserve. Qed.

Lemma view_add_warning w : keeps_view (add_warning w).
Proof. unfold add_warning. preserve. Qed.
#[local] Hint Resolve view_recordEventStats view_add_warning : agentwrap.

Lemma view_updateSessionID id : keeps_view (updateSessionID id).
Proof. unfold updateSessionID. preserve. Qed.

Lemma view_cancel_context : keeps_view (cancel_context env).
Proof. unfold cancel_context. preserve. Qed.

Lemma view_modify_if (b : run -> bool) (f g : run -> run) :
  (forall r, view (f r) = view r) -> (forall r, view (g r) = view r) -> keeps_view (modify (fun r => if b r then f r else g r)).
Proof. intros Hf Hg. apply keeps_modify. intros r. by destruct (b r). Qed.

Lemma view_note_evidence projected kind : keeps_view (note_evidence projected kind).
Proof.
  unfold note_evidence.
  repeat (apply keeps_bind; [apply (view_modify_if (fun _ => _)); done|intros _]). by apply (view_modify_if (fun _ => _)).
Qed.

Lemma view_note_output event kind : keeps_view (note_output event kind).
Proof. unfold note_output. cbv zeta. preserve. Qed.

Lemma view_note_values projected : keeps_view (note_values projected).
Proof.
  unfold note_values. apply keeps_bind; [by apply (view_modify_if (fun _ => _))|intros _]. preserve.
Qed.
#[local] Hint Resolve view_updateSessionID view_cancel_context view_note_evidence view_note_output view_note_values : agentwrap.

Lemma view_reconcileFinalState : keeps_view (reconcileFinalState cfg env).
Proof. unfold reconcileFinalState. preserve. Qed.

Lemma view_priceFinalUsage : keeps_view (priceFinalUsage cfg env).
Proof. unfold priceFinalUsage. preserve. Qed.

Lemma view_context_failure err : keeps_view (context_failure cfg env err).
Proof. unfold context_failure, classifyRecentLogFailure. preserve. Qed.
#[local] Hint Resolve view_reconcileFinalState view_priceFinalUsage view_context_failure : agentwrap.

Lemma view_decide_outcome decodeErr : keeps_view (decide_outcome cfg env decodeErr).
Proof.
  unfold decide_outcome, exit_outcome, unproven_outcome, exit_error. preserve.
  apply keeps_modify. intros r. by destruct (usage_known _).
Qed.

Lemma view_finalResult decodeErr cleanup : keeps_view (finalResult cfg env decodeErr cleanup).
Proof.
  unfold finalResult, enrich, final_cost, rate_limit_metadata. preserve; try apply view_decide_outcome.
  apply keeps_modify. intros r. by case_match.
Qed.

(** ** The operations that the invariant is about *)
Lemma given_out_mono r r' k : run_reserved r <= run_reserved r' -> given_out r k -> given_out r' k.
Proof. unfold given_out. lia. Qed.

Lemma number_succ k : Int64.wrap (number k + 1) = number (S k).
Proof.
  unfold number, Int64.wrap. f_equal. rewrite Nat2Z.inj_succ.
  replace ((Z.of_nat k + 2 ^ 63) mod 2 ^ 64 - 2 ^ 63 + 1 + 2 ^ 63)%Z with ((Z.of_nat k + 2 ^ 63) mod 2 ^ 64 + 1)%Z by lia.
  rewrite Zplus_mod_idemp_l. f_equal. lia.
Qed.

(** A new number is held. *)
Lemma ok_nextSequence held ending r :
  ok held ending r ->
  exists k, (nextSequence r).1 = number k /\ ok (k :: held) ending (nextSequence r).2.
Proof.
  intros [H1 H2 H3 (ks & H4 & H5 & H6) H7]. unfold nextSequence, bind, modify, get, ret. cbn.
  exists (S (run_reserved r)). rewrite H3. split; [apply number_succ|]. split; cbn; try done.
  - rewrite H3. apply number_succ.
  - exists ks. split; [done|]. rewrite Forall_forall in H6. split; [constructor; [|done]|constructor].
    + intros Hin. apply H6 in Hin. unfold given_out in Hin. lia.
    + unfold given_out. cbn. lia.
    + apply Forall_forall. intros k Hk. apply H6 in Hk. revert Hk. by apply given_out_mono; cbn; lia.
Qed.

(** An event goes out under a number that was held. *)
Lemma ok_delivered held ending k seq event r :
  seq = number k -> carries (rc_id cfg) seq event ->
  ok (k :: held) ending r -> ok held ending (deliver seq event r).2.
Proof.
  intros Hs Hc [H1 H2 H3 (ks & H4 & H5 & H6) H7]. split; try done. exists (ks ++ [k])%list. split.
  - apply Forall2_app; [done|]. constructor; [done|constructor].
  - assert (Permutation (k :: held ++ ks) (held ++ ks ++ [k])) as Hp.
    { rewrite app_assoc. by rewrite <-Permutation_cons_append. }
    cbn [app] in H5, H6. by rewrite <-Hp.
Qed.

(** A number that is not used leaves nothing behind. *)
Lemma ok_release held ending k r : ok (k :: held) ending r -> ok held ending r.
Proof.
  intros [H1 H2 H3 (ks & H4 & H5 & H6) H7]. split; try done. exists ks. cbn [app] in *.
  apply NoDup_cons in H5 as [_ H5]. apply Forall_cons in H6 as [_ H6]. done.
Qed.

(** [m] leads from the states of [P] to those of [Q]. *)
Definition leads {A} (P Q : run -> Prop) (m : St run A) : Prop := forall r, P r -> Q (m r).2.

Lemma leads_bind {A B} P Q R (m : St run A) (k : A -> St run B) :
  leads P Q m -> (forall a, leads Q R (k a)) -> leads P R (bind m k).
Proof. intros Hm Hk r Hr. rewrite bind_run. by apply Hk, Hm. Qed.

Lemma leads_after {A B} P Q (m : St run A) (k : A -> St run B) :
  preserves P m -> (forall a, leads P Q (k a)) -> leads P Q (bind m k).
Proof. apply leads_bind. Qed.

Lemma with_number {A} held ending (k : Z -> St run A) :
  (forall n, leads (ok (n :: held) ending) (ok held ending) (k (number n))) ->
  preserves (ok held ending) (bind nextSequence k).
Proof.
  intros Hk r Hr. rewrite bind_run. destruct (ok_nextSequence _ _ _ Hr) as (n & -> & Hn). by apply Hk.
Qed.

Lemma ok_sendLocalEvent held ending k event :
  carries (rc_id cfg) (number k) event ->
  leads (ok (k :: held) ending) (ok held ending) (sendLocalEvent env (number k) event).
Proof.
  intros Hc. unfold sendLocalEvent. apply leads_after; [apply ok_keeps, view_consult|intros []].
  - intros r Hr. rewrite bind_run. by eapply ok_delivered.
  - intros r. apply ok_release.
Qed.

Lemma ok_send_counted held ending k event :
  carries (rc_id cfg) (number k) event ->
  leads (ok (k :: held) ending) (ok held ending) (send_counted env (number k) event).
Proof.
  intros Hc. unfold send_counted. eapply leads_bind; [by apply ok_sendLocalEvent|].
  intros []; [apply ok_keeps, view_recordEventStats|by intros r].
Qed.

Lemma ok_sendEvent held ending k event :
  carries (rc_id cfg) (number k) event ->
  leads (ok (k :: held) ending) (ok held ending) (sendEvent env (number k) event).
Proof.
  intros Hc. unfold sendEvent. apply leads_after; [apply ok_keeps, view_ctx_Err|intros err].
  apply leads_after; [apply ok_keeps, view_consult|intros room]. destruct (match err with None => _ | _ => _ end).
  - intros r Hr. rewrite bind_run. by eapply ok_delivered.
  - intros r. apply ok_release.
Qed.

(** The lifecycle moves, unless it is there already or has ended. *)
Lemma ok_emitLifecycle held before after to reason :
  (forall r, cleaned_in before r -> cleaned_in after r) ->
  (forall lc, lifecycle_in before lc -> lc = to \/ Terminal lc = true -> lifecycle_in after lc) ->
  (forall lc, lifecycle_in before lc -> lc <> to -> Terminal lc = false ->
     lifecycle_in after to /\ moves_to to = (moves_to lc ++ [(lc, to)])%list) ->
  leads (ok held before) (ok held after) (emitLifecycle cfg env to reason).
Proof.
  intros Hclean Hstay Hmove r Hr. unfold emitLifecycle, transitionLifecycle. rewrite !bind_run. cbn [get fst snd].
  destruct ((run_lifecycle r =s to) || Terminal (run_lifecycle r)) eqn:E.
  - cbn [ret fst snd]. apply orb_true_iff in E. rewrite String.eqb_eq in E. destruct Hr; split; auto.
  - boolify. rewrite !bind_run. destruct (ok_nextSequence _ _ _ Hr) as (n & Hn & Hok).
    assert (run_lifecycle (nextSequence r).2 = run_lifecycle r) as El by done.
    revert Hn Hok El. generalize (nextSequence r).2 as r1. generalize (nextSequence r).1 as seq.
    intros seq r1 -> Hok El. cbn [ret modify fst snd].
    eapply leads_after; [apply ok_keeps, view_now|intros at_; apply ok_send_counted; by right; left|].
    destruct (Hmove (run_lifecycle r)) as [Hin Hto]; [by destruct Hr|done|done|].
    destruct Hok as [H1 H2 H3 H4 H5]. rewrite El in *. split; try done.
    + change ((run_moves r1 ++ [(run_lifecycle r, to)])%list = moves_to to). by rewrite H1, Hto.
    + exact (Hclean r1 H5).
Qed.

Lemma moves_to_end to : Terminal to = true -> moves_to to = (moves_to StatusRunning ++ [(StatusRunning, to)])%list.
Proof. intros [->|[->|[->|[]%not_elem_of_nil]%elem_of_cons]%elem_of_cons]%one_of_spec%elem_of_cons; done. Qed.

(** The process was started. *)
Lemma ok_process_started reason : leads (ok [] Booting) (ok [] Streaming) (emitLifecycle cfg env StatusRunning reason).
Proof.
  apply ok_emitLifecycle; cbn; [done| |]; intros lc ->; [by intros [|]|]. intros _ _. split; [set_solver|done].
Qed.

(** The last move: after it the run has ended in its status, unless it had been
    cancelled before. *)
Lemma ok_conclude held status reason : Terminal status = true ->
  leads (ok held Cleaned) (ok held (Ended status)) (emitLifecycle cfg env status reason).
Proof.
  intros Ht. apply ok_emitLifecycle; cbn; [by unfold cleaned_in; intros r; case_match| |]; intros lc Hlc.
  - intros [->|Hend]; [split; [done|set_solver]|]. elems; [done|]. split; [done|set_solver].
  - intros _ Hend. elems; [|done]. split; [split; [done|set_solver]|by apply moves_to_end].
Qed.

(** The cancellation of the caller. *)
Lemma ok_caller_cancel held ending reason : ending <> Booting ->
  preserves (ok held ending) (emitLifecycle cfg env StatusCancelled reason).
Proof.
  intros He. apply ok_emitLifecycle; [done|done|]. intros lc Hlc _ Hend. destruct ending; cbn in *; [done| | |].
  - elems; [|done]. split; [set_solver|done].
  - elems; [|done]. split; [set_solver|done].
  - destruct Hlc. congruence.
Qed.

Lemma ok_emitSession held ending : preserves (ok held ending) (emitSession cfg env).
Proof.
  apply with_number. intros n. apply leads_after; [apply preserves_get|intros r0].
  apply leads_after; [apply ok_keeps, view_now|intros at_]. apply ok_send_counted. by right; right.
Qed.

Lemma ok_emitPermissionAudit held ending reason : preserves (ok held ending) (emitPermissionAudit cfg env reason).
Proof.
  unfold emitPermissionAudit. apply preserves_bind; [apply preserves_get|intros r].
  assert (forall event : Z -> Time -> Event, (forall seq at_, ev_ID (event seq at_) = event_id cfg seq) ->
    preserves (ok held ending)
      (let* seq := nextSequence in let* at_ := now env in send_counted env seq (event seq at_))) as H.
  { intros event He. apply with_number. intros n. apply leads_after; [apply ok_keeps, view_now|intros at_].
    apply ok_send_counted. left. apply He. }
  repeat case_match; try apply preserves_ret; by refine (H (fun seq at_ => mkEvent _ _ _ _ _ _ _) _).
Qed.

Lemma ok_emitObservedRateLimit held ending classified :
  preserves (ok held ending) (emitObservedRateLimit cfg env classified).
Proof.
  unfold emitObservedRateLimit. destruct classified; [|apply preserves_ret]. cbv zeta.
  apply preserves_bind; [apply preserves_get|intros r0]. case_match; [apply preserves_ret|].
  apply preserves_bind; [by apply ok_keeps, keeps_modify|intros _]. apply with_number. intros n.
  apply leads_after; [apply ok_keeps, view_now|intros at_]. apply ok_send_counted. by left.
Qed.

Lemma cleanup_result held ending r : ok held ending r ->
  (cleanup env r).1 = cleanup_metadata (oe_cancel env) /\ ok held ending (cleanup env r).2 /\
  (ending = Streaming -> ok held Cleaned (cleanup env r).2).
Proof.
  intros [H1 H2 H3 H4 H5]. unfold cleanup. rewrite bind_run. cbn [get fst snd]. unfold cleaned_in in H5.
  destruct (run_cleanup r) eqn:E.
  - destruct H5 as [H5 ->]. cbn [ret fst snd]. split; [done|].
    split; [split; try done; by unfold cleaned_in; rewrite E|]. intros ->. split; try done. by unfold cleaned_in; rewrite E.
  - assert (run_cancels r = 0) as H0 by by destruct ending. clear H5. rename H0 into H5.
    cbn -[cleanup_metadata]. split; [done|].
    split; [|intros ->]; split; try done; split; [exact (f_equal S H5)|done|exact (f_equal S H5)|done].
Qed.

Lemma ok_cleanup held ending : preserves (ok held ending) (cleanup env).
Proof. intros r Hr. by apply cleanup_result. Qed.

Lemma ok_interfere held ending i : ending <> Booting -> preserves (ok held ending) (interfere cfg env i).
Proof.
  intros He. unfold interfere. destruct i.
  - apply preserves_bind; [by apply ok_caller_cancel|intros _].
    apply preserves_bind; [apply ok_cleanup|intros _]. apply ok_keeps, view_cancel_context.
  - apply preserves_bind; [apply ok_keeps, view_ctx_Err|intros err]. apply preserves_bind; [apply preserves_get|intros r0].
    destruct err; [|apply preserves_ret]. destruct (Terminal _); [apply preserves_ret|].
    apply preserves_bind; [apply ok_cleanup|intros; apply preserves_ret].
  - apply preserves_bind; [apply ok_keeps, view_ctx_Err|intros err]. destruct err; [apply preserves_ret|].
    apply preserves_bind; [apply ok_keeps, view_consult|intros c]. apply ok_emitObservedRateLimit.
Qed.

Lemma ok_yield held ending : ending <> Booting -> preserves (ok held ending) (yield cfg env).
Proof.
  intros He. unfold yield. apply preserves_bind; [apply ok_keeps, view_consult|intros steps].
  apply preserves_iterM. intros i. by apply ok_interfere.
Qed.

Lemma with_session_ID event : ev_ID (with_session cfg event) = ev_ID event.
Proof. unfold with_session. by destruct (_ =s _). Qed.

Lemma carries_native tick seq at_ record :
  carries (rc_id cfg) seq (with_session cfg (pj_event (projectNative (rateLimitData env tick)
    (mkprojectionInput (rc_id cfg) (req_TurnID (rc_req cfg)) (rc_context cfg) seq at_ record)))).
Proof.
  left. rewrite with_session_ID. unfold projectNative. destruct (kind_and_evidence _) as [kind evidence].
  destruct (kind =s EventFatalError); [|done]. unfold project_fatal. by destruct (rateLimitData _ _ _ _).
Qed.

(** What [on_record] does once the event is there. *)
Lemma ok_send_projected held ending n projected : ending <> Booting ->
  carries (rc_id cfg) (number n) (with_session cfg (pj_event projected)) ->
  leads (ok (n :: held) ending) (ok held ending) (
    let event := with_session cfg (pj_event projected) in
    let kind := Event_Kind event in
    (if kind =s EventPermission
     then modify (fun r => r <| run_permissions ::= fun p => p <| pmd_Audit ::= fun l =>
                                  (l ++ [permissionAuditFromEvent event])%list |> |>)
     else ret tt) ;;
    recordEventStats event ;;
    yield cfg env ;;
    let* sent := sendEvent env (number n) event in
    if negb sent then let* err := ctx_Err env in ret (StreamContext <$> err)
    else
      note_evidence projected kind ;; note_output event kind ;; note_values projected ;;
      ret (StreamSDK <$> pj_fatal projected)).
Proof.
  intros He Hc. cbv zeta. apply leads_after; [apply ok_keeps; preserve|intros _].
  apply leads_after; [apply ok_keeps, view_recordEventStats|intros _]. apply leads_after; [by apply ok_yield|intros _].
  eapply leads_bind; [by apply ok_sendEvent|intros sent]. apply ok_keeps. preserve.
Qed.

Lemma ok_on_record held ending record : ending <> Booting -> preserves (ok held ending) (on_record cfg env record).
Proof.
  intros He. unfold on_record. apply preserves_bind; [by apply ok_yield|intros _].
  apply preserves_bind; [apply ok_keeps, view_updateSessionID|intros changed].
  apply preserves_bind; [destruct changed; [apply ok_emitSession|apply preserves_ret]|intros _].
  apply with_number. intros n. apply leads_after; [by apply ok_yield|intros _].
  apply leads_after; [apply ok_keeps, view_now|intros at_].
  intros r Hr. rewrite bind_run. refine (ok_send_projected held ending n _ He (carries_native _ _ _ _) _ _).
  exact (ok_keeps _ _ _ (view_consult _) r Hr).
Qed.

Lemma scan_preserves (P : run -> Prop) ctx_err emit out :
  preserves P ctx_err -> (forall record, preserves P (emit record)) -> preserves P (scanNativeRecords ctx_err emit out).
Proof.
  intros Hctx Hemit. unfold scanNativeRecords. destruct (bufio.ScanLines _ _) as [lines tooLong].
  generalize (if tooLong then Some CauseTooLong else CauseRead <$> out_err out) as failure. generalize 0%Z as pos.
  induction lines as [|line lines IH]; intros pos failure; cbn [scan_lines];
    (apply preserves_bind; [exact Hctx|intros [e|]; [apply preserves_ret|]]).
  - unfold scan_end. apply preserves_bind; [exact Hctx|intros; apply preserves_ret].
  - cbv zeta. destruct (strings.TrimSpace line =s ""); [apply preserves_ret|].
    destruct (decodeNativeLine _ _); [apply preserves_ret|].
    apply preserves_bind; [apply Hemit|intros [e|]; [apply preserves_ret|apply IH]].
Qed.


(** A run that has stored its answer. *)
Definition settled (r : run) : Prop :=
  exists res err, run_result r = Some (res, err) /\ ok [] (Ended (res_Status res)) r /\
    consistent (res, err) /\ md_Cleanup (res_Metadata res) = cleanup_metadata (oe_cancel env).

(** The rest of [finish_run] once the cleanup is known. *)
Lemma settled_after decodeErr cleaned : cleaned = cleanup_metadata (oe_cancel env) ->
  leads (ok [] Cleaned) settled (
    let* answer := finalResult cfg env decodeErr cleaned in
    yield cfg env ;;
    emitLifecycle cfg env (res_Status (fst answer)) (lifecycleReason (res_Status (fst answer))) ;;
    yield cfg env ;;
    modify (fun r => r <| run_result := Some (refreshResultEventStats r (fst answer), snd answer) |>)).
Proof.
  intros -> r Hr. rewrite bind_run.
  pose proof (finalResult_consistent cfg env decodeErr (cleanup_metadata (oe_cancel env)) r) as Hs.
  pose proof (ok_keeps _ _ _ (view_finalResult decodeErr (cleanup_metadata (oe_cancel env))) r Hr) as Hr1.
  revert Hs Hr1. destruct (finalResult cfg env decodeErr _ r) as [[res err] r1]. cbn [fst snd].
  intros [Hc Hcl] Hr1. revert r1 Hr1.
  assert (Terminal (res_Status res) = true) as Ht by (apply one_of_spec; exact (proj1 Hc)).
  change (leads (ok [] Cleaned) settled (
    yield cfg env ;;
    emitLifecycle cfg env (res_Status res) (lifecycleReason (res_Status res)) ;;
    yield cfg env ;;
    modify (fun r => r <| run_result := Some (refreshResultEventStats r res, err) |>))).
  apply leads_after; [by apply ok_yield|intros _]. eapply leads_bind; [by apply ok_conclude|intros _].
  apply leads_after; [by apply ok_yield|intros _]. intros r1 H1. eexists _, _. split; [reflexivity|].
  split; [by eapply ok_view; [|exact H1]|]. split; [exact Hc|exact Hcl].
Qed.

Lemma settled_finish decodeErr : leads (ok [] Streaming) settled (finish_run cfg env decodeErr).
Proof.
  unfold finish_run. apply leads_after; [apply preserves_get|intros r0]. cbv zeta.
  apply leads_after; [apply ok_keeps; preserve|intros _]. apply leads_after; [by apply ok_yield|intros _].
  apply leads_after; [apply ok_keeps; preserve|intros _].
  intros r Hr. rewrite bind_run. destruct (cleanup_result _ _ _ Hr) as (Ec & _ & Hr1). specialize (Hr1 eq_refl).
  rewrite Ec. revert Hr1. generalize (cleanup env r).2.
  refine (_ : leads (ok [] Cleaned) settled _). apply leads_after; [by apply ok_yield|intros _].
  apply leads_after; [apply ok_keeps, view_now|intros finished].
  apply leads_after; [by apply ok_keeps, keeps_modify|intros _]. by apply settled_after.
Qed.

Lemma settled_run : leads (ok [] Streaming) settled (run_run cfg env).
Proof.
  unfold run_run. apply leads_after; [|intros e; apply settled_finish].
  apply scan_preserves; [apply ok_keeps, view_ctx_Err|intros; by apply ok_on_record].
Qed.
End Invariants.

(** ** Every run *)
Section Runs.
Context (cfg : runConfig) (env : runEnv) (permissions : PermissionMetadata).

Lemma healthy_new : healthy cfg env [] Booting (new_handle permissions).
Proof. split; try done. exists []. split; [constructor|]. split; [constructor|constructor]. Qed.

Lemma healthy_started : healthy cfg env [] Streaming (started_handle cfg env permissions).
Proof.
  unfold started_handle. eapply (leads_after (healthy cfg env [] Booting)).
  - apply ok_emitPermissionAudit.
  - intros _. apply ok_process_started.
  - apply healthy_new.
Qed.

Lemma settled_finished : settled cfg env (finished_handle cfg env permissions).
Proof. unfold finished_handle. apply settled_run, healthy_started. Qed.


(** The process of a run is cleaned up exactly once, whoever asks for it first,
    and the result carries what that cleanup found. *)
Theorem run_cleanup_once :
  run_cancels (finished_handle cfg env permissions) = 1 /\
  run_cleanup (finished_handle cfg env permissions) = Some (cleanup_metadata (oe_cancel env)) /\
  (md_Cleanup ∘ res_Metadata ∘ fst <$> run_result (finished_handle cfg env permissions)) =
    Some (cleanup_metadata (oe_cancel env)).
Proof.
  destruct settled_finished as (res & err & Hres & [_ _ _ _ Hc] & _ & Hmd). rewrite Hres. cbn. rewrite Hmd.
  unfold cleaned_in in Hc. destruct (run_cleanup _); [|done]. by destruct Hc as [-> ->].
Qed.

(** C7: the events a run delivers are told apart: their sequence numbers are
    distinct, lie between one and the number of the last event, and so are their
    identifiers, as long as fewer than 2^63 numbers were given out. Native
    records, lifecycle, session, permission and rate-limit events draw from the
    same numbers, in whatever order the goroutines send them. *)
Theorem run_events_distinct r :
  finished_handle cfg env permissions = r -> (Z.of_nat (run_reserved r) < 2 ^ 63)%Z ->
  NoDup (map fst (run_sent r)) /\ NoDup (map (ev_ID ∘ snd) (run_sent r)) /\
  Forall (fun sent => (1 <= fst sent <= run_seq r)%Z) (run_sent r) /\ run_seq r = Z.of_nat (run_reserved r).
Proof.
  intros E. destruct settled_finished as (res & err & _ & [_ _ Hseq (ks & Hks & Hnd & Hout) _] & _).
  rewrite E in Hseq, Hks, Hout. clear E. intros Hmax.
  cbn [app] in Hnd, Hout. rewrite Forall_forall in Hout.
  assert (forall k, k <= run_reserved r -> number k = Z.of_nat k /\ Int64.in_range (number k)) as Hnum.
  { intros k Hk. assert (Int64.in_range (Z.of_nat k)) as Hr by (unfold Int64.in_range, Int64.min, Int64.max; lia).
    unfold number. by rewrite Int64.wrap_id. }
  assert (forall k, k ∈ ks -> number k = Z.of_nat k /\ Int64.in_range (number k) /\ 1 <= k <= run_reserved r) as Hk.
  { intros k Hk%Hout. destruct Hk. by destruct (Hnum k). }
  assert (run_seq r = Z.of_nat (run_reserved r)) as Hr by (rewrite Hseq; by apply Hnum).
  split; [|split; [|split; [|done]]].
  - eapply NoDup_map_Forall2; [exact Hks|done|]. intros k k' s s' (E1 & _)%Hk (E2 & _)%Hk [-> _] [-> _] E. lia.
  - eapply NoDup_map_Forall2; [exact Hks|done|].
    intros k k' s s' (E1 & R1 & ?)%Hk (E2 & R2 & ?)%Hk [Es C1] [Es' C2] E. rewrite Es in C1. rewrite Es' in C2.
    enough (number k = number k') by lia. eapply carries_inj; [| | | |exact C1|exact C2|exact E]; (done || lia).
  - rewrite Hr. clear Hnd. assert (forall k, k ∈ ks -> (1 <= number k <= Z.of_nat (run_reserved r))%Z) as Hb.
    { intros k (E & _ & ?)%Hk. lia. }
    clear -Hks Hb. induction Hks as [|k s ks sent [Ek _] _ IH]; [by apply Forall_nil|apply Forall_cons].
    rewrite Ek. split; [apply Hb; set_solver|apply IH; set_solver].
Qed.
End Runs.

(** ** A run *)
Definition sample_cfg : runConfig :=
  mkrunConfig "opencode-1" zero (zero <| ctx_RuntimeKind := "opencode" |>) 5%Z "" ∅ false false.

Definition sample_lines : string :=
  json.with_quotes "{`type`:`text`,`sessionID`:`ses_1`,`text`:`done`}" +:+
  String "010" (json.with_quotes "{`type`:`step_finish`,`reason`:`stop`}").

(** The caller cancels at the given tick. *)
Definition sample_env (cancel_at : nat) : runEnv :=
  mkrunEnv (fun t => Z.of_nat t) None (fun _ => true) (fun _ => true) (mkStdout sample_lines None)
    (mkprocessResult 0 None) "" (fun _ => None) (mkcleanupResult true false None) (fun _ _ _ => inr "")
    (fun _ => inl ECanceled) [] (fun _ _ => []) (fun _ _ => 0%Z) (fun _ => None) (fun _ => None) (fun _ => "")
    (fun t => if (t =? cancel_at)%nat then [CallerCancel] else []).

Definition sample_run (cancel_at : nat) : run := finished_handle sample_cfg (sample_env cancel_at) zero.

Example sample_run_events :
  map (fun sent => (fst sent, ev_ID (snd sent), ev_Type (snd sent))) (run_sent (sample_run 0)) =
  [(1%Z, "opencode-1-lifecycle-1", "lifecycle.transition"); (2%Z, "opencode-1-session-2", "session.relationship");
   (3%Z, "opencode-1:3", "text"); (4%Z, "opencode-1:4", "step_finish");
   (5%Z, "opencode-1-lifecycle-5", "lifecycle.transition")].
Proof. vm_compute. reflexivity. Qed.

(** A cancellation between the outcome and the last move: the events end in
    cancelled, the result is completed without an error. *)
Lemma cancel_after_outcome :
  run_lifecycle (sample_run 26) = StatusCancelled /\
  ((fun answer => (res_Status (fst answer), snd answer)) <$> run_result (sample_run 26)) = Some (StatusCompleted, None).
Proof. vm_compute. done. Qed.

Lemma run_events_distinct_witness : NoDup (map (ev_ID ∘ snd) (run_sent (sample_run 3))).
Proof. apply (run_events_distinct sample_cfg (sample_env 3) zero _ eq_refl). vm_compute. reflexivity. Defined.
