(* ===== verification/OpenCodeEventTypes.v ===== *)
(** * opencode/runtime.go: the types of the events of a run

    Consumers of a run dispatch on the kind of an event and read its payload by
    key, with type assertions. The payload is a map of dynamic values, so what
    the assertions find is an invariant of the run: every event it delivers has
    a known kind, the identity of its run and turn, and, for the lifecycle, the
    statuses of a move of the run, which the observer reads back. *)
From S2P Require Import Prelude GoStd Types Errors Events Json OpenCodeDecoder OpenCodeProjector OpenCodeRateLimit OpenCodeProcess OpenCodeDB OpenCodeSpawn OpenCodeRun OpenCodeOutcome OpenCodeRunInvariants.
#[local] Open Scope string_scope.

(** The kinds a run emits itself, and those its records are classified as. *)
Definition native_kinds : list EventKind :=
  [EventProgress; EventFinalResult; EventMessage; EventTool; EventFatalError; EventPermission; EventBlocking;
   EventUsage; EventArtifact; EventWarning; EventSession; EventNativeExtension].
Definition opencode_kinds : list EventKind := EventLifecycle :: EventRateLimit :: native_kinds.

Lemma kind_and_evidence_kinds record : fst (kind_and_evidence record) ∈ native_kinds.
Proof.
  assert (fst (classify record) ∈ native_kinds) as H.
  { unfold classify. cbn [fst]. repeat case_match; apply list_elem_of_In; cbn; tauto. }
  unfold kind_and_evidence. repeat case_match; cbn [fst]; try exact H; apply list_elem_of_In; cbn; tauto.
Qed.

Section Types.
Context (cfg : runConfig) (env : runEnv).

(** What a consumer finds in an event of a run that made [moves]. *)
Record event_typed (moves : list (RunStatus * RunStatus)) (event : Event) : Prop := {
  typed_run : ev_RunID event = rc_id cfg;
  typed_kind : Event_Kind event ∈ opencode_kinds;
  typed_kind_value : any_at (ev_Payload event) eventKindPayloadKey = ANamed "EventKind" (Event_Kind event);
  typed_turn : any_at (ev_Payload event) "turn_id" = AString (req_TurnID (rc_req cfg));
  typed_lifecycle : Event_Kind event = EventLifecycle -> exists from to,
    (from, to) ∈ moves /\ any_at (ev_Payload event) "from" = AString from /\ any_at (ev_Payload event) "to" = AString to /\
    any_at (ev_Payload event) "state" = ANil /\ any_at (ev_Payload event) "status" = ANil;
  typed_raw : forall raw, ev_Raw event = Some raw -> raw_Safe raw = false /\ Event_Kind event ∈ native_kinds
}.

Definition well_typed (known : list (RunStatus * RunStatus)) (r : run) : Prop :=
  Forall (fun sent => event_typed (run_moves r) (snd sent)) (run_sent r) /\ known ⊆ run_moves r.

Lemma event_typed_mono moves moves' event : moves ⊆ moves' -> event_typed moves event -> event_typed moves' event.
Proof.
  intros H [H1 H2 H3 H4 H5 H6]. split; try done. intros Hk. destruct (H5 Hk) as (from & to & Hin & Hp).
  exists from, to. split; [by apply H|done].
Qed.

(** ** Steps that send nothing *)
Definition events_and_moves (r : run) := (run_sent r, run_moves r).

Lemma typed_keeps {A} known (m : St run A) : keeps events_and_moves m -> preserves (well_typed known) m.
Proof.
  intros Hm r Hr. pose proof (keeps_spec m r Hm) as E. unfold events_and_moves in E. injection E as E1 E2.
  unfold well_typed. by rewrite E1, E2.
Qed.

Lemma typed_view {A} known (m : St run A) : keeps view m -> preserves (well_typed known) m.
Proof.
  intros Hm. apply typed_keeps. intros s0 s Hs. pose proof (keeps_spec m s Hm) as E. unfold view in E.
  unfold events_and_moves in *. congruence.
Qed.
#[local] Hint Resolve view_consult view_now view_ctx_Err view_recordEventStats view_add_warning view_updateSessionID
  view_cancel_context view_note_evidence view_note_output view_note_values view_finalResult : agentwrap.
#[local] Hint Extern 3 (preserves (well_typed _) _) => (apply typed_view; solve [auto with agentwrap]) : agentwrap.

Lemma typed_nextSequence known : preserves (well_typed known) nextSequence.
Proof. apply typed_keeps. unfold nextSequence. preserve; by apply keeps_modify. Qed.
#[local] Hint Resolve typed_nextSequence : agentwrap.

Lemma typed_cleanup known : preserves (well_typed known) (cleanup env).
Proof. apply typed_keeps. unfold cleanup. preserve; by apply keeps_modify. Qed.
#[local] Hint Resolve typed_cleanup : agentwrap.

(** ** Steps that send *)
Lemma typed_deliver known seq event : event_typed known event -> preserves (well_typed known) (deliver seq event).
Proof.
  intros He r [Hs Hk]. split; [|exact Hk]. cbn. apply Forall_app. split; [exact Hs|].
  apply Forall_singleton. by eapply event_typed_mono.
Qed.

Lemma typed_sendLocalEvent known seq event :
  event_typed known event -> preserves (well_typed known) (sendLocalEvent env seq event).
Proof. intros He. pose proof (typed_deliver known seq event He). unfold sendLocalEvent. preserve. Qed.

Lemma typed_send_counted known seq event :
  event_typed known event -> preserves (well_typed known) (send_counted env seq event).
Proof. intros He. pose proof (typed_sendLocalEvent known seq event He). unfold send_counted. preserve. Qed.

Lemma typed_sendEvent known seq event :
  event_typed known event -> preserves (well_typed known) (sendEvent env seq event).
Proof. intros He. pose proof (typed_deliver known seq event He). unfold sendEvent. preserve. Qed.

(** An event the run builds itself: a kind, a payload that names the turn, and
    no raw record. *)
Lemma typed_own known event kind payload :
  ev_RunID event = rc_id cfg -> ev_Payload event = EventPayloadWithKind kind (Some payload) -> ev_Raw event = None ->
  kind ∈ opencode_kinds -> payload !! "turn_id" = Some (AString (req_TurnID (rc_req cfg))) ->
  (kind = EventLifecycle -> exists from to, (from, to) ∈ known /\
     payload !! "from" = Some (AString from) /\ payload !! "to" = Some (AString to) /\
     payload !! "state" = None /\ payload !! "status" = None) ->
  event_typed known event.
Proof.
  intros H1 Hp H3 H4 H5 H6.
  assert (forall k, k <> eventKindPayloadKey -> any_at (ev_Payload event) k = default ANil (payload !! k)) as Hat.
  { intros k Hk. rewrite Hp. cbn. by rewrite lookup_insert_ne by done. }
  assert (any_at (ev_Payload event) eventKindPayloadKey = ANamed "EventKind" kind) as Hkv
    by (rewrite Hp; cbn; by rewrite lookup_insert_eq).
  assert (Event_Kind event = kind) as Hk by (unfold Event_Kind; rewrite Hkv, Hp; done).
  split; rewrite ?Hk; try done.
  - rewrite Hat by done. by rewrite H5.
  - intros Hl. destruct (H6 Hl) as (from & to & Hin & Hf & Ht & Hs & Hst). exists from, to.
    rewrite !Hat by done. by rewrite Hf, Ht, Hs, Hst.
  - by rewrite H3.
Qed.

Lemma typed_emitLifecycle known to reason : preserves (well_typed known) (emitLifecycle cfg env to reason).
Proof.
  intros r Hr. unfold emitLifecycle, transitionLifecycle. rewrite !bind_run. cbn [get fst snd].
  destruct ((run_lifecycle r =s to) || Terminal (run_lifecycle r)); [exact Hr|].
  rewrite !bind_run. pose proof (typed_nextSequence known r Hr) as H1. revert H1.
  generalize (nextSequence r).2 as r1. generalize (nextSequence r).1 as seq. generalize (run_lifecycle r) as from.
  clear r Hr. intros from seq r1 [Hs Hk]. cbn [ret modify fst snd]. rewrite bind_run. cbn [modify fst snd].
  set (r2 := r1 <| run_lifecycle := to |> <| run_moves ::= fun l => (l ++ [(from, to)])%list |>).
  assert (well_typed ((from, to) :: known) r2) as H2.
  { split; cbn.
    - eapply Forall_impl; [exact Hs|]. intros sent. apply event_typed_mono. set_solver.
    - set_solver. }
  assert (preserves (well_typed ((from, to) :: known)) (let* at_ := now env in send_counted env seq
      (LifecycleEvent (rc_id cfg) (req_SessionID (rc_req cfg)) (req_TurnID (rc_req cfg)) (rc_context cfg) seq at_ from to reason))) as H3.
  { apply preserves_bind; [preserve|intros at_]. apply typed_send_counted. eapply typed_own; try done.
    - by left.
    - intros _. exists from, to. split; [by left|done]. }
  destruct (H3 r2 H2) as [H4 H5]. split; [exact H4|set_solver].
Qed.
#[local] Hint Resolve typed_emitLifecycle : agentwrap.

(** The events built with [send_counted] whose payload names the turn. *)
Ltac own_event := apply typed_send_counted; eapply typed_own; first [done | apply list_elem_of_In; cbn; tauto].
#[local] Hint Extern 4 (preserves (well_typed _) (send_counted _ _ _)) => solve [own_event] : agentwrap.
#[local] Hint Extern 4 (preserves (well_typed _) (modify _)) => (apply typed_keeps; by apply keeps_modify) : agentwrap.

Lemma typed_emitSession known : preserves (well_typed known) (emitSession cfg env).
Proof. unfold emitSession. preserve. Qed.

Lemma typed_emitPermissionAudit known reason : preserves (well_typed known) (emitPermissionAudit cfg env reason).
Proof. unfold emitPermissionAudit. preserve. Qed.

Lemma typed_emitObservedRateLimit known classified :
  preserves (well_typed known) (emitObservedRateLimit cfg env classified).
Proof. unfold emitObservedRateLimit. preserve. Qed.
#[local] Hint Resolve typed_emitSession typed_emitPermissionAudit typed_emitObservedRateLimit : agentwrap.

Lemma typed_interfere known i : preserves (well_typed known) (interfere cfg env i).
Proof. unfold interfere, classifyRecentLogFailure. preserve. Qed.
#[local] Hint Resolve typed_interfere : agentwrap.

Lemma typed_yield known : preserves (well_typed known) (yield cfg env).
Proof. unfold yield. preserve. Qed.
#[local] Hint Resolve typed_yield : agentwrap.

(** An event projected from a record, with the session of the request. *)
Lemma typed_projected known classifyData seq at_ record :
  event_typed known (with_session cfg (pj_event (projectNative classifyData
    (mkprojectionInput (rc_id cfg) (req_TurnID (rc_req cfg)) (rc_context cfg) seq at_ record)))).
Proof.
  set (inp := mkprojectionInput _ _ _ _ _ _). set (p := projectNative classifyData inp).
  pose proof (kind_and_evidence_kinds record) as Hkind.
  assert (forall e, ev_Payload (with_session cfg e) = ev_Payload e /\ ev_RunID (with_session cfg e) = ev_RunID e /\
    ev_Raw (with_session cfg e) = ev_Raw e) as Hw by (intros e; unfold with_session; by destruct (_ =s _)).
  assert (ev_RunID (pj_event p) = rc_id cfg /\ exists raw, ev_Raw (pj_event p) = Some raw /\ raw_Safe raw = false) as [Hid (raw & Hraw & Hsafe)].
  { subst p. unfold projectNative. destruct (kind_and_evidence _) as [kind ?]. destruct (kind =s _); [|by eauto].
    unfold project_fatal. destruct (classifyData _ _ _); by eauto. }
  assert (any_at (ev_Payload (pj_event p)) eventKindPayloadKey = ANamed "EventKind" (fst (kind_and_evidence record))) as Hkv.
  { subst p. by rewrite projectNative_payload by done. }
  assert (Event_Kind (with_session cfg (pj_event p)) = fst (kind_and_evidence record)) as Hk.
  { unfold Event_Kind. rewrite (proj1 (Hw _)), Hkv. by destruct (ev_Payload (pj_event p)). }
  destruct (Hw (pj_event p)) as (E1 & E2 & E3). split; rewrite ?Hk, ?E1, ?E2, ?E3.
  - exact Hid.
  - do 2 right. exact Hkind.
  - exact Hkv.
  - subst p. rewrite projectNative_payload by done. change (eventKindPayloadKey =s "turn_id") with false. cbv iota.
    rewrite any_at_native_payload by (vm_compute; set_solver). reflexivity.
  - intros E. rewrite E in Hkind. apply list_elem_of_In in Hkind. vm_compute in Hkind. by intuition discriminate.
  - rewrite Hraw. by intros ? [= <-].
Qed.

Lemma typed_on_record known record : preserves (well_typed known) (on_record cfg env record).
Proof.
  unfold on_record. apply preserves_bind; [auto with agentwrap|intros _].
  apply preserves_bind; [auto with agentwrap|intros changed].
  apply preserves_bind; [destruct changed; auto with agentwrap|intros _].
  apply preserves_bind; [auto with agentwrap|intros seq]. apply preserves_bind; [auto with agentwrap|intros _].
  apply preserves_bind; [auto with agentwrap|intros at_]. intros r Hr. rewrite bind_run.
  match goal with |- context [consult ?f r] => set (m := consult f) end.
  assert (event_typed known (with_session cfg (pj_event (m r).1))) as He by apply typed_projected.
  assert (well_typed known (m r).2) as Hr1 by (by apply (typed_view known m (view_consult _))).
  revert He Hr1. generalize (m r).2 as r1. generalize (m r).1 as projected. clear m r Hr. intros projected r1 He.
  revert r1. change (preserves (well_typed known) (
    (if Event_Kind (with_session cfg (pj_event projected)) =s EventPermission
     then modify (fun r => r <| run_permissions ::= fun p => p <| pmd_Audit ::= fun l =>
            (l ++ [permissionAuditFromEvent (with_session cfg (pj_event projected))])%list |> |>)
     else ret tt) ;;
    recordEventStats (with_session cfg (pj_event projected)) ;;
    yield cfg env ;;
    let* sent := sendEvent env seq (with_session cfg (pj_event projected)) in
    if negb sent then let* err := ctx_Err env in ret (StreamContext <$> err)
    else
      note_evidence projected (Event_Kind (with_session cfg (pj_event projected))) ;;
      note_output (with_session cfg (pj_event projected)) (Event_Kind (with_session cfg (pj_event projected))) ;;
      note_values projected ;;
      ret (StreamSDK <$> pj_fatal projected))).
  pose proof (typed_sendEvent known seq _ He). preserve.
Qed.

Lemma typed_finish_run known decodeErr : preserves (well_typed known) (finish_run cfg env decodeErr).
Proof. unfold finish_run. preserve. Qed.

Lemma typed_run_run known : preserves (well_typed known) (run_run cfg env).
Proof.
  unfold run_run. apply preserves_bind; [|intros e; apply typed_finish_run].
  apply scan_preserves; [auto with agentwrap|intros record; apply typed_on_record].
Qed.
End Types.

(** C8: every event that a run delivers is well typed, whatever the process
    writes and however the goroutines interleave: it carries the run and the
    turn, its kind is one of fourteen and is stored under its own type, and only
    the event of a record has raw data, never marked safe. Each lifecycle event
    is the announcement of a move the run made, and the status the observer reads
    back from its payload is the one the move leads to. *)
Theorem run_events_typed cfg env permissions r :
  finished_handle cfg env permissions = r ->
  Forall (fun sent => event_typed cfg (run_moves r) (snd sent)) (run_sent r) /\
  Forall (fun sent => Event_Kind (snd sent) = EventLifecycle ->
    exists from to, (from, to) ∈ run_moves r /\ Terminal from = false /\ statusFromPayload (ev_Payload (snd sent)) = Some to) (run_sent r).
Proof.
  intros <-. set (r := finished_handle cfg env permissions).
  assert (well_typed cfg [] r) as [Ht _].
  { unfold r, finished_handle. apply typed_run_run. unfold started_handle.
    apply (preserves_bind (well_typed cfg [])); [apply typed_emitPermissionAudit|intros _; apply typed_emitLifecycle|].
    split; [apply Forall_nil_2|apply list_subseteq_nil]. }
  split; [exact Ht|]. eapply Forall_impl; [exact Ht|]. intros [seq event] He Hk. cbn [snd] in *.
  destruct (typed_lifecycle _ _ _ He Hk) as (from & to & Hin & Hfrom & Hto & Hs & Hst). exists from, to.
  destruct (settled_finished cfg env permissions) as (res & err & _ & [Hmoves Hlc _ _ _] & _).
  fold r in Hmoves, Hlc. destruct Hlc as [Hterm _]. pose proof Hin as Hin'. rewrite Hmoves in Hin'. split; [done|].
  assert (Terminal from = false /\ to ∈ [StatusRunning; StatusCompleted; StatusFailed; StatusCancelled]) as [Hf Hin2].
  { unfold moves_to in Hin'. unfold Terminal in Hterm. apply one_of_spec in Hterm. destruct (_ =s StatusStarting); [by apply elem_of_nil in Hin'|].
    apply elem_of_cons in Hin' as [[= -> ->]|Hin']; [split; [done|by left]|].
    destruct (_ =s StatusRunning); [by apply elem_of_nil in Hin'|].
    apply elem_of_cons in Hin' as [[= -> ->]|Hin']; [split; [done|by right]|by apply elem_of_nil in Hin']. }
  split; [done|]. unfold statusFromPayload. cbn [first_status]. rewrite Hs, Hst, Hto. cbn [coerceStatus].
  rewrite (proj2 (one_of_spec to _)); [done|]. set_solver.
Qed.

Lemma run_events_typed_witness : Forall (fun sent => event_typed sample_cfg (run_moves (sample_run 3)) (snd sent)) (run_sent (sample_run 3)).
Proof. exact (proj1 (run_events_typed sample_cfg (sample_env 3) zero (sample_run 3) eq_refl)). Defined.
