(* ===== verification/OpenCodeProvenance.v ===== *)
(** * opencode/runtime.go: where the native events of a run come from

    The events of a run that carry a raw record are the projections of the first
    lines of its output, in order and without a gap; so are the artifacts of the
    result. When lines are left over, one of three things stopped the scan. *)
From S2P Require Import Prelude GoStd Types Errors Events Json OpenCodeDecoder OpenCodeProjector OpenCodeRateLimit OpenCodeProcess OpenCodeDB OpenCodeSpawn OpenCodeRun OpenCodeOutcome OpenCodeRunInvariants OpenCodeEventTypes.
#[local] Open Scope string_scope.

(** The lines the scanner takes from an output. *)
Definition lines_of (out : Stdout) : list string := fst (bufio.ScanLines maxLineBytes (out_text out)).

Section Provenance.
Context (cfg : runConfig) (env : runEnv).

(** [p] is what a run makes of [record] at some moment. *)
Definition projection_of (record : nativeRecord) (p : projectionResult) : Prop :=
  exists t seq at_, p = projectNative (rateLimitData env t)
    (mkprojectionInput (rc_id cfg) (req_TurnID (rc_req cfg)) (rc_context cfg) seq at_ record).

Definition native (event : Event) : Prop := is_Some (ev_Raw event).
#[global] Instance native_dec event : Decision (native event) := is_Some_dec (ev_Raw event).

Definition natives (r : run) : list Event := filter native (map snd (run_sent r)).

(** What the records of the stream leave in the run. *)
Definition harvest (r : run) : list Event * list ArtifactRef * bool := (natives r, run_artifacts r, run_sawFinal r).

Definition harvested (ps : list projectionResult) : list Event * list ArtifactRef * bool :=
  (map (fun p => with_session cfg (pj_event p)) ps, flat_map pj_artifacts ps, existsb pj_final ps).

(** The context of the run is done, or will be. *)
Definition interruptible (r : run) : Prop := run_cancelled r <> None \/ oe_done env <> None.

Definition steady h (b : Prop) (r : run) : Prop := harvest r = h /\ (b -> interruptible r).

(** ** Steps that harvest nothing *)
Section Steady.
Context (h : list Event * list ArtifactRef * bool) (b : Prop).
#[local] Abbreviation steadies := (preserves (steady h b)).

Lemma steady_modify f : (forall r, harvest (f r) = harvest r) -> (forall r, run_cancelled (f r) = run_cancelled r) -> steadies (modify f).
Proof. intros H1 H2. apply preserves_modify. intros r [Hh Hi]. split; [by rewrite H1|]. unfold interruptible. by rewrite H2. Qed.
#[local] Hint Extern 4 (preserves (steady _ _) (modify _)) => (apply steady_modify; intros ?; repeat case_match; done) : agentwrap.

Lemma steady_consult {A} (f : nat -> A) : steadies (consult f).
Proof. intros r Hr. exact Hr. Qed.
#[local] Hint Resolve steady_consult : agentwrap.

Lemma steady_now : steadies (now env).
Proof. apply steady_consult. Qed.

Lemma steady_ctx_Err : steadies (ctx_Err env).
Proof. unfold ctx_Err. preserve. Qed.

Lemma steady_nextSequence : steadies nextSequence.
Proof. unfold nextSequence. preserve. Qed.

Lemma steady_recordEventStats event : steadies (recordEventStats event).
Proof. unfold recordEventStats. preserve. Qed.

Lemma steady_add_warning w : steadies (add_warning w).
Proof. unfold add_warning. preserve. Qed.
#[local] Hint Resolve steady_now steady_ctx_Err steady_nextSequence steady_recordEventStats steady_add_warning : agentwrap.

(** An event without a raw record. *)
Lemma steady_deliver seq event : ev_Raw event = None -> steadies (deliver seq event).
Proof.
  intros He. apply steady_modify; [|done]. intros r. unfold harvest, natives. cbn. do 2 f_equal.
  rewrite map_app, filter_app. cbn [map]. rewrite filter_cons_False by (cbn; unfold native; rewrite He; by apply is_Some_None).
  by rewrite filter_nil, app_nil_r.
Qed.

Lemma steady_send_counted seq event : ev_Raw event = None -> steadies (send_counted env seq event).
Proof. intros He. pose proof (steady_deliver seq event He). unfold send_counted, sendLocalEvent. preserve. Qed.
#[local] Hint Extern 4 (preserves (steady _ _) (send_counted _ _ _)) => (apply steady_send_counted; reflexivity) : agentwrap.

Lemma steady_emitLifecycle to reason : steadies (emitLifecycle cfg env to reason).
Proof. unfold emitLifecycle, transitionLifecycle. preserve. Qed.

Lemma steady_emitSession : steadies (emitSession cfg env).
Proof. unfold emitSession. preserve. Qed.

Lemma steady_emitPermissionAudit reason : steadies (emitPermissionAudit cfg env reason).
Proof. unfold emitPermissionAudit. preserve. Qed.

Lemma steady_emitObservedRateLimit c : steadies (emitObservedRateLimit cfg env c).
Proof. unfold emitObservedRateLimit. preserve. Qed.

Lemma steady_cleanup : steadies (cleanup env).
Proof. unfold cleanup. preserve. Qed.

Lemma steady_cancel_context : steadies (cancel_context env).
Proof.
  unfold cancel_context. apply preserves_bind; [auto with agentwrap|intros [e|]; [preserve|]].
  apply preserves_modify. intros r [Hh _]. split; [exact Hh|]. intros _. by left.
Qed.
#[local] Hint Resolve steady_emitLifecycle steady_emitSession steady_emitPermissionAudit steady_emitObservedRateLimit
  steady_cleanup steady_cancel_context : agentwrap.

Lemma steady_interfere i : steadies (interfere cfg env i).
Proof. unfold interfere, classifyRecentLogFailure. preserve. Qed.
#[local] Hint Resolve steady_interfere : agentwrap.

Lemma steady_yield : steadies (yield cfg env).
Proof. unfold yield. preserve. Qed.

Lemma steady_updateSessionID id : steadies (updateSessionID id).
Proof. unfold updateSessionID. preserve. Qed.
#[local] Hint Resolve steady_yield steady_updateSessionID : agentwrap.

Lemma steady_finalResult decodeErr cleaned : steadies (finalResult cfg env decodeErr cleaned).
Proof.
  unfold finalResult, enrich, final_cost, rate_limit_metadata, decide_outcome, exit_outcome, unproven_outcome, exit_error,
    context_failure, classifyRecentLogFailure, priceFinalUsage, reconcileFinalState. preserve.
Qed.
#[local] Hint Resolve steady_finalResult : agentwrap.

Lemma steady_finish_run decodeErr : steadies (finish_run cfg env decodeErr).
Proof. unfold finish_run. preserve. Qed.
End Steady.
#[local] Hint Resolve steady_consult steady_now steady_ctx_Err steady_nextSequence steady_recordEventStats steady_add_warning
  steady_emitSession steady_yield steady_updateSessionID : agentwrap.

(** ** One record *)
Lemma done_interruptible r e : (ctx_Err env r).1 = Some e -> interruptible (ctx_Err env r).2.
Proof.
  unfold ctx_Err, interruptible. rewrite bind_run. cbn [get consult fst snd]. unfold ctxErr_at. cbn.
  destruct (run_cancelled r); [by left|]. destruct (oe_done env); [by right|done].
Qed.

(** A context that is done stays done. *)
Lemma ctx_Err_done r : ctxErr_at env (run_cancelled r) (run_tick r) <> None ->
  forall n, ctxErr_at env (run_cancelled r) (n + run_tick r) <> None.
Proof.
  unfold ctxErr_at. intros H n. destruct (run_cancelled r); [done|]. destruct (oe_done env) as [[from e]|]; [|done].
  destruct (Nat.leb_spec from (run_tick r)); [|done]. by rewrite (proj2 (Nat.leb_le _ _)) by lia.
Qed.

Lemma ctx_Err_run r : ctx_Err env r = (ctxErr_at env (run_cancelled r) (run_tick r), r <| run_tick ::= S |>).
Proof. reflexivity. Qed.

(** An event that is not sent leaves the context done. *)
Lemma sendEvent_outcome seq event r :
  let '(sent, r') := sendEvent env seq event r in
  if sent then exists tick, r' = r <| run_sent ::= fun l => (l ++ [(seq, event)])%list |> <| run_tick := tick |>
  else (exists tick, r' = r <| run_tick := tick |>) /\ (ctx_Err env r').1 <> None.
Proof.
  unfold sendEvent, deliver, bind, modify, ret, consult. rewrite ctx_Err_run. pose proof (ctx_Err_done r) as Hd.
  destruct (ctxErr_at env (run_cancelled r) (run_tick r)) as [e|].
  - cbn [run_tick upd_field]. destruct (oe_room env _ && oe_pick env _); [by exists (S (S (run_tick r)))|].
    split; [by exists (S (S (run_tick r)))|]. exact (Hd ltac:(done) 2).
  - by exists (S (S (run_tick r))).
Qed.

Lemma native_sent record p : projection_of record p -> native (with_session cfg (pj_event p)).
Proof.
  intros (t & seq & at_ & ->). set (inp := mkprojectionInput _ _ _ _ _ _).
  pose proof (projectNative_raw (rateLimitData env t) inp) as Hr.
  unfold native, with_session. destruct (_ =s _); cbn; rewrite Hr; by eexists.
Qed.

(** The notes of a delivered record. *)
Lemma leads_preserves {A} (P Q : run -> Prop) (m : St run A) : preserves Q m -> (forall r, P r -> Q r) -> leads P Q m.
Proof. intros Hm H r Hr. apply Hm, H, Hr. Qed.

Lemma steady_notes events artifacts final b p event kind :
  leads (steady (events, artifacts, final) b) (steady (events, artifacts ++ pj_artifacts p, final || pj_final p)%list b)
    (note_evidence p kind ;; note_output event kind ;; note_values p ;; ret (StreamSDK <$> pj_fatal p)).
Proof.
  apply (leads_bind _ (steady (events, artifacts, final || pj_final p) b)).
  - unfold note_evidence. apply (leads_bind _ (steady (events, artifacts, final || pj_final p) b)).
    + intros r [[= <- <- <-] Hi]. split; cbn; unfold harvest, natives, interruptible in *;
        destruct (pj_final p); cbn; rewrite ?orb_true_r, ?orb_false_r; done.
    + intros _. apply leads_preserves; [|done]. preserve; apply steady_modify; intros ?; by repeat case_match.
  - intros _. apply leads_after.
    + unfold note_output. preserve; apply steady_modify; intros ?; by repeat case_match.
    + intros _. unfold note_values. apply leads_bind with (Q := steady (events, artifacts ++ pj_artifacts p, final || pj_final p)%list b); [|intros _ r Hr; exact Hr].
      apply leads_after; [apply steady_modify; intros ?; by repeat case_match|intros _].
      apply leads_bind with (Q := steady (events, artifacts ++ pj_artifacts p, final || pj_final p)%list b).
      * intros r [[= <- <- <-] Hi]. by split.
      * intros _. apply leads_preserves; [|done]. preserve; apply steady_modify; intros ?; by repeat case_match.
Qed.
(** What a program answers together with the state it leaves. *)
Definition yields {A} (P : run -> Prop) (Q : A -> run -> Prop) (m : St run A) : Prop := forall r, P r -> Q (m r).1 (m r).2.

Lemma yields_bind {A B} P R Q (m : St run A) (k : A -> St run B) :
  yields P R m -> (forall a, yields (R a) Q (k a)) -> yields P Q (bind m k).
Proof. intros Hm Hk r Hr. rewrite bind_run. apply Hk, Hm, Hr. Qed.

Lemma yields_after {A B} P Q (m : St run A) (k : A -> St run B) :
  preserves P m -> (forall a, yields P Q (k a)) -> yields P Q (bind m k).
Proof. intros Hm. apply yields_bind. intros r. apply Hm. Qed.

Lemma yields_leads {A} P R Q (m : St run A) : leads P R m -> (forall r, R (m r).2 -> Q (m r).1 (m r).2) -> yields P Q m.
Proof. intros Hm H r Hr. apply H, Hm, Hr. Qed.

(** The harvest with one more record. *)
Definition grow (p : projectionResult) (h : list Event * list ArtifactRef * bool) : list Event * list ArtifactRef * bool :=
  let '(events, artifacts, final) := h in
  (events ++ [with_session cfg (pj_event p)], artifacts ++ pj_artifacts p, final || pj_final p)%list.

Lemma harvested_snoc ps p : harvested (ps ++ [p]) = grow p (harvested ps).
Proof. unfold harvested, grow. rewrite map_app, flat_map_app, existsb_app. cbn [map flat_map existsb]. by rewrite orb_false_r, app_nil_r. Qed.

(** What the callback does with a record: it delivers its projection, and says so
    if that is fatal; or the context is done and the scan has to stop. *)
Definition handled (h : list Event * list ArtifactRef * bool) (record : nativeRecord) (answer : option streamError) (r : run) : Prop :=
  (exists p, projection_of record p /\ harvest r = grow p h /\ answer = StreamSDK <$> pj_fatal p) \/
  (harvest r = h /\ answer <> None /\ interruptible r).

Lemma handled_send h record seq p : projection_of record p ->
  yields (steady h False) (handled h record) (
    let event := with_session cfg (pj_event p) in
    let* sent := sendEvent env seq event in
    if negb sent then let* err := ctx_Err env in ret (StreamContext <$> err)
    else note_evidence p (Event_Kind event) ;; note_output event (Event_Kind event) ;; note_values p ;;
         ret (StreamSDK <$> pj_fatal p)).
Proof.
  intros Hp r [Hh _]. cbv zeta. rewrite bind_run. pose proof (sendEvent_outcome seq (with_session cfg (pj_event p)) r) as Hs.
  destruct (sendEvent env seq _ r) as [sent r1]. cbn [fst snd]. destruct sent; cbn [negb].
  - left. exists p. split; [done|]. destruct h as [[events artifacts] final].
    assert (steady (events ++ [with_session cfg (pj_event p)], artifacts, final)%list False r1) as H1.
    { destruct Hs as [tick ->]. split; [|done]. injection Hh as <- <- <-. unfold harvest, natives. cbn. do 2 f_equal.
      rewrite map_app, filter_app. cbn [map]. by rewrite filter_cons_True by (by eapply native_sent). }
    destruct (steady_notes _ _ _ False p (with_session cfg (pj_event p)) (Event_Kind (with_session cfg (pj_event p))) r1 H1) as [H2 _].
    split; [exact H2|]. by rewrite !bind_run.
  - right. destruct Hs as [[tick ->] Hd]. rewrite bind_run. cbn [ret fst snd]. split; [exact Hh|].
    destruct (ctx_Err env (r <| run_tick := tick |>)).1 as [e|] eqn:E; [|done].
    split; [done|]. by eapply done_interruptible.
Qed.

Lemma handled_on_record h record : yields (steady h False) (handled h record) (on_record cfg env record).
Proof.
  unfold on_record. apply yields_after; [auto with agentwrap|intros _].
  apply yields_after; [auto with agentwrap|intros changed].
  apply yields_after; [destruct changed; auto with agentwrap|intros _].
  apply yields_after; [auto with agentwrap|intros seq]. apply yields_after; [auto with agentwrap|intros _].
  apply yields_after; [auto with agentwrap|intros at_].
  apply yields_bind with (R := fun p r => steady h False r /\ projection_of record p).
  { intros r Hr. split; [exact Hr|]. by exists (run_tick r), seq, at_. }
  intros p r [Hr Hp]. revert r Hr.
  match goal with |- forall r, _ -> handled _ _ (?m r).1 _ => change (yields (steady h False) (handled h record) m) end.
  cbv zeta. apply yields_after; [case_match; [apply steady_modify; done|apply preserves_ret]|intros _].
  apply yields_after; [auto with agentwrap|intros _]. apply yields_after; [auto with agentwrap|intros _].
  exact (handled_send h record seq p Hp).
Qed.
(** ** The stream *)

(** Why the lines after the first [length ps] gave nothing, if there are any. *)
Definition scan_stopped (lines : list string) (ps : list projectionResult) (r : run) : Prop :=
  match lines !! length ps with
  | None => True
  | Some line => is_Some (line_error line (Z.of_nat (length ps) + 1)) \/
                 (exists p, last ps = Some p /\ pj_fatal p <> None) \/ interruptible r
  end.

(** [ps] are the projections of the first lines. *)
Definition projections (lines : list string) (ps : list projectionResult) : Prop :=
  forall i p, ps !! i = Some p -> exists record, record_at lines i record /\ projection_of record p.

Record relayed (lines : list string) (ps : list projectionResult) (r : run) : Prop := {
  relayed_lines : projections lines ps;
  relayed_harvest : harvest r = harvested ps;
  relayed_fatal : forall i p, ps !! i = Some p -> pj_fatal p <> None -> S i = length ps;
  relayed_stopped : scan_stopped lines ps r
}.

Lemma projections_snoc lines ps record p :
  projections lines ps -> record_at lines (length ps) record -> projection_of record p -> projections lines (ps ++ [p]).
Proof.
  intros H Hr Hp i q. rewrite lookup_snoc_Some. intros [[_ Hq]|[-> <-]]; [by apply H|by exists record].
Qed.

Lemma fatal_last ps p i q : Forall (fun p => pj_fatal p = None) ps ->
  (ps ++ [p])%list !! i = Some q -> pj_fatal q <> None -> S i = length (ps ++ [p])%list.
Proof.
  intros H. rewrite lookup_snoc_Some, length_app, Nat.add_1_r. intros [[_ Hq]|[-> <-]]; [|done].
  rewrite Forall_lookup in H. by rewrite (H _ _ Hq).
Qed.

Lemma scan_relays lines rest failure ps :
  rest = drop (length ps) lines -> projections lines ps -> Forall (fun p => pj_fatal p = None) ps ->
  yields (steady (harvested ps) False) (fun _ r => exists ps', relayed lines ps' r)
    (scan_lines (ctx_Err env) (on_record cfg env) (Z.of_nat (length ps)) rest failure).
Proof.
  revert ps. induction rest as [|line rest IH]; intros ps Hrest Hps Hfatal r [Hh _].
  all: assert (forall i p, ps !! i = Some p -> pj_fatal p <> None -> S i = length ps) as Hlast
    by (intros i p Hp; rewrite Forall_lookup in Hfatal; by rewrite (Hfatal _ _ Hp)).
  all: assert (forall r', harvest r' = harvested ps -> scan_stopped lines ps r' -> exists ps', relayed lines ps' r') as Hend
    by (intros r' ? ?; by exists ps).
  all: cbn [scan_lines]; rewrite bind_run; pose proof (steady_ctx_Err _ False r (conj Hh (False_ind _))) as [Hh1 _];
    pose proof (done_interruptible r) as Hdone; destruct (ctx_Err env r) as [[e|] r1]; cbn [fst snd] in *.
  - apply Hend; [exact Hh1|]. unfold scan_stopped. case_match; [|done]. do 2 right. by eapply Hdone.
  - unfold scan_end. rewrite bind_run. cbn [ret snd]. apply Hend; [by apply (steady_ctx_Err _ False r1)|].
    unfold scan_stopped. by rewrite lookup_ge_None_2 by (apply (f_equal length) in Hrest; rewrite List.length_skipn in Hrest; cbn in Hrest; lia).
  - apply Hend; [exact Hh1|]. unfold scan_stopped. case_match; [|done]. do 2 right. by eapply Hdone.
  - assert (lines !! length ps = Some line) as Hline by (by rewrite <-(Nat.add_0_r (length ps)), <-lookup_drop, <-Hrest).
    assert (is_Some (line_error line (Z.of_nat (length ps) + 1)) -> exists ps', relayed lines ps' r1) as Hbad.
    { intros H. apply Hend; [exact Hh1|]. unfold scan_stopped. rewrite Hline. by left. }
    unfold line_error in Hbad. destruct (String.eqb_spec (strings.TrimSpace line) "") as [|Hne]; [by apply Hbad|].
    destruct (decodeNativeLine line _) as [e|record] eqn:Hdec; [by apply Hbad|]. clear Hbad. rewrite bind_run.
    assert (record_at lines (length ps) record) as Hat by (by exists line).
    destruct (handled_on_record _ record r1 (conj Hh1 (False_ind _))) as [(p & Hp & Hg & Ha)|(Hs & Ha & Hi)].
    + rewrite <-harvested_snoc in Hg. destruct (on_record cfg env record r1) as [answer r2]. cbn [fst snd] in *.
      assert (projections lines (ps ++ [p])%list) as Hps' by (by eapply projections_snoc).
      destruct (pj_fatal p) as [e|] eqn:Hf; subst answer; cbn [fmap option_fmap option_map].
      * exists (ps ++ [p])%list. split; [done|exact Hg|intros i q; by apply fatal_last|].
        unfold scan_stopped. case_match; [|done]. right. left. exists p. by rewrite last_snoc, Hf.
      * replace (Z.of_nat (length ps) + 1)%Z with (Z.of_nat (length (ps ++ [p]))) by (rewrite length_app; cbn; lia).
        apply IH; [|done|by apply Forall_app_2; [|apply Forall_singleton]|by split].
        rewrite length_app. cbn [length]. by rewrite <-drop_drop, <-Hrest.
    + destruct (on_record cfg env record r1) as [[e|] r2]; [|done]. apply Hend; [exact Hs|].
      unfold scan_stopped. rewrite Hline. by do 2 right.
Qed.
(** ** The end of the run *)
Lemma finalResult_artifacts h b decodeErr cleaned :
  yields (steady h b) (fun answer r => steady h b r /\ res_Artifacts (fst answer) = h.1.2) (finalResult cfg env decodeErr cleaned).
Proof.
  intros r Hr. split; [by apply steady_finalResult|].
  assert (yields (steady h b) (fun answer _ => res_Artifacts (fst answer) = h.1.2) (finalResult cfg env decodeErr cleaned)) as H; [|exact (H r Hr)].
  clear r Hr. unfold finalResult.
  assert (forall A (m : St run A), preserves (steady h b) m -> forall B (Q : B -> run -> Prop) k,
    (forall a, yields (steady h b) Q (k a)) -> yields (steady h b) Q (bind m k)) as Hstep by (intros; by apply yields_after).
  apply Hstep. { unfold decide_outcome, exit_outcome, unproven_outcome, exit_error, context_failure, classifyRecentLogFailure, reconcileFinalState. preserve; apply steady_modify; intros ?; by repeat case_match. }
  intros outcome. apply Hstep. { unfold enrich, reconcileFinalState. preserve; apply steady_modify; intros ?; by repeat case_match. }
  intros proof. apply Hstep. { unfold final_cost, priceFinalUsage. preserve. }
  intros cost. apply Hstep. { unfold rate_limit_metadata. preserve. }
  intros rateLimit. apply Hstep; [preserve|]. intros _ r [<- _]. rewrite bind_run. cbn [get ret fst snd]. by destruct outcome.
Qed.

(** The answer is stored, and lists the artifacts of the stream. *)
Definition concluded (h : list Event * list ArtifactRef * bool) (b : Prop) (r : run) : Prop :=
  steady h b r /\ exists res err, run_result r = Some (res, err) /\ res_Artifacts res = h.1.2.

Lemma answer_concluded h b res err : res_Artifacts res = h.1.2 ->
  leads (steady h b) (concluded h b) (
    yield cfg env ;; emitLifecycle cfg env (res_Status res) (lifecycleReason (res_Status res)) ;; yield cfg env ;;
    modify (fun r => r <| run_result := Some (refreshResultEventStats r res, err) |>)).
Proof.
  intros Ha. apply leads_after; [auto with agentwrap|intros _]. apply leads_after; [apply steady_emitLifecycle|intros _].
  apply leads_after; [auto with agentwrap|intros _]. intros r Hr. split; [exact Hr|].
  eexists _, err. split; [reflexivity|exact Ha].
Qed.

Lemma finish_concluded h b decodeErr : leads (steady h b) (concluded h b) (finish_run cfg env decodeErr).
Proof.
  unfold finish_run. apply leads_after; [preserve|intros r0]. cbv zeta.
  apply leads_after; [case_match; preserve; by apply steady_modify|intros _]. apply leads_after; [auto with agentwrap|intros _].
  apply leads_after; [case_match; auto with agentwrap|intros _]. apply leads_after; [apply steady_cleanup|intros cleaned].
  apply leads_after; [auto with agentwrap|intros _]. apply leads_after; [auto with agentwrap|intros finished].
  apply leads_after; [by apply steady_modify|intros _]. intros r Hr. rewrite bind_run.
  match goal with |- context [finalResult cfg env ?e cleaned r] => destruct (finalResult_artifacts h b e cleaned r Hr) as [Hr1 Ha];
    destruct (finalResult cfg env e cleaned r) as [[res err] r1] end.
  exact (answer_concluded h b res err Ha r1 Hr1).
Qed.

(** A finished run, with the harvest of its stream. *)
Lemma finished_relayed permissions : let r := finished_handle cfg env permissions in
  exists ps res err, relayed (lines_of (oe_stdout env)) ps r /\ run_result r = Some (res, err) /\ res_Artifacts res = flat_map pj_artifacts ps.
Proof.
  cbv zeta. unfold finished_handle, run_run. rewrite bind_run. set (r0 := started_handle cfg env permissions). set (lines := lines_of _).
  assert (steady (harvested []) False r0) as H0.
  { unfold r0, started_handle. apply (preserves_bind (steady (harvested []) False));
      [apply steady_emitPermissionAudit|intros _; apply steady_emitLifecycle|by split]. }
  assert (exists ps, relayed lines ps (scanNativeRecords (ctx_Err env) (on_record cfg env) (oe_stdout env) r0).2) as (ps & [H1 H2 H3 H4]).
  { unfold lines, lines_of, scanNativeRecords. destruct (bufio.ScanLines _ _) as [l tooLong].
    apply (scan_relays l l _ []); [done|by intros ? ?|by constructor|exact H0]. }
  destruct (scanNativeRecords _ _ _ r0) as [decodeErr r1]. cbn [fst snd] in *.
  destruct (finish_concluded _ (interruptible r1) decodeErr r1 (conj H2 (fun H => H))) as [[Hh Hi] (res & err & Hres & Ha)].
  exists ps, res, err. split; [|done]. split; [done|exact Hh|done|].
  unfold scan_stopped in *. destruct (lines !! length ps); [|done]. destruct H4 as [|[|]]; auto.
Qed.

(** C9: a run shows what its process wrote, all of it and in order. The events with
    raw data that a run delivers are the projections of the first lines of the
    output, one for each and in their order; the artifacts of the result are
    theirs. If lines are left over, then the first of them is blank, no JSON
    object or without a type, or the last event is fatal, or the context of the
    run was cancelled or ended. Nothing comes after a fatal event. *)
Theorem run_relays_output permissions r : finished_handle cfg env permissions = r ->
  let lines := lines_of (oe_stdout env) in
  exists ps res err,
    projections lines ps /\ natives r = map (fun p => with_session cfg (pj_event p)) ps /\
    (forall i p, ps !! i = Some p -> pj_fatal p <> None -> S i = length ps) /\ scan_stopped lines ps r /\
    run_result r = Some (res, err) /\ res_Artifacts res = flat_map pj_artifacts ps.
Proof.
  intros <- lines. destruct (finished_relayed permissions) as (ps & res & err & [H1 [= H2 _ _] H3 H4] & Hres & Ha).
  by exists ps, res, err.
Qed.
End Provenance.

(** Two records, two events; the last one ends the session. *)
Lemma run_relays_output_witness :
  exists ps, projections sample_cfg (sample_env 1000) (lines_of (oe_stdout (sample_env 1000))) ps /\
    natives (sample_run 1000) = map (fun p => with_session sample_cfg (pj_event p)) ps /\ length ps = 2.
Proof.
  destruct (run_relays_output sample_cfg (sample_env 1000) zero (sample_run 1000) eq_refl)
    as (ps & res & err & Hps & Hn & _). exists ps. split; [exact Hps|]. split; [exact Hn|].
  apply (f_equal (@length Event)) in Hn. rewrite length_map in Hn. rewrite <-Hn. vm_compute. reflexivity.
Defined.
