(* ===== verification/PolicyRequests.v ===== *)
(** * What a policy run starts

    The log [pr_runs] of a policy run against its attempts: every attempt handed
    one request to a runtime, with the permission policy of the caller unless
    the policy itself puts another one in, and an attempt without an error had a
    run without one. *)
From S2P Require Import Prelude GoStd Types Errors Policy Environment PolicyRunner.
#[local] Open Scope string_scope.

(** A policy may rewrite the request of the next attempt, not its permissions. *)
Class RespectsPermissions (policy : ResiliencePolicy) : Prop :=
  respects_permissions : forall tick e ctx d q, policy tick e ctx = (d, None) -> pd_Request d = Some q ->
    req_PermissionPolicy q = req_PermissionPolicy (pc_OriginalRequest ctx).

(** [BasicPolicy] never gives a request. *)
Lemma Decide_request p now e ctx : pd_Request (BasicPolicy_Decide p now e ctx) = None.
Proof. unfold BasicPolicy_Decide, fallbackOrStop. cbv zeta. repeat (case_match; try done). Qed.

#[global] Instance basic_policy_respects env p : RespectsPermissions (basic_policy env p).
Proof. intros tick e ctx d q [= <-]. by rewrite Decide_request. Qed.

Section Requests.
Context (env : RunEnv) (policy : ResiliencePolicy) `{!RespectsPermissions policy} (permissions : option PermissionPolicy).

(** What the log is compared with. *)
Definition trail (r : policyRun) := (pr_original r, pr_attempts r, pr_runs r).
#[local] Abbreviation keeps_trail := (keeps trail).

Lemma trail_consult {A} (f : nat -> A) : keeps_trail (consult f).
Proof. intros r0 r H. exact H. Qed.
#[local] Hint Resolve trail_consult : agentwrap.

Lemma trail_sendEvent e : keeps_trail (sendEvent env e).
Proof. unfold sendEvent, stamp_event, recordDroppedEvent, now. preserve; auto with agentwrap. Qed.
#[local] Hint Resolve trail_sendEvent : agentwrap.

Lemma trail_forwardEvents events attempt ti : keeps_trail (forwardEvents env events attempt ti).
Proof. unfold forwardEvents. auto with agentwrap. Qed.

Lemma trail_summarize a n ti req started result : keeps_trail (summarizeAttempt env a n ti req started result).
Proof. unfold summarizeAttempt, now. preserve; auto with agentwrap. Qed.

Lemma trail_finish result err exhausted reason : keeps_trail (finish env result err exhausted reason).
Proof. unfold finish, now. preserve; auto with agentwrap. Qed.

Lemma trail_recordDecision attempt ti d ctx : keeps_trail (recordDecision env attempt ti d ctx).
Proof. unfold recordDecision. preserve; auto with agentwrap. Qed.

Lemma trail_policy_context a n ti req last : keeps_trail (policy_context env a n ti req last).
Proof. unfold policy_context, now. preserve; auto with agentwrap. Qed.
#[local] Hint Resolve trail_forwardEvents trail_summarize trail_finish trail_recordDecision trail_policy_context : agentwrap.

Lemma trail_apply_decision d ti req last : keeps_trail (apply_decision env d ti req last).
Proof.
  unfold apply_decision. preserve. apply keeps_modify. intros r. unfold applyDecisionTarget. by repeat case_match.
Qed.
#[local] Hint Resolve trail_apply_decision : agentwrap.

Lemma trail_act attempt ti req last ctx answer : keeps_trail (act_on_decision env attempt ti req last ctx answer).
Proof. unfold act_on_decision. preserve; auto with agentwrap. Qed.
#[local] Hint Resolve trail_act : agentwrap.

(** The request of the next attempt asks for the same permissions. *)
Definition same_permissions (next : iteration) : Prop :=
  match next with
  | Continue _ req _ => req_PermissionPolicy req = permissions
  | Finished => True
  end.

Lemma overlay_permissions dst src : req_PermissionPolicy (overlayRunRequest dst src) = req_PermissionPolicy dst.
Proof. done. Qed.

Lemma apply_decision_permissions d ti req last r :
  req_PermissionPolicy req = permissions -> req_PermissionPolicy (pr_original r) = permissions ->
  (forall q, pd_Request d = Some q -> req_PermissionPolicy q = permissions) ->
  same_permissions (apply_decision env d ti req last r).1.
Proof.
  intros Hreq Ho Hd. unfold apply_decision. destruct (one_of _ _); [|destruct (_ =s _)].
  - cbn. unfold requestForDecision. destruct (pd_Request d) as [q|]; [specialize (Hd q eq_refl)|]; by destruct (negb _).
  - rewrite bind_run. cbn. rewrite <-Ho. unfold applyDecisionTarget, fallbackRequest.
    destruct (pd_Request d); destruct (negb _); by repeat case_match.
  - rewrite bind_run. done.
Qed.

Lemma act_permissions attempt ti req last ctx answer tick ctxErr r :
  policy tick ctxErr ctx = answer -> pc_OriginalRequest ctx = pr_original r ->
  req_PermissionPolicy req = permissions -> req_PermissionPolicy (pr_original r) = permissions ->
  same_permissions (act_on_decision env attempt ti req last ctx answer r).1.
Proof.
  intros Ha Hc Hreq Ho. destruct answer as [d [e|]]; unfold act_on_decision; [by rewrite bind_run|].
  assert (forall q, pd_Request (normalizeDecision d ctx) = Some q -> req_PermissionPolicy q = permissions) as Hd.
  { intros q Hq. rewrite <-Ho, <-Hc. eapply respects_permissions; [exact Ha|]. rewrite <-Hq.
    unfold normalizeDecision. by repeat case_match. }
  rewrite bind_run. pose proof (keeps_spec _ r (trail_recordDecision attempt ti (normalizeDecision d ctx) ctx)) as E.
  revert E. generalize (recordDecision env attempt ti (normalizeDecision d ctx) ctx r).2. intros r1 [= E _ _].
  destruct (_ =s _); [by rewrite bind_run|]. rewrite <-E in Ho. destruct (0 <? _)%Z; [|by apply apply_decision_permissions].
  rewrite bind_run. destruct (consult _ r1).1 as [e|]; [by rewrite bind_run|]. by apply apply_decision_permissions.
Qed.

(** What the log of a run says of an attempt. *)
Definition logged (s : AttemptSummary) (started : RunRequest * RunOutcome) : Prop :=
  req_PermissionPolicy started.1 = permissions /\ (att_Error s = None -> succeeded started.2).

Definition tracked (r : policyRun) : Prop :=
  req_PermissionPolicy (pr_original r) = permissions /\ Forall2 logged (pr_attempts r) (pr_runs r).

Lemma tracked_keeps {A} (m : St policyRun A) : keeps_trail m -> preserves tracked m.
Proof. intros Hm r Hr. pose proof (keeps_spec _ r Hm) as [= E1 E2 E3]. unfold tracked. by rewrite E1, E2, E3. Qed.

Lemma run_attempt_logged attempt ti req started r :
  exists outcome,
    trail (run_attempt env attempt ti req started r).2 = trail (r <| pr_runs ::= fun l => (l ++ [(req, outcome)])%list |>) /\
    (res_Err (run_attempt env attempt ti req started r).1 = None -> succeeded outcome).
Proof.
  unfold run_attempt. rewrite bind_run. cbn [get fst snd]. rewrite bind_run. cbn [consult fst snd].
  set (outcome := env_start env _ _ req). exists outcome. rewrite bind_run. cbn [modify fst snd].
  set (r1 := upd_field pr_runs _ _). change (trail (r <| pr_runs ::= _ |>)) with (trail r1). clearbody r1.
  destruct outcome as [e|events result waitErr].
  - rewrite bind_run. split; [done|]. destruct (ensureSDKError_is_Some e "policy attempt start") as [e' He].
    cbn [ret fst snd]. intros E. change (ensureSDKError (Some e) "policy attempt start" = None) in E. by rewrite He in E.
  - rewrite !bind_run. cbn [modify ret fst snd]. split.
    + transitivity (trail (forwardEvents env events attempt ti (setCurrent attempt r1)).2).
      * unfold clearCurrent. by case_decide.
      * change (trail r1) with (trail (setCurrent attempt r1)). apply keeps_spec, trail_forwardEvents.
    + destruct waitErr as [e|]; [|by intros _; exists events, result].
      destruct (res_Err result) eqn:E; [by rewrite E|].
      destruct (ensureSDKError_is_Some e "policy attempt wait") as [e' He].
      intros E'. change (ensureSDKError (Some e) "policy attempt wait" = None) in E'. by rewrite He in E'.
Qed.

Lemma attempt_tracked ti req r :
  tracked r -> req_PermissionPolicy req = permissions ->
  tracked (execute_attempt env policy ti req r).2 /\ same_permissions (execute_attempt env policy ti req r).1.
Proof.
  intros Hr Hreq. unfold execute_attempt. rewrite bind_run. cbn [modify fst snd].
  set (r0 := upd_field pr_targetCounts _ r). assert (tracked r0) as H0 by exact Hr. clearbody r0. clear Hr r.
  rewrite bind_run. cbn [get fst snd]. set (attempt := (Z.of_nat _ + 1)%Z). set (n := default 0%Z _). clearbody attempt n.
  rewrite bind_run. cbn [now consult fst snd]. set (r1 := upd_field pr_tick S r0).
  assert (tracked r1) as H1 by exact H0. clearbody r1. set (started := env_now env _). clearbody started. clear H0 r0.
  rewrite bind_run. destruct (run_attempt_logged attempt ti req started r1) as (outcome & [= E1 E2 E3] & Hs).
  destruct (run_attempt env attempt ti req started r1) as [last r2]. cbn [fst snd] in *.
  rewrite bind_run. pose proof (keeps_spec _ r2 (trail_summarize attempt n ti req started last)) as [= F1 F2 F3].
  pose proof (summarizeAttempt_fields env attempt n ti req started last r2) as (_ & _ & _ & He & _).
  destruct (summarizeAttempt env attempt n ti req started last r2) as [s r3]. cbn [fst snd] in *.
  rewrite bind_run. cbn [modify fst snd]. set (r4 := upd_field pr_attempts _ r3).
  assert (tracked r4) as H4.
  { destruct H1 as [Ho Hl]. split; cbn; [congruence|]. rewrite F2, F3, E2, E3. apply Forall2_app; [exact Hl|].
    repeat constructor; cbn; [done|]. rewrite He. exact Hs. }
  clearbody r4. destruct (res_Err last) eqn:El.
  - rewrite bind_run. pose proof (tracked_keeps _ (trail_policy_context attempt n ti req last) r4 H4) as H5.
    assert (pc_OriginalRequest (policy_context env attempt n ti req last r4).1 =
            pr_original (policy_context env attempt n ti req last r4).2) as Hc by done.
    destruct (policy_context env attempt n ti req last r4) as [ctx r5]. cbn [fst snd] in *.
    rewrite !bind_run. cbn [ctx_Err consult fst snd]. set (answer := policy _ _ ctx).
    set (r6 := upd_field pr_tick S _). assert (tracked r6) as H6 by exact H5.
    split; [apply (tracked_keeps _ (trail_act _ _ _ _ _ _) r6 H6)|].
    eapply act_permissions; [reflexivity|exact Hc|exact Hreq|exact (proj1 H6)].
  - rewrite bind_run. split; [exact (tracked_keeps _ (trail_finish _ _ _ _) r4 H4)|done].
Qed.

Lemma loop_tracked fuel ti req last r :
  tracked r -> req_PermissionPolicy req = permissions -> tracked (execute_loop env policy fuel ti req last r).2.
Proof.
  revert ti req last r. induction fuel as [|fuel IH]; intros ti req last r Hr Hreq; [exact Hr|].
  cbn [execute_loop]. rewrite bind_run. unfold execute_iteration. rewrite bind_run. cbn [ctx_Err consult fst snd].
  set (r1 := upd_field pr_tick S r). assert (tracked r1) as H1 by exact Hr. clearbody r1.
  destruct (env_ctxErr env _).
  - rewrite bind_run. cbn [ret fst snd]. unfold finishCancelled.
    apply (tracked_keeps (let* e := ctx_Err env in _)); [|exact H1]. unfold ctx_Err. preserve; auto with agentwrap.
  - destruct (attempt_tracked ti req r1 H1 Hreq) as [H2 Hn].
    destruct (execute_attempt env policy ti req r1) as [[|ti' req' last'] r2]; cbn [fst snd] in *; [exact H2|].
    by apply IH.
Qed.
End Requests.
#[export] Hint Resolve trail_consult trail_sendEvent trail_forwardEvents trail_summarize trail_finish
  trail_recordDecision trail_policy_context trail_apply_decision trail_act : agentwrap.

(** What a policy run hands to runtimes: requests with the permission policy of
    the caller, one for each attempt; and when it succeeds, one of them did. *)
Lemma policy_run_requests env c runner req fuel res e r :
  RespectsPermissions (effective_policy env runner) ->
  PolicyRunner_run env c runner req fuel = inr (Some (res, e, r)) ->
  Forall (fun started => req_PermissionPolicy started.1 = req_PermissionPolicy req) (pr_runs r) /\
  (e = None -> exists started, started ∈ pr_runs r /\ succeeded started.2).
Proof.
  intros Hp H. destruct (run_ended _ _ _ _ _ _ _ _ H) as (Hend & _ & -> & _).
  assert (tracked (req_PermissionPolicy req) r) as [_ Ht].
  { unfold PolicyRunner_run, PolicyRunner_StartRun in H. destruct (rn_Runtime runner) as [rt|]; [|done].
    set (r0 := mkpolicyRun _ req rt _ _ _ _ _ _ _ _ _ _ _ _ _ _ _) in H.
    pose proof (execute_done env (effective_policy env runner) fuel r0) as Hx.
    assert (tracked (req_PermissionPolicy req) r0) as H0 by (split; [done|constructor]).
    pose proof (loop_tracked env (effective_policy env runner) _ fuel 0%Z (pr_original r0) zero r0 H0 eq_refl) as Hl.
    destruct (execute_loop env _ fuel 0%Z (pr_original r0) zero r0) as [finished r1]. rewrite Hx in H.
    destruct finished; [|done]. by injection H as _ _ <-. }
  split.
  - apply Forall_forall. intros x (i & Hi)%list_elem_of_lookup.
    destruct (Forall2_lookup_r _ _ _ _ _ Ht Hi) as (s & _ & Hs & _). exact Hs.
  - intros He. apply (end_success _ Hend) in He as (s & Hs & Herr). rewrite last_lookup in Hs.
    destruct (Forall2_lookup_l _ _ _ _ _ Ht Hs) as (x & Hx & _ & Hok). exists x. split; [|by apply Hok].
    by eapply list_elem_of_lookup_2.
Qed.
