(* ===== verification/ValidatingRequests.v ===== *)
(** * What a validated run starts

    The log [vn_runs] of a validated run: without an override of the repair
    requests every run it starts has the permission policy of the caller, and a
    validated run without an error began with a run without one. *)
From S2P Require Import Prelude GoStd Types Errors Policy Environment Validation ValidatingRuntime.
#[local] Open Scope string_scope.

Section Log.
Context (env : RunEnv) (files : nat -> FileSystem) (first : RunRequest * RunOutcome).

(** The run that was started first. *)
Definition begun (r : validationRun) : Prop := head (vn_runs r) = Some first.

Lemma begun_core {A} (m : St validationRun A) : keeps core m -> preserves begun m.
Proof. intros Hm r Hr. pose proof (f_equal vn_runs (keeps_spec _ r Hm)) as E. cbn in E. unfold begun. by rewrite E. Qed.

Lemma begun_sendEvent e : preserves begun (sendEvent env e).
Proof. apply begun_core, validation_core_sendEvent. Qed.
Lemma begun_sendLifecycle result from to reason : preserves begun (sendLifecycle env result from to reason).
Proof. apply begun_core, validation_core_sendLifecycle. Qed.
Lemma begun_forwardEvents events : preserves begun (forwardEvents env events).
Proof. apply begun_core, validation_core_forwardEvents. Qed.
Lemma begun_validate req result from : preserves begun (validate env files req result from).
Proof. apply begun_core, validation_core_validate. Qed.
Lemma begun_consult {A} (f : nat -> A) : preserves begun (consult f).
Proof. intros r Hr. exact Hr. Qed.
Lemma begun_finish result err : preserves begun (finish result err).
Proof. unfold finish. by apply preserves_modify. Qed.
#[local] Hint Resolve begun_sendEvent begun_sendLifecycle begun_forwardEvents begun_validate begun_consult
  begun_finish : agentwrap.

Lemma begun_startAndWait req : preserves begun (startAndWait env req).
Proof.
  unfold startAndWait, now. preserve; apply preserves_modify; try done.
  - intros r Hr. unfold begun in *. cbn. by destruct (vn_runs r).
  - intros r Hr. unfold clearCurrent. by case_decide.
Qed.
#[local] Hint Resolve begun_startAndWait : agentwrap.

Lemma begun_runRepair req ctx : preserves begun (runRepair env req ctx).
Proof. unfold runRepair, after_repair_run, fresh_fallback, now. preserve. Qed.
#[local] Hint Resolve begun_runRepair : agentwrap.

Lemma begun_execute_loop fuel attempt req result history repairs :
  preserves begun (execute_loop env files fuel attempt req result history repairs).
Proof.
  revert attempt result history repairs. induction fuel as [|fuel IH]; intros; [apply preserves_ret|].
  cbn [execute_loop]. unfold execute_pass. preserve; apply IH.
Qed.
End Log.

Lemma startAndWait_logged env req r : vn_runs r = [] ->
  exists outcome, begun (req, outcome) (startAndWait env req r).2 /\
    ((startAndWait env req r).1.2 = None -> succeeded outcome).
Proof.
  intros Hr. unfold startAndWait. rewrite bind_run. cbn [now consult fst snd]. rewrite bind_run. cbn [get fst snd].
  rewrite bind_run. cbn [consult fst snd]. set (outcome := env_start env _ _ req). exists outcome.
  rewrite bind_run. cbn [modify fst snd]. set (r1 := upd_field vn_runs _ _).
  assert (begun (req, outcome) r1) as H1 by (unfold begun; cbn; by rewrite Hr). clearbody r1.
  destruct outcome as [e|events result waitErr]; cbv zeta.
  - rewrite bind_run. split; [exact H1|]. cbn [ret fst snd]. intros E.
    by destruct (ensureSDKError_is_Some e "validation start") as [e' He]; rewrite He in E.
  - rewrite !bind_run. cbn [modify ret fst snd]. split.
    + pose proof (begun_forwardEvents env (req, Ran events result waitErr) events (setCurrent (length (vn_runs r)) r1) H1) as H2.
      unfold clearCurrent. by case_decide.
    + destruct waitErr as [e|]; [|by intros _; exists events, result].
      destruct (res_Err result) eqn:E; [by rewrite E|]. intros E'.
      change (ensureSDKError (Some e) "validation wait" = None) in E'.
      by destruct (ensureSDKError_is_Some e "validation wait") as [e' He]; rewrite He in E'.
Qed.

Lemma repair_permissions req config q : cfg_OverrideRequest config = None ->
  (exists ctx, q = repairRequest req config ctx \/
     q = (repairRequest req config ctx) <| req_SessionAction := SessionActionFresh |> <| req_SessionID := "" |>) ->
  req_PermissionPolicy q = req_PermissionPolicy req.
Proof.
  intros Ho (ctx & Hq). destruct (repairRequest_same_authority req config ctx Ho) as [(Hp & _) _]. by destruct Hq as [-> | ->].
Qed.

(** What a validated run hands to the runtime. *)
Lemma validating_run_requests env files specs counter v req fuel r :
  cfg_OverrideRequest (spec_Repair (vn_spec r)) = None ->
  ValidatingRuntime_run env files specs counter v req fuel = inr (Some r) ->
  Forall (fun started => req_PermissionPolicy started.1 = req_PermissionPolicy req) (vn_runs r) /\
  (vn_waitErr r = None -> exists started, started ∈ vn_runs r /\ succeeded started.2).
Proof.
  intros Ho H. destruct (run_spec _ _ _ _ _ _ _ _ H) as (_ & _ & Hspec & reqs & Hfrom & Hst). rewrite <-Hspec in Hfrom.
  split.
  { assert (Forall (fun q => req_PermissionPolicy q = req_PermissionPolicy req) (vn_starts r)) as Hall.
    { rewrite Hst. constructor; [done|]. eapply Forall_impl; [exact Hfrom|]. intros q Hq.
      by rewrite (repair_permissions _ _ _ Ho Hq). }
    by apply Forall_map in Hall. }
  revert H. unfold ValidatingRuntime_run, ValidatingRuntime_StartRun. destruct (vrt_Runtime v) as [rt|]; [|done].
  set (r0 := mkvalidationRun _ rt _ req _ _ _ _ _ _ _ _ _). unfold execute. rewrite bind_run. cbn [get fst snd].
  set (req0 := upd_field req_Validation _ _). rewrite bind_run.
  destruct (startAndWait_logged env req0 r0 eq_refl) as (outcome & Hb & Hs).
  pose proof (startAndWait_spec env req0 r0) as He.
  destruct (startAndWait env req0 r0) as [[result err] r1]. cbn [fst snd] in *. destruct He as [_ He].
  rewrite He. rewrite bind_run. destruct err as [e|].
  - rewrite bind_run. cbn. by intros [= <-].
  - pose proof (begun_execute_loop env files _ fuel 0 req0 result [] [] r1 Hb) as Hl.
    destruct (execute_loop env files fuel 0 req0 result [] [] r1) as [[] r2]; [|done]. cbn. intros [= <-] _.
    exists (req0, outcome). split; [|by apply Hs]. unfold begun in Hl. cbn [snd] in Hl.
    change (vn_runs (r2 <| vn_done := true |>)) with (vn_runs r2).
    destruct (vn_runs r2); [done|]. injection Hl as ->. by left.
Qed.
