(* ===== verification/ToolEvents.v ===== *)
(** * events.go: tool observations, from the adapter to the consumer

    An adapter adds what it knows of a tool call to the payload of an event, and
    the consumer reads it back with [ToolObservation]. What is read is what was
    added, with credentials redacted; where the adapter knew nothing, the
    provider's own field of that name shows through as it is. *)
From S2P Require Import Prelude GoStd Types Redact Errors Events Json OpenCodeDecoder OpenCodeProjector.
#[local] Open Scope string_scope.

(** A field the observation sets, or what the provider filed under its key. *)
Definition or_native (values : EventPayload) (key : string) (value : any) : any :=
  if is_nil value then any_at values key else redactMetadataValue value.

(** What a consumer reads of [tool] after it was added to [values]. *)
Definition seen_as (values : EventPayload) (tool : ToolObservation) : ToolObservation :=
  let text key := stringPayloadValue (any_at values key) in
  mkToolObservation
    (or_else (to_CallID tool) (text ToolCallIDPayloadKey))
    (or_else (to_Name tool) (or_else (text ToolNamePayloadKey) (text "tool")))
    (or_else (to_Status tool) (text ToolStatusPayloadKey))
    (or_native values ToolArgumentsPayloadKey (to_Arguments tool))
    (or_native values ToolResultPayloadKey (to_Result tool))
    (or_native values ToolErrorPayloadKey (to_Error tool)).

(** The observation says something. *)
Definition reports (tool : ToolObservation) : bool :=
  negb (to_CallID tool =s "") || negb (to_Name tool =s "")
  || negb (is_nil (to_Arguments tool)) || negb (is_nil (to_Result tool)) || negb (is_nil (to_Error tool)).

Definition redacted (tool : ToolObservation) : ToolObservation :=
  tool <| to_Arguments ::= redactMetadataValue |> <| to_Result ::= redactMetadataValue |> <| to_Error ::= redactMetadataValue |>.

(** What was added to a payload, read back by key. *)
Lemma added_text values tool key (field : string) :
  (key, field) ∈ [(ToolCallIDPayloadKey, to_CallID tool); (ToolNamePayloadKey, to_Name tool); ("tool", to_Name tool);
                  (ToolStatusPayloadKey, to_Status tool)] ->
  any_at (EventPayloadWithToolObservation values tool) key = if negb (field =s "") then AString field else any_at values key.
Proof.
  intros H. assert (forall k, any_at (Some (default ∅ values : gmap string any)) k = any_at values k) as E by (by destruct values).
  apply list_elem_of_In in H. destruct H as [[= <- <-]|[[= <- <-]|[[= <- <-]|[[= <- <-]|[]]]]];
    unfold EventPayloadWithToolObservation; cbv zeta; rewrite !any_at_put_if, E; cbn -[any_at negb]; by rewrite ?andb_false_r, ?andb_true_r.
Qed.

Lemma added_value values tool key (field : any) :
  (key, field) ∈ [(ToolArgumentsPayloadKey, to_Arguments tool); (ToolResultPayloadKey, to_Result tool); (ToolErrorPayloadKey, to_Error tool)] ->
  any_at (EventPayloadWithToolObservation values tool) key = or_native values key field.
Proof.
  intros H. assert (forall k, any_at (Some (default ∅ values : gmap string any)) k = any_at values k) as E by (by destruct values).
  unfold or_native. apply list_elem_of_In in H. destruct H as [[= <- <-]|[[= <- <-]|[[= <- <-]|[]]]];
    unfold EventPayloadWithToolObservation; cbv zeta; rewrite !any_at_put_if, E; cbn -[any_at negb]; rewrite ?andb_false_r, ?andb_true_r;
    by destruct (is_nil _).
Qed.

Lemma tool_observation_seen values tool event :
  ev_Payload event = EventPayloadWithKind EventTool (EventPayloadWithToolObservation values tool) ->
  Event_ToolObservation event = (seen_as values tool, reports (seen_as values tool)).
Proof.
  intros Hp. assert (Event_Kind event = EventTool) as Hk.
  { unfold Event_Kind. rewrite Hp. rewrite any_at_kind. reflexivity. }
  unfold Event_ToolObservation. rewrite Hk, Hp. change (negb (EventTool =s EventTool)) with false. cbv iota.
  change (EventPayloadWithKind EventTool (EventPayloadWithToolObservation values tool)) with
    (Some (<[eventKindPayloadKey := ANamed "EventKind" EventTool]> (default ∅ (EventPayloadWithToolObservation values tool)))) at 1.
  cbv iota. rewrite !any_at_kind. cbn -[any_at].
  rewrite (added_text values tool ToolCallIDPayloadKey (to_CallID tool)) by set_solver.
  rewrite (added_text values tool ToolNamePayloadKey (to_Name tool)) by set_solver.
  rewrite (added_text values tool "tool" (to_Name tool)) by set_solver.
  rewrite (added_text values tool ToolStatusPayloadKey (to_Status tool)) by set_solver.
  rewrite (added_value values tool ToolArgumentsPayloadKey (to_Arguments tool)) by set_solver.
  rewrite (added_value values tool ToolResultPayloadKey (to_Result tool)) by set_solver.
  rewrite (added_value values tool ToolErrorPayloadKey (to_Error tool)) by set_solver.
  unfold seen_as, or_else. cbv zeta.
  destruct (to_CallID tool =s "") eqn:E1, (to_Name tool =s "") eqn:E2, (to_Status tool =s "") eqn:E3; cbn -[any_at or_native];
    rewrite ?E2; try reflexivity; by case_match.
Qed.

Lemma seen_redacted values tool : (forall key, key ∈ tool_keys -> any_at values key = ANil) -> seen_as values tool = redacted tool.
Proof.
  intros H. unfold seen_as, or_native, redacted. rewrite !H by (vm_compute; set_solver).
  assert (forall s, or_else s "" = s) as Ht by (intros s; unfold or_else; by destruct (String.eqb_spec s "")).
  assert (forall v, (if is_nil v then ANil else redactMetadataValue v) = redactMetadataValue v) as Hv by (by intros []).
  cbn [stringPayloadValue]. rewrite (Ht ""), !Ht, !Hv. by destruct tool.
Qed.


(** ** Tool calls in the output of OpenCode *)

(** The event of a record that is a tool call. *)
Lemma native_tool_observation classifyData inp :
  let data := nr_Data (in_record inp) in
  let seen := seen_as (Some (as_any_map data)) (toolObservationFrom data) in
  fst (kind_and_evidence (in_record inp)) = EventTool ->
  Event_ToolObservation (pj_event (projectNative classifyData inp)) = (seen, reports seen).
Proof.
  cbv zeta. intros Hk. unfold projectNative. destruct (kind_and_evidence (in_record inp)) as [kind evidence]. cbn [fst] in Hk. subst kind.
  set (data := nr_Data (in_record inp)). set (base := put_if (negb (finishReasonFrom data =s "")) "finish_reason" (AString (finishReasonFrom data)) (<["context" := AContext (in_ctx inp)]> (<["turn_id" := AString (in_turnID inp)]>
    (<["line" := AInt64 (nr_Line (in_record inp))]> (<["native_type" := AString (nr_Type (in_record inp))]>
      (delete "timestamp" (delete "type" (as_any_map data)))))))).
  assert (seen_as (Some (as_any_map data)) (toolObservationFrom data) = seen_as (Some base) (toolObservationFrom data)) as ->.
  2: { apply tool_observation_seen. reflexivity. }
  assert (forall key, key ∈ tool_keys -> any_at (Some base) key = any_at (Some (as_any_map data)) key) as Hb.
  { intros key Hin. unfold tool_keys in Hin. apply list_elem_of_In in Hin. subst base.
    repeat (destruct Hin as [<-|Hin]; [rewrite any_at_put_if, !any_at_insert; cbn -[lookup delete insert]; rewrite ?andb_false_r; cbn; by rewrite !lookup_delete_ne by done|]). by destruct Hin. }
  unfold seen_as, or_native. by rewrite !Hb by (vm_compute; set_solver).
Qed.

(** A record can file arguments under the key of the observation itself: if it has
    none under the names that adapters know, they are shown as they are, with the
    credential in them. *)
Definition unredacted_record : nativeRecord :=
  mknativeRecord "tool_use" ANil "ses_1"
    [("type", AString "tool_use"); ("tool", AString "fetch"); ("tool_arguments", AMap [("api_key", AString "sk-1")])] "" 1.

Lemma unredacted_arguments classifyData id turn ctx seq at_ :
  let event := pj_event (projectNative classifyData (mkprojectionInput id turn ctx seq at_ unredacted_record)) in
  let '(seen, ok) := Event_ToolObservation event in
  ok = true /\ to_Name seen = "fetch" /\ to_Arguments seen = AMap [("api_key", AString "sk-1")] /\ ~ hidden (to_Arguments seen).
Proof.
  cbv zeta. rewrite native_tool_observation by reflexivity. split; [reflexivity|]. split; [reflexivity|].
  split; [reflexivity|]. vm_compute. by intros [[=] _].
Qed.

(** A call with a credential in its arguments and a result of plain text. *)
Definition sample_tool : ToolObservation :=
  zero <| to_CallID := "call_1" |> <| to_Name := "fetch" |>
       <| to_Arguments := AMap [("url", AString "http://x"); ("headers", AMap [("Authorization", AString "Basic 1")])] |>
       <| to_Result := AString "ok" |>.

