(* ===== verification/Stack.v ===== *)
(** * Stacks of runtimes: the wrappers around OpenCode

    A policy runner, a validating and an observing runtime wrap a runtime and
    are runtimes themselves; under them are adapters that start OpenCode
    processes. [delivers] says what a stack of any shape makes of a request and
    which processes were asked for on the way; the theorems are about all of
    them at once, by induction on the stack. *)
From Stdlib Require Import Floats.SpecFloat.
From S2P Require Import Prelude GoStd Types Errors Events Json GoFmt JsonRoundTrip Permissions Policy Environment PolicyRunner Validation ValidatingRuntime Observing OpenCodePermissions OpenCodeDecoder OpenCodeProcess OpenCodeOptions OpenCodeSpawn OpenCodeConfig OpenCodeHealth OpenCodeRun OpenCodeStart OpenCodeOutcome OpenCodeRunInvariants PolicyRequests ValidatingRequests MemoryStore.
#[local] Open Scope string_scope.

(** A process an adapter asked for, what it writes on its standard output if it is
    started, and its finished run if it was. *)
Record agent := mkagent {
  ag_runtime : Runtime;
  ag_spec : processSpec;
  ag_output : Stdout;
  ag_run : option OpenCodeRun.run
}.

(** [StartRun] of the adapter and the run it starts, to its end. *)
Definition opencode_run (r : Runtime) (se : StartEnv) (env : runEnv) (req : RunRequest)
    : option (RunOutcome * list agent) :=
  match StartRun r se req with
  | (StartError err, trace) =>
      Some (StartFailed (ESDK err), map (fun spec => mkagent r spec (oe_stdout env) None) (tr_launched trace))
  | (StartPanic, _) => None
  | (Started cfg permissions, trace) =>
      let handle := finished_handle cfg env permissions in
      let '(result, err) := OpenCodeRun.run_Wait handle None in
      Some (Ran (map snd (run_sent handle)) result err,
            map (fun spec => mkagent r spec (oe_stdout env) (Some handle)) (tr_launched trace))
  end.

(** A stack of runtimes delivers an outcome for a request. Its policies respect
    the permissions of the request and its repairs are not overridden; the
    runs of a wrapper are those of runtimes below it. *)
Inductive delivers : RunRequest -> RunOutcome -> list agent -> Prop :=
| delivers_opencode r se env req outcome agents :
    opencode_run r se env req = Some (outcome, agents) -> delivers req outcome agents
| delivers_policy env c runner req fuel result err r agents :
    PolicyRunner_run env c runner req fuel = inr (Some (result, err, r)) ->
    RespectsPermissions (effective_policy env runner) ->
    length agents = length (pr_runs r) ->
    (forall i q outcome l, pr_runs r !! i = Some (q, outcome) -> agents !! i = Some l -> delivers q outcome l) ->
    delivers req (Ran (pr_events r) result (ESDK <$> err)) (concat agents)
| delivers_validating env files specs c v req fuel r agents :
    ValidatingRuntime_run env files specs c v req fuel = inr (Some r) ->
    cfg_OverrideRequest (spec_Repair (vn_spec r)) = None ->
    length agents = length (vn_runs r) ->
    (forall i q outcome l, vn_runs r !! i = Some (q, outcome) -> agents !! i = Some l -> delivers q outcome l) ->
    delivers req (Ran (vn_events r) (vn_result r) (ESDK <$> vn_waitErr r)) (concat agents)
| delivers_observing {Store Sink} `{!RunStore Store, !EventSink Sink} env start
    (o : ObservingRuntime (Store := Store) (Sink := Sink)) req fuel result err r agents :
    ObservingRuntime_run env start o req fuel = inr (Some (result, err), r) ->
    (forall rt inner, or_Runtime o = Some rt -> start rt req = inr inner ->
       delivers req (Ran (run_Events inner) (fst (Observing.run_Wait inner)) (snd (Observing.run_Wait inner))) agents) ->
    delivers req (Ran (ob_events r) result err) agents
| delivers_refused_policy env c runner req fuel err :
    PolicyRunner_run env c runner req fuel = inl err -> delivers req (StartFailed (ESDK err)) []
| delivers_refused_validating env files specs c v req fuel err :
    ValidatingRuntime_run env files specs c v req fuel = inl err -> delivers req (StartFailed (ESDK err)) []
| delivers_refused_observing {Store Sink} `{!RunStore Store, !EventSink Sink} env start
    (o : ObservingRuntime (Store := Store) (Sink := Sink)) req fuel err agents :
    ObservingRuntime_run env start o req fuel = inl err ->
    (or_Runtime o = None -> agents = []) ->
    (forall rt, or_Runtime o = Some rt -> delivers req (StartFailed err) agents) ->
    delivers req (StartFailed err) agents.

(** ** Permissions *)

(** The configuration a translation makes depends on the policy alone. *)
Lemma translate_tools_same behavior tools explicit st st' :
  pt_config st' = pt_config st ->
  match translate_tools behavior tools explicit st, translate_tools behavior tools explicit st' with
  | inl err, inl err' => err' = err
  | inr t, inr t' => pt_config t' = pt_config t
  | _, _ => False
  end.
Proof.
  revert explicit st st'. induction tools as [|[tool action] tools IH]; intros explicit st st' E; [exact E|].
  cbn [translate_tools]. destruct (map_get opencodePermissionTools tool) as [native|].
  - destruct (action =s _); [by apply IH|]. destruct (map_get explicit native) as [previous|].
    + destruct (negb _); [done|]. apply IH. cbn. by rewrite E.
    + apply IH. cbn. by rewrite E.
  - cbv zeta. destruct (negb _); [done|]. by apply IH.
Qed.

Lemma path_rules_same rules st st' : pt_config st' = pt_config st ->
  pt_config (foldl add_path_rule st' rules) = pt_config (foldl add_path_rule st rules).
Proof.
  revert st st'. induction rules as [|rule rules IH]; intros st st' E; [exact E|]. apply IH. cbn. by rewrite E.
Qed.

Lemma translate_same req req' : req_PermissionPolicy req' = req_PermissionPolicy req ->
  match translatePermissions req, translatePermissions req' with
  | inl err, inl err' => err' = err
  | inr t, inr t' => pt_config t' = pt_config t
  | _, _ => False
  end.
Proof.
  intros E. unfold translatePermissions. rewrite E. destruct (req_PermissionPolicy req) as [policy|]; [|done].
  destruct (ValidatePermissionPolicy _); [done|]. cbv zeta.
  assert (forall m m', pt_config (expand_default (pp_Default policy) (mkpermissionTranslation [] m')) =
                       pt_config (expand_default (pp_Default policy) (mkpermissionTranslation [] m))) as Hc
    by (intros; unfold expand_default; by case_match).
  pose proof (translate_tools_same (pp_UnsupportedBehavior policy) (pp_Tools policy) [] _ _ (Hc
    ((zero : PermissionMetadata) <| pmd_Mode := req_Permissions req |> <| pmd_Policy := Summary policy |> <| pmd_PolicyID := pps_ID (Summary policy) |>)
    ((zero : PermissionMetadata) <| pmd_Mode := req_Permissions req' |> <| pmd_Policy := Summary policy |> <| pmd_PolicyID := pps_ID (Summary policy) |>))) as H.
  revert H. destruct (translate_tools _ _ _ _), (translate_tools _ _ _ _); try done. apply path_rules_same.
Qed.

(** A process is guarded when, on every platform, the settings it decodes ask for
    the permissions; this takes numbers that read back in the settings its
    adapter was given. *)
Definition guarded (t : permissionTranslation) (a : agent) : Prop :=
  readable_settings (rt_env (ag_runtime a)) -> forall p x cmd,
    OpenCodeProcess.Start p x (ag_spec a) = inr cmd -> enforces (pt_config t) (child_environ x cmd).

Definition permitted (req : RunRequest) (agents : list agent) : Prop :=
  match translatePermissions req with
  | inl _ => agents = []
  | inr t => pt_config t = [] \/ Forall (guarded t) agents
  end.

Lemma permitted_nil req : permitted req [].
Proof. unfold permitted. destruct (translatePermissions req); [done|]. right. constructor. Qed.

Lemma permitted_same req q agents : req_PermissionPolicy q = req_PermissionPolicy req ->
  permitted q agents -> permitted req agents.
Proof.
  intros E. pose proof (translate_same req q E) as H. unfold permitted, guarded. revert H.
  destruct (translatePermissions req), (translatePermissions q); try done. by intros ->.
Qed.

(** The processes of a wrapper are those of the runs it started. *)
Lemma permitted_runs req (runs : list (RunRequest * RunOutcome)) agents :
  Forall (fun started => req_PermissionPolicy started.1 = req_PermissionPolicy req) runs ->
  length agents = length runs ->
  (forall i q outcome l, runs !! i = Some (q, outcome) -> agents !! i = Some l -> permitted q l) ->
  permitted req (concat agents).
Proof.
  intros Hruns Hlen H. assert (Forall (permitted req) agents) as Hall.
  { apply Forall_lookup. intros i l Hl. destruct (lookup_lt_is_Some_2 runs i) as [[q outcome] Hi];
      [rewrite <-Hlen; by eapply lookup_lt_Some|].
    apply (permitted_same req q); [exact (proj1 (Forall_lookup _ _) Hruns _ _ Hi)|]. by eapply H. }
  clear -Hall. induction Hall as [|l agents Hl _ IH]; [apply permitted_nil|]. cbn [concat]. revert Hl IH. unfold permitted.
  destruct (translatePermissions req) as [|t]; [by intros -> ->|].
  intros [|Hl] [|Hc]; [by left..|]. right. by apply Forall_app.
Qed.

Lemma opencode_permitted r se env req outcome agents :
  opencode_run r se env req = Some (outcome, agents) -> permitted req agents.
Proof.
  unfold opencode_run, StartRun. destruct (request_directive req) as [err|req'] eqn:Hd; [by intros [= _ <-]; apply permitted_nil|].
  apply request_directive_same in Hd.
  destruct (request_error req'); [by intros [= _ <-]; apply permitted_nil|].
  destruct (requiredPreflight _ _ _ _ _).1; [by intros [= _ <-]; apply permitted_nil|].
  destruct (translatePermissions req') as [err|t] eqn:Ht; [by intros [= _ <-]; apply permitted_nil|].
  unfold launch. destruct (Runtime_processSpec r (se_temp se) req' t) as [spec dir|err|] eqn:Hs;
    [|by intros [= _ <-]; apply permitted_nil|done].
  assert (forall run, permitted req [mkagent r spec (oe_stdout env) run]) as H.
  { intros h. apply (permitted_same req req'); [by rewrite Hd|]. unfold permitted. rewrite Ht.
    destruct (decide (pt_config t = [])) as [|Hne]; [by left|]. right. apply Forall_singleton. intros Hread p x cmd Hcmd.
    by eapply process_enforces. }
  destruct (se_start se spec); [by intros [= _ <-]|].
  destruct (OpenCodeRun.run_Wait _ _). intros [= _ <-]. apply H.
Qed.


(** ** Outcomes *)

(** A started process is cleaned up once, and its run is over. *)
Definition over (a : agent) : Prop :=
  match ag_run a with
  | Some handle => run_cancels handle = 1 /\ Terminal (run_lifecycle handle) = true /\ is_Some (run_result handle)
  | None => True
  end.

(** A process that completed its run. *)
Definition completed_agent (a : agent) : Prop :=
  exists handle res, ag_run a = Some handle /\ run_result handle = Some (res, None) /\ res_Status res = StatusCompleted.

Definition backed (outcome : RunOutcome) (agents : list agent) : Prop :=
  Forall over agents /\ (succeeded outcome -> Exists completed_agent agents).

Lemma started_launched r se req cfg permissions trace :
  StartRun r se req = (Started cfg permissions, trace) -> exists spec, tr_launched trace = [spec].
Proof.
  unfold StartRun. destruct (request_directive req) as [|req']; [done|]. destruct (request_error req'); [done|].
  destruct (requiredPreflight _ _ _ _ _).1; [done|]. destruct (translatePermissions req'); [done|].
  unfold launch. destruct (Runtime_processSpec _ _ _ _) as [spec| |]; [|done..].
  destruct (se_start se spec); [done|]. intros [= _ _ <-]. by exists spec.
Qed.

Lemma opencode_backed r se env req outcome agents :
  opencode_run r se env req = Some (outcome, agents) -> backed outcome agents.
Proof.
  unfold opencode_run. destruct (StartRun r se req) as [[err| |cfg permissions] trace] eqn:Hs; [|done|].
  - intros [= <- <-]. split; [|by intros (? & ? & ?)]. by apply Forall_map, Forall_true.
  - destruct (started_launched _ _ _ _ _ _ Hs) as [spec ->].
    destruct (settled_finished cfg env permissions) as (res & err & Hres & [_ [Ht _] _ _ Hc] & (_ & Hiff & Herr) & _).
    set (handle := finished_handle cfg env permissions) in *. unfold OpenCodeRun.run_Wait. rewrite Hres.
    intros [= <- <-]. split.
    + apply Forall_singleton. cbn. split; [|by rewrite Hres]. unfold cleaned_in in Hc.
      destruct (run_cleanup handle); [by destruct Hc|done].
    + intros (events & result & [= _ <- ->]). apply Exists_cons. left. exists handle, res.
      split; [done|]. split; [exact Hres|]. apply Hiff. cbn [fst snd] in *. by destruct (res_Err res).
Qed.

(** The agents of runs that are backed, one of which succeeded if the wrapper did. *)
Lemma backed_runs outcome (runs : list (RunRequest * RunOutcome)) agents :
  (succeeded outcome -> exists started, started ∈ runs /\ succeeded started.2) ->
  length agents = length runs ->
  (forall i q o l, runs !! i = Some (q, o) -> agents !! i = Some l -> backed o l) ->
  backed outcome (concat agents).
Proof.
  intros Hs Hlen H. split.
  - assert (Forall (Forall over) agents) as Hall.
    { apply Forall_lookup. intros i l Hl. destruct (lookup_lt_is_Some_2 runs i) as [[q o] Hi];
        [rewrite <-Hlen; by eapply lookup_lt_Some|]. by eapply H. }
    clear -Hall. induction Hall; cbn; [constructor|by apply Forall_app].
  - intros Hok. destruct (Hs Hok) as ([q o] & (i & Hi)%list_elem_of_lookup & Ho).
    destruct (lookup_lt_is_Some_2 agents i) as [l Hl]; [rewrite Hlen; by eapply lookup_lt_Some|].
    destruct (H i q o l Hi Hl) as [_ He]. apply Exists_exists.
    apply Exists_exists in He as (a & Ha & Hc); [|exact Ho].
    exists a. split; [|done]. apply list_elem_of_In, in_concat. exists l. split; apply list_elem_of_In; [|done].
    by eapply list_elem_of_lookup_2.
Qed.

(** C2: a stack that reports success has a process behind it. Every process that
    was started for a request is cleaned up exactly once and its run is over, with
    a terminal status and an answer, when the outermost runtime answers; and if
    that answer has no error, at least one of these processes completed its run
    without one. No wrapper makes up a success. *)
Theorem stack_success_backed req outcome agents : delivers req outcome agents ->
  Forall over agents /\ (succeeded outcome -> Exists completed_agent agents).
Proof.
  intros H. change (backed outcome agents). induction H.
  - by eapply opencode_backed.
  - eapply backed_runs; [|eassumption..]. intros (? & ? & [= _ _ Herr]).
    eapply policy_run_requests; [exact H0|exact H|by destruct err].
  - eapply backed_runs; [|eassumption..]. intros (? & ? & [= _ _ Herr]).
    eapply validating_run_requests; [exact H0|exact H|by destruct (vn_waitErr r)].
  - destruct (run_answer _ _ _ _ _ _ _ _ H) as (rt & inner & record & Hrt & Hst & _ & Herr & _).
    destruct (H1 rt inner Hrt Hst) as [Ho Hs]. split; [exact Ho|]. intros (? & ? & [= _ _ E]). apply Hs.
    rewrite E in Herr. unfold mergeRequiredObserverError in Herr.
    destruct (snd (Observing.run_Wait inner)); [done|]. by eexists _, _.
  - split; [constructor|by intros (? & ? & ?)].
  - split; [constructor|by intros (? & ? & ?)].
  - destruct (or_Runtime o) as [rt|]; [by eauto|]. rewrite H0 by done. split; [constructor|by intros (? & ? & ?)].
Qed.

(** ** A stack *)
Definition sample_start : StartEnv :=
  mkStartEnv healthy_env [] spawn_fs 1%Z 5%Z [] (fun _ => []) (fun _ => None).

(** An adapter with settings of its own and a snapshot setting. *)
Definition sample_settings_env : list string :=
  ["HOME=/root"; opencodeConfigContentEnv +:+ json.with_quotes "{`permission`: {`bash`: `allow`}, `zoom`: 0.5}"].
Definition sample_runtime : Runtime := NewRuntime [WithEnv sample_settings_env; WithSnapshots false].
Definition sample_delivery : RunOutcome * list agent :=
  default (StartFailed ECanceled, []) (opencode_run sample_runtime sample_start (sample_env 1000) deny_shell).

(** A policy runner that started one run, which a runtime below it delivered. *)
Lemma policy_over env c runner req fuel o l :
  match PolicyRunner_run env c runner req fuel with
  | inr (Some (_, None, r)) => pr_runs r = [(req, o)]
  | _ => False
  end ->
  RespectsPermissions (effective_policy env runner) -> delivers req o l ->
  exists outcome, succeeded outcome /\ delivers req outcome l.
Proof.
  destruct (PolicyRunner_run env c runner req fuel) as [|[[[res [e|]] r]|]] eqn:E; [done..| |done].
  intros Hr Hp Hd. exists (Ran (pr_events r) res None). split; [by eexists _, _|].
  assert (l = concat [l]) as -> by (symmetry; apply app_nil_r).
  apply (delivers_policy env c runner req fuel res None r [l] E Hp); [by rewrite Hr|].
  intros i q outcome l'. rewrite Hr. destruct i; [|done]. by intros [= <- <-] [= <-].
Qed.

Definition stacked_env : RunEnv :=
  mkRunEnv Z.of_nat None (fun _ _ _ => fst sample_delivery) (fun _ _ => None) (fun _ => true) (fun _ => true).

(** A policy runner around the adapter. *)
Lemma stacked_delivers : exists outcome, succeeded outcome /\ delivers deny_shell outcome (snd sample_delivery).
Proof.
  apply (policy_over stacked_env 1 (mkPolicyRunner (Some 1%positive) [] None) deny_shell 1 (fst sample_delivery)).
  - vm_compute. reflexivity.
  - apply basic_policy_respects.
  - apply (delivers_opencode sample_runtime sample_start (sample_env 1000)). vm_compute. reflexivity.
Qed.

Lemma sample_readable : Forall (fun a => readable_settings (rt_env (ag_runtime a))) (snd sample_delivery).
Proof.
  apply (Forall_map (fun a => rt_env (ag_runtime a)) readable_settings).
  assert (map (fun a => rt_env (ag_runtime a)) (snd sample_delivery) = [sample_settings_env]) as ->
    by (vm_compute; reflexivity).
  apply Forall_singleton. unfold readable_settings.
  assert (split_config sample_settings_env [] (Some []) = Some (["HOME=/root"],
    Some [("permission", AMap [("bash", AString "allow")]); ("zoom", AFloat64 (S754_finite false 4503599627370496 (-53)))]))
    as -> by (vm_compute; reflexivity).
  repeat match goal with
    | |- NoDup _ => apply (bool_decide_eq_true_1 (NoDup _)); vm_compute; reflexivity
    | |- readable _ => vm_compute; reflexivity
    | |- Forall _ _ => constructor
    | |- shaped _ _ _ => constructor
    end.
Qed.


Lemma stack_success_backed_witness : Exists completed_agent (snd sample_delivery).
Proof.
  destruct stacked_delivers as (outcome & Hs & H). exact (proj2 (stack_success_backed _ _ _ H) Hs).
Defined.
