(* ===== verification/StackEvents.v ===== *)
(** * Where the events of a stack come from

    A wrapper hands on the events of the runs it starts and adds its own. What
    it hands on keeps what it says: type, kind, session, raw record, and the
    payload but for the wrapper's own keys. So a raw record that reaches the
    consumer of a stack was written by one of its processes. *)
From S2P Require Import Prelude GoStd Types Errors Events Policy Environment PolicyRunner Validation ValidatingRuntime MemoryStore Observing OpenCodePermissions OpenCodeDecoder OpenCodeProjector OpenCodeRun OpenCodeStart OpenCodeOutcome OpenCodeRunInvariants OpenCodeEventTypes OpenCodeProvenance ToolEvents PolicyRequests Stack.
#[local] Open Scope string_scope.

(** The keys with which wrappers mark the events they hand on. *)
Definition wrapper_keys : list string := ["policy_run_id"; "attempt"; "target_index"; "inner_run_id"].

(** [out] is [src] as wrappers hand it on. *)
Record handed_on (src out : Event) : Prop := mkhanded_on {
  handed_type : ev_Type out = ev_Type src;
  handed_session : ev_SessionID out = ev_SessionID src;
  handed_raw : ev_Raw out = ev_Raw src;
  handed_payload : forall k, k ∉ wrapper_keys -> any_at (ev_Payload out) k = any_at (ev_Payload src) k
}.

#[global] Instance handed_on_preorder : PreOrder handed_on.
Proof.
  split; [by intros e|]. intros a b c [H1 H2 H3 H4] [K1 K2 K3 K4].
  split; [congruence..|]. intros k Hk. by rewrite K4, H4.
Qed.

Lemma handed_kind src out : handed_on src out -> Event_Kind out = Event_Kind src.
Proof.
  intros [_ _ _ H]. assert (eventKindPayloadKey ∉ wrapper_keys) as Hk by (vm_compute; set_solver).
  specialize (H _ Hk). unfold Event_Kind, any_at in *.
  destruct (ev_Payload out), (ev_Payload src); try (rewrite H; done); try done.
  all: revert H; case_match; intros; simplify_eq; done.
Qed.

(** Tool calls are read alike on every level. *)
Lemma handed_tool src out : handed_on src out -> Event_ToolObservation out = Event_ToolObservation src.
Proof.
  intros H. unfold Event_ToolObservation. rewrite (handed_kind _ _ H).
  destruct (Event_Kind src =s EventTool) eqn:E; [|done]. cbn [negb].
  assert (forall e, Event_Kind e = EventTool -> exists m, ev_Payload e = Some m) as Hm.
  { intros e. unfold Event_Kind. destruct (ev_Payload e); [by eauto|done]. }
  apply String.eqb_eq in E. destruct (Hm src E) as [m Em], (Hm out (eq_trans (handed_kind _ _ H) E)) as [m' Em'].
  rewrite Em, Em'. cbv zeta. rewrite <-Em, <-Em'. rewrite !(handed_payload _ _ H) by (vm_compute; set_solver). done.
Qed.

(** The kinds of the events that wrappers add, which have no raw record. *)
Definition wrapper_kinds : list EventKind := [EventRateLimit; EventRetry; EventFallback; EventLifecycle; EventValidation].
Definition own (event : Event) : Prop := ev_Raw event = None /\ Event_Kind event ∈ wrapper_kinds.

Lemma own_event event kind payload : ev_Raw event = None -> ev_Payload event = EventPayloadWithKind kind payload ->
  kind ∈ wrapper_kinds -> own event.
Proof.
  intros Hr Hp Hk. split; [exact Hr|]. assert (any_at (ev_Payload event) eventKindPayloadKey = ANamed "EventKind" kind) as E
    by (rewrite Hp; cbn; by rewrite lookup_insert_eq).
  unfold Event_Kind. rewrite E, Hp. exact Hk.
Qed.

Ltac own_event := eapply own_event; [done|reflexivity|repeat case_match; apply list_elem_of_In; cbn; tauto].

(** An event comes from one of the runs in a log, or it is a wrapper's own. *)
Definition sourced (runs : list (RunRequest * RunOutcome)) (event : Event) : Prop :=
  own event \/
  exists q events result err src, (q, Ran events result err) ∈ runs /\ src ∈ events /\ handed_on src event.

Lemma sourced_mono runs runs' event : runs ⊆ runs' -> sourced runs event -> sourced runs' event.
Proof. intros H [E|(q & es & res & err & src & Hin & Hs)]; [by left|]. right. exists q, es, res, err, src. auto. Qed.

Lemma sourced_handed runs src out : handed_on src out -> sourced runs src -> sourced runs out.
Proof.
  intros H [[E1 E2]|(q & es & res & err & s & Hin & Hs & Hh)];
    [left; split; [by rewrite (handed_raw _ _ H)|by rewrite (handed_kind _ _ H)]|].
  right. exists q, es, res, err, s. split; [done|]. split; [done|]. by etrans.
Qed.

(** One more key of a wrapper. *)
Lemma any_at_mark payload key v k : key ∈ wrapper_keys -> k ∉ wrapper_keys ->
  any_at (Some (<[key := v]> (default ∅ payload))) k = any_at payload k.
Proof. intros Hkey Hk. rewrite any_at_insert, (proj2 (String.eqb_neq _ _)) by congruence. by destruct payload. Qed.

(** ** The policy runner *)
Section Policy.
Context (env : RunEnv) (policy : ResiliencePolicy).

Definition policy_sourced (known : list (RunRequest * RunOutcome)) (r : policyRun) : Prop :=
  Forall (sourced (pr_runs r)) (pr_events r) /\ known ⊆ pr_runs r.

Definition policy_log (r : policyRun) := (pr_events r, pr_runs r).

Lemma policy_keeps {A} known (m : St policyRun A) : keeps policy_log m -> preserves (policy_sourced known) m.
Proof.
  intros Hm r Hr. pose proof (keeps_spec m r Hm) as [= E1 E2]. unfold policy_sourced. by rewrite E1, E2.
Qed.

Lemma policy_consult {A} known (f : nat -> A) : preserves (policy_sourced known) (PolicyRunner.consult f).
Proof. intros r Hr. exact Hr. Qed.
#[local] Hint Resolve policy_consult : agentwrap.
#[local] Hint Extern 5 (preserves (policy_sourced _) (modify _)) => (apply policy_keeps; apply keeps_modify; intros ?; unfold PolicyRunner.clearCurrent, applyDecisionTarget; repeat case_match; done) : agentwrap.

Lemma policy_sendEvent known event :
  sourced known event -> preserves (policy_sourced known) (PolicyRunner.sendEvent env event).
Proof.
  intros He r [Hs Hk]. pose proof (sendEvent_spec env event r) as H.
  pose proof (keeps_spec _ r (trail_sendEvent env event)) as [= _ _ E].
  destruct (PolicyRunner.sendEvent env event r) as [[] r']. cbn [snd] in *. destruct H as (_ & _ & H).
  unfold policy_sourced. rewrite E. split; [|done].
  destruct H as [(out & (_ & _ & Ht & Hse & Hp & Hr) & -> & _)|[[-> _]|(_ & -> & _)]]; [|done..].
  apply Forall_app. split; [done|]. apply Forall_singleton. apply (sourced_mono known); [done|].
  eapply sourced_handed; [|exact He]. split; [done..|]. intros k _. by rewrite Hp.
Qed.

Lemma handed_annotate id attempt ti event : handed_on event (annotate id attempt ti event).
Proof.
  split; try done. intros k Hk. unfold annotate. cbn [ev_Payload upd_field].
  do 2 (rewrite any_at_insert, (proj2 (String.eqb_neq _ k)) by (intros <-; apply Hk; vm_compute; set_solver)).
  apply any_at_mark; [vm_compute; set_solver|done].
Qed.

Lemma policy_forward known events attempt ti : Forall (sourced known) events ->
  preserves (policy_sourced known) (PolicyRunner.forwardEvents env events attempt ti).
Proof.
  unfold PolicyRunner.forwardEvents. induction 1 as [|event events He _ IH]; cbn [iterM]; [apply preserves_ret|].
  apply preserves_bind; [|intros _; exact IH]. apply preserves_bind; [apply preserves_get|intros r].
  apply policy_sendEvent. eapply sourced_handed; [apply handed_annotate|exact He].
Qed.

Lemma policy_own known event : own event -> preserves (policy_sourced known) (PolicyRunner.sendEvent env event).
Proof. intros E. apply policy_sendEvent. by left. Qed.
#[local] Hint Extern 4 (preserves (policy_sourced _) (PolicyRunner.sendEvent _ _)) => (apply policy_own; own_event) : agentwrap.

Lemma policy_run_attempt known attempt ti req started :
  preserves (policy_sourced known) (run_attempt env attempt ti req started).
Proof.
  intros r Hr. unfold run_attempt. rewrite bind_run. cbn [get fst snd]. rewrite bind_run. cbn [PolicyRunner.consult fst snd].
  set (outcome := env_start env _ _ req). clearbody outcome. rewrite bind_run. cbn [modify fst snd]. set (r1 := upd_field pr_runs _ _).
  set (known' := (req, outcome) :: known).
  assert (policy_sourced known' r1) as H1.
  { destruct Hr as [Hs Hk]. split; cbn.
    - eapply Forall_impl; [exact Hs|]. intros e. apply sourced_mono. set_solver.
    - set_solver. }
  assert (forall r, policy_sourced known' r -> policy_sourced known r) as Hweak by (intros ? [? ?]; split; [done|set_solver]).
  apply Hweak. revert H1. generalize r1. clear r1 Hr r.
  refine (_ : preserves (policy_sourced known') (match outcome with StartFailed _ => _ | Ran _ _ _ => _ end)).
  destruct outcome as [e|events result err]; unfold PolicyRunner.now; preserve.
  apply policy_forward, Forall_forall. intros src Hsrc. right.
  exists req, events, result, err, src. split; [by left|]. done.
Qed.
#[local] Hint Resolve policy_run_attempt : agentwrap.

Lemma policy_recordDecision known attempt ti d ctx : preserves (policy_sourced known) (recordDecision env attempt ti d ctx).
Proof. unfold recordDecision. preserve. Qed.

Lemma policy_finish known result err exhausted reason : preserves (policy_sourced known) (PolicyRunner.finish env result err exhausted reason).
Proof. unfold PolicyRunner.finish, PolicyRunner.now. preserve. Qed.
#[local] Hint Resolve policy_recordDecision policy_finish : agentwrap.

Lemma policy_execute known fuel : preserves (policy_sourced known) (PolicyRunner.execute env policy fuel).
Proof.
  assert (forall ti req last, preserves (policy_sourced known) (PolicyRunner.execute_loop env policy fuel ti req last)) as Hl.
  { induction fuel as [|n IH]; intros; cbn [PolicyRunner.execute_loop]; [apply preserves_ret|].
    unfold execute_iteration, finishCancelled, execute_attempt, summarizeAttempt, policy_context, act_on_decision,
      apply_decision, PolicyRunner.ctx_Err, PolicyRunner.now. preserve. }
  unfold PolicyRunner.execute. preserve.
Qed.
End Policy.

Lemma policy_run_sourced env c runner req fuel result err r :
  PolicyRunner_run env c runner req fuel = inr (Some (result, err, r)) -> Forall (sourced (pr_runs r)) (pr_events r).
Proof.
  unfold PolicyRunner_run, PolicyRunner_StartRun. destruct (rn_Runtime runner) as [rt|]; [|done].
  set (r0 := mkpolicyRun _ _ _ _ _ _ _ _ _ _ _ _ _ _ _ _ _ _).
  pose proof (policy_execute env (effective_policy env runner) [] fuel r0) as H.
  destruct (PolicyRunner.execute env (effective_policy env runner) fuel r0) as [[] r']; [|done].
  destruct (policyRun_Wait None r') as [[res e]|]; [|done]. intros [= _ _ <-]. apply H. by split; [apply Forall_nil_2|apply list_subseteq_nil].
Qed.

(** ** The validating runtime *)
Section Validating.
Context (env : RunEnv) (files : nat -> FileSystem).

Definition validating_sourced (known : list (RunRequest * RunOutcome)) (r : validationRun) : Prop :=
  Forall (sourced (vn_runs r)) (vn_events r) /\ known ⊆ vn_runs r.

Lemma validating_consult {A} known (f : nat -> A) : preserves (validating_sourced known) (ValidatingRuntime.consult f).
Proof. intros r Hr. exact Hr. Qed.
#[local] Hint Resolve validating_consult : agentwrap.
#[local] Hint Extern 5 (preserves (validating_sourced _) (modify _)) => (apply preserves_modify; intros ? ?; unfold ValidatingRuntime.clearCurrent; repeat case_match; done) : agentwrap.

Lemma validating_stamp_handed event r : handed_on event (ValidatingRuntime.stamp_event env event r).1.
Proof.
  unfold ValidatingRuntime.stamp_event. rewrite bind_run. cbn [modify fst snd]. rewrite bind_run. cbn [get fst snd].
  set (event1 := event <| ev_ID ::= _ |>).
  set (event2 := if (ev_RunID event1 =s "") || _ then _ else event1).
  assert (handed_on event event2) as H2.
  { subst event2. destruct (_ || _); [|by subst event1]. split; try done. intros k Hk. cbn.
    apply (any_at_mark (ev_Payload event)); [vm_compute; set_solver|done]. }
  clearbody event2. destruct (time.IsZero _); [|exact H2]. rewrite bind_run. cbn. by destruct H2.
Qed.

Lemma validating_sendEvent known event :
  sourced known event -> preserves (validating_sourced known) (ValidatingRuntime.sendEvent env event).
Proof.
  intros He r Hr. unfold ValidatingRuntime.sendEvent. rewrite bind_run.
  pose proof (validating_stamp_handed event r) as Hh.
  assert (validating_sourced known (ValidatingRuntime.stamp_event env event r).2) as H1.
  { revert r Hr Hh. intros r Hr _. revert r Hr. change (preserves (validating_sourced known) (ValidatingRuntime.stamp_event env event)).
    unfold ValidatingRuntime.stamp_event, ValidatingRuntime.now. preserve. }
  destruct (ValidatingRuntime.stamp_event env event r) as [out r1]. cbn [fst snd] in *. rewrite bind_run.
  cbn [ValidatingRuntime.consult fst snd]. destruct (env_send env _); [|exact H1..].
  destruct H1 as [Hs Hk]. split; [|exact Hk]. cbn. apply Forall_app. split; [exact Hs|].
  apply Forall_singleton. apply (sourced_mono known); [exact Hk|]. by eapply sourced_handed.
Qed.

Lemma validating_own known event : own event ->
  preserves (validating_sourced known) (ValidatingRuntime.sendEvent env event).
Proof. intros E. apply validating_sendEvent. by left. Qed.
#[local] Hint Extern 4 (preserves (validating_sourced _) (ValidatingRuntime.sendEvent _ _)) => (apply validating_own; own_event) : agentwrap.

Lemma validating_forward known events : Forall (sourced known) events ->
  preserves (validating_sourced known) (ValidatingRuntime.forwardEvents env events).
Proof.
  unfold ValidatingRuntime.forwardEvents. induction 1 as [|event events He _ IH]; cbn [iterM]; [apply preserves_ret|].
  apply preserves_bind; [by apply validating_sendEvent|intros _; exact IH].
Qed.

Lemma validating_startAndWait known req : preserves (validating_sourced known) (startAndWait env req).
Proof.
  intros r Hr. unfold startAndWait. rewrite bind_run. cbn [ValidatingRuntime.now ValidatingRuntime.consult fst snd].
  rewrite bind_run. cbn [get fst snd]. rewrite bind_run. cbn [ValidatingRuntime.consult fst snd].
  set (outcome := env_start env _ _ req). clearbody outcome. set (started := env_now env _). clearbody started.
  rewrite bind_run. cbn [modify fst snd]. set (run := length _). clearbody run. set (r1 := upd_field vn_runs _ _).
  set (known' := (req, outcome) :: known).
  assert (validating_sourced known' r1) as H1.
  { destruct Hr as [Hs Hk]. split; cbn.
    - eapply Forall_impl; [exact Hs|]. intros e. apply sourced_mono. set_solver.
    - set_solver. }
  assert (forall r, validating_sourced known' r -> validating_sourced known r) as Hweak by (intros ? [? ?]; split; [done|set_solver]).
  apply Hweak. clearbody r1. generalize (vn_id (r <| vn_tick ::= S |>)) as id. intros id. revert H1. generalize r1. clear r1 Hr r.
  refine (_ : preserves (validating_sourced known') (match outcome with StartFailed _ => _ | Ran _ _ _ => _ end)).
  destruct outcome as [e|events result err]; unfold ValidatingRuntime.now; cbv zeta; preserve.
  apply validating_forward, Forall_forall. intros src Hsrc. right.
  exists req, events, result, err, src. split; [by left|]. done.
Qed.
#[local] Hint Resolve validating_startAndWait : agentwrap.

Lemma validating_sendLifecycle known result from to reason :
  preserves (validating_sourced known) (sendLifecycle env result from to reason).
Proof. unfold sendLifecycle, ValidatingRuntime.now. preserve. Qed.

Lemma validating_run_checks known req result : preserves (validating_sourced known) (run_checks env files req result).
Proof. intros r Hr. exact Hr. Qed.
#[local] Hint Resolve validating_sendLifecycle validating_run_checks : agentwrap.

Lemma validating_validate known req result from : preserves (validating_sourced known) (validate env files req result from).
Proof. unfold validate. preserve. Qed.

Lemma validating_finish known result err : preserves (validating_sourced known) (ValidatingRuntime.finish result err).
Proof. unfold ValidatingRuntime.finish. preserve. Qed.

Lemma validating_runRepair known req ctx : preserves (validating_sourced known) (runRepair env req ctx).
Proof. unfold runRepair, after_repair_run, fresh_fallback, ValidatingRuntime.now. preserve. Qed.
#[local] Hint Resolve validating_validate validating_finish validating_runRepair : agentwrap.

Lemma validating_execute known fuel : preserves (validating_sourced known) (ValidatingRuntime.execute env files fuel).
Proof.
  assert (forall attempt req result history repairs, preserves (validating_sourced known)
    (ValidatingRuntime.execute_loop env files fuel attempt req result history repairs)) as Hl.
  { induction fuel as [|n IH]; intros; cbn [ValidatingRuntime.execute_loop]; [apply preserves_ret|].
    unfold execute_pass. cbv zeta. preserve. }
  unfold ValidatingRuntime.execute. preserve.
Qed.
End Validating.

Lemma validating_run_sourced env files specs c v req fuel r :
  ValidatingRuntime_run env files specs c v req fuel = inr (Some r) -> Forall (sourced (vn_runs r)) (vn_events r).
Proof.
  unfold ValidatingRuntime_run, ValidatingRuntime_StartRun. destruct (vrt_Runtime v) as [rt|]; [|done].
  set (r0 := mkvalidationRun _ _ _ _ _ _ _ _ _ _ _ _ _).
  pose proof (validating_execute env files [] fuel r0) as H.
  destruct (ValidatingRuntime.execute env files fuel r0) as [[] r']; [|done].
  intros [= <-]. apply H. by split; [apply Forall_nil_2|apply list_subseteq_nil].
Qed.

(** ** The observing runtime *)
Section Observing.
Context {Store Sink : Type} `{!RunStore Store, !EventSink Sink} (env : RunEnv).
Implicit Types r : observedRun Store Sink.

Definition event_log r := (ob_events r, ob_inner r).
Definition observed_from (inner : Run) (r : observedRun Store Sink) : Prop :=
  ob_events r ⊆ run_Events inner /\ ob_inner r = inner.

Lemma observed_keeps {A} inner (m : St (observedRun Store Sink) A) : keeps event_log m -> preserves (observed_from inner) m.
Proof. intros Hm r Hr. pose proof (keeps_spec m r Hm) as [= E1 E2]. unfold observed_from. by rewrite E1, E2. Qed.

Lemma log_framed {A} (m : St (observedRun Store Sink) A) : keeps frame m -> keeps event_log m.
Proof.
  intros Hm r0 r Hr. pose proof (keeps_spec m r Hm) as E. rewrite <-Hr. unfold event_log.
  by destruct (frame_view _ _ E) as (_ & -> & _ & _ & -> & _).
Qed.

Lemma log_consult {A} (f : nat -> A) : keeps event_log (Observing.consult f).
Proof. intros r0 r Hr. exact Hr. Qed.
Lemma log_upsert : keeps event_log (Observing.upsert env).
Proof. apply log_framed, keeps_upsert. Qed.
#[local] Hint Resolve log_consult log_upsert : agentwrap.

Lemma log_mergeResult result : keeps event_log (mergeResultLocked env result).
Proof. unfold mergeResultLocked, update_record, Observing.now. preserve; auto with agentwrap. Qed.

Lemma observed_forward inner fuel : preserves (observed_from inner) (forward env fuel).
Proof.
  intros r [He Hi]. unfold forward. rewrite bind_run. cbn [get fst snd]. rewrite bind_run.
  pose proof (forward_loop_spec env fuel (run_Events (ob_inner r)) r) as H.
  destruct (forward_loop env fuel (run_Events (ob_inner r)) r) as [ending r1].
  destruct H as ((consumed & rest & delivered & n & Hall & _ & _ & Hev & _ & Hend & _) & Hi1).
  assert (observed_from inner r1) as Hr1; [|by destruct ending].
  split; [|congruence]. rewrite Hev. apply list_subseteq_app_iff_l. split; [done|].
  rewrite <-Hi, Hall. assert (forall es ds m, passed es ds m -> ds ⊆ es) as Hp by (induction 1; set_solver).
  destruct ending.
  - destruct Hend as [_ H%Hp]. set_solver.
  - destruct Hend as (front & last & -> & H%Hp). set_solver.
  - destruct Hend as (front & last & -> & H%Hp). set_solver.
Qed.

Lemma observed_Wait inner : preserves (observed_from inner) (observedRun_Wait env).
Proof.
  apply observed_keeps. unfold observedRun_Wait. apply keeps_bind; [apply keeps_get|intros r].
  destruct (Observing.run_Wait (ob_inner r)) as [result err]. destruct (ob_done r); [|apply keeps_ret].
  apply keeps_bind; [by apply keeps_modify|intros _]. apply keeps_bind; [apply log_mergeResult|intros _]. preserve.
Qed.
End Observing.

Lemma observing_run_events {Store Sink} `{!RunStore Store, !EventSink Sink} env start
    (o : ObservingRuntime (Store := Store) (Sink := Sink)) req fuel answer r :
  ObservingRuntime_run env start o req fuel = inr (answer, r) ->
  exists rt inner, or_Runtime o = Some rt /\ start rt req = inr inner /\ ob_events r ⊆ run_Events inner.
Proof.
  unfold ObservingRuntime_run, ObservingRuntime_StartRun. destruct (or_Runtime o) as [rt|]; [|done].
  destruct (start rt req) as [|inner] eqn:Hst; [done|]. intros [= Hw]. exists rt, inner. split; [done|]. split; [done|].
  set (r0 := mkobservedRun _ _ _ _ _ _ _ _ _ _ _ _) in Hw.
  assert (observed_from inner r0) as H0 by (split; [apply list_subseteq_nil|done]).
  pose proof (observed_Wait env inner _ (observed_forward env inner fuel _ (observed_keeps inner _ (log_upsert env) _ H0))) as [H _].
  by rewrite Hw in H.
Qed.

(** ** Stacks *)

(** [src] was sent by the process of an agent. *)
Definition sent_by (a : agent) (src : Event) : Prop :=
  exists handle seq, ag_run a = Some handle /\ (seq, src) ∈ run_sent handle.

Definition traced (agents : list agent) (event : Event) : Prop :=
  own event \/ exists a src, a ∈ agents /\ sent_by a src /\ handed_on src event.

Definition traceable (outcome : RunOutcome) (agents : list agent) : Prop :=
  forall events result err, outcome = Ran events result err -> Forall (traced agents) events.

Lemma opencode_traceable r se env req outcome agents :
  opencode_run r se env req = Some (outcome, agents) -> traceable outcome agents.
Proof.
  unfold opencode_run. destruct (StartRun r se req) as [[err| |cfg permissions] trace] eqn:Hs; [by intros [= <- _]|done|].
  destruct (started_launched _ _ _ _ _ _ Hs) as [spec ->]. set (handle := finished_handle cfg env permissions).
  destruct (OpenCodeRun.run_Wait handle None) as [result err]. intros [= <- <-] events res e [= <- _ _].
  apply Forall_map, Forall_forall. intros [seq src] Hin. right. exists (mkagent r spec (oe_stdout env) (Some handle)), src.
  split; [by left|]. split; [by exists handle, seq|done].
Qed.

(** What a wrapper makes of runs whose events are traced. *)
Lemma traceable_runs (runs : list (RunRequest * RunOutcome)) agents events result err :
  Forall (sourced runs) events -> length agents = length runs ->
  (forall i q o l, runs !! i = Some (q, o) -> agents !! i = Some l -> traceable o l) ->
  traceable (Ran events result err) (concat agents).
Proof.
  intros Hs Hlen H ? ? ? [= <- _ _]. eapply Forall_impl; [exact Hs|]. clear events Hs.
  intros event [Hown|(q & events & res & e & src & (i & Hi)%list_elem_of_lookup & Hsrc & Hh)]; [by left|].
  destruct (lookup_lt_is_Some_2 agents i) as [l Hl]; [rewrite Hlen; by eapply lookup_lt_Some|].
  pose proof (H i q _ l Hi Hl _ _ _ eq_refl) as Ht. rewrite Forall_forall in Ht.
  destruct (Ht src Hsrc) as [[Hraw Hkind]|(a & first & Ha & Hsent & Hf)].
  - left. split; [by rewrite (handed_raw _ _ Hh)|by rewrite (handed_kind _ _ Hh)].
  - right. exists a, first. split; [|split; [done|by etrans]].
    apply list_elem_of_In, in_concat. exists l. split; apply list_elem_of_In; [by eapply list_elem_of_lookup_2|done].
Qed.

(** ** What the processes wrote *)

(** [event] shows a line that the process of an agent wrote. *)
Definition written_by (a : agent) (event : Event) : Prop :=
  exists i record, record_at (lines_of (ag_output a)) i record /\
    ev_Raw event = Some (mkRawPayload "opencode.stdout" "json" (String.list_byte_of_string (nr_Raw record)) false) /\
    Event_Kind event = fst (kind_and_evidence record) /\
    (forall k, k ∉ (adapter_keys ++ wrapper_keys)%list -> any_at (ev_Payload event) k = any_at (Some (as_any_map (nr_Data record))) k) /\
    (Event_Kind event = EventTool ->
       let seen := seen_as (Some (as_any_map (nr_Data record))) (toolObservationFrom (nr_Data record)) in
       Event_ToolObservation event = (seen, reports seen)).

(** The run of an agent read the output of its process. *)
Definition genuine (a : agent) : Prop := forall handle, ag_run a = Some handle ->
  exists cfg env permissions, handle = finished_handle cfg env permissions /\ ag_output a = oe_stdout env.

Lemma opencode_genuine r se env req outcome agents :
  opencode_run r se env req = Some (outcome, agents) -> Forall genuine agents.
Proof.
  unfold opencode_run. destruct (StartRun r se req) as [[err| |cfg permissions] trace]; [|done|].
  - intros [= _ <-]. by apply Forall_map, Forall_true.
  - destruct (OpenCodeRun.run_Wait _ _). intros [= _ <-]. apply Forall_map, Forall_true. intros spec handle [= <-]. by exists cfg, env, permissions.
Qed.

(** What holds for the agents of every run holds for those of the wrapper. *)
Lemma agents_of_runs (P : agent -> Prop) (runs : list (RunRequest * RunOutcome)) agents : length agents = length runs ->
  (forall i q o l, runs !! i = Some (q, o) -> agents !! i = Some l -> Forall P l) -> Forall P (concat agents).
Proof.
  intros Hlen H. apply Forall_forall. intros a (l & Hl & Ha)%list_elem_of_In%in_concat.
  apply list_elem_of_In, list_elem_of_lookup in Hl as [i Hi]. apply list_elem_of_In in Ha.
  destruct (lookup_lt_is_Some_2 runs i) as [[q o] Hr]; [rewrite <-Hlen; by eapply lookup_lt_Some|].
  pose proof (H i q o l Hr Hi) as Hf. rewrite Forall_forall in Hf. auto.
Qed.

Lemma delivers_genuine req outcome agents : delivers req outcome agents -> Forall genuine agents.
Proof.
  induction 1.
  - by eapply opencode_genuine.
  - by eapply agents_of_runs.
  - by eapply agents_of_runs.
  - destruct (observing_run_events _ _ _ _ _ _ _ H) as (rt & inner & Hrt & Hst & _). eauto.
  - constructor.
  - constructor.
  - destruct (or_Runtime o) as [rt|]; [by eauto|]. rewrite H0 by done. constructor.
Qed.

Lemma sent_written a src : genuine a -> sent_by a src -> is_Some (ev_Raw src) -> written_by a src.
Proof.
  intros Hg (handle & seq & Hrun & Hin) Hraw. destruct (Hg handle Hrun) as (cfg & env & permissions & Hh & Hout).
  subst handle. destruct (finished_relayed cfg env permissions) as (ps & _ & _ & [Hps [= Hn _ _] _ _] & _).
  set (handle := finished_handle cfg env permissions) in *.
  assert (src ∈ natives handle) as Hs.
  { apply list_elem_of_filter. split; [exact Hraw|]. apply list_elem_of_fmap. by exists (seq, src). }
  rewrite Hn in Hs. apply list_elem_of_fmap in Hs as (p & -> & (i & Hi)%list_elem_of_lookup).
  destruct (Hps i p Hi) as (record & Hat & t & n & at_ & ->). exists i, record. rewrite Hout. split; [exact Hat|].
  set (inp := mkprojectionInput _ _ _ _ _ _). set (event := pj_event _).
  assert (ev_Raw (with_session cfg event) = ev_Raw event /\ Event_Kind (with_session cfg event) = Event_Kind event /\
    ev_Payload (with_session cfg event) = ev_Payload event /\
    Event_ToolObservation (with_session cfg event) = Event_ToolObservation event) as (-> & -> & -> & ->) by (unfold with_session; by destruct (_ =s _)).
  split; [apply projectNative_raw|]. split; [apply projectNative_kind|]. split; [intros k Hnk; apply projectNative_data; set_solver|].
  intros E. apply native_tool_observation. by rewrite <-E, <-projectNative_kind with (classifyData := rateLimitData env t).
Qed.

Lemma written_handed a src out : handed_on src out -> written_by a src -> written_by a out.
Proof.
  intros H (i & record & Hat & Hr & Hk & Hd & Ht). exists i, record. split; [exact Hat|]. split; [by rewrite (handed_raw _ _ H)|].
  rewrite (handed_kind _ _ H), (handed_tool _ _ H). split; [exact Hk|]. split; [|exact Ht].
  intros k Hnk. rewrite (handed_payload _ _ H) by set_solver. by apply Hd.
Qed.

Lemma delivers_traceable req outcome agents : delivers req outcome agents -> traceable outcome agents.
Proof.
  induction 1.
  - by eapply opencode_traceable.
  - eapply traceable_runs; [|eassumption..]. by eapply policy_run_sourced.
  - eapply traceable_runs; [|eassumption..]. by eapply validating_run_sourced.
  - destruct (observing_run_events _ _ _ _ _ _ _ H) as (rt & inner & Hrt & Hst & Hsub).
    intros ? ? ? [= <- _ _]. pose proof (H1 rt inner Hrt Hst _ _ _ eq_refl) as Ht. rewrite Forall_forall in *. auto.
  - done.
  - done.
  - done.
Qed.


