(* ===== verification/Cancellation.v ===== *)
(** * Cancelling a run: the [Cancel] methods of the wrapping runs

    Each handle cancels its own context and then the run that is current. The
    theorems are about what follows: the run ends, whatever the policy, the
    schedule or the reader of its events do, and what it did before is what it
    would have done anyway. *)
From S2P Require Import Prelude GoStd Types Errors Events Policy Environment PolicyRunner PolicyRequests Validation ValidatingRuntime MemoryStore Observing.
#[local] Open Scope string_scope.

(** [policyRun.Cancel], [validationRun.Cancel] and [observedRun.Cancel] at a
    tick: the environment from then on, and the error of the call. *)
Definition policyRun_Cancel (cancel_run : Z -> option error) (tick : nat) (env : RunEnv) (r : policyRun)
    : RunEnv * option error :=
  (cancel_at tick env, cancel_current cancel_run (pr_current r)).

Definition validationRun_Cancel (cancel_run : nat -> option error) (tick : nat) (env : RunEnv) (r : validationRun)
    : RunEnv * option error :=
  (cancel_at tick env, cancel_current cancel_run (vn_current r)).

Definition observedRun_Cancel {Store Sink} (cancel_run : Run -> option error) (tick : nat) (env : RunEnv)
    (r : observedRun Store Sink) : RunEnv * option error :=
  (cancel_at tick env, cancel_run (ob_inner r)).

(** * Theorems *)

(** ** Two programs that agree until a tick

    [elapses m]: the clock [tick] of the state never goes back. [agree_until]:
    [m'] does what [m] does, as long as [m] ends by the tick [t]. *)
Section Until.
Context {S : Type} (tick : S -> nat) (t : nat).

Definition elapses {A} (m : St S A) : Prop := forall n, preserves (fun s => n <= tick s) m.

Lemma elapses_spec {A} (m : St S A) s : elapses m -> tick s <= tick (m s).2.
Proof. intros H. by apply (H (tick s) s). Qed.

Definition agree_until {A} (m m' : St S A) : Prop := forall s, tick (m s).2 <= t -> m' s = m s.

Lemma agree_refl {A} (m : St S A) : agree_until m m.
Proof. by intros s _. Qed.

Lemma agree_bind {A B} (m m' : St S A) (k k' : A -> St S B) :
  agree_until m m' -> (forall a, elapses (k a)) -> (forall a, agree_until (k a) (k' a)) ->
  agree_until (bind m k) (bind m' k').
Proof.
  intros Hm Hl Hk s. rewrite !bind_run. intros Ht.
  pose proof (elapses_spec _ (m s).2 (Hl (m s).1)) as Hle.
  rewrite (Hm s) by lia. by apply Hk.
Qed.

Lemma agree_iterM {A} (f f' : A -> St S unit) l :
  (forall x, elapses (f x)) -> (forall x, agree_until (f x) (f' x)) -> agree_until (iterM f l) (iterM f' l).
Proof.
  intros He Hf. induction l as [|x l IH]; [apply agree_refl|].
  apply agree_bind; [apply Hf| |intros _; exact IH]. intros _ n. apply preserves_iterM. intros y. apply He.
Qed.
End Until.

(** Walks through two programs side by side. *)
Ltac agree :=
  repeat first
    [ match goal with |- agree_until _ _ ?m ?m => apply agree_refl end
    | solve [auto with agentwrap nocore]
    | match goal with |- forall _, _ => intro end
    | apply agree_bind
    | match goal with
      | |- agree_until _ _ (match ?x with _ => _ end) _ => destruct x
      end ].

Ltac elapse :=
  lazymatch goal with
  | |- elapses _ _ => intros ?
  | |- forall _, _ => intros ?
  | |- preserves _ _ => idtac
  end; preserve; try (apply preserves_modify; intros ? ?; cbn; done || lia).

(** ** The policy runner *)
Section PolicyCancel.
Context (env : RunEnv) (policy : ResiliencePolicy).
#[local] Abbreviation elapses_pr := (elapses pr_tick).

Lemma elapses_consult {A} (f : nat -> A) : elapses_pr (PolicyRunner.consult f).
Proof. intros n s H. cbn. lia. Qed.
Lemma elapses_consult' {A} n (f : nat -> A) : preserves (fun s => n <= pr_tick s) (PolicyRunner.consult f).
Proof. apply elapses_consult. Qed.
Lemma elapses_clear n attempt : preserves (fun s => n <= pr_tick s) (modify (PolicyRunner.clearCurrent attempt)).
Proof. apply preserves_modify. intros r H. unfold PolicyRunner.clearCurrent. by case_decide. Qed.
Lemma elapses_target n d : preserves (fun s => n <= pr_tick s) (modify (applyDecisionTarget d)).
Proof. apply preserves_modify. intros r H. unfold applyDecisionTarget. by repeat case_match. Qed.
#[local] Hint Resolve elapses_consult' elapses_clear elapses_target : agentwrap.

Lemma elapses_sendEvent n e : preserves (fun s => n <= pr_tick s) (PolicyRunner.sendEvent env e).
Proof.
  revert n. unfold PolicyRunner.sendEvent, PolicyRunner.stamp_event, PolicyRunner.recordDroppedEvent, PolicyRunner.now.
  elapse.
Qed.
#[local] Hint Resolve elapses_sendEvent : agentwrap.

Lemma elapses_finish n result err exhausted reason :
  preserves (fun s => n <= pr_tick s) (PolicyRunner.finish env result err exhausted reason).
Proof. revert n. unfold PolicyRunner.finish, PolicyRunner.now. elapse. Qed.
#[local] Hint Resolve elapses_finish : agentwrap.

Lemma elapses_run_attempt n attempt ti req started :
  preserves (fun s => n <= pr_tick s) (run_attempt env attempt ti req started).
Proof.
  revert n. unfold run_attempt, PolicyRunner.forwardEvents, PolicyRunner.now. elapse.
Qed.
#[local] Hint Resolve elapses_run_attempt : agentwrap.

Lemma elapses_act n attempt ti req last ctx answer :
  preserves (fun s => n <= pr_tick s) (act_on_decision env attempt ti req last ctx answer).
Proof.
  revert n. unfold act_on_decision, recordDecision, apply_decision. elapse.
Qed.
#[local] Hint Resolve elapses_act : agentwrap.

Lemma elapses_summarize n a k ti req started result :
  preserves (fun s => n <= pr_tick s) (summarizeAttempt env a k ti req started result).
Proof. revert n. unfold summarizeAttempt, PolicyRunner.now. elapse. Qed.
#[local] Hint Resolve elapses_summarize : agentwrap.

Lemma elapses_attempt n ti req : preserves (fun s => n <= pr_tick s) (execute_attempt env policy ti req).
Proof. revert n. unfold execute_attempt, policy_context, ctx_Err, PolicyRunner.now. elapse. Qed.
#[local] Hint Resolve elapses_attempt : agentwrap.

(** An iteration takes at least a tick. *)
Lemma iteration_ticks ti req last r :
  S (pr_tick r) <= pr_tick (execute_iteration env policy ti req last r).2.
Proof.
  unfold execute_iteration. rewrite bind_run. cbn [ctx_Err PolicyRunner.consult fst snd].
  set (r1 := upd_field pr_tick S r). change (S (pr_tick r)) with (pr_tick r1).
  apply (elapses_spec pr_tick (match env_ctxErr env (pr_tick r) with Some _ => _ | None => _ end) r1).
  unfold finishCancelled, ctx_Err. elapse.
Qed.

(** A loop whose context is done reports that and starts nothing. *)
Lemma cancelled_loop fuel ti req last r :
  is_Some (env_ctxErr env (pr_tick r)) ->
  let '(finished, r') := PolicyRunner.execute_loop env policy (S fuel) ti req last r in
  finished = true /\ pr_runs r' = pr_runs r /\ pr_attempts r' = pr_attempts r /\
  res_Status (pr_result r') = StatusCancelled.
Proof.
  intros [e He]. cbn [PolicyRunner.execute_loop]. rewrite bind_run. unfold execute_iteration. rewrite bind_run.
  cbn [ctx_Err PolicyRunner.consult fst snd]. by rewrite He.
Qed.

(** A run whose context is done at some time ends: an iteration takes a tick. *)
Lemma cancelled_loop_ends from e fuel ti req last r :
  env_done env = Some (from, e) -> from <= pr_tick r + fuel ->
  (PolicyRunner.execute_loop env policy (S fuel) ti req last r).1 = true.
Proof.
  intros Hd. revert ti req last r. induction fuel as [|fuel IH]; intros ti req last r Hle.
  - assert (is_Some (env_ctxErr env (pr_tick r))) as Hc
      by (unfold env_ctxErr; rewrite Hd, (proj2 (Nat.leb_le from (pr_tick r))) by lia; by eexists).
    pose proof (cancelled_loop 0 ti req last r Hc) as H.
    by destruct (PolicyRunner.execute_loop env policy 1 ti req last r), H.
  - cbn [PolicyRunner.execute_loop]. rewrite bind_run. pose proof (iteration_ticks ti req last r) as Ht.
    destruct (execute_iteration env policy ti req last r).1 as [|ti' req' last']; [done|].
    apply IH. lia.
Qed.

(** [m] starts at most [k] runs, and the log keeps those before. *)
Definition starts_at_most {A} (k : nat) (m : St policyRun A) : Prop :=
  forall r, exists l, pr_runs (m r).2 = (pr_runs r ++ l)%list /\ length l <= k.

Lemma starts_none {A} (m : St policyRun A) : keeps pr_runs m -> starts_at_most 0 m.
Proof. intros H r. exists []. rewrite (keeps_spec m r H), app_nil_r. split; [done|cbn; lia]. Qed.

Lemma keeps_runs {A} (m : St policyRun A) : keeps trail m -> keeps pr_runs m.
Proof. intros H r0 r E. rewrite <-E. by pose proof (keeps_spec m r H) as [= _ _ E']. Qed.
#[local] Hint Resolve keeps_runs : agentwrap.

Lemma starts_bind {A B} i j (m : St policyRun A) (k : A -> St policyRun B) :
  starts_at_most i m -> (forall a, starts_at_most j (k a)) -> starts_at_most (i + j) (bind m k).
Proof.
  intros Hm Hk r. rewrite bind_run. destruct (Hm r) as (l & E & Hl).
  destruct (Hk (m r).1 (m r).2) as (l' & E' & Hl'). exists (l ++ l')%list.
  rewrite E', E, length_app, app_assoc. split; [done|lia].
Qed.

Lemma starts_run_attempt attempt ti req started : starts_at_most 1 (run_attempt env attempt ti req started).
Proof.
  intros r. destruct (run_attempt_logged env attempt ti req started r) as (outcome & [= _ _ E] & _).
  exists [(req, outcome)]. split; [exact E|cbn; lia].
Qed.

Lemma starts_iteration ti req last : starts_at_most 1 (execute_iteration env policy ti req last).
Proof.
  unfold execute_iteration, execute_attempt, PolicyRunner.now, finishCancelled, ctx_Err.
  apply (starts_bind 0 1); [apply starts_none; auto with agentwrap|intros [e|]].
  { intros r. destruct (starts_none (finishCancelled env last ;; ret Finished)
      ltac:(unfold finishCancelled, ctx_Err; preserve; auto with agentwrap) r) as (l & E & Hl). exists l. split; [exact E|lia]. }
  do 3 (apply (starts_bind 0 1); [apply starts_none; auto with agentwrap|intros ?]).
  apply (starts_bind 1 0); [apply starts_run_attempt|intros last'].
  apply starts_none. preserve; auto with agentwrap.
Qed.

Lemma loop_grows fuel ti req last r :
  pr_runs r `prefix_of` pr_runs (PolicyRunner.execute_loop env policy fuel ti req last r).2.
Proof.
  revert ti req last r. induction fuel as [|fuel IH]; intros ti req last r; [done|].
  cbn [PolicyRunner.execute_loop]. rewrite bind_run. destruct (starts_iteration ti req last r) as (l & E & _).
  trans (pr_runs (execute_iteration env policy ti req last r).2); [by exists l|].
  destruct (execute_iteration env policy ti req last r).1; [done|apply IH].
Qed.
End PolicyCancel.
#[local] Hint Resolve elapses_consult' elapses_clear elapses_target elapses_sendEvent elapses_finish
  elapses_run_attempt elapses_act elapses_summarize elapses_attempt : agentwrap.

(** ** Before and after *)
Section PolicyAgree.
Context (env : RunEnv) (policy : ResiliencePolicy) (t : nat).
#[local] Abbreviation env' := (cancel_at t env).
#[local] Abbreviation same m m' := (agree_until pr_tick t m' m).

Lemma agree_consult {A} (f f' : nat -> A) :
  (forall k, k < t -> f' k = f k) -> same (PolicyRunner.consult f) (PolicyRunner.consult f').
Proof. intros H r Ht. cbn in Ht. unfold PolicyRunner.consult. by rewrite H by lia. Qed.

Lemma agree_ctxErr : same (ctx_Err env) (ctx_Err env').
Proof. apply agree_consult, cancel_at_before. Qed.
Lemma agree_send : same (PolicyRunner.consult (env_send env)) (PolicyRunner.consult (env_send env')).
Proof. apply agree_consult, cancel_at_send. Qed.
#[local] Hint Resolve agree_ctxErr agree_send : agentwrap.

(** What reads only the clock does not change. *)
Lemma agree_now : same (PolicyRunner.now env) (PolicyRunner.now env').
Proof. exact (agree_refl pr_tick t (PolicyRunner.now env)). Qed.
Lemma agree_finish result err exhausted reason :
  same (PolicyRunner.finish env result err exhausted reason) (PolicyRunner.finish env' result err exhausted reason).
Proof. exact (agree_refl pr_tick t (PolicyRunner.finish env result err exhausted reason)). Qed.
Lemma agree_summarize a n ti req started result :
  same (summarizeAttempt env a n ti req started result) (summarizeAttempt env' a n ti req started result).
Proof. exact (agree_refl pr_tick t (summarizeAttempt env a n ti req started result)). Qed.
Lemma agree_policy_context a n ti req last :
  same (policy_context env a n ti req last) (policy_context env' a n ti req last).
Proof. exact (agree_refl pr_tick t (policy_context env a n ti req last)). Qed.
Lemma agree_stamp e : same (PolicyRunner.stamp_event env e) (PolicyRunner.stamp_event env' e).
Proof. exact (agree_refl pr_tick t (PolicyRunner.stamp_event env e)). Qed.
Lemma agree_dropped e : same (PolicyRunner.recordDroppedEvent env e) (PolicyRunner.recordDroppedEvent env' e).
Proof. exact (agree_refl pr_tick t (PolicyRunner.recordDroppedEvent env e)). Qed.
#[local] Hint Extern 2 (agree_until _ _ (PolicyRunner.consult _) _) => (apply agree_consult; done) : agentwrap.
#[local] Hint Resolve agree_stamp agree_dropped agree_now agree_finish agree_summarize agree_policy_context : agentwrap.

Lemma agree_sendEvent e : same (PolicyRunner.sendEvent env e) (PolicyRunner.sendEvent env' e).
Proof. unfold PolicyRunner.sendEvent. agree; try elapse. Qed.
#[local] Hint Resolve agree_sendEvent : agentwrap.

Lemma agree_run_attempt attempt ti req started :
  same (run_attempt env attempt ti req started) (run_attempt env' attempt ti req started).
Proof.
  unfold run_attempt, PolicyRunner.forwardEvents. agree; try elapse.
  apply agree_iterM; intros e; [elapse|]. agree; try elapse.
Qed.

Lemma agree_act attempt ti req last ctx answer :
  same (act_on_decision env attempt ti req last ctx answer) (act_on_decision env' attempt ti req last ctx answer).
Proof. unfold act_on_decision, recordDecision, apply_decision. agree; try elapse. Qed.
#[local] Hint Resolve agree_run_attempt agree_act : agentwrap.

Lemma agree_attempt ti req : same (execute_attempt env policy ti req) (execute_attempt env' policy ti req).
Proof. unfold execute_attempt. agree; try (unfold policy_context, ctx_Err, PolicyRunner.now; elapse). Qed.
#[local] Hint Resolve agree_attempt : agentwrap.

Lemma agree_iteration ti req last :
  same (execute_iteration env policy ti req last) (execute_iteration env' policy ti req last).
Proof. unfold execute_iteration, finishCancelled. agree; try (unfold ctx_Err; elapse). Qed.

Lemma removelast_prefix {A} (l : list A) : removelast l `prefix_of` l.
Proof. rewrite removelast_firstn_len. apply prefix_take. Qed.

Lemma loop_unfold e fuel ti req last r :
  PolicyRunner.execute_loop e policy (S fuel) ti req last r =
  let (next, r1) := execute_iteration e policy ti req last r in
  match next with
  | Finished => (true, r1)
  | Continue ti req last => PolicyRunner.execute_loop e policy fuel ti req last r1
  end.
Proof. cbn [PolicyRunner.execute_loop]. unfold bind at 1. by destruct (execute_iteration _ _ _ _ _ _) as [[] r1]. Qed.

(** Apart from the last one, the runs of a cancelled loop are the first ones of
    the loop that is not cancelled. *)
Lemma cancelled_prefix fuel ti req last r :
  removelast (pr_runs (PolicyRunner.execute_loop env' policy fuel ti req last r).2)
    `prefix_of` pr_runs (PolicyRunner.execute_loop env policy fuel ti req last r).2.
Proof.
  revert ti req last r. induction fuel as [|fuel IH]; intros ti req last r; [apply removelast_prefix|].
  destruct (decide (pr_tick (execute_iteration env' policy ti req last r).2 <= t)) as [Hle|Hgt].
  - rewrite !loop_unfold, (agree_iteration ti req last r Hle).
    destruct (execute_iteration env' policy ti req last r) as [[] r1]; [apply removelast_prefix|apply IH].
  - trans (pr_runs r); [|apply loop_grows]. rewrite loop_unfold.
    destruct (starts_iteration env' policy ti req last r) as (l & E & Hl).
    destruct (execute_iteration env' policy ti req last r) as [next r1]. cbn [fst snd] in *.
    assert (removelast (pr_runs r1) `prefix_of` pr_runs r) as H1.
    { rewrite E. destruct l as [|x [|y l]]; [rewrite app_nil_r; apply removelast_prefix|by rewrite removelast_last|cbn in Hl; lia]. }
    destruct next as [|ti' req' last']; [exact H1|]. destruct fuel as [|fuel]; [exact H1|].
    pose proof (cancelled_loop env' policy fuel ti' req' last' r1 (cancel_at_after t env (pr_tick r1) ltac:(lia))) as H.
    destruct (PolicyRunner.execute_loop env' policy (S fuel) ti' req' last' r1) as [b r'].
    destruct H as (_ & E' & _). cbn [snd]. by rewrite E'.
Qed.
End PolicyAgree.

(** C14: cancelling a policy run at a tick: whatever the policy decides and however
    long it would go on, the run returns after as many iterations and [Wait]
    answers; the runs it started are those it would have started anyway, but
    for the last one, which was being started when the context ended. The call
    of [Cancel] fails only as the current run's [Cancel] does. *)
Theorem policyRun_Cancel_ends env c runner req r0 r1 cancel_run tick fuel :
  PolicyRunner_StartRun env c runner req = inr r0 -> tick <= fuel ->
  let policy := effective_policy env runner in
  let '(env', err) := policyRun_Cancel cancel_run tick env r1 in
  let '(finished, r') := PolicyRunner.execute env' policy (S fuel) r0 in
  finished = true /\ (exists result e, policyRun_Wait None r' = Some (result, e) /\ res_Err result = e) /\
  removelast (pr_runs r') `prefix_of` pr_runs (PolicyRunner.execute env policy (S fuel) r0).2 /\
  (err <> None -> exists run, pr_current r1 = Some run /\ cancel_run run = err).
Proof.
  intros Hs Hf. cbv zeta. unfold policyRun_Cancel. set (policy := effective_policy env runner).
  destruct (start_running _ _ _ _ _ Hs) as (Hrun & _ & _ & _ & Htick & _).
  destruct (cancel_at_done tick env) as (from & e & Hd & Hle).
  pose proof (cancelled_loop_ends _ policy from e fuel 0%Z (pr_original r0) zero r0 Hd ltac:(lia)) as Hend.
  pose proof (execute_loop_ended (cancel_at tick env) policy (S fuel) 0%Z (pr_original r0) zero r0 Hrun) as Hrep.
  pose proof (cancelled_prefix env policy tick (S fuel) 0%Z (pr_original r0) zero r0) as Hp.
  pose proof (execute_done (cancel_at tick env) policy (S fuel) r0) as Hx.
  pose proof (execute_done env policy (S fuel) r0) as Hx'.
  destruct (PolicyRunner.execute_loop (cancel_at tick env) policy (S fuel) _ _ _ r0) as [finished r'].
  destruct (PolicyRunner.execute_loop env policy (S fuel) _ _ _ r0) as [finished' r'']. cbn [fst snd] in *.
  subst finished. rewrite Hx, Hx'. destruct (Hrep eq_refl) as [[[] _ _ _ _ _] _].
  split; [done|]. split; [by eexists _, _|]. split; [by destruct finished'|].
  unfold cancel_current. destruct (pr_current r1) as [run|]; [by exists run|done].
Qed.

(** A policy that never stops. *)
Definition stubborn : ResiliencePolicy := fun _ _ _ => (zero <| pd_Kind := PolicyDecisionRetry |>, None).
Definition stubborn_runner : PolicyRunner := mkPolicyRunner (Some 1%positive) [] (Some stubborn).
Definition failing_env : RunEnv :=
  mkRunEnv (fun tick => Z.of_nat (S tick)) None (fun _ _ _ => StartFailed (EOther "no binary"))
    (fun _ _ => None) (fun _ => true) (fun _ => true).

Definition stubborn_run : policyRun :=
  match PolicyRunner_StartRun failing_env 7 stubborn_runner zero with
  | inr r => r
  | inl _ => mkpolicyRun "" zero 1%positive [] zero zero zero [] [] [] ∅ zero None None [] false 0 []
  end.

(** Without [Cancel] it does not end. *)
Example stubborn_goes_on :
  fst (PolicyRunner.execute failing_env stubborn 21 stubborn_run) = false.
Proof. vm_compute. reflexivity. Qed.

Lemma policyRun_Cancel_ends_witness :
  let policy := effective_policy failing_env stubborn_runner in
  let '(env', err) := policyRun_Cancel (fun _ => None) 20 failing_env stubborn_run in
  let '(finished, r') := PolicyRunner.execute env' policy 21 stubborn_run in
  finished = true /\ (exists result e, policyRun_Wait None r' = Some (result, e) /\ res_Err result = e) /\
  removelast (pr_runs r') `prefix_of` pr_runs (PolicyRunner.execute failing_env policy 21 stubborn_run).2 /\
  (err <> None -> exists run, pr_current stubborn_run = Some run /\ None = err).
Proof.
  exact (policyRun_Cancel_ends failing_env 7 stubborn_runner zero stubborn_run stubborn_run (fun _ => None) 20 20
    eq_refl (le_n 20)).
Defined.

(** ** The validating runtime *)
Section ValidationCancel.
Context (env : RunEnv) (files : nat -> FileSystem).

Lemma elapses_vn_consult n {A} (f : nat -> A) : preserves (fun s => n <= vn_tick s) (ValidatingRuntime.consult f).
Proof. intros s H. cbn. lia. Qed.
#[local] Hint Resolve elapses_vn_consult : agentwrap.

Lemma elapses_vn_sendEvent n e : preserves (fun s => n <= vn_tick s) (ValidatingRuntime.sendEvent env e).
Proof.
  revert n. unfold ValidatingRuntime.sendEvent, ValidatingRuntime.stamp_event, ValidatingRuntime.now. elapse.
Qed.
#[local] Hint Resolve elapses_vn_sendEvent : agentwrap.

Lemma elapses_vn_lifecycle n result from to reason :
  preserves (fun s => n <= vn_tick s) (sendLifecycle env result from to reason).
Proof. revert n. unfold sendLifecycle, ValidatingRuntime.now. elapse. Qed.
#[local] Hint Resolve elapses_vn_lifecycle : agentwrap.

Lemma elapses_vn_checks n req result : preserves (fun s => n <= vn_tick s) (run_checks env files req result).
Proof. intros r H. cbn. lia. Qed.
#[local] Hint Resolve elapses_vn_checks : agentwrap.

(** A validation in a context that is done ends with the error of the context. *)
Lemma cancelled_validate req result from r e :
  env_ctxErr env (vn_tick r) = Some e ->
  (validate env files req result from r).1.2 = contextValidationError (Some e).
Proof.
  intros He. unfold validate.
  rewrite bind_run. pose proof (elapses_vn_lifecycle _ result from StatusValidating "validation started" r (le_n _)) as H1.
  revert H1. generalize (sendLifecycle env result from StatusValidating "validation started" r).2. intros r1 H1.
  rewrite bind_run. cbn [get fst snd]. set (ev := validation_event r1 _ _ _).
  rewrite bind_run. pose proof (elapses_vn_sendEvent _ ev r1 (le_n _)) as H2.
  revert H2. generalize (ValidatingRuntime.sendEvent env ev r1).2. intros r2 H2.
  rewrite !bind_run. cbn [run_checks ValidatingRuntime.consult fst snd].
  rewrite (ctxErr_stays env (vn_tick r) _ e He) by (cbn; lia).
  destruct (contextValidationError (Some e)) as [err|] eqn:E; [by rewrite bind_run|by destruct e].
Qed.

(** A pass that begins when the context is done ends the run: no repair is
    started, and the run fails with the error of the context, even if the
    validation it had begun passed. *)
Lemma cancelled_pass attempt req result history repairs r e :
  env_ctxErr env (vn_tick r) = Some e ->
  let '(next, r') := execute_pass env files attempt req result history repairs r in
  next = Returned /\ vn_starts r' = vn_starts r /\ vn_waitErr r' = contextValidationError (Some e).
Proof.
  intros He. unfold execute_pass. rewrite bind_run. cbn [get fst snd]. rewrite bind_run.
  set (from := if Nat.eqb attempt 0 then _ else _).
  pose proof (cancelled_validate req result from r e He) as Hv.
  pose proof (keeps_spec _ r (validation_core_validate env files req result from)) as Hc.
  destruct (validate env files req result from r) as [[v verr] r1]. cbn [fst snd] in *.
  apply validation_core_fields in Hc as (_ & _ & _ & Hs & _). rewrite Hv.
  assert (is_Some (contextValidationError (Some e))) as [err Herr] by (destruct e; by eexists). rewrite Herr.
  rewrite bind_run. split; [done|]. split; [exact Hs|done].
Qed.
End ValidationCancel.

(** ** The observing runtime *)
Section ObservedCancel.
Context {Store Sink : Type} `{!RunStore Store, !EventSink Sink} (env : RunEnv).
Implicit Types r : observedRun Store Sink.

(** A send that waits is let go when the context ends. *)
Lemma blocking_send_ends fuel r from e :
  env_done env = Some (from, e) -> from < ob_tick r + fuel -> 0 < fuel ->
  (blocking_send env fuel r).1 <> None.
Proof.
  intros Hd. revert r. induction fuel as [|fuel IH]; intros r Hlt Hpos; [lia|].
  cbn [blocking_send]. rewrite bind_run. cbn [Observing.consult fst snd].
  destruct (env_send env (ob_tick r)) eqn:E; [done..|].
  assert (ob_tick r < from) as Hbefore.
  { destruct (Nat.ltb_spec (ob_tick r) from) as [|Hge]; [done|]. unfold env_send, env_ctxErr in E.
    rewrite Hd, (proj2 (Nat.leb_le from _)) in E by done. by destruct (env_room env _ && _). }
  apply IH; cbn; lia.
Qed.

Lemma forward_event_ends fuel event r from e :
  env_done env = Some (from, e) -> from < fuel -> (forward_event env fuel event r).1 <> Some Blocked.
Proof.
  intros Hd Hf. unfold forward_event. rewrite !bind_run.
  destruct (Observing.consult _ _).1; [done..|]. destruct (droppable event); [done|].
  rewrite bind_run. pose proof (blocking_send_ends fuel) as H.
  match goal with |- context [blocking_send env fuel ?r1] => specialize (H r1 from e Hd ltac:(lia) ltac:(lia)) end.
  by destruct (blocking_send env fuel _).1 as [[]|].
Qed.

Lemma forward_loop_ends fuel events r from e :
  env_done env = Some (from, e) -> from < fuel -> (forward_loop env fuel events r).1 <> Blocked.
Proof.
  intros Hd Hf. revert r. induction events as [|event events IH]; intros r; [done|].
  cbn [forward_loop]. rewrite bind_run. pose proof (forward_event_ends fuel event r from e Hd Hf) as H.
  destruct (forward_event env fuel event r).1 as [[]|]; done || apply IH.
Qed.
End ObservedCancel.

(** Cancelling an observed run at a tick: even if nobody ever reads its events,
    the loop that forwards them ends, so that [Wait] answers; until then the
    account of the events is kept as in a run that is not cancelled. *)
Theorem observedRun_Cancel_ends {Store Sink} `{!RunStore Store, !EventSink Sink} (env : RunEnv)
    (r r1 : observedRun Store Sink) cancel_run tick fuel :
  tick < fuel ->
  let '(env', err) := observedRun_Cancel cancel_run tick env r1 in
  let '(ending, r') := forward env' fuel r in
  ending <> Blocked /\ accounted env' (run_Events (ob_inner r)) ending r r' /\
  is_Some (observedRun_Wait env' r').1 /\ err = cancel_run (ob_inner r1).
Proof.
  intros Hf. unfold observedRun_Cancel. set (env' := cancel_at tick env).
  destruct (cancel_at_done tick env) as (from & e & Hd & Hle).
  pose proof (forward_loop_ends env' fuel (run_Events (ob_inner r)) r from e Hd ltac:(lia)) as Hend.
  pose proof (forward_run env' fuel r) as Hx.
  pose proof (forward_loop_spec env' fuel (run_Events (ob_inner r)) r) as Hacc.
  destruct (forward_loop env' fuel (run_Events (ob_inner r)) r) as [ending r']. rewrite Hx. cbn [fst] in Hend.
  destruct Hacc as [Hacc _]. split; [done|]. split; [by destruct ending|]. split; [|done].
  assert (exists r2, match ending with Blocked => r' | _ => r' <| ob_done := true |> end = r2 /\ ob_done r2 = true)
    as (r2 & -> & Hdone) by (destruct ending; [eauto..|done]).
  unfold observedRun_Wait. rewrite bind_run. cbn [get fst snd]. destruct (run_Wait (ob_inner r2)) as [result err].
  rewrite Hdone, !bind_run. by eexists.
Qed.

(** A reader who never makes room, and an event that must not be dropped. *)
Definition no_reader : RunEnv :=
  mkRunEnv (fun tick => Z.of_nat tick) None (fun _ _ _ => StartFailed ECanceled) (fun _ _ => None)
    (fun _ => false) (fun _ => true).

Example no_reader_blocks :
  fst (forward (RunStore0 := memory_store (fun tick => Z.of_nat tick)) (EventSink0 := broken_sink) no_reader 50 started_run)
  = Blocked.
Proof. vm_compute. reflexivity. Qed.

Lemma observedRun_Cancel_ends_witness :
  let '(env', err) := observedRun_Cancel (fun _ => None) 40 no_reader started_run in
  let '(ending, r') := forward (RunStore0 := memory_store (fun tick => Z.of_nat tick)) (EventSink0 := broken_sink)
    env' 50 started_run in
  ending <> Blocked /\ accounted env' (run_Events (ob_inner started_run)) ending started_run r' /\
  is_Some (observedRun_Wait (RunStore0 := memory_store (fun tick => Z.of_nat tick)) env' r').1 /\ err = None.
Proof.
  refine (observedRun_Cancel_ends (RunStore0 := memory_store (fun tick => Z.of_nat tick)) (EventSink0 := broken_sink)
    no_reader started_run started_run (fun _ => None) 40 50 _). lia.
Defined.
