(* ===== verification/FakeRuntime.v ===== *)
(** * internal/testkit/fake_runtime.go: the runtime the contract tests run against

    [FakeRuntime] plays a script of events. Its [play] goroutine, the callers of
    [Cancel], the context and the reader of the channel interleave, so a run is a
    transition system: [step] is one atomic action (a critical section, or one
    case of a [select]), and a schedule is a list of actions. Each theorem holds
    for every schedule. *)
From S2P Require Import Prelude GoStd Types Errors Events Capabilities.
#[local] Open Scope string_scope.

(** ** The runtime *)
Record FakeRuntime := mkFakeRuntime {
  fk_Kind : RuntimeKind;
  fk_Provider : ProviderID;
  fk_Model : ModelID;
  fk_Script : list Event;
  fk_Err : option SDKError
}.
#[global] Instance eta_FakeRuntime : Eta FakeRuntime := fun r =>
  mkFakeRuntime (fk_Kind r) (fk_Provider r) (fk_Model r) (fk_Script r) (fk_Err r).
#[global] Instance zero_FakeRuntime : Zero FakeRuntime := mkFakeRuntime zero zero zero zero zero.

Definition runtimeKind (f : FakeRuntime) : RuntimeKind := if fk_Kind f =s "" then "fake" else fk_Kind f.

Definition fake_features : gmap string CapabilitySupport := list_to_map [
  (CapabilitySessions, mkCapabilitySupport true "fake retained session metadata");
  (CapabilityCancellation, mkCapabilitySupport true "fake cancellation state");
  (CapabilityStructuredEvents, mkCapabilitySupport true "deterministic canonical events");
  (CapabilityRawPayloads, mkCapabilitySupport true "raw fixture payload preservation");
  (CapabilityArtifacts, mkCapabilitySupport true "artifact references only");
  (CapabilityPermissions, mkCapabilitySupport false "permission policy is deferred");
  (CapabilityUsage, mkCapabilitySupport true "placeholder usage metadata");
  (CapabilityValidationEvents, mkCapabilitySupport true "validation category only")].

Definition FakeRuntime_Capabilities (f : FakeRuntime) : Capabilities * option error :=
  (mkCapabilities (runtimeKind f) (Some fake_features)
     [mkUnsupportedCapability CapabilityPermissions "deferred to permission sprint"], None).

(** ** A run and its state *)
Record fakeRun := mkfakeRun {
  fr_id : RunID;
  fr_sessionID : SessionID;
  fr_turnID : TurnID;
  fr_context : RuntimeContext;
  fr_script : list Event;
  fr_err : option SDKError;
  fr_cancel : bool; (* the channel is closed *)
  fr_start : Time;
  fr_finish : Time;
  fr_status : RunStatus;
  fr_artifacts : list ArtifactRef;
  fr_usage : Usage
}.
#[global] Instance eta_fakeRun : Eta fakeRun := fun r =>
  mkfakeRun (fr_id r) (fr_sessionID r) (fr_turnID r) (fr_context r) (fr_script r) (fr_err r) (fr_cancel r)
    (fr_start r) (fr_finish r) (fr_status r) (fr_artifacts r) (fr_usage r).
#[global] Instance zero_fakeRun : Zero fakeRun :=
  mkfakeRun zero zero zero zero zero zero zero zero zero zero zero zero.

(** [StartRun]: the first required capability that is missing is the error. *)
Definition FakeRuntime_StartRun (now : Time) (f : FakeRuntime) (req : RunRequest) : SDKError + fakeRun :=
  let '(caps, _) := FakeRuntime_Capabilities f in
  match filter (fun capability => Supports caps capability = false) (default [] (req_RequireCaps req)) with
  | capability :: _ =>
      inl (NewError ErrorConfiguration "fake.StartRun" ("unsupported capability " +:+ capability) None [])
  | [] =>
      let run := zero <| fr_id := "fake-run-1" |> <| fr_sessionID := req_SessionID req |>
        <| fr_turnID := req_TurnID req |>
        <| fr_context := mkRuntimeContext (runtimeKind f) "fake" (fk_Provider f) (fk_Model f) |>
        <| fr_script := fk_Script f |> <| fr_err := fk_Err f |> <| fr_start := now |> in
      let run := if (fr_sessionID run =s "") && req_WantSession req
                 then run <| fr_sessionID := "fake-session-1" |> else run in
      inr (if fr_turnID run =s "" then run <| fr_turnID := "fake-turn-1" |> else run)
  end.

Definition coerceRunStatus (value : any) : option RunStatus :=
  let known status :=
    if one_of status [StatusStarting; StatusRunning; StatusCompleted; StatusFailed; StatusCancelled]
    then Some status else None in
  match value with
  | ANamed ty v => if ty =s "RunStatus" then known v else None
  | AString v => known v
  | _ => None
  end.

(** The four observations of [observe], in order. *)
Definition observe_lifecycle (event : Event) (r : fakeRun) : fakeRun :=
  if (Event_Kind event =s EventLifecycle) && negb (Terminal (fr_status r))
     && match fr_err r with None => true | Some _ => false end
  then match coerceRunStatus (any_at (ev_Payload event) "state") with
       | Some state => r <| fr_status := state |>
       | None => r
       end
  else r.
Definition observe_artifact (event : Event) (r : fakeRun) : fakeRun :=
  if Event_Kind event =s EventArtifact then
    match any_at (ev_Payload event) "artifact" with
    | AArtifact artifact => r <| fr_artifacts ::= fun l => (l ++ [artifact])%list |>
    | _ => r
    end
  else r.
Definition observe_usage (event : Event) (r : fakeRun) : fakeRun :=
  if Event_Kind event =s EventUsage then
    match any_at (ev_Payload event) "usage" with
    | AUsage usage => r <| fr_usage := usage |>
    | _ => r
    end
  else r.
Definition observe_fatal (event : Event) (r : fakeRun) : fakeRun :=
  if (Event_Kind event =s EventFatalError) && match fr_err r with None => true | Some _ => false end
  then r <| fr_status := StatusFailed |>
         <| fr_err := Some (NewError ErrorRuntimeExit "fake.play" "fake fatal event" None []) |>
  else r.
Definition observe (event : Event) (r : fakeRun) : fakeRun :=
  observe_fatal event (observe_usage event (observe_artifact event (observe_lifecycle event r))).

Definition markCancelled (now : Time) (cause : option error) (r : fakeRun) : fakeRun :=
  r <| fr_status := StatusCancelled |> <| fr_finish := now |>
    <| fr_err := Some (NewError ErrorCancellation "fake.play" "context cancelled" cause []) |>.

(** The event of the script at index [i] as the run sends it. *)
Definition dress (r : fakeRun) (i : nat) (event : Event) : Event :=
  event <| ev_ID := "fake-event-" +:+ itoa (Z.of_nat i + 1) |> <| ev_RunID := fr_id r |>
        <| ev_SessionID := fr_sessionID r |>
        <| ev_Payload := Some (<["context" := AContext (fr_context r)]>
             (<["turn_id" := AString (fr_turnID r)]> (default ∅ (ev_Payload event)))) |>
        <| ev_Time := if time.IsZero (ev_Time event)
                      then time.Add (fr_start r) (Int64.wrap (Z.of_nat i * time.Millisecond)) else ev_Time event |>.

(** The end of [play] after the last event. *)
Definition conclude (now : Time) (r : fakeRun) : fakeRun :=
  (if fr_status r =s "" then r <| fr_status := StatusCompleted |> else r) <| fr_finish := now |>.

(** The critical section of [Cancel]; [None] is its early return. *)
Definition cancel_locked (r : fakeRun) : option fakeRun :=
  if Terminal (fr_status r) then None
  else Some (r <| fr_status := StatusCancelled |>
               <| fr_err := Some (zero <| err_Category := ErrorCancellation |>
                    <| err_Operation := "fake.Cancel" |> <| err_UserDetail := "run cancelled" |>) |>).

(** ** The transition system *)

(** Where [play] stands: at the first [select] of an iteration, at the second
    with the event to send, or returned, with its channels closed. *)
Inductive position : Type := AtPoll (i : nat) | AtSend (i : nat) (event : Event) | Returned.

(** [sys_closing] counts the callers of [Cancel] between their critical section
    and [close(r.cancel)]. *)
Record system := mksystem {
  sys_run : fakeRun;
  sys_at : position;
  sys_ctx : option error;
  sys_closing : nat;
  sys_sent : list Event
}.
#[global] Instance eta_system : Eta system := fun s =>
  mksystem (sys_run s) (sys_at s) (sys_ctx s) (sys_closing s) (sys_sent s).

Inductive action : Type :=
| CtxEnds (e : error)
| CancelLocks
| CancelCloses
| TakeDone (now : Time)    (* [case <-ctx.Done()] *)
| TakeCancel (now : Time)  (* [case <-r.cancel] *)
| Observe                  (* [default], up to the second [select] *)
| Send                     (* [case r.events <- event], a reader being there *)
| Conclude (now : Time).   (* the script is over *)

(** What [play] does, as opposed to those around it. *)
Definition of_play (a : action) : bool :=
  match a with CtxEnds _ | CancelLocks | CancelCloses => false | _ => true end.

Definition start (r : fakeRun) : system := mksystem r (AtPoll 0) None 0 [].

(** [play] is at one of its [select]s: an event of the script is still to come. *)
Definition selecting (s : system) : bool :=
  match sys_at s with
  | AtPoll i => (i <? length (fr_script (sys_run s)))%nat
  | AtSend _ _ => true
  | Returned => false
  end.

Definition return_with (r : fakeRun) (s : system) : system := s <| sys_run := r |> <| sys_at := Returned |>.

Definition step (a : action) (s : system) : option system :=
  let r := sys_run s in
  match a with
  | CtxEnds e => match sys_ctx s with None => Some (s <| sys_ctx := Some e |>) | Some _ => None end
  | CancelLocks =>
      match cancel_locked r with
      | Some r => Some (s <| sys_run := r |> <| sys_closing ::= S |>)
      | None => Some s
      end
  | CancelCloses =>
      match sys_closing s with
      | S n => Some (s <| sys_run := r <| fr_cancel := true |> |> <| sys_closing := n |>)
      | O => None
      end
  | TakeDone now =>
      match selecting s, sys_ctx s with
      | true, Some e => Some (return_with (markCancelled now (Some e) r) s)
      | _, _ => None
      end
  | TakeCancel now =>
      if selecting s && fr_cancel r
      then Some (return_with (markCancelled now (ESDK <$> fr_err r) r) s) else None
  | Observe =>
      match sys_at s, sys_ctx s, fr_cancel r with
      | AtPoll i, None, false =>
          match fr_script r !! i with
          | Some event => let event := dress r i event in
              Some (s <| sys_run := observe event r |> <| sys_at := AtSend i event |>)
          | None => None
          end
      | _, _, _ => None
      end
  | Send =>
      match sys_at s with
      | AtSend i event => Some (s <| sys_sent ::= fun l => (l ++ [event])%list |> <| sys_at := AtPoll (S i) |>)
      | _ => None
      end
  | Conclude now =>
      match sys_at s with
      | AtPoll i => if (i <? length (fr_script r))%nat then None else Some (return_with (conclude now r) s)
      | _ => None
      end
  end.

(** A schedule; [None] is one that takes an action that is not enabled. *)
Fixpoint schedule (l : list action) (s : system) : option system :=
  match l with
  | [] => Some s
  | a :: l => match step a s with Some s => schedule l s | None => None end
  end.

(** [Wait] once [play] has returned. *)
Definition fake_result (r : fakeRun) : RunResult * option error :=
  let metadata := zero <| md_Context := fr_context r |> <| md_Status := fr_status r |>
    <| md_StartedAt := fr_start r |> <| md_FinishedAt := fr_finish r |>
    <| md_Duration := time.Sub (fr_finish r) (fr_start r) |>
    <| md_Session := zero <| sm_ID := fr_sessionID r |> <| sm_Retained := negb (fr_sessionID r =s "") |> |>
    <| md_Artifacts := fr_artifacts r |> <| md_Usage := fr_usage r |> in
  let result := zero <| res_RunID := fr_id r |> <| res_SessionID := fr_sessionID r |>
    <| res_TurnID := fr_turnID r |> <| res_Status := fr_status r |> <| res_StartedAt := fr_start r |>
    <| res_FinishedAt := fr_finish r |> <| res_Artifacts := fr_artifacts r |> <| res_Usage := fr_usage r |>
    <| res_Err := fr_err r |> <| res_Metadata := metadata |> in
  match fr_err r with
  | Some err => (result <| res_Metadata := metadata <| md_Errors := [err] |> |>, Some (ESDK err))
  | None => (result, None)
  end.

(** [Wait] with a context: [pick] decides when both cases are ready, [None] is a
    [select] that still waits. *)
Definition fake_Wait (ctxErr : option error) (pick : bool) (s : system) : option (RunResult * option error) :=
  let late e := Some (zero, Some (ESDK (NewError ErrorTimeout "fake.Wait" "wait context ended" (Some e) []))) in
  match ctxErr, sys_at s with
  | Some e, Returned => if pick then late e else Some (fake_result (sys_run s))
  | Some e, _ => late e
  | None, Returned => Some (fake_result (sys_run s))
  | None, _ => None
  end.

(** ** What a step leaves alone *)

(** What [StartRun] fixes for good. *)
Definition identity (r : fakeRun) := (fr_id r, fr_sessionID r, fr_turnID r, fr_context r, fr_script r, fr_start r).

(** The script as a run sends it. *)
Definition dressed (r : fakeRun) : list Event := imap (dress r) (fr_script r).

Ltac observed :=
  unfold observe, observe_fatal, observe_usage, observe_artifact, observe_lifecycle; repeat (case_match; cbn in *).

Lemma observe_identity event r :
  identity (observe event r) = identity r /\ fr_cancel (observe event r) = fr_cancel r.
Proof. observed; done. Qed.

(** An error is the last word: nothing observed after it changes the outcome. *)
Lemma observe_after_error event r e :
  fr_err r = Some e -> fr_err (observe event r) = Some e /\ fr_status (observe event r) = fr_status r.
Proof.
  intros He. unfold observe. replace (observe_lifecycle event r) with r by (unfold observe_lifecycle; by rewrite He, andb_false_r).
  set (r' := observe_usage event (observe_artifact event r)).
  assert (fr_err r' = Some e /\ fr_status r' = fr_status r) as [He' Hs']
    by (subst r'; unfold observe_usage, observe_artifact; repeat (case_match; cbn); done).
  unfold observe_fatal. by rewrite He', andb_false_r.
Qed.

Lemma conclude_keeps now r :
  identity (conclude now r) = identity r /\ fr_err (conclude now r) = fr_err r /\
  fr_cancel (conclude now r) = fr_cancel r /\ fr_status (conclude now r) <> "" /\
  (fr_status r <> "" -> fr_status (conclude now r) = fr_status r).
Proof. unfold conclude. destruct (String.eqb_spec (fr_status r) "") as [E|E]; cbn; rewrite ?E; done. Qed.

Lemma cancel_locked_spec r r' : cancel_locked r = Some r' ->
  identity r' = identity r /\ fr_cancel r' = fr_cancel r /\ fr_status r' = StatusCancelled /\
  exists e, fr_err r' = Some e /\ err_Category e = ErrorCancellation.
Proof. unfold cancel_locked. case_match; [done|]. intros [= <-]. cbn. eauto 10. Qed.

Lemma dress_identity r r' i event : identity r = identity r' -> dress r i event = dress r' i event.
Proof. unfold identity, dress. intros E. simplify_eq. by f_equal; repeat match goal with H : _ = _ |- _ => rewrite H; clear H end. Qed.

Lemma lookup_dressed r i event : fr_script r !! i = Some event -> dressed r !! i = Some (dress r i event).
Proof. intros E. unfold dressed. by rewrite list_lookup_imap, E. Qed.

(** An invariant of the steps holds after every schedule. *)
Lemma schedule_invariant (P : system -> Prop) l s s' :
  (forall a s s', P s -> step a s = Some s' -> P s') -> P s -> schedule l s = Some s' -> P s'.
Proof.
  intros Hstep. revert s. induction l as [|a l IH]; cbn; intros s Hs; [by intros [= <-]|].
  destruct (step a s) as [t|] eqn:E; [|done]. apply IH. by eapply Hstep.
Qed.

(** ** The invariant of a run *)

(** The outcome of a run that was cancelled. *)
Definition cancelled (r : fakeRun) : Prop :=
  fr_status r = StatusCancelled /\ exists e, fr_err r = Some e /\ err_Category e = ErrorCancellation.

(** Where [play] stands and what it has sent agree. *)
Definition in_step (r0 : fakeRun) (s : system) : Prop :=
  match sys_at s with
  | AtPoll i => i <= length (dressed r0) /\ sys_sent s = take i (dressed r0)
  | AtSend i event => dressed r0 !! i = Some event /\ sys_sent s = take i (dressed r0)
  | Returned => (sys_sent s = dressed r0 \/ cancelled (sys_run s) /\ sys_sent s `prefix_of` dressed r0) /\
                fr_status (sys_run s) <> ""
  end.

Record running (r0 : fakeRun) (s : system) : Prop := mkrunning {
  running_identity : identity (sys_run s) = identity r0;
  running_stream : in_step r0 s;
  running_cancel : fr_cancel (sys_run s) = true \/ 0 < sys_closing s -> cancelled (sys_run s)
}.

Lemma observe_cancelled event r : cancelled r -> cancelled (observe event r).
Proof. intros (Hs & e & He & Hc). destruct (observe_after_error event r e He) as [E1 E2]. split; [congruence|eauto]. Qed.

Lemma markCancelled_cancelled now cause r : cancelled (markCancelled now cause r).
Proof. split; [done|]. by eexists. Qed.

Lemma identity_script r r' : identity r = identity r' -> fr_script r = fr_script r'.
Proof. unfold identity. congruence. Qed.

(** [play] leaves at one of its [select]s. *)
Lemma leave_running r0 s now cause : running r0 s -> selecting s = true ->
  running r0 (return_with (markCancelled now cause (sys_run s)) s).
Proof.
  intros [Hi Hst _] Hsel. split; [done| |intros _; apply markCancelled_cancelled].
  split; [|done]. right. split; [apply markCancelled_cancelled|]. unfold in_step, selecting in *. cbn.
  destruct (sys_at s); [|..|done]; destruct Hst as [_ ->]; apply prefix_take.
Qed.

Lemma step_running r0 a s s' : running r0 s -> step a s = Some s' -> running r0 s'.
Proof.
  intros Hr. pose proof Hr as [Hi Hst Hc]. pose proof (identity_script _ _ Hi) as Hscript.
  destruct a; cbn [step]; intros E.
  - destruct (sys_ctx s); [done|]. injection E as <-. split; [exact Hi|exact Hst|exact Hc].
  - destruct (cancel_locked (sys_run s)) as [r'|] eqn:El; injection E as <-; [|done].
    destruct (cancel_locked_spec _ _ El) as (E1 & E2 & E3 & e & E4 & E5).
    assert (cancelled r') by (split; eauto). split; cbn; [congruence| |done].
    unfold in_step in *. cbn. destruct (sys_at s); [done..|]. rewrite E3. destruct Hst as [[]]; [by auto|naive_solver].
  - destruct (sys_closing s) eqn:En; [done|]. injection E as <-. assert (cancelled (sys_run s)) by (apply Hc; right; lia).
    split; [exact Hi|exact Hst|done].
  - destruct (selecting s) eqn:Es; [|done]. destruct (sys_ctx s); [|done]. injection E as <-. by apply leave_running.
  - destruct (selecting s && _) eqn:Es; [|done]. injection E as <-. apply andb_prop in Es as [Es _]. by apply leave_running.
  - unfold in_step in Hst. destruct (sys_at s) as [i|i event|] eqn:Ea; [|done|done].
    destruct (sys_ctx s); [done|]. destruct (fr_cancel (sys_run s)) eqn:Ec; [done|].
    destruct (fr_script (sys_run s) !! i) as [event|] eqn:El; [|done]. injection E as <-.
    destruct (observe_identity (dress (sys_run s) i event) (sys_run s)) as [E1 E2].
    split; cbn; [congruence| |].
    + unfold in_step; cbn. split; [|tauto]. rewrite Hscript in El.
      rewrite (lookup_dressed _ _ _ El). f_equal. by apply dress_identity.
    + intros Hx. apply observe_cancelled, Hc. by rewrite E2, Ec in Hx.
  - unfold in_step in Hst. destruct (sys_at s) as [|i event|] eqn:Ea; [done| |done]. injection E as <-. destruct Hst as [El Hsent].
    split; cbn; [exact Hi| |exact Hc]. unfold in_step; cbn. split; [by apply lookup_lt_Some in El|].
    by rewrite Hsent, (take_S_r _ _ _ El).
  - unfold in_step in Hst. destruct (sys_at s) as [i|i event|] eqn:Ea; [|done|done].
    destruct (Nat.ltb_spec i (length (fr_script (sys_run s)))); [done|]. injection E as <-. destruct Hst as [Hle Hsent].
    pose proof (conclude_keeps now (sys_run s)) as (E1 & E2 & E3 & E4 & E5). revert E1 E2 E3 E4 E5.
    generalize (conclude now (sys_run s)) as r. intros r E1 E2 E3 E4 E5. split; cbn; [congruence| |].
    + unfold in_step; cbn. split; [left|done]. rewrite Hsent. apply take_ge.
      unfold dressed. rewrite length_imap. congruence || (rewrite <-Hscript; lia).
    + rewrite E3. intros Hx. destruct (Hc Hx) as (Hs & e & He & Hcat).
      split; [rewrite E5; by rewrite Hs|]. exists e. by rewrite E2.
Qed.

Lemma fake_start_running r : fr_cancel r = false -> running r (start r).
Proof. intros E. split; [done| |]; cbn; [split; [lia|done]|]. rewrite E. by intros [|?%Nat.lt_irrefl]. Qed.

Lemma StartRun_fresh now f req r : FakeRuntime_StartRun now f req = inr r ->
  fr_script r = fk_Script f /\ fr_err r = fk_Err f /\ fr_cancel r = false /\ fr_status r = "" /\ fr_start r = now.
Proof. unfold FakeRuntime_StartRun. cbn -[fake_features]. repeat case_match; intros; simplify_eq; done. Qed.

Lemma runs_running now f req r l s :
  FakeRuntime_StartRun now f req = inr r -> schedule l (start r) = Some s -> running r s.
Proof.
  intros (_ & _ & Hc & _)%StartRun_fresh. apply schedule_invariant; [|by apply fake_start_running].
  intros a t t'. apply step_running.
Qed.

(** ** Errors of the script *)
Definition is_fatal (event : Event) : Prop := Event_Kind event = EventFatalError.

(** A run that started without an error has one exactly when it failed or was
    cancelled by its caller, and it has one once it has observed a fatal event. *)
Record blamed (s : system) : Prop := mkblamed {
  blamed_status : is_Some (fr_err (sys_run s)) -> fr_status (sys_run s) ∈ [StatusFailed; StatusCancelled];
  blamed_fatal : Exists is_fatal (sys_sent s ++ match sys_at s with AtSend _ event => [event] | _ => [] end) ->
                 is_Some (fr_err (sys_run s))
}.

Lemma observe_blames event r :
  (is_Some (fr_err r) -> fr_status r ∈ [StatusFailed; StatusCancelled]) ->
  (is_Some (fr_err (observe event r)) -> fr_status (observe event r) ∈ [StatusFailed; StatusCancelled]) /\
  (is_fatal event -> is_Some (fr_err (observe event r))) /\ (is_Some (fr_err r) -> is_Some (fr_err (observe event r))).
Proof.
  destruct (fr_err r) as [e|] eqn:He; intros Hs.
  - destruct (observe_after_error event r e He) as [-> ->]. split; [done|]. split; by eexists.
  - unfold is_fatal, observe. set (r' := observe_usage _ _).
    assert (fr_err r' = None) as Hn.
    { subst r'. unfold observe_usage, observe_artifact, observe_lifecycle. repeat (case_match; cbn); done. }
    unfold observe_fatal. rewrite Hn, andb_true_r. destruct (String.eqb_spec (Event_Kind event) EventFatalError) as [E|E]; cbn.
    + split; [intros _; by left|]. split; by eexists.
    + rewrite Hn. split; [by intros []|]. split; [done|by intros []].
Qed.

Lemma cancelled_blamed r : cancelled r -> is_Some (fr_err r) /\ fr_status r ∈ [StatusFailed; StatusCancelled].
Proof. intros (-> & e & -> & _). split; [by eexists|by right; left]. Qed.

(** A run that has the outcome of a cancelled one is blamed, whatever it sent. *)
Lemma cancelled_is_blamed s : cancelled (sys_run s) -> blamed s.
Proof. intros [? ?]%cancelled_blamed. by split. Qed.

Lemma step_blamed a s s' : blamed s -> step a s = Some s' -> blamed s'.
Proof.
  intros [Hs Hf]. destruct a; cbn [step]; intros E.
  - destruct (sys_ctx s); [done|]. injection E as <-. by split.
  - destruct (cancel_locked (sys_run s)) as [r'|] eqn:El; injection E as <-; [|by split].
    destruct (cancel_locked_spec _ _ El) as (_ & _ & ? & ?). apply cancelled_is_blamed. by split.
  - destruct (sys_closing s); [done|]. injection E as <-. by split.
  - destruct (selecting s); [|done]. destruct (sys_ctx s); [|done]. injection E as <-.
    apply cancelled_is_blamed, markCancelled_cancelled.
  - destruct (selecting s && _); [|done]. injection E as <-. apply cancelled_is_blamed, markCancelled_cancelled.
  - destruct (sys_at s) as [i|i event|] eqn:Ea; [|done|done]. destruct (sys_ctx s); [done|].
    destruct (fr_cancel (sys_run s)); [done|]. destruct (fr_script (sys_run s) !! i) as [event|]; [|done].
    injection E as <-. destruct (observe_blames (dress (sys_run s) i event) _ Hs) as (H1 & H2 & H3).
    split; [exact H1|]. cbn -[observe dress]. rewrite Exists_app, Exists_cons, Exists_nil.
    rewrite app_nil_r in Hf. intros [Hx|[Hx|[]]]; auto.
  - destruct (sys_at s) as [i|i event|] eqn:Ea; [done| |done]. injection E as <-. split; [exact Hs|].
    cbn. by rewrite app_nil_r.
  - destruct (sys_at s) as [i|i event|] eqn:Ea; [|done|done].
    destruct (Nat.ltb_spec i (length (fr_script (sys_run s)))); [done|]. injection E as <-.
    pose proof (conclude_keeps now (sys_run s)) as (_ & E2 & _ & E4 & E5). split; cbn -[conclude].
    + rewrite E2. intros Hx. specialize (Hs Hx). rewrite E5; [done|]. intros E. rewrite E in Hs.
      by apply elem_of_cons in Hs as [?|[?|[]%elem_of_nil]%elem_of_cons].
    + rewrite E2. exact Hf.
Qed.

Lemma runs_blamed now f req r l s : fk_Err f = None ->
  FakeRuntime_StartRun now f req = inr r -> schedule l (start r) = Some s -> blamed s.
Proof.
  intros He (_ & Hr & _ & _)%StartRun_fresh. apply schedule_invariant; [intros a t t'; apply step_blamed|].
  split; cbn; rewrite ?Hr, He; [by intros []|]. by intros ?%Exists_nil.
Qed.

(** ** What a consumer may rely on *)

(** A result that reports a cancelled run. *)
Definition was_cancelled (result : RunResult) : Prop :=
  res_Status result = StatusCancelled /\ exists e, res_Err result = Some e /\ err_Category e = ErrorCancellation.

Lemma fake_result_spec r : exists result,
  fake_result r = (result, ESDK <$> fr_err r) /\ res_Err result = fr_err r /\ res_RunID result = fr_id r /\
  res_Status result = fr_status r /\ md_Status (res_Metadata result) = fr_status r /\
  md_Errors (res_Metadata result) = option_list (fr_err r).
Proof. unfold fake_result. destruct (fr_err r) as [e|]; eexists; split; try reflexivity; done. Qed.

Lemma StartRun_id now f req r : FakeRuntime_StartRun now f req = inr r -> fr_id r = "fake-run-1".
Proof. unfold FakeRuntime_StartRun. cbn -[fake_features]. repeat case_match; intros; simplify_eq; done. Qed.

Lemma identity_id r r' : identity r = identity r' -> fr_id r = fr_id r'.
Proof. unfold identity. congruence. Qed.

(** C39: whatever the schedule of reads, cancellations and the end of the
    context, the events a fake run has sent are the first ones of its script, in
    order, each numbered and carrying the identifiers of the run. When the run
    has ended it has sent the whole script or reports that it was cancelled, and
    it reports that too whenever a call of Cancel found it live. A run whose
    runtime has no error of its own and that delivered a fatal error ends with
    an error, failed or cancelled. *)
Theorem fakeRun_contract now f req r l s :
  FakeRuntime_StartRun now f req = inr r -> schedule l (start r) = Some s ->
  sys_sent s `prefix_of` imap (dress r) (fk_Script f) /\
  (sys_at s = Returned ->
     exists result, fake_Wait None false s = Some (result, ESDK <$> res_Err result) /\
     res_RunID result = "fake-run-1" /\ res_Status result <> "" /\
     (sys_sent s = imap (dress r) (fk_Script f) \/ was_cancelled result) /\
     (fr_cancel (sys_run s) = true -> was_cancelled result) /\
     (fk_Err f = None -> Exists is_fatal (sys_sent s) ->
        is_Some (res_Err result) /\ res_Status result ∈ [StatusFailed; StatusCancelled])).
Proof.
  intros Hr Hl. destruct (runs_running _ _ _ _ _ _ Hr Hl) as [Hi Hst Hc].
  pose proof (StartRun_fresh _ _ _ _ Hr) as (Hscript & _).
  replace (imap (dress r) (fk_Script f)) with (dressed r) by (unfold dressed; by rewrite Hscript).
  unfold in_step in Hst. split.
  - destruct (sys_at s); [destruct Hst as [_ ->]; apply prefix_take..|]. destruct Hst as [[-> | [_ H]] _]; done.
  - intros Ea. rewrite Ea in Hst. destruct Hst as [Hsent Hstatus].
    destruct (fake_result_spec (sys_run s)) as (result & Hw & He & Hid & Hs & _).
    exists result. unfold fake_Wait, was_cancelled. rewrite Ea, Hw, He, Hid, Hs, (identity_id _ _ Hi).
    split_and!; [done|by eapply StartRun_id|done| | |].
    + destruct Hsent as [|[]]; auto.
    + intros E. by apply Hc; left.
    + intros Hn Hx. destruct (runs_blamed _ _ _ _ _ _ Hn Hr Hl) as [H1 H2].
      assert (is_Some (fr_err (sys_run s))) as Hb by (apply H2; rewrite Exists_app; by left). auto.
Qed.

(** ** [play] comes to its end *)

(** The steps [play] can still take. *)
Definition remaining (s : system) : nat :=
  let n := length (fr_script (sys_run s)) in
  match sys_at s with AtPoll i => 2 * (n - i) + 1 | AtSend i _ => 2 * (n - i) | Returned => 0 end.

Definition play_steps (l : list action) : nat := length (filter (fun a => of_play a = true) l).

(** Every step of [play] uses up one that remains; those around it use none. *)
Lemma step_remaining r0 a s s' : running r0 s -> step a s = Some s' ->
  remaining s' + (if of_play a then 1 else 0) <= remaining s.
Proof.
  intros Hr Hstep. pose proof (step_running _ _ _ _ Hr Hstep) as Hr'.
  pose proof (identity_script _ _ (running_identity _ _ Hr)) as E.
  pose proof (identity_script _ _ (running_identity _ _ Hr')) as E'.
  pose proof (running_stream _ _ Hr) as Hst. clear Hr Hr'.
  unfold remaining, in_step, dressed in *. rewrite E, E'. rewrite length_imap in Hst.
  destruct a; cbn [step of_play] in *; unfold selecting in *.
  - destruct (sys_ctx s); [done|]. injection Hstep as <-. cbn. lia.
  - destruct (cancel_locked (sys_run s)); injection Hstep as <-; cbn; lia.
  - destruct (sys_closing s); [done|]. injection Hstep as <-. cbn. lia.
  - destruct (sys_at s) as [i|i event|] eqn:Ea; [| |done].
    + destruct (_ <? _)%nat, (sys_ctx s); try done. injection Hstep as <-. cbn. lia.
    + destruct (sys_ctx s); [|done]. injection Hstep as <-. destruct Hst as [Hlt%lookup_lt_Some _].
      rewrite length_imap in Hlt. cbn. lia.
  - destruct (sys_at s) as [i|i event|] eqn:Ea; [| |done].
    + destruct (_ && _); [|done]. injection Hstep as <-. cbn. lia.
    + destruct (_ && _); [|done]. injection Hstep as <-. destruct Hst as [Hlt%lookup_lt_Some _].
      rewrite length_imap in Hlt. cbn. lia.
  - destruct (sys_at s) as [i|i event|] eqn:Ea; [|done|done]. destruct (sys_ctx s), (fr_cancel (sys_run s)); try done.
    destruct (fr_script (sys_run s) !! i); [|done]. injection Hstep as <-. cbn. lia.
  - destruct (sys_at s) as [i|i event|] eqn:Ea; [done| |done]. injection Hstep as <-.
    destruct Hst as [Hlt%lookup_lt_Some _]. rewrite length_imap in Hlt. cbn. lia.
  - destruct (sys_at s) as [i|i event|] eqn:Ea; [|done|done]. destruct (_ <? _)%nat; [done|].
    injection Hstep as <-. cbn. lia.
Qed.

Lemma schedule_remaining r0 l s s' : running r0 s -> schedule l s = Some s' ->
  play_steps l + remaining s' <= remaining s.
Proof.
  unfold play_steps. revert s. induction l as [|a l IH]; cbn [schedule]; intros s Hr; [intros [= <-]; cbn; lia|].
  destruct (step a s) as [t|] eqn:Et; [|done]. intros Hl.
  pose proof (IH t (step_running _ _ _ _ Hr Et) Hl). pose proof (step_remaining _ _ _ _ Hr Et).
  rewrite filter_cons. destruct (of_play a); case_decide; cbn in *; done || lia.
Qed.

(** A run that has not returned can go on, and without a reader once it is
    cancelled or its context is done. *)
Lemma play_enabled r0 s : running r0 s -> sys_at s <> Returned ->
  exists a, of_play a = true /\ is_Some (step a s) /\ (a = Send -> sys_ctx s = None /\ fr_cancel (sys_run s) = false).
Proof.
  intros Hr Hn. pose proof (running_stream _ _ Hr) as Hst. unfold in_step in Hst.
  destruct (selecting s) eqn:Hsel.
  - destruct (sys_ctx s) as [e|] eqn:Ec; [exists (TakeDone 0%Z); cbn; rewrite Hsel, Ec; by eauto|].
    destruct (fr_cancel (sys_run s)) eqn:Ek; [exists (TakeCancel 0%Z); cbn; rewrite Hsel, Ek; by eauto|].
    unfold selecting in Hsel. destruct (sys_at s) as [i|i event|] eqn:Ea; [| |done].
    + apply Nat.ltb_lt in Hsel. destruct (lookup_lt_is_Some_2 _ _ Hsel) as [event El].
      exists Observe. cbn. rewrite Ea, Ec, Ek, El. by eauto.
    + exists Send. cbn. rewrite Ea. by eauto.
  - unfold selecting in Hsel. destruct (sys_at s) as [i|i event|] eqn:Ea; [|done..].
    exists (Conclude 0%Z). cbn [step of_play]. rewrite Ea, Hsel. by eauto.
Qed.

(** C40: the goroutine of a fake run takes at most two steps per event of the
    script and one more, whatever its callers do; until it has returned one of
    its steps is enabled, which waits for a reader only while the run is neither
    cancelled nor out of context; and from every state of a run it is driven to
    its end, where Wait answers. *)
Theorem play_ends now f req r l s :
  FakeRuntime_StartRun now f req = inr r -> schedule l (start r) = Some s ->
  play_steps l <= 2 * length (fk_Script f) + 1 /\
  (sys_at s <> Returned -> exists a, of_play a = true /\ is_Some (step a s) /\
     (a = Send -> sys_ctx s = None /\ fr_cancel (sys_run s) = false)) /\
  exists rest s', Forall (fun a => of_play a = true) rest /\ schedule rest s = Some s' /\
    is_Some (fake_Wait None false s').
Proof.
  intros Hr Hl. pose proof (runs_running _ _ _ _ _ _ Hr Hl) as Hs. split_and!.
  - pose proof (StartRun_fresh _ _ _ _ Hr) as (Hscript & _ & Hc & _).
    pose proof (schedule_remaining r l _ _ (fake_start_running r Hc) Hl) as H.
    unfold remaining at 2 in H. cbn in H. rewrite Hscript in H. lia.
  - by apply (play_enabled r).
  - clear Hl. remember (remaining s) as n eqn:En. revert s En Hs.
    induction n as [n IH] using lt_wf_ind. intros s En Hs.
    assert (sys_at s = Returned \/ sys_at s <> Returned) as [E|E] by (destruct (sys_at s); auto).
    + exists [], s. unfold fake_Wait. rewrite E. split_and!; [done|done|by eexists].
    + destruct (play_enabled r s Hs E) as (a & Ha & [t Et] & _).
      pose proof (step_remaining _ _ _ _ Hs Et) as Hm. rewrite Ha in Hm.
      destruct (IH (remaining t) ltac:(lia) t eq_refl (step_running _ _ _ _ Hs Et)) as (rest & s' & H1 & H2 & H3).
      exists (a :: rest), s'. cbn. rewrite Et. auto.
Qed.

(** ** Samples *)
Definition sample_event (kind : EventKind) : Event := zero <| ev_Payload := EventPayloadWithKind kind None |>.
Definition sample_fake : FakeRuntime :=
  zero <| fk_Script := [sample_event EventMessage; sample_event EventFatalError; sample_event EventMessage] |>.
Definition sample_run : fakeRun := match FakeRuntime_StartRun 5%Z sample_fake zero with inr r => r | inl _ => zero end.

(** The second event was observed and sent, then [Cancel] came too late. *)
Definition sample_schedule : list action :=
  [Observe; Send; Observe; CancelLocks; Send; CtxEnds ECanceled; TakeDone 9%Z].

Definition sample_end : system := default (start sample_run) (schedule sample_schedule (start sample_run)).

Example sample_ends :
  ev_ID <$> sys_sent sample_end = ["fake-event-1"; "fake-event-2"] /\
  fr_status (sys_run sample_end) = StatusCancelled /\ sys_at sample_end = Returned.
Proof. vm_compute. done. Qed.

Lemma fakeRun_contract_witness :
  exists r s, FakeRuntime_StartRun 5%Z sample_fake zero = inr r /\ schedule sample_schedule (start r) = Some s /\
    sys_sent s `prefix_of` imap (dress r) (fk_Script sample_fake).
Proof.
  exists sample_run, sample_end.
  assert (FakeRuntime_StartRun 5%Z sample_fake zero = inr sample_run) as Hr by (vm_compute; reflexivity).
  assert (schedule sample_schedule (start sample_run) = Some sample_end) as Hl by (vm_compute; reflexivity).
  split; [exact Hr|]. split; [exact Hl|]. exact (proj1 (fakeRun_contract _ _ _ _ _ _ Hr Hl)).
Defined.

Lemma play_ends_witness :
  exists r s, FakeRuntime_StartRun 5%Z sample_fake zero = inr r /\ schedule sample_schedule (start r) = Some s /\
    play_steps sample_schedule <= 7.
Proof.
  exists sample_run, sample_end.
  assert (FakeRuntime_StartRun 5%Z sample_fake zero = inr sample_run) as Hr by (vm_compute; reflexivity).
  assert (schedule sample_schedule (start sample_run) = Some sample_end) as Hl by (vm_compute; reflexivity).
  split; [exact Hr|]. split; [exact Hl|]. exact (proj1 (play_ends _ _ _ _ _ _ Hr Hl)).
Defined.

(** The status of a run is what its script says last: a script that ends while
    it is running leaves a result that is not terminal, without an error. *)
Example fake_ends_running :
  let script := [zero <| ev_Payload := EventPayloadWithKind EventLifecycle (Some {["state" := AString StatusRunning]}) |>] in
  match FakeRuntime_StartRun 5%Z (zero <| fk_Script := script |>) zero with
  | inr r => (fun s => (res_Status (fake_result (sys_run s)).1, (fake_result (sys_run s)).2))
               <$> schedule [Observe; Send; Conclude 9%Z] (start r)
  | inl _ => None
  end = Some (StatusRunning, None).
Proof. vm_compute. reflexivity. Qed.
