(* ===== verification/Fixture.v ===== *)
(** * internal/testkit/fixture.go and fake_lifecycle.go: recorded event streams

    [LoadJSONL] reads the JSON lines of a fixture and keeps each line and its
    decoding error; [RunFakeLifecycle] replays the records as a lifecycle. *)
From Stdlib Require Import Ascii.
From S2P Require Import Prelude GoStd Types Json.
#[local] Open Scope string_scope.

(** ** fake_lifecycle.go: the vocabulary of the harness *)
Definition fix_RunStatus := string.
Definition fix_StatusStarting : fix_RunStatus := "starting".
Definition fix_StatusRunning : fix_RunStatus := "running".
Definition fix_StatusCompleted : fix_RunStatus := "completed".
Definition fix_StatusFailed : fix_RunStatus := "failed".

Record EventRecord := mkEventRecord {
  rec_Position : Z;
  rec_Raw : string;
  rec_Type : string;
  rec_Payload : option (GoMap any);
  rec_Err : option error
}.
#[global] Instance eta_EventRecord : Eta EventRecord := fun r =>
  mkEventRecord (rec_Position r) (rec_Raw r) (rec_Type r) (rec_Payload r) (rec_Err r).
#[global] Instance zero_EventRecord : Zero EventRecord := mkEventRecord zero zero zero zero zero.

(** ** json.Unmarshal into the struct of a record

    The fields of an object in the order of the text, repeated ones included: a
    struct field takes each of them in turn. *)
Fixpoint object_fields (fuel : nat) (acc : list (string * any)) (s : string)
    : option (list (string * any) * string) :=
  match fuel, strings.CutPrefix (String "034" "") (json.skip_ws s) with
  | O, _ | _, None => None
  | S fuel, Some s =>
      match json.string_body (S (String.length s)) s with
      | None => None
      | Some (key, rest) =>
          match strings.CutPrefix ":" (json.skip_ws rest) with
          | None => None
          | Some rest =>
              match json.value (2 * String.length rest + 2) 1 rest with
              | None => None
              | Some (v, rest) =>
                  match json.skip_ws rest with
                  | String c rest =>
                      if Ascii.eqb c "}" then Some ((acc ++ [(key, v)])%list, rest)
                      else if Ascii.eqb c "," then object_fields fuel (acc ++ [(key, v)])%list rest
                      else None
                  | EmptyString => None
                  end
              end
          end
      end
  end.

(** A value into the [Type] and [Payload] fields: null leaves a string alone and
    clears a map, an object goes into the map there is, any other value is an
    error. A field is found by its name in either case. *)
Definition decode_field (fields : option (string * option (GoMap any))) (field : string * any)
    : option (string * option (GoMap any)) :=
  match fields with
  | None => None
  | Some (type, payload) =>
      let '(key, v) := field in
      if strings.ToLower key =s "type" then
        match v with AString s => Some (s, payload) | ANil => fields | _ => None end
      else if strings.ToLower key =s "payload" then
        match v with
        | AMap m => Some (type, Some (foldl (fun acc '(k, x) => map_set acc k x) (default [] payload) m))
        | ANil => Some (type, None)
        | _ => None
        end
      else fields
  end.

(** [None] is an error of [json.Unmarshal]. A number beyond float64 is one
    wherever it stands in the text. *)
Definition decode_record (raw : string) : option (string * option (GoMap any)) :=
  match strings.CutPrefix "{" (json.skip_ws raw) with
  | Some body =>
      let fields := match strings.CutPrefix "}" (json.skip_ws body) with
                    | Some rest => Some ([], rest)
                    | None => object_fields (S (String.length body)) [] body
                    end in
      match fields with
      | Some (fields, rest) =>
          match json.skip_ws rest with
          | EmptyString => foldl decode_field (Some ("", None)) fields
          | _ => None
          end
      | None => None
      end
  | None => match json.Unmarshal raw with Some ANil => Some ("", None) | _ => None end
  end.

(** ** fixture.go *)

(** [bufio.MaxScanTokenSize] *)
Definition maxScanTokenSize : Z := (64 * 1024)%Z.

Section Load.
(** The error of [json.Unmarshal] on a text it does not decode. *)
Context (json_error : string -> error).

(** The body of the loop of [LoadJSONL]: the line that becomes record number
    [position]. *)
Definition load_line (position : Z) (raw : string) : EventRecord :=
  let record := zero <| rec_Position := position |> <| rec_Raw := raw |> in
  match decode_record raw with
  | None => record <| rec_Err := Some (EWrap ("decode fixture event " +:+ itoa position) (json_error raw)) |>
  | Some (type, payload) => record <| rec_Type := type |> <| rec_Payload := Some (default [] payload) |>
  end.

Definition load_lines (records : list EventRecord) (lines : list string) : list EventRecord :=
  foldl (fun records raw => (records ++ [load_line (Z.of_nat (length records) + 1) raw])%list) records lines.

(** [LoadJSONL] of a reader that gives [text] and then fails with [readErr] or
    ends. *)
Definition LoadJSONL (text : string) (readErr : option error) : list EventRecord * option error :=
  let '(lines, tooLong) := bufio.ScanLines maxScanTokenSize text in
  (load_lines [] lines, if tooLong then Some (EOther "bufio.Scanner: token too long") else readErr).

Lemma load_lines_imap records lines :
  load_lines records lines = (records ++ imap (fun i raw => load_line (Z.of_nat (length records + i) + 1) raw) lines)%list.
Proof.
  revert records. induction lines as [|raw lines IH]; intros records; cbn; [by rewrite app_nil_r|].
  rewrite IH, <-app_assoc. cbn. f_equal. rewrite Nat.add_0_r. f_equal. apply imap_ext. intros i x _. cbn.
  rewrite length_app. cbn. do 2 f_equal. lia.
Qed.
End Load.

(** The error of a record is the last thing the harness looks at in it. *)
Definition record_failure (record : EventRecord) : error :=
  default (EOther ("fake lifecycle failed at event " +:+ itoa (rec_Position record))) (rec_Err record).

(** [RunFakeLifecycle], from the states [states] on. *)
Fixpoint fake_lifecycle (states : list fix_RunStatus) (records : list EventRecord)
    : list fix_RunStatus * option error :=
  match records with
  | [] => ((states ++ [fix_StatusFailed])%list, Some (EOther "fake lifecycle ended without completion"))
  | record :: records =>
      match rec_Err record with
      | Some err => ((states ++ [fix_StatusFailed])%list, Some err)
      | None =>
          if rec_Type record =s "run.started" then fake_lifecycle (states ++ [fix_StatusRunning])%list records
          else if rec_Type record =s "run.completed" then ((states ++ [fix_StatusCompleted])%list, None)
          else if rec_Type record =s "run.failed" then
            ((states ++ [fix_StatusFailed])%list,
             Some (EOther ("fake lifecycle failed at event " +:+ itoa (rec_Position record))))
          else fake_lifecycle states records
      end
  end.

Definition RunFakeLifecycle (records : list EventRecord) : list fix_RunStatus * option error :=
  fake_lifecycle [fix_StatusStarting] records.

(** ** What the harness reads off a fixture *)

(** A record that ends the lifecycle. *)
Definition decisive (record : EventRecord) : bool :=
  match rec_Err record with
  | Some _ => true
  | None => one_of (rec_Type record) ["run.completed"; "run.failed"]
  end.
Definition started (record : EventRecord) : bool :=
  match rec_Err record with Some _ => false | None => rec_Type record =s "run.started" end.

(** What the first decisive record says, if there is one. *)
Definition verdict (record : option EventRecord) : fix_RunStatus * option error :=
  match record with
  | None => (fix_StatusFailed, Some (EOther "fake lifecycle ended without completion"))
  | Some record =>
      match rec_Err record with
      | None => if rec_Type record =s "run.completed" then (fix_StatusCompleted, None)
                else (fix_StatusFailed, Some (record_failure record))
      | Some err => (fix_StatusFailed, Some err)
      end
  end.

Lemma fake_lifecycle_reads states before rest :
  Forall (fun record => decisive record = false) before -> from_option decisive true (head rest) = true ->
  fake_lifecycle states (before ++ rest) =
    ((states ++ replicate (length (filter (fun record => started record = true) before)) fix_StatusRunning
        ++ [(verdict (head rest)).1])%list, (verdict (head rest)).2).
Proof.
  intros Hb Hr. revert states. induction Hb as [|record before Hd Hb IH]; intros states; cbn [app].
  - cbn. destruct rest as [|record rest]; cbn [fake_lifecycle head]; [done|]. cbn in Hr.
    unfold decisive, verdict, record_failure in *. destruct (rec_Err record); cbn; [done|].
    apply one_of_spec in Hr. destruct (String.eqb_spec (rec_Type record) "run.started") as [E|E].
    { rewrite E in Hr. by apply elem_of_cons in Hr as [?|[?|[]%elem_of_nil]%elem_of_cons]. }
    destruct (String.eqb_spec (rec_Type record) "run.completed"); cbn; [done|].
    by apply elem_of_cons in Hr as [?|[->|[]%elem_of_nil]%elem_of_cons].
  - cbn [fake_lifecycle]. unfold decisive in Hd. destruct (rec_Err record) as [err|] eqn:Ee; [done|].
    assert (started record = (rec_Type record =s "run.started")) as Es by (unfold started; by rewrite Ee).
    rewrite filter_cons, Es. apply one_of_false in Hd. apply not_elem_of_cons in Hd as [H1 [H2 _]%not_elem_of_cons].
    destruct (String.eqb_spec (rec_Type record) "run.started") as [E|E]; case_decide; try done; rewrite ?IH.
    + by rewrite <-!app_assoc.
    + by rewrite (proj2 (String.eqb_neq _ _) H1), (proj2 (String.eqb_neq _ _) H2).
Qed.

(** Every line of a fixture becomes one record, numbered from one and with
    the line kept as it is, until a line or the reader fails; and the lifecycle
    of the records starts, enters the running state once for each start it meets
    before its first decisive record, and ends there: completed exactly when
    that record is a completion, which is when there is no error. *)
Theorem fixture_lifecycle json_error text readErr records err before rest :
  LoadJSONL json_error text readErr = (records, err) -> records = (before ++ rest)%list ->
  Forall (fun record => decisive record = false) before -> from_option decisive true (head rest) = true ->
  rec_Raw <$> records = (bufio.ScanLines maxScanTokenSize text).1 /\
  rec_Position <$> records = (fun i => Z.of_nat i + 1)%Z <$> seq 0 (length records) /\
  RunFakeLifecycle records =
    ((fix_StatusStarting :: replicate (length (filter (fun record => started record = true) before)) fix_StatusRunning
        ++ [(verdict (head rest)).1])%list, (verdict (head rest)).2) /\
  ((verdict (head rest)).2 = None <-> (verdict (head rest)).1 = fix_StatusCompleted).
Proof.
  unfold LoadJSONL. destruct (bufio.ScanLines _ _) as [lines tooLong]. intros [= Hrec _] E Hb Hr. cbn [fst].
  rewrite load_lines_imap in Hrec. cbn in Hrec.
  assert (forall i raw, rec_Raw (load_line json_error i raw) = raw /\ rec_Position (load_line json_error i raw) = i) as Hl.
  { intros i raw. unfold load_line. destruct (decode_record raw) as [[]|]; done. }
  split_and!.
  - rewrite <-Hrec. apply list_eq. intros i. rewrite list_lookup_fmap, list_lookup_imap.
    destruct (lines !! i); cbn; [|done]. by rewrite (proj1 (Hl _ _)).
  - rewrite <-Hrec, length_imap. apply list_eq. intros i. rewrite !list_lookup_fmap, list_lookup_imap.
    destruct (lines !! i) as [raw|] eqn:Ei; cbn.
    + rewrite (proj2 (Hl _ _)). apply lookup_lt_Some in Ei. by rewrite lookup_seq_lt by done.
    + apply lookup_ge_None in Ei. by rewrite lookup_seq_ge by done.
  - rewrite E. unfold RunFakeLifecycle. by rewrite (fake_lifecycle_reads _ _ _ Hb Hr).
  - unfold verdict. destruct (head rest) as [record|]; [|done]. destruct (rec_Err record); [done|]. by case_match.
Qed.

(** ** The fixtures of the repository *)
Definition fixture (lines : list string) : string :=
  json.with_quotes (strings.Join lines (String "010" "") +:+ String "010" "").
Definition fixture_normal : string := fixture
  ["{`type`:`run.started`,`payload`:{`run_id`:`fake-run-1`}}";
   "{`type`:`message.delta`,`payload`:{`role`:`assistant`,`text`:`working`}}";
   "{`type`:`run.completed`,`payload`:{`run_id`:`fake-run-1`}}"].
Definition fixture_malformed : string := fixture
  ["{`type`:`run.started`,`payload`:{`run_id`:`fake-run-malformed`}}"; "{`type`:`message.delta`,`payload`:";
   "{`type`:`run.completed`,`payload`:{`run_id`:`fake-run-malformed`}}"].
Definition fixture_odd : string := fixture
  ["null"; "{`TYPE`:`a`,`type`:`run.failed`,`payload`:{`x`:1},`type`:null,`Payload`:{`y`:2}}"].

Definition replayed (text : string) : list fix_RunStatus * option error :=
  RunFakeLifecycle (LoadJSONL EOther text None).1.

Example fixtures :
  replayed fixture_normal = ([fix_StatusStarting; fix_StatusRunning; fix_StatusCompleted], None) /\
  (replayed fixture_malformed).1 = [fix_StatusStarting; fix_StatusRunning; fix_StatusFailed] /\
  replayed fixture_odd = ([fix_StatusStarting; fix_StatusFailed], Some (EOther "fake lifecycle failed at event 2")) /\
  rec_Payload <$> (LoadJSONL EOther fixture_odd None).1 =
    [Some []; Some [("x", AFloat64 (float64.of_Z 1)); ("y", AFloat64 (float64.of_Z 2))]].
Proof. vm_compute. done. Qed.

Lemma fixture_lifecycle_witness :
  RunFakeLifecycle (LoadJSONL EOther fixture_normal None).1 =
    ([fix_StatusStarting; fix_StatusRunning; fix_StatusCompleted], None).
Proof.
  exact (proj1 (proj2 (proj2 (fixture_lifecycle EOther fixture_normal None
    (LoadJSONL EOther fixture_normal None).1 None
    (take 2 (LoadJSONL EOther fixture_normal None).1) (drop 2 (LoadJSONL EOther fixture_normal None).1)
    ltac:(vm_compute; reflexivity) ltac:(vm_compute; reflexivity)
    ltac:(vm_compute; repeat constructor) ltac:(vm_compute; reflexivity))))).
Defined.
